(* ===== verification/_CoqProject ===== *)
-Q . S2P
Prelude.v
Utils.v
Strconv.v
Wire.v
LoadBalancer.v
CallbackMgr.v
RemoteMgr.v
Routing.v
Msgpack.v
World.v
SimpleRpc.v
Blocking.v
TcpServer.v
Gate.v
System.v
TaskPool.v
Push.v
ClientSdk.v
ServiceA.v
FlowCounter.v
Etcd.v
Discovery.v
Lifecycle.v
TestClient.v
Startup.v
Typing.v
EndToEnd.v
PushFlow.v
