(* ===== verification/Prelude.v ===== *)
(** * The microservice framework: a verification development

    The program ([src/]) is a framework for microservices in Go and the programs
    built on it.  Clients and services talk to each other through gates: a
    client sends [MSG_C2G_RPC_ROUTE] to a gate, the gate chooses an instance of
    the service, forwards the inner message under an identifier of its own and
    returns the response to the client.  Services call each other the same way.
    Every process runs the same framework ([src/ms_framework]): a tcp server with
    a read loop per connection, a table of rpc handlers, a pool of goroutines
    that run them, a manager for callbacks with timeouts, and on gates a table
    of connections to the services with a balancer per service.

    ** Files

    - [Prelude] (this file): results of Go calls, fixed-width integers, slices,
      bytes and strings.
    - [Utils]: [msf_utils.go]; the readers and writers of integers and strings,
      [GenGid].
    - [Strconv]: [strconv.Atoi] as the programs use it.
    - [Wire]: the framing in [msf_simple_rpc.go] ([MessageEncode],
      [MessageDecode]) and the receive buffer of the read loops.
    - [LoadBalancer]: [msf_load_balancer.go] with its test drivers; it implements
      the interface [Balancer].
    - [CallbackMgr]: [msf_callback_mgr_new.go]; the map, the linked list in an
      explicit heap, and the transition system of callers and manager.
    - [RemoteMgr]: [msf_remote_mgr.go], against the interface [Balancer].
    - [Routing]: [ChoiceRemote] as a transition system of its critical sections,
      beside other choices and beside the operations that change the routes; the
      caches of the clients are shared objects.
    - [Msgpack]: [RpcEncode] and the decoding of names and arguments, against
      the interface [Msgpack] of the serialisation library, with a reference
      codec that satisfies it.
    - [World]: the package variables of a process as one record and the calls
      that read and write them; the monad [M] of effects.
    - [SimpleRpc]: the rest of [msf_simple_rpc.go],
      [msf_default_rpc_handler.go] and [msf_task_pool_new.go]: registration,
      dispatch, default handlers, pool, calls between services.  The handlers of
      a program are the interfaces [HandlerSig] (what they declare) and [Business]
      (what they do); module [ServiceB] implements them for [src/service_b].
    - [Blocking]: synchronous calls, the handlers of their responses and the
      callback manager as goroutines that block on channels without buffer.
    - [TcpServer]: [msf_tcp_server.go] and the read loop of a remote; a read loop
      is a state machine with one step per check of its state and per return of
      [Read], the accept loop one with a step per return of [Accept].
    - [Gate]: [src/ms_gate/src], every handler; it implements [Business], against
      the interface [Redis].
    - [System]: the events of a process and its invariants.  The class [Program]
      says that a program changes the framework's state only through its calls;
      every program of the repository is an instance, and a property of the class
      [ProcessInv] then holds after any events.
    - [TaskPool]: the rest of [msf_task_pool_new.go]; the count of the tasks and
      the wait of [StopTaskPool].
    - [Push]: [src/push_service/src], every handler; it implements [Business],
      against the interfaces [Redis] and [Mongo].
    - [ClientSdk]: [src/clientsdk/gate_proxy.go]; it implements [Business] over the
      handlers of a client program, the interface [ClientProgram].
    - [ServiceA]: [src/service_a], against [RedisHash] and [Collection].
    - [FlowCounter]: [msf_flow_velocity_counter.go], with [float64] as the binary64
      operations of [SpecFloat].
    - [Etcd]: [msf_etcd_driver.go]; registration, leases and the lease watch
      against the interface [Etcd], the keys, and what listings and watch events
      do to the routes.
    - [Discovery]: a gate that follows the registry, [Etcd] and [RemoteMgr]
      together; the specification is the set of registered keys.
    - [Lifecycle]: modules [Log] ([msf_log.go]), [Config] ([msf_config.go] and
      [GetLocalIP]), [Db] ([msf_db_driver.go]) and [Profile] ([msf_profile.go]).
    - [TestClient]: [src/client]; command line, calls and the pushed rpc.
    - [Startup]: [msf_main.go]; identity, hooks, signals, [Init], [Start], the
      events of a running process and [Stop] over the components.
    - [Typing]: the types of requests.
    - [EndToEnd]: client, gate, service and push service together, each reading
      the bytes the one before it wrote.
    - [PushFlow]: a push from a service through its gate, the push service and the
      gate of the client to the client, in the same way.

    State and operations have the names of the code.  A pointer that is shared
    (queue nodes, client connections, sessions) is a key of a heap; a pointer
    that is not shared is its value.  A method that mutates its receiver returns
    the new value.

    ** Theorems

    - [Wire]: encoded messages decode to themselves, in order and without loss,
      however the stream is cut into reads; the decoder is total.
    - [CallbackMgr]: under every interleaving of callers and manager the list is
      well formed, no pointer is nil where it is followed, each callback is
      delivered exactly once; the list operations refine operations on a
      sequence.
    - [LoadBalancer], [RemoteMgr]: round robin is fair and in range; requests go
      to a connected instance of the service they name whenever there is one;
      ordered requests stay on their instance.
    - [Routing]: the same under every interleaving: a choice always ends, with an
      instance of its service that was registered meanwhile, and is refused only if
      one was unregistered meanwhile; alone it is [RemoteMgr.ChoiceRemote].
    - [Blocking]: while no write has failed every waiting call has exactly one
      sender in prospect and the manager is never stuck; what happens after a failed
      write, and when all goroutines of the pool wait.
    - [Discovery]: the routes refine the registry when events are handled in order.
    - [SimpleRpc], [TcpServer]: a message reaches the handler of its name with
      its arguments; ordered calls run in order; unverified clients reach no
      handler; every call is answered once; calls to other services resend at
      most three times; idle connections and shutdown.
    - [Gate]: a request and its response are matched one to one and return to
      the right client with its own identifier; clients reach only the rpcs that
      were opened to them; verification, login.
    - [System], [TaskPool]: the invariants of all components hold after any
      sequence of events of any program; the pool counts exactly the unfinished
      tasks, and stopping it terminates.
    - [Typing]: handlers are only called with values of the types they declare.
    - [EndToEnd]: a call of a client passes through gate and service and back to
      its callback exactly once; a push is confirmed back to the push service.
    - [PushFlow]: a safe push of a service is stored, reaches the client and is
      confirmed, with one message at each hop.
    - [ClientSdk], [TestClient]: the callbacks of a client, pushes run before they
      are confirmed, the traffic of a test, the command line.
    - [Push]: a push reaches the connection the client logged in on; safe pushes
      are kept until confirmed and restored exactly.
    - [Etcd]: the key of a service is parsed back to its address; a lost
      registration is renewed; stopping unregisters, but for a race.
    - [Lifecycle], [FlowCounter], [Startup], [ServiceA]: databases are created and
      closed once, events are counted once, what a start that fails has done, a
      process that gets its signal stops and leaves nothing behind, which tasks a
      stop loses, what [rpc_a] answers, in which order lines are logged.
    - Theorems about behaviour that departs from what the code means to do are
      stated as such ([round_robin_overflow], [first_callback_overdue],
      [address_reuse_misroutes], [foreign_disappear_panics],
      [answer_is_session_error], [rpc_call_without_gate],
      [client_response_panics], [access_report_unchecked], [late_push_lost],
      [start_order], [stop_unregisters], [profile_state],
      [duplicate_release_panics], [velocity_rounds_down], [failed_send_stalls],
      [full_pool_deaf], [ordered_race], [ordered_swapped],
      [verified_while_stopping], [accept_reports], [restart_missed],
      [log_order]).

    ** Conventions

    - [uint8] to [uint64] and the signed types are [Z] with their wrap-around
      written out ([u8], [i32], ...).  An index out of range, a nil pointer, a
      failed type assertion and [panic] are the result [Panic].
    - Loops that are not structural take fuel; running out of it is the result
      [OutOfFuel].  [MessageDecode] takes the length of its buffer plus one, since
      every iteration consumes at least two bytes ([MessageDecode_spec] shows it
      suffices); the queue loops take one more than the number of nodes; nested
      inner rpcs take the length of the message plus one
      ([run_task_ends]).
    - Locks make the marked regions atomic.  Where goroutines interleave between
      regions, the regions are separate steps (callback manager, round robin,
      [ChoiceRemote] in [Routing], synchronous calls in [Blocking], dials of a
      discovery, tasks of the pool); elsewhere a handler runs as one step.
    - The channel of ordered tasks has no buffer: [separateCh] lists the tasks
      whose producers wait to hand them over, in the order in which they came.
    - The clock, the outcome of a dial, of a read and of a write are inputs.
      Calls to the logger are dropped.  The receive buffer has the length
      [RECV_BUF_MAX_LEN], a variable of the sections that need it.
    - Third-party code is a class with the facts the program relies on:
      [Msgpack] (round trip at a type, results have the type, decoding consumes
      what it returns), [Redis], [Mongo], [Etcd] and [Collection] (a command
      without error took effect).  Each class has an instance.
    - In the model of a whole process a handler that calls another service gets the
      answers from its application state, and times out when there is none; in
      between, that process is not interrupted.  [Blocking] has the interruptions,
      without the handlers ([call_alone] there relates the two).

    ** Not modelled, and plan

    Files, sockets, timers and the delivery of signals are I/O: their outcomes are
    inputs.  [msf_callback_mgr.go] and [msf_task_pool.go] are commented out.  Methods
    that only return a field or call the method of a package variable have no
    definition of their own, and neither has the usage text of the test client.
    Printing a log line by [fmt.Printf] is not modelled, nor are the accesses to
    shared variables without a lock beyond their interleaving: the memory model of Go
    leaves them undefined.  Next are whole handlers in the steps of [Blocking], and
    the two gates of [PushFlow] with the interleavings of [Routing]. *)

From stdpp Require Export base gmap strings list numbers pretty.

#[export] Set Default Proof Using "Type".

(** ** Go results

    A Go call returns, panics, or (in a model that runs a loop with fuel) has
    not finished within the fuel it was given. *)

Inductive go_panic :=
  | IndexOutOfRange
  | SliceBounds
  | NilDereference
  | TypeAssertion
  | NilMapWrite
  | DivideByZero
  | PanicMsg (msg : string).

Inductive result (A : Type) : Type :=
  | Ok (a : A)
  | Panic (p : go_panic)
  | OutOfFuel.
Arguments Ok {A} a.
Arguments Panic {A} p.
Arguments OutOfFuel {A}.

#[export] Instance result_ret : MRet result := λ A a, Ok a.
#[export] Instance result_bind : MBind result := λ A B f r,
  match r with
  | Ok a => f a
  | Panic p => Panic p
  | OutOfFuel => OutOfFuel
  end.
#[export] Instance result_fmap : FMap result := λ A B f r,
  match r with
  | Ok a => Ok (f a)
  | Panic p => Panic p
  | OutOfFuel => OutOfFuel
  end.

Definition is_ok {A} (r : result A) : Prop := ∃ a, r = Ok a.

(** The value of a call that returned. *)
Definition from_ok {A} (d : A) (r : result A) : A := match r with Ok a => a | _ => d end.
Definition ran {A} (r : result A) : bool := match r with Ok _ => true | _ => false end.

Lemma ran_ok {A} (d : A) r : ran r = true → r = Ok (from_ok d r).
Proof. by destruct r. Qed.

Lemma bind_ok {A B} (f : A → result B) (a : A) : (Ok a ≫= f) = f a.
Proof. reflexivity. Qed.

Lemma bind_ok_inv {A B} (r : result A) (f : A → result B) (b : B) :
  (r ≫= f) = Ok b → ∃ a, r = Ok a ∧ f a = Ok b.
Proof. destruct r; simpl; intros H; try discriminate. eauto. Qed.

Lemma bind_map_ok {A B C} (r : result A) (f : A → result B) (g : B → result C) b :
  (r ≫= f) = Ok b → (r ≫= λ a, f a ≫= g) = g b.
Proof. destruct r; simpl; intros H; try discriminate. by rewrite H. Qed.

(** A loop body applied to each element in turn, the way [for _, x := range]
    does, stopping at the first panic. *)
Fixpoint foldM {A S} (f : S → A → result S) (l : list A) (s : S) : result S :=
  match l with
  | [] => Ok s
  | a :: l => s' ← f s a; foldM f l s'
  end.

Lemma foldM_app {A S} (f : S → A → result S) l1 l2 s :
  foldM f (l1 ++ l2) s = (foldM f l1 s ≫= foldM f l2).
Proof.
  revert s. induction l1 as [|a l1 IH]; intros s; simpl; [done|].
  destruct (f s a); simpl; [apply IH|done|done].
Qed.

Lemma Forall_snoc {A} (P : A → Prop) l a : Forall P (l ++ [a]) ↔ Forall P l ∧ P a.
Proof. rewrite Forall_app, Forall_cons, Forall_nil. tauto. Qed.

Lemma filter_keeps_all {A} (P : A → Prop) `{!∀ x, Decision (P x)} (l : list A) :
  (∀ x, x ∈ l → P x) → filter P l = l.
Proof.
  induction l as [|x l IH]; intros HP; [done|].
  rewrite filter_cons_True by (apply HP; left). f_equal. apply IH. intros y Hy. apply HP. by right.
Qed.

(** ** Go's fixed-width integers, kept as [Z] with explicit wrap-around *)

Definition u8 (z : Z) : Z := (z mod 2 ^ 8)%Z.
Definition u16 (z : Z) : Z := (z mod 2 ^ 16)%Z.
Definition u32 (z : Z) : Z := (z mod 2 ^ 32)%Z.
Definition u64 (z : Z) : Z := (z mod 2 ^ 64)%Z.
Definition swrap (w z : Z) : Z := ((z + 2 ^ (w - 1)) mod 2 ^ w - 2 ^ (w - 1))%Z.
Definition i8 (z : Z) : Z := swrap 8 z.
Definition i16 (z : Z) : Z := swrap 16 z.
Definition i32 (z : Z) : Z := swrap 32 z.
Definition i64 (z : Z) : Z := swrap 64 z.

Lemma u8_small z : (0 ≤ z < 2 ^ 8)%Z → u8 z = z.
Proof. intros. unfold u8. by apply Z.mod_small. Qed.
Lemma u16_small z : (0 ≤ z < 2 ^ 16)%Z → u16 z = z.
Proof. intros. unfold u16. by apply Z.mod_small. Qed.
Lemma u32_small z : (0 ≤ z < 2 ^ 32)%Z → u32 z = z.
Proof. intros. unfold u32. by apply Z.mod_small. Qed.
Lemma u64_small z : (0 ≤ z < 2 ^ 64)%Z → u64 z = z.
Proof. intros. unfold u64. by apply Z.mod_small. Qed.
Lemma u16_range z : (0 ≤ u16 z < 2 ^ 16)%Z.
Proof. apply Z.mod_pos_bound. lia. Qed.
Lemma u32_range z : (0 ≤ u32 z < 2 ^ 32)%Z.
Proof. apply Z.mod_pos_bound. lia. Qed.

(** Reading a [w]-bit pattern back as a signed integer inverts truncation. *)
Lemma swrap_mod (w z : Z) :
  (0 < w)%Z → (- 2 ^ (w - 1) ≤ z < 2 ^ (w - 1))%Z → swrap w (z mod 2 ^ w) = z.
Proof.
  intros Hw Hz. unfold swrap.
  assert (2 ^ w = 2 * 2 ^ (w - 1))%Z as E.
  { rewrite <- Z.pow_succ_r by lia. f_equal. lia. }
  rewrite Zplus_mod_idemp_l, Z.mod_small by lia. lia.
Qed.

Lemma swrap_add (w a b : Z) : (0 < w)%Z → swrap w (swrap w a + b) = swrap w (a + b).
Proof.
  intros Hw. unfold swrap. f_equal.
  replace ((a + 2 ^ (w - 1)) mod 2 ^ w - 2 ^ (w - 1) + b + 2 ^ (w - 1))%Z
    with ((a + 2 ^ (w - 1)) mod 2 ^ w + b)%Z by lia.
  rewrite Zplus_mod_idemp_l. f_equal. lia.
Qed.

Lemma i32_add a b : i32 (i32 a + b) = i32 (a + b).
Proof. by apply swrap_add. Qed.

Lemma i32_idem a : i32 (i32 a) = i32 a.
Proof. pose proof (i32_add a 0) as E. by rewrite !Z.add_0_r in E. Qed.

(** ** Slices

    A slice is a list; indexing outside its length panics, [copy] overwrites a
    prefix of its destination. *)

Definition go_index {A} (l : list A) (i : Z) : result A :=
  if (i <? 0)%Z then Panic IndexOutOfRange
  else match l !! Z.to_nat i with
       | Some a => Ok a
       | None => Panic IndexOutOfRange
       end.

Definition go_store {A} (l : list A) (i : Z) (a : A) : result (list A) :=
  if ((i <? 0) || (Z.of_nat (length l) <=? i))%Z then Panic IndexOutOfRange
  else Ok (<[Z.to_nat i := a]> l).

Definition go_slice {A} (l : list A) (lo hi : Z) : result (list A) :=
  if ((0 <=? lo) && (lo <=? hi) && (hi <=? Z.of_nat (length l)))%Z
  then Ok (take (Z.to_nat (hi - lo)) (drop (Z.to_nat lo) l))
  else Panic SliceBounds.

Definition go_copy {A} (dst src : list A) : list A :=
  take (length dst) src ++ drop (length src) dst.

Definition go_len {A} (l : list A) : Z := Z.of_nat (length l).

Lemma go_copy_length {A} (dst src : list A) : length (go_copy dst src) = length dst.
Proof. unfold go_copy. rewrite length_app, length_take, length_drop. lia. Qed.

Lemma go_copy_fits {A} (dst src : list A) :
  length src ≤ length dst → go_copy dst src = src ++ drop (length src) dst.
Proof. intros. unfold go_copy. by rewrite take_ge by lia. Qed.

Lemma go_slice_ok {A} (l : list A) lo hi :
  (0 ≤ lo ≤ hi)%Z → (hi ≤ go_len l)%Z →
  go_slice l lo hi = Ok (take (Z.to_nat (hi - lo)) (drop (Z.to_nat lo) l)).
Proof.
  intros ? ?. unfold go_slice, go_len in *.
  by rewrite !(proj2 (Z.leb_le _ _)) by lia.
Qed.

Lemma go_len_app {A} (l1 l2 : list A) : go_len (l1 ++ l2) = (go_len l1 + go_len l2)%Z.
Proof. unfold go_len. rewrite length_app. lia. Qed.
Lemma go_len_cons {A} (a : A) l : go_len (a :: l) = (1 + go_len l)%Z.
Proof. unfold go_len. simpl. lia. Qed.
Lemma go_len_nil {A} : go_len (@nil A) = 0%Z.
Proof. done. Qed.
Lemma go_len_nonneg {A} (l : list A) : (0 ≤ go_len l)%Z.
Proof. unfold go_len. lia. Qed.

(** Normalises the lengths of a goal. *)
Create Rewrite HintDb go_len.
#[export] Hint Rewrite @go_len_app @go_len_cons @go_len_nil : go_len.

(** [len_lia] closes arithmetic goals about [go_len]. *)
Ltac len_lia :=
  autorewrite with go_len in *;
  repeat match goal with
    | |- context [go_len ?l] =>
        lazymatch goal with
        | H : (0 ≤ go_len l)%Z |- _ => fail
        | _ => pose proof (go_len_nonneg l)
        end
    | _ : context [go_len ?l] |- _ =>
        lazymatch goal with
        | H : (0 ≤ go_len l)%Z |- _ => fail
        | _ => pose proof (go_len_nonneg l)
        end
    end; lia.

Lemma go_slice_mid {A} (l1 l2 l3 : list A) lo hi :
  lo = go_len l1 → hi = (lo + go_len l2)%Z → go_slice (l1 ++ l2 ++ l3) lo hi = Ok l2.
Proof.
  intros -> ->. rewrite go_slice_ok by len_lia. f_equal. unfold go_len.
  rewrite Nat2Z.id, drop_app_length, Z.add_simpl_l, Nat2Z.id. apply take_app_length.
Qed.

Lemma go_slice_suffix {A} (l1 l2 : list A) lo hi :
  lo = go_len l1 → hi = go_len (l1 ++ l2) → go_slice (l1 ++ l2) lo hi = Ok l2.
Proof.
  intros -> ->. rewrite <- (app_nil_r l2) at 1. apply go_slice_mid; len_lia.
Qed.

Lemma go_copy_make {A} (a : A) (l : list A) n :
  n = go_len l → go_copy (replicate (Z.to_nat n) a) l = l.
Proof.
  intros ->. unfold go_len. rewrite Nat2Z.id, go_copy_fits by (by rewrite length_replicate).
  by rewrite drop_ge, app_nil_r by (by rewrite length_replicate).
Qed.

(** ** Bytes and strings

    A [[]byte] is a list of integers of which each lies between 0 and 255; a Go
    string is a Rocq string of 8-bit characters. *)

Abbreviation bytes := (list Z).

Definition is_byte (b : Z) : Prop := (0 ≤ b < 256)%Z.

Definition bytes_of_string (s : string) : bytes :=
  map (λ c, Z.of_N (Ascii.N_of_ascii c)) (String.list_ascii_of_string s).

Definition string_of_bytes (l : bytes) : string :=
  String.string_of_list_ascii (map (λ b, Ascii.ascii_of_N (Z.to_N b)) l).

Lemma string_bytes_string s : string_of_bytes (bytes_of_string s) = s.
Proof.
  unfold string_of_bytes, bytes_of_string. rewrite map_map.
  rewrite (map_ext _ id), map_id; [apply String.string_of_list_ascii_of_string|].
  intros a. by rewrite N2Z.id, Ascii.ascii_N_embedding.
Qed.

Lemma bytes_of_string_bytes s : Forall is_byte (bytes_of_string s).
Proof.
  apply Forall_forall. intros b [c [-> _]]%list_elem_of_fmap.
  unfold is_byte. pose proof (Ascii.N_ascii_bounded c). lia.
Qed.

(** [strings.Split(s, sep)] for a one-byte separator. *)
Fixpoint go_split (sep : Ascii.ascii) (s : string) : list string :=
  match s with
  | EmptyString => [EmptyString]
  | String c s =>
      if decide (c = sep) then EmptyString :: go_split sep s
      else match go_split sep s with
           | x :: xs => String c x :: xs
           | [] => []
           end
  end.

(** The separator does not occur in a string. *)
Fixpoint lacks (sep : Ascii.ascii) (s : string) : bool :=
  match s with
  | EmptyString => true
  | String c s => negb (bool_decide (c = sep)) && lacks sep s
  end.

Lemma go_split_lacks sep s : lacks sep s = true → go_split sep s = [s].
Proof.
  induction s as [|c s IH]; simpl; [done|]. intros [Hc Hs]%andb_true_iff.
  apply negb_true_iff, bool_decide_eq_false in Hc. rewrite decide_False, IH by done. done.
Qed.

Lemma go_split_cons sep a b :
  lacks sep a = true → go_split sep (a +:+ String sep b) = a :: go_split sep b.
Proof.
  induction a as [|c a IH]; simpl; [by rewrite decide_True|]. intros [Hc Ha]%andb_true_iff.
  apply negb_true_iff, bool_decide_eq_false in Hc. rewrite decide_False, IH by done. done.
Qed.

Lemma lacks_app sep a b : lacks sep (a +:+ b) = lacks sep a && lacks sep b.
Proof. induction a as [|c a IH]; simpl; [done|]. by rewrite IH, andb_assoc. Qed.
