(* ===== verification/Utils.v ===== *)
(** * Byte-level helpers and identifiers ([src/ms_framework/msf_utils.go])

    The big-endian readers and writers, NUL-terminated strings, and the
    process-wide identifier generator [GenGid].  A reader or writer that
    indexes past the slice it is given panics, as in Go. *)

From S2P Require Import Prelude.

Local Open Scope Z_scope.

(** ** Readers *)

Definition ReadUint8 (buf : bytes) : result Z :=
  b0 ← go_index buf 0; Ok (u8 b0).

Definition ReadInt8 (buf : bytes) : result Z :=
  v ← ReadUint8 buf; Ok (i8 v).

Definition ReadUint16 (buf : bytes) : result Z :=
  b0 ← go_index buf 0;
  b1 ← go_index buf 1;
  Ok (Z.lor (u16 (Z.shiftl (u16 b0) 8)) (u16 b1)).

Definition ReadInt16 (buf : bytes) : result Z :=
  v ← ReadUint16 buf; Ok (i16 v).

Definition ReadUint32 (buf : bytes) : result Z :=
  b0 ← go_index buf 0;
  b1 ← go_index buf 1;
  b2 ← go_index buf 2;
  b3 ← go_index buf 3;
  Ok (Z.lor (Z.lor (Z.lor (u32 (Z.shiftl (u32 b0) 24))
                          (u32 (Z.shiftl (u32 b1) 16)))
                   (u32 (Z.shiftl (u32 b2) 8)))
            (u32 b3)).

(** [int] is 64 bits wide: the conversion of a [uint32] keeps its value. *)
Definition ReadInt (buf : bytes) : result Z :=
  v ← ReadUint32 buf; Ok (i64 v).

Definition ReadInt32 (buf : bytes) : result Z :=
  v ← ReadUint32 buf; Ok (i32 v).

Definition ReadUint64 (buf : bytes) : result Z :=
  b0 ← go_index buf 0;
  b1 ← go_index buf 1;
  b2 ← go_index buf 2;
  b3 ← go_index buf 3;
  b4 ← go_index buf 4;
  b5 ← go_index buf 5;
  b6 ← go_index buf 6;
  b7 ← go_index buf 7;
  Ok (Z.lor (Z.lor (Z.lor (Z.lor (Z.lor (Z.lor (Z.lor
        (u64 (Z.shiftl (u64 b0) 56))
        (u64 (Z.shiftl (u64 b1) 48)))
        (u64 (Z.shiftl (u64 b2) 40)))
        (u64 (Z.shiftl (u64 b3) 32)))
        (u64 (Z.shiftl (u64 b4) 24)))
        (u64 (Z.shiftl (u64 b5) 16)))
        (u64 (Z.shiftl (u64 b6) 8)))
        (u64 b7)).

Definition ReadInt64 (buf : bytes) : result Z :=
  v ← ReadUint64 buf; Ok (i64 v).

(** The scan of [ReadString]: the index of the first byte whose [int8] is 0. *)
Fixpoint find_nul (i : nat) (buf : bytes) : option nat :=
  match buf with
  | [] => None
  | b :: buf => if (0 =? i8 b) then Some i else find_nul (S i) buf
  end.

Definition ReadString (buf : bytes) : string + string :=
  match find_nul 0 buf with
  | None => inr "error string: without end byte"%string
  | Some idx => inl (string_of_bytes (take idx buf))
  end.

(** ** Writers: the contents of the slice after the call *)

Definition WriteUint8 (buf : bytes) (v : Z) : result bytes :=
  go_store buf 0 (u8 (Z.land v 255)).

Definition WriteInt8 (buf : bytes) (v : Z) : result bytes := WriteUint8 buf (u8 v).

Definition WriteUint16 (buf : bytes) (v : Z) : result bytes :=
  buf ← go_store buf 0 (u8 (Z.land (Z.shiftr v 8) 255));
  go_store buf 1 (u8 (Z.land v 255)).

Definition WriteInt16 (buf : bytes) (v : Z) : result bytes := WriteUint16 buf (u16 v).

Definition WriteUint32 (buf : bytes) (v : Z) : result bytes :=
  buf ← go_store buf 0 (u8 (Z.land (Z.shiftr v 24) 255));
  buf ← go_store buf 1 (u8 (Z.land (Z.shiftr v 16) 255));
  buf ← go_store buf 2 (u8 (Z.land (Z.shiftr v 8) 255));
  go_store buf 3 (u8 (Z.land v 255)).

Definition WriteInt (buf : bytes) (v : Z) : result bytes := WriteUint32 buf (u32 v).

Definition WriteInt32 (buf : bytes) (v : Z) : result bytes := WriteUint32 buf (u32 v).

Definition WriteUint64 (buf : bytes) (v : Z) : result bytes :=
  buf ← go_store buf 0 (u8 (Z.land (Z.shiftr v 56) 255));
  buf ← go_store buf 1 (u8 (Z.land (Z.shiftr v 48) 255));
  buf ← go_store buf 2 (u8 (Z.land (Z.shiftr v 40) 255));
  buf ← go_store buf 3 (u8 (Z.land (Z.shiftr v 32) 255));
  buf ← go_store buf 4 (u8 (Z.land (Z.shiftr v 24) 255));
  buf ← go_store buf 5 (u8 (Z.land (Z.shiftr v 16) 255));
  buf ← go_store buf 6 (u8 (Z.land (Z.shiftr v 8) 255));
  go_store buf 7 (u8 (Z.land v 255)).

Definition WriteInt64 (buf : bytes) (v : Z) : result bytes := WriteUint64 buf (u64 v).

Definition WriteString (buf : bytes) (v : string) : result bytes :=
  go_store (go_copy buf (bytes_of_string v)) (go_len (bytes_of_string v)) 0.

(** ** [GenGid]: the counter [globalGID] is the state *)

Definition GenGid (globalGID : Z) : Z * Z :=
  let globalGID := u32 (globalGID + 1) in
  (globalGID, globalGID).

(** The identifiers of [n] consecutive calls, and the counter after them. *)
Fixpoint GenGids (n : nat) (globalGID : Z) : list Z * Z :=
  match n with
  | O => ([], globalGID)
  | S n =>
      let '(r, g) := GenGid globalGID in
      let '(rs, g') := GenGids n g in
      (r :: rs, g')
  end.

(** ** Specification: big-endian encodings of any width *)

(** The value of a byte string, most significant byte first. *)
Definition be_decode (l : bytes) : Z := fold_left (λ acc b, acc * 256 + b) l 0.

(** The [n] low-order bytes of [v], most significant first. *)
Fixpoint be_encode (n : nat) (v : Z) : bytes :=
  match n with
  | O => []
  | S n => be_encode n (v / 256) ++ [v mod 256]
  end.

Lemma be_decode_app l b : be_decode (l ++ [b]) = be_decode l * 256 + b.
Proof. unfold be_decode. by rewrite fold_left_app. Qed.

Lemma be_encode_length n v : length (be_encode n v) = n.
Proof.
  revert v. induction n as [|n IH]; intros v; simpl; [done|].
  rewrite length_app, IH. simpl. lia.
Qed.

Lemma be_encode_bytes n v : Forall is_byte (be_encode n v).
Proof.
  revert v. induction n as [|n IH]; intros v; simpl; [constructor|].
  apply Forall_snoc. split; [apply IH|]. unfold is_byte. apply Z.mod_pos_bound. lia.
Qed.

Lemma be_decode_encode n v :
  be_decode (be_encode n v) = v mod 256 ^ Z.of_nat n.
Proof.
  revert v. induction n as [|n IH]; intros v.
  - simpl. by rewrite Z.mod_1_r.
  - simpl be_encode. rewrite be_decode_app, IH.
    rewrite Nat2Z.inj_succ, Z.pow_succ_r by lia.
    rewrite Z.rem_mul_r by lia. lia.
Qed.

Lemma be_decode_bound l :
  Forall is_byte l → 0 ≤ be_decode l < 256 ^ go_len l.
Proof.
  unfold go_len. induction l as [|b l IH] using rev_ind; [by intros _|].
  intros [Hl Hb]%Forall_snoc. unfold is_byte in Hb.
  rewrite be_decode_app, length_app, Nat2Z.inj_add, Z.pow_add_r by lia.
  change (256 ^ Z.of_nat (length [b])) with 256. specialize (IH Hl).
  lia.
Qed.

Lemma be_encode_decode l :
  Forall is_byte l → be_encode (length l) (be_decode l) = l.
Proof.
  induction l as [|b l IH] using rev_ind; [done|].
  intros [Hl Hb]%Forall_snoc. unfold is_byte in Hb.
  rewrite length_app, Nat.add_comm, be_decode_app. simpl.
  rewrite Z.div_add_l, (Z.div_small b), Z.add_0_r by lia.
  rewrite IH by done. by rewrite Z.add_comm, Z.mod_add, Z.mod_small by lia.
Qed.

(** ** The readers and writers against the specification *)

Lemma lor_shiftl_add a b n :
  0 ≤ n → 0 ≤ b < 2 ^ n → Z.lor (Z.shiftl a n) b = a * 2 ^ n + b.
Proof.
  intros Hn Hb.
  assert (Z.land (Z.shiftl a n) b = 0) as Hand.
  { apply Z.bits_inj'. intros i Hi. rewrite Z.land_spec, Z.bits_0.
    destruct (Z.lt_ge_cases i n) as [Hlt|Hge].
    - by rewrite Z.shiftl_spec_low.
    - rewrite <- (Z.mod_small b (2 ^ n)) by lia.
      rewrite Z.mod_pow2_bits_high by lia. apply andb_false_r. }
  rewrite <- Z.lxor_lor by done.
  rewrite <- Z.add_nocarry_lxor by done.
  by rewrite Z.shiftl_mul_pow2.
Qed.

(** One step of a reader's chain of shifts and ors. *)
Lemma lor_byte_step acc b n m :
  0 ≤ n → m = n + 8 → is_byte b →
  Z.lor (acc * 2 ^ m) (b * 2 ^ n) = (acc * 256 + b) * 2 ^ n.
Proof.
  unfold is_byte. intros Hn -> Hb.
  rewrite <- (Z.shiftl_mul_pow2 acc) by lia. rewrite lor_shiftl_add.
  - rewrite Z.pow_add_r by lia. lia.
  - lia.
  - rewrite Z.pow_add_r by lia. change (2 ^ 8) with 256.
    assert (0 < 2 ^ n) by (apply Z.pow_pos_nonneg; lia). nia.
Qed.

Lemma lor_byte_last acc b : is_byte b → Z.lor (acc * 2 ^ 8) b = acc * 256 + b.
Proof.
  intros Hb. pose proof (lor_byte_step acc b 0 8 ltac:(lia) ltac:(lia) Hb) as E.
  rewrite !Z.mul_1_r in E. exact E.
Qed.

Lemma byte_at_land v k : 0 ≤ k → u8 (Z.land (Z.shiftr v k) 255) = (v / 2 ^ k) mod 256.
Proof.
  intros. unfold u8. change 255 with (Z.ones 8).
  rewrite Z.land_ones, Z.shiftr_div_pow2, Z.mod_mod by lia. done.
Qed.

Lemma byte_low_land v : u8 (Z.land v 255) = v mod 256.
Proof. rewrite <- (Z.shiftr_0_r v) at 1. rewrite byte_at_land by lia. by rewrite Z.div_1_r. Qed.

(** Removes the width conversions of a reader's goal, byte hypotheses given. *)
Ltac narrow :=
  repeat match goal with
    | H : Forall is_byte (_ :: _) |- _ => apply Forall_cons in H as [? H]
    end;
  repeat match goal with
    | H : is_byte ?b |- context [u16 ?b] => rewrite (u16_small b) by (unfold is_byte in H; lia)
    | H : is_byte ?b |- context [u32 ?b] => rewrite (u32_small b) by (unfold is_byte in H; lia)
    | H : is_byte ?b |- context [u64 ?b] => rewrite (u64_small b) by (unfold is_byte in H; lia)
    end;
  rewrite !Z.shiftl_mul_pow2 by lia;
  repeat match goal with
    | H : is_byte ?b |- context [u16 (?b * _)] => rewrite (u16_small (b * _)) by (unfold is_byte in H; lia)
    | H : is_byte ?b |- context [u32 (?b * _)] => rewrite (u32_small (b * _)) by (unfold is_byte in H; lia)
    | H : is_byte ?b |- context [u64 (?b * _)] => rewrite (u64_small (b * _)) by (unfold is_byte in H; lia)
    end.

Lemma ReadUint16_spec b0 b1 l :
  Forall is_byte [b0; b1] → ReadUint16 (b0 :: b1 :: l) = Ok (be_decode [b0; b1]).
Proof.
  intros H. unfold ReadUint16, be_decode. simpl. f_equal. narrow.
  by rewrite lor_byte_last.
Qed.

Lemma ReadUint32_spec b0 b1 b2 b3 l :
  Forall is_byte [b0; b1; b2; b3] →
  ReadUint32 (b0 :: b1 :: b2 :: b3 :: l) = Ok (be_decode [b0; b1; b2; b3]).
Proof.
  intros H. unfold ReadUint32, be_decode. simpl. f_equal. narrow.
  by rewrite (lor_byte_step b0 b1 16 24), (lor_byte_step _ b2 8 16), lor_byte_last.
Qed.

Lemma ReadUint64_spec b0 b1 b2 b3 b4 b5 b6 b7 l :
  Forall is_byte [b0; b1; b2; b3; b4; b5; b6; b7] →
  ReadUint64 (b0 :: b1 :: b2 :: b3 :: b4 :: b5 :: b6 :: b7 :: l)
  = Ok (be_decode [b0; b1; b2; b3; b4; b5; b6; b7]).
Proof.
  intros H. unfold ReadUint64, be_decode. simpl. f_equal. narrow.
  by rewrite (lor_byte_step b0 b1 48 56), (lor_byte_step _ b2 40 48),
    (lor_byte_step _ b3 32 40), (lor_byte_step _ b4 24 32),
    (lor_byte_step _ b5 16 24), (lor_byte_step _ b6 8 16), lor_byte_last.
Qed.

Lemma be_encode_cons n v :
  be_encode (S n) v = (v / 256 ^ Z.of_nat n) mod 256 :: be_encode n v.
Proof.
  revert v. induction n as [|n IH]; intros v.
  - simpl. by rewrite Z.div_1_r.
  - change (be_encode (S (S n)) v) with (be_encode (S n) (v / 256) ++ [v mod 256]).
    rewrite IH. simpl be_encode. rewrite Z.div_div by lia.
    by rewrite Nat2Z.inj_succ, Z.pow_succ_r by lia.
Qed.

(** Storing into a non-empty prefix: the cases a writer meets. *)
Lemma go_store_lt {A} (l : list A) i a :
  0 ≤ i < go_len l → go_store l i a = Ok (<[Z.to_nat i := a]> l).
Proof.
  intros. unfold go_store, go_len in *.
  by rewrite (proj2 (Z.ltb_ge _ _)), (proj2 (Z.leb_gt _ _)) by lia.
Qed.

Lemma go_store_ge {A} (l : list A) i a :
  go_len l ≤ i → go_store l i a = Panic IndexOutOfRange.
Proof.
  intros. unfold go_store, go_len in *.
  by rewrite (proj2 (Z.leb_le _ _)), orb_true_r by lia.
Qed.

Lemma be_encode_0 v : be_encode 0 v = [].
Proof. done. Qed.

Ltac write_bytes :=
  rewrite !be_encode_cons, be_encode_0; simpl;
  repeat (rewrite go_store_lt by (unfold go_len; simpl; lia); simpl);
  rewrite ?byte_at_land, ?byte_low_land, Z.div_1_r by lia; reflexivity.

Lemma WriteUint16_spec b0 b1 l v :
  WriteUint16 (b0 :: b1 :: l) v = Ok (be_encode 2 v ++ l).
Proof. unfold WriteUint16. write_bytes. Qed.

Lemma WriteUint32_spec b0 b1 b2 b3 l v :
  WriteUint32 (b0 :: b1 :: b2 :: b3 :: l) v = Ok (be_encode 4 v ++ l).
Proof. unfold WriteUint32. write_bytes. Qed.

Lemma WriteUint64_spec b0 b1 b2 b3 b4 b5 b6 b7 l v :
  WriteUint64 (b0 :: b1 :: b2 :: b3 :: b4 :: b5 :: b6 :: b7 :: l) v
  = Ok (be_encode 8 v ++ l).
Proof. unfold WriteUint64. write_bytes. Qed.

(** Destructs the first [n] cells of a slice known to have them. *)
Ltac cells buf n :=
  lazymatch n with
  | O => idtac
  | S ?n => let b := fresh "b" in destruct buf as [|b buf]; [simpl in *; lia|]; cells buf n
  end.

Lemma WriteReadUint16 buf v :
  (2 ≤ length buf)%nat → (WriteUint16 buf v ≫= ReadUint16) = Ok (v mod 2 ^ 16).
Proof.
  intros H. cells buf 2%nat. rewrite WriteUint16_spec.
  pose proof (be_encode_bytes 2 v) as Hb. pose proof (be_decode_encode 2 v) as Hd.
  rewrite !be_encode_cons, be_encode_0 in *. simpl app.
  rewrite bind_ok, ReadUint16_spec by done. by rewrite Hd.
Qed.

Lemma WriteReadUint32 buf v :
  (4 ≤ length buf)%nat → (WriteUint32 buf v ≫= ReadUint32) = Ok (v mod 2 ^ 32).
Proof.
  intros H. cells buf 4%nat. rewrite WriteUint32_spec.
  pose proof (be_encode_bytes 4 v) as Hb. pose proof (be_decode_encode 4 v) as Hd.
  rewrite !be_encode_cons, be_encode_0 in *. simpl app.
  rewrite bind_ok, ReadUint32_spec by done. by rewrite Hd.
Qed.

Lemma WriteReadUint64 buf v :
  (8 ≤ length buf)%nat → (WriteUint64 buf v ≫= ReadUint64) = Ok (v mod 2 ^ 64).
Proof.
  intros H. cells buf 8%nat. rewrite WriteUint64_spec.
  pose proof (be_encode_bytes 8 v) as Hb. pose proof (be_decode_encode 8 v) as Hd.
  rewrite !be_encode_cons, be_encode_0 in *. simpl app.
  rewrite bind_ok, ReadUint64_spec by done. by rewrite Hd.
Qed.

Lemma WriteReadUint8 buf v :
  (1 ≤ length buf)%nat → (WriteUint8 buf v ≫= ReadUint8) = Ok (v mod 2 ^ 8).
Proof.
  intros H. cells buf 1%nat. unfold WriteUint8, ReadUint8.
  rewrite go_store_lt by (unfold go_len; simpl; lia). simpl.
  rewrite byte_low_land. unfold u8. by rewrite Z.mod_mod by lia.
Qed.

(** ** Claims *)

(** (read after write).  For every slice long enough for the value, each
    reader returns exactly the value its writer stored: the unsigned and signed
    readers of 8, 16, 32 and 64 bits are exact over their whole range. *)
Theorem fixed_width_roundtrip (buf : bytes) (v : Z) :
  ((1 ≤ length buf)%nat → 0 ≤ v < 2 ^ 8 → (WriteUint8 buf v ≫= ReadUint8) = Ok v) ∧
  ((2 ≤ length buf)%nat → 0 ≤ v < 2 ^ 16 → (WriteUint16 buf v ≫= ReadUint16) = Ok v) ∧
  ((4 ≤ length buf)%nat → 0 ≤ v < 2 ^ 32 → (WriteUint32 buf v ≫= ReadUint32) = Ok v) ∧
  ((8 ≤ length buf)%nat → 0 ≤ v < 2 ^ 64 → (WriteUint64 buf v ≫= ReadUint64) = Ok v) ∧
  ((1 ≤ length buf)%nat → - 2 ^ 7 ≤ v < 2 ^ 7 → (WriteInt8 buf v ≫= ReadInt8) = Ok v) ∧
  ((2 ≤ length buf)%nat → - 2 ^ 15 ≤ v < 2 ^ 15 → (WriteInt16 buf v ≫= ReadInt16) = Ok v) ∧
  ((4 ≤ length buf)%nat → - 2 ^ 31 ≤ v < 2 ^ 31 → (WriteInt32 buf v ≫= ReadInt32) = Ok v) ∧
  ((8 ≤ length buf)%nat → - 2 ^ 63 ≤ v < 2 ^ 63 → (WriteInt64 buf v ≫= ReadInt64) = Ok v).
Proof.
  unfold WriteInt8, WriteInt16, WriteInt32, WriteInt64, ReadInt8, ReadInt16, ReadInt32,
    ReadInt64, u8, u16, u32, u64, i8, i16, i32, i64.
  repeat split; intros Hlen Hv.
  - rewrite WriteReadUint8, Z.mod_small by done. done.
  - rewrite WriteReadUint16, Z.mod_small by done. done.
  - rewrite WriteReadUint32, Z.mod_small by done. done.
  - rewrite WriteReadUint64, Z.mod_small by done. done.
  - erewrite bind_map_ok by (by apply WriteReadUint8).
    by rewrite Z.mod_mod, swrap_mod by lia.
  - erewrite bind_map_ok by (by apply WriteReadUint16).
    by rewrite Z.mod_mod, swrap_mod by lia.
  - erewrite bind_map_ok by (by apply WriteReadUint32).
    by rewrite Z.mod_mod, swrap_mod by lia.
  - erewrite bind_map_ok by (by apply WriteReadUint64).
    by rewrite Z.mod_mod, swrap_mod by lia.
Qed.

(** (The [int] pair is lossy.)  [WriteInt] keeps only 32 bits and [ReadInt]
    zero-extends them, so reading back an [int] yields its value modulo 2^32:
    no negative [int] survives the round trip. *)
Theorem write_read_int (buf : bytes) (v : Z) :
  (4 ≤ length buf)%nat →
  (WriteInt buf v ≫= ReadInt) = Ok (v mod 2 ^ 32).
Proof.
  intros Hlen. unfold WriteInt, ReadInt, u32, i64.
  erewrite bind_map_ok by (by apply WriteReadUint32).
  rewrite Z.mod_mod by lia. f_equal.
  pose proof (Z.mod_pos_bound v (2 ^ 32) ltac:(lia)).
  rewrite <- (Z.mod_small (v mod 2 ^ 32) (2 ^ 64)) at 1 by lia.
  by rewrite swrap_mod by lia.
Qed.

Lemma write_read_int_witness :
  (WriteInt [0; 0; 0; 0] (-1) ≫= ReadInt) = Ok 4294967295.
Proof. apply (write_read_int [0; 0; 0; 0] (-1)). simpl. lia. Defined.

(** ** NUL-terminated strings *)

(** The part of a byte string before its first zero byte. *)
Fixpoint before_nul (l : bytes) : bytes :=
  match l with
  | [] => []
  | b :: l => if (b =? 0) then [] else b :: before_nul l
  end.

Lemma i8_zero b : is_byte b → (0 =? i8 b) = (b =? 0).
Proof.
  unfold is_byte, i8, swrap. intros H.
  destruct (Z.eqb_spec b 0) as [->|Hb]; [done|].
  apply Z.eqb_neq. intros E.
  destruct (Z.lt_ge_cases b 128).
  - rewrite Z.mod_small in E by lia. lia.
  - replace (b + 2 ^ (8 - 1)) with (b - 128 + 1 * 2 ^ 8) in E by lia.
    rewrite Z.mod_add, Z.mod_small in E by lia. lia.
Qed.

Lemma find_nul_before l rest i :
  Forall is_byte l →
  ∃ n, find_nul i (l ++ 0 :: rest) = Some (i + n)%nat ∧ take n (l ++ 0 :: rest) = before_nul l.
Proof.
  revert i. induction l as [|b l IH]; intros i Hl; cbn [app find_nul before_nul].
  - exists 0%nat. by rewrite Nat.add_0_r.
  - apply Forall_cons in Hl as [Hb Hl]. rewrite i8_zero by done.
    destruct (b =? 0); [exists 0%nat; by rewrite Nat.add_0_r|].
    destruct (IH (S i) Hl) as (n & -> & E). exists (S n). simpl. rewrite E.
    split; [f_equal; lia|done].
Qed.

Lemma WriteString_ok buf s :
  go_len (bytes_of_string s) < go_len buf →
  ∃ rest, WriteString buf s = Ok (bytes_of_string s ++ 0 :: rest).
Proof.
  unfold go_len. intros H. unfold WriteString.
  rewrite go_copy_fits by lia. set (l := bytes_of_string s) in *.
  destruct (drop (length l) buf) as [|b rest] eqn:E.
  { apply (f_equal length) in E. rewrite length_drop in E. simpl in E. lia. }
  exists rest. unfold go_len. rewrite go_store_lt.
  - by rewrite Nat2Z.id, insert_app_r_alt, Nat.sub_diag by lia.
  - unfold go_len. rewrite length_app. simpl. lia.
Qed.

(** (Strings.)  [WriteString] panics exactly when the string and its
    terminator do not fit; otherwise [ReadString] recovers the characters up to
    the first NUL of the string, hence the whole string when it has none.
    [ReadString] reports an error on a slice without a zero byte. *)
Theorem string_roundtrip (buf : bytes) (s : string) :
  (go_len buf ≤ go_len (bytes_of_string s) →
     WriteString buf s = Panic IndexOutOfRange) ∧
  (go_len (bytes_of_string s) < go_len buf →
     (λ b, ReadString b) <$> WriteString buf s
     = Ok (inl (string_of_bytes (before_nul (bytes_of_string s))))) ∧
  (Forall is_byte buf → 0 ∉ buf →
     ReadString buf = inr "error string: without end byte"%string).
Proof.
  split; [|split].
  - intros H. unfold WriteString. apply go_store_ge. unfold go_len in *.
    rewrite go_copy_length. lia.
  - intros H. destruct (WriteString_ok buf s H) as [rest ->]. simpl.
    unfold ReadString.
    destruct (find_nul_before (bytes_of_string s) rest 0 (bytes_of_string_bytes s))
      as (n & -> & E). simpl. by rewrite E.
  - intros Hb H0. unfold ReadString.
    enough (∀ i, find_nul i buf = None) as -> by done.
    induction buf as [|b buf IH]; intros i; [done|]. cbn [find_nul].
    apply Forall_cons in Hb as [Hb Hbuf]. rewrite i8_zero by done.
    apply not_elem_of_cons in H0 as [Hne H0].
    rewrite (proj2 (Z.eqb_neq _ _)) by congruence. by apply IH.
Qed.

Example string_roundtrip_ex :
  (λ b, ReadString b) <$> WriteString (replicate 6 7) "abc" = Ok (inl "abc"%string).
Proof. reflexivity. Qed.

(** ** Identifiers *)

Lemma GenGids_spec n g :
  GenGids n g = (map (λ i, u32 (g + 1 + Z.of_nat i)) (seq 0 n),
                 if decide (n = 0%nat) then g else u32 (g + Z.of_nat n)).
Proof.
  revert g. induction n as [|n IH]; intros g; [done|].
  simpl. rewrite IH. rewrite <- fmap_S_seq, map_map. f_equal.
  - f_equal; [f_equal; lia|]. apply map_ext. intros i. unfold u32.
    rewrite <- (Z.add_assoc (_ mod _)), Zplus_mod_idemp_l. f_equal. lia.
  - case_decide; [subst; f_equal; lia|]. unfold u32. rewrite Zplus_mod_idemp_l.
    f_equal. lia.
Qed.

(** (identifiers).  Starting from any counter value, up to 2^32 consecutive
    calls of [GenGid] return pairwise distinct 32-bit identifiers; the reserved
    identifier 0, which the protocol reads as "no response wanted", is among
    them exactly when the counter wraps around during those calls. *)
Theorem GenGid_unique (n : nat) (g : Z) :
  0 ≤ g < 2 ^ 32 → Z.of_nat n ≤ 2 ^ 32 →
  let ids := (GenGids n g).1 in
  NoDup ids ∧ Forall (λ r, 0 ≤ r < 2 ^ 32) ids ∧ (0 ∈ ids ↔ 2 ^ 32 ≤ g + Z.of_nat n).
Proof.
  intros Hg Hn. rewrite GenGids_spec. simpl.
  assert (∀ i j, (i < n)%nat → (j < n)%nat →
            u32 (g + 1 + Z.of_nat i) = u32 (g + 1 + Z.of_nat j) → i = j) as Hinj.
  { intros i j Hi Hj E. unfold u32 in E.
    pose proof (Z.div_mod (g + 1 + Z.of_nat i) (2 ^ 32) ltac:(lia)).
    pose proof (Z.div_mod (g + 1 + Z.of_nat j) (2 ^ 32) ltac:(lia)). lia. }
  split; [|split].
  - apply NoDup_fmap_2_strong; [|apply NoDup_seq].
    intros i j Hi%elem_of_seq Hj%elem_of_seq. apply Hinj; lia.
  - apply Forall_fmap, Forall_forall. intros i _. apply u32_range.
  - rewrite list_elem_of_fmap. setoid_rewrite elem_of_seq. split.
    + intros (i & E & Hi). unfold u32 in E.
      destruct (Z.lt_ge_cases (g + 1 + Z.of_nat i) (2 ^ 32)); [|lia].
      rewrite Z.mod_small in E by lia. lia.
    + intros H. exists (Z.to_nat (2 ^ 32 - (g + 1))). split; [|lia].
      rewrite Z2Nat.id by lia. unfold u32. by rewrite Z.add_sub_assoc, Z.add_simpl_l, Z.mod_same by lia.
Qed.

Lemma GenGid_unique_witness : NoDup (GenGids 3 4294967294).1.
Proof. apply (GenGid_unique 3 4294967294); lia. Defined.
