(* ===== verification/Strconv.v ===== *)
(** * Numbers as text

    [strconv.Atoi] of the Go standard library, as the etcd driver and the test
    client use it, and that it reads back what [%d] prints. *)

From S2P Require Import Prelude.
From Stdlib Require Import Ascii.

Local Open Scope Z_scope.

(** ** [strconv.Atoi]

    The number and whether there was no error.  A syntax error gives 0, a number
    out of range the nearest [int]. *)

Definition digit (c : ascii) : option Z :=
  let n := Z.of_N (N_of_ascii c) - 48 in
  if (0 <=? n) && (n <? 10) then Some n else None.

Fixpoint digits (acc : Z) (s : string) : option Z :=
  match s with
  | EmptyString => Some acc
  | String c s => d ← digit c; digits (acc * 10 + d) s
  end.

(** The digits after the sign; a sign alone is a syntax error. *)
Definition unsigned (s : string) : option Z :=
  match s with
  | EmptyString => None
  | _ => digits 0 s
  end.

Definition in_range (o : option Z) : Z * bool :=
  match o with
  | None => (0, false)
  | Some z =>
      if z <? - 2 ^ 63 then (- 2 ^ 63, false)
      else if 2 ^ 63 <=? z then (2 ^ 63 - 1, false)
      else (z, true)
  end.

Definition Atoi (s : string) : Z * bool :=
  in_range match s with
           | String "+" s => unsigned s
           | String "-" s => Z.opp <$> unsigned s
           | _ => unsigned s
           end.

(** ** Printed numbers *)

Lemma digit_char n : (n < 10)%N → digit (pretty_N_char n) = Some (Z.of_N n).
Proof. intros H. destruct n as [|n]; [done|]. by do 4 (destruct n as [n|n|]; try done). Qed.

Lemma digits_pretty_go x : ∀ s, digits 0 (pretty_N_go x s) = digits (Z.of_N x) s.
Proof.
  induction (N.lt_wf_0 x) as [x _ IH]; intros s.
  destruct (decide (0 < x)%N) as [Hx|Hx]; [|by assert (x = 0%N) as -> by lia; rewrite pretty_N_go_0].
  rewrite pretty_N_go_step, IH by (done || apply N.div_lt; lia). cbn [digits].
  rewrite digit_char by (apply N.mod_lt; lia). cbn. f_equal.
  pose proof (N.div_mod x 10 ltac:(lia)). lia.
Qed.

Lemma pretty_digits z : 0 ≤ z → digits 0 (pretty z) = Some z ∧ pretty z ≠ EmptyString ∧
  (∀ s, pretty z ≠ String "+" s) ∧ (∀ s, pretty z ≠ String "-" s).
Proof.
  intros Hz. assert (digits 0 (pretty z) = Some z) as Hd.
  { destruct z as [|p|p]; [done| |lia]. change (pretty (Z.pos p)) with (pretty_N_go (N.pos p) EmptyString).
    by rewrite digits_pretty_go. }
  split; [done|]. split_and!.
  - intros E. destruct z as [|p|p]; [done| |lia].
    change (pretty (Z.pos p)) with (pretty_N_go (N.pos p) EmptyString) in E.
    assert (∀ x s, s ≠ EmptyString → pretty_N_go x s ≠ EmptyString) as Hne.
    { intros x. induction (N.lt_wf_0 x) as [x _ IH]; intros s Hs.
      destruct (decide (0 < x)%N) as [Hx|Hx]; [|by assert (x = 0%N) as -> by lia; rewrite pretty_N_go_0].
      rewrite pretty_N_go_step by done. apply IH; [apply N.div_lt; lia|done]. }
    rewrite pretty_N_go_step in E by done. by apply Hne in E.
  - intros s E. by rewrite E in Hd.
  - intros s E. by rewrite E in Hd.
Qed.

Lemma Atoi_pretty z : 0 ≤ z < 2 ^ 63 → Atoi (pretty z) = (z, true).
Proof.
  intros Hz. destruct (pretty_digits z) as (Hd & Hne & Hp & Hm); [lia|]. unfold Atoi.
  destruct (pretty z) as [|c s] eqn:E; [done|].
  assert (c ≠ "+"%char ∧ c ≠ "-"%char) as [H1 H2] by (split; intros ->; [by apply (Hp s)|by apply (Hm s)]).
  assert (in_range (unsigned (String c s)) = (z, true)) as Hr.
  { unfold unsigned. rewrite Hd. cbn. by rewrite (proj2 (Z.ltb_ge _ _)), (proj2 (Z.leb_gt _ _)) by lia. }
  destruct c as [[] [] [] [] [] [] [] []]; exact Hr || done.
Qed.

Lemma lacks_pretty sep z : 0 ≤ z → digit sep = None → lacks sep (pretty z) = true.
Proof.
  intros Hz Hs. destruct (pretty_digits z Hz) as (Hd & _). revert Hd. generalize 0 at 1. generalize (pretty z).
  induction s as [|c s IH]; intros acc; [done|]. cbn. destruct (digit c) as [d|] eqn:Hc; [|discriminate 1].
  intros H. rewrite bool_decide_eq_false_2 by (intros ->; congruence). by apply (IH (acc * 10 + d)).
Qed.

Lemma prefix_append a b : String.prefix a (a +:+ b) = true.
Proof.
  induction a as [|c a IH]; [by destruct b|].
  change (String.append (String c a) b) with (String c (a +:+ b)). simpl.
  destruct (ascii_dec c c); [exact IH|congruence].
Qed.

Lemma append_assoc (a b c : string) : (a +:+ b) +:+ c = a +:+ b +:+ c.
Proof. induction a as [|x a IH]; [done|]. exact (f_equal (String x) IH). Qed.
