(* ===== verification/Wire.v ===== *)
(** * Message framing ([src/ms_framework/msf_simple_rpc.go])

    [MessageEncode] puts a two-byte big-endian length before a payload;
    [MessageDecode] cuts a receive buffer into payloads, hands each one to
    [RpcDecode] and returns how many bytes it consumed.  The relation [Frames]
    is the specification of the cut; [MessageDecode] refines it for every
    buffer, and the receive buffers of the read loops are shown to see the same
    payloads however the stream is divided into reads. *)

From S2P Require Import Prelude Utils.

Local Open Scope Z_scope.

Definition MAX_PACKET_SIZE : Z := 16 * 1024.
Definition MESSAGE_SIZE_LEN : Z := 2.

Definition ReadPacketLen (buf : bytes) : result Z :=
  v ← ReadUint16 buf; Ok (u32 v).

Definition WritePacketLen (buf : bytes) (v : Z) : result bytes :=
  WriteUint16 buf (u16 v).

Definition MessageEncode (buf : bytes) : result bytes :=
  let bufLen := u32 (go_len buf) in
  if MAX_PACKET_SIZE <? bufLen then
    Panic (PanicMsg "message len > %!s(uint32=16384)")
  else
    msg ← WritePacketLen (replicate (Z.to_nat (u32 (MESSAGE_SIZE_LEN + bufLen))) 0) bufLen;
    tail ← go_slice msg MESSAGE_SIZE_LEN (go_len msg);
    Ok (take (Z.to_nat MESSAGE_SIZE_LEN) msg ++ go_copy tail buf).

Section MessageDecode.
  Context {S : Type} (RpcDecode : S → bytes → result S).

(** The [for offset < bufLen] loop; [fuel] bounds the number of iterations. *)
Fixpoint MessageDecode_loop (fuel : nat) (msg : bytes) (bufLen offset : Z) (s : S)
    : result (Z * S) :=
  match fuel with
  | O => OutOfFuel
  | Datatypes.S fuel =>
      if offset <? bufLen then
        if u32 (bufLen - offset) <? MESSAGE_SIZE_LEN then Ok (offset, s)
        else
          rest ← go_slice msg offset (go_len msg);
          pkgLen ← ReadPacketLen rest;
          if u32 (bufLen - offset) <? u32 (MESSAGE_SIZE_LEN + pkgLen) then Ok (offset, s)
          else
            let offset := u32 (offset + MESSAGE_SIZE_LEN) in
            s ← (if MAX_PACKET_SIZE <? pkgLen then Ok s
                 else
                   src ← go_slice msg offset (u32 (offset + pkgLen));
                   RpcDecode s (go_copy (replicate (Z.to_nat pkgLen) 0) src));
            MessageDecode_loop fuel msg bufLen (u32 (offset + pkgLen)) s
      else Ok (offset, s)
  end.

(** Every iteration consumes at least the two length bytes, so a fuel of the
    buffer's length and one more is never used up ([MessageDecode_spec]). *)
Definition MessageDecode (s : S) (msg : bytes) : result (Z * S) :=
  MessageDecode_loop (Datatypes.S (length msg)) msg (u32 (go_len msg)) 0 s.

End MessageDecode.

(** ** Specification *)

(** [incomplete l]: [l] does not start with a complete frame. *)
Definition incomplete (l : bytes) : bool :=
  match l with
  | hi :: lo :: body => go_len body <? be_decode [hi; lo]
  | _ => true
  end.

(** [Frames l fs rem]: the stream [l] is the frames with payloads [fs], in this
    order, followed by [rem], which holds no complete frame. *)
Inductive Frames : bytes → list bytes → bytes → Prop :=
  | Frames_stop l :
      incomplete l = true → Frames l [] l
  | Frames_next hi lo body l fs rem :
      go_len body = be_decode [hi; lo] →
      Frames l fs rem →
      Frames (hi :: lo :: body ++ l) (body :: fs) rem.

(** What a frame does to the state: an oversized payload is dropped. *)
Definition deliver {S} (RpcDecode : S → bytes → result S) (s : S) (body : bytes) : result S :=
  if MAX_PACKET_SIZE <? go_len body then Ok s else RpcDecode s body.

Lemma deliver_small {S} (RpcDecode : S → bytes → result S) s body :
  go_len body ≤ MAX_PACKET_SIZE → deliver RpcDecode s body = RpcDecode s body.
Proof. intros. unfold deliver. by rewrite (proj2 (Z.ltb_ge _ _)). Qed.

Lemma deliver_large {S} (RpcDecode : S → bytes → result S) s body :
  MAX_PACKET_SIZE < go_len body → deliver RpcDecode s body = Ok s.
Proof. intros. unfold deliver. by rewrite (proj2 (Z.ltb_lt _ _)). Qed.

(** The frame of a payload. *)
Definition frame (p : bytes) : bytes := be_encode 2 (go_len p) ++ p.

Lemma frame_len_pos p : go_len (frame p) ≠ 0.
Proof. unfold frame. rewrite go_len_app. unfold go_len at 1. rewrite be_encode_length. len_lia. Qed.

Lemma be_decode_2 hi lo : be_decode [hi; lo] = hi * 256 + lo.
Proof. unfold be_decode. simpl. lia. Qed.

Lemma Frames_total l : Forall is_byte l → ∃ fs rem, Frames l fs rem.
Proof.
  remember (length l) as n eqn:Hn. revert l Hn.
  induction n as [n IH] using lt_wf_ind. intros l -> Hl.
  destruct (incomplete l) eqn:Hi; [eauto using Frames_stop|].
  destruct l as [|hi [|lo body]]; try discriminate.
  unfold incomplete in Hi. apply Z.ltb_ge in Hi.
  apply Forall_cons in Hl as [Hhi Hl]. apply Forall_cons in Hl as [Hlo Hl].
  set (k := Z.to_nat (be_decode [hi; lo])).
  rewrite be_decode_2 in *. unfold is_byte, go_len in *.
  destruct (IH (length (drop k body))) with (l := drop k body) as (fs & rem & HF).
  { simpl. rewrite length_drop. lia. }
  { done. }
  { by apply Forall_drop. }
  exists (take k body :: fs), rem.
  rewrite <- (take_drop k body) at 1. apply Frames_next; [|done].
  unfold go_len, k. rewrite length_take, be_decode_2. lia.
Qed.

Lemma Frames_rem_incomplete l fs rem : Frames l fs rem → incomplete rem = true.
Proof. by induction 1. Qed.

Lemma Frames_complete_head hi lo body l :
  go_len body = be_decode [hi; lo] → incomplete (hi :: lo :: body ++ l) = false.
Proof.
  intros E. simpl. apply Z.ltb_ge. unfold go_len in *. rewrite length_app. lia.
Qed.

Lemma Frames_next_inv hi lo body l fs rem :
  go_len body = be_decode [hi; lo] → Frames (hi :: lo :: body ++ l) fs rem →
  ∃ fs', fs = body :: fs' ∧ Frames l fs' rem.
Proof.
  intros E H. remember (hi :: lo :: body ++ l) as m eqn:Hm.
  destruct H as [m Hi|hi' lo' body' l' fs rem E' H]; subst.
  - by rewrite Frames_complete_head in Hi.
  - injection Hm as -> -> Heq.
    apply app_inj_1 in Heq as [-> ->]; [eauto|unfold go_len in *; lia].
Qed.

Lemma Frames_stop_inv l fs rem : incomplete l = true → Frames l fs rem → fs = [] ∧ rem = l.
Proof.
  intros Hi H. destruct H as [|hi lo body l fs rem E H]; [done|].
  by rewrite Frames_complete_head in Hi.
Qed.

Lemma Frames_det l fs rem fs' rem' :
  Frames l fs rem → Frames l fs' rem' → fs = fs' ∧ rem = rem'.
Proof.
  intros H. revert fs' rem'. induction H as [l Hi|hi lo body l fs rem E H IH]; intros fs' rem' H'.
  - apply Frames_stop_inv in H' as [-> ->]; done.
  - apply Frames_next_inv in H' as (fs'' & -> & H''); [|done].
    destruct (IH _ _ H'') as [-> ->]. done.
Qed.

(** The unconsumed rest of one buffer and the next bytes continue the stream. *)
Lemma Frames_app l fs rem l' fs' rem' :
  Frames l fs rem → Frames (rem ++ l') fs' rem' → Frames (l ++ l') (fs ++ fs') rem'.
Proof.
  induction 1 as [|hi lo body l fs rem E H IH]; intros H'; [done|].
  simpl. rewrite <- app_assoc. by apply Frames_next; [|apply IH].
Qed.

Lemma Frames_length l fs rem :
  Frames l fs rem → (length l = length rem + sum_list_with (λ f, S (S (length f))) fs)%nat.
Proof.
  induction 1 as [|hi lo body l fs rem E H IH]; simpl; [lia|].
  rewrite length_app, IH. lia.
Qed.

(** An incomplete frame is shorter than the longest frame. *)
Lemma incomplete_bound l :
  Forall is_byte l → incomplete l = true → go_len l ≤ MESSAGE_SIZE_LEN + 65534.
Proof.
  unfold MESSAGE_SIZE_LEN. intros Hl. destruct l as [|hi [|lo body]]; simpl; [done..|].
  intros H%Z.ltb_lt. apply Forall_cons in Hl as [Hhi Hl]. apply Forall_cons in Hl as [Hlo Hl].
  rewrite be_decode_2 in H. unfold is_byte, go_len in *. simpl. lia.
Qed.

(** ** [MessageEncode] and [MessageDecode] against the specification *)

Lemma MessageEncode_spec p :
  go_len p ≤ MAX_PACKET_SIZE → MessageEncode p = Ok (frame p).
Proof.
  unfold MAX_PACKET_SIZE. intros H. unfold MessageEncode, WritePacketLen, frame, go_len in *.
  rewrite u32_small by lia. unfold MAX_PACKET_SIZE. rewrite (proj2 (Z.ltb_ge _ _)) by lia.
  unfold MESSAGE_SIZE_LEN. rewrite u32_small by lia.
  replace (Z.to_nat (2 + Z.of_nat (length p))) with (S (S (length p))) by lia.
  simpl replicate. rewrite WriteUint16_spec. rewrite u16_small by lia.
  rewrite bind_ok, go_slice_ok; unfold go_len; rewrite ?length_app, ?be_encode_length, ?length_replicate; [|lia..].
  rewrite bind_ok. do 2 f_equal.
  rewrite drop_app_length' by (by rewrite be_encode_length).
  rewrite take_ge by (rewrite length_replicate; lia).
  rewrite go_copy_fits, drop_ge, app_nil_r by (rewrite length_replicate; lia). done.
Qed.

Lemma MessageEncode_too_long p :
  MAX_PACKET_SIZE < go_len p < 2 ^ 32 →
  MessageEncode p = Panic (PanicMsg "message len > %!s(uint32=16384)").
Proof.
  unfold MAX_PACKET_SIZE. intros H. unfold MessageEncode, MAX_PACKET_SIZE.
  rewrite u32_small by lia. by rewrite (proj2 (Z.ltb_lt _ _)) by lia.
Qed.

Lemma ReadPacketLen_spec hi lo l :
  is_byte hi → is_byte lo → ReadPacketLen (hi :: lo :: l) = Ok (be_decode [hi; lo]).
Proof.
  intros Hhi Hlo. unfold ReadPacketLen. rewrite ReadUint16_spec by eauto using Forall_cons_2, Forall_nil_2.
  rewrite bind_ok, be_decode_2. unfold is_byte in *. by rewrite u32_small by lia.
Qed.

Section MessageDecode_spec.
  Context {S : Type} (RpcDecode : S → bytes → result S).

(** The loop at [offset], with [l] the bytes not yet consumed. *)
Lemma MessageDecode_loop_spec l fs rem :
  Frames l fs rem →
  ∀ fuel done s,
    Forall is_byte (done ++ l) → go_len (done ++ l) < 2 ^ 32 → (length fs < fuel)%nat →
    MessageDecode_loop RpcDecode fuel (done ++ l) (go_len (done ++ l)) (go_len done) s
    = (s' ← foldM (deliver RpcDecode) fs s; Ok (go_len (done ++ l) - go_len rem, s')).
Proof.
  induction 1 as [l Hi|hi lo body l fs rem E H IH]; intros fuel done s Hb Hlen Hfuel;
    (destruct fuel as [|fuel]; [simpl in *; lia|]); cbn [MessageDecode_loop foldM];
    unfold MESSAGE_SIZE_LEN.
  - rewrite bind_ok, go_len_app, Z.add_simpl_r.
    destruct (Z.ltb_spec (go_len done) (go_len done + go_len l)); [|done].
    rewrite u32_small by len_lia. apply Forall_app in Hb as [_ Hb].
    destruct l as [|hi [|lo body]]; [len_lia|by rewrite (proj2 (Z.ltb_lt _ _)) by len_lia|].
    rewrite (proj2 (Z.ltb_ge _ _)) by len_lia.
    rewrite go_slice_suffix, bind_ok by len_lia.
    apply Forall_cons in Hb as [Hhi Hb]. apply Forall_cons in Hb as [Hlo Hb].
    rewrite ReadPacketLen_spec, bind_ok by done.
    simpl in Hi. apply Z.ltb_lt in Hi. rewrite be_decode_2 in *. unfold is_byte in *.
    rewrite (u32_small (2 + _)) by lia.
    by rewrite (proj2 (Z.ltb_lt _ _)) by len_lia.
  - rewrite (proj2 (Z.ltb_lt _ _)) by len_lia.
    rewrite u32_small by len_lia. rewrite (proj2 (Z.ltb_ge _ _)) by len_lia.
    rewrite go_slice_suffix, bind_ok by len_lia.
    pose proof Hb as Hb'. apply Forall_app in Hb' as [_ Hb'].
    apply Forall_cons in Hb' as [Hhi Hb']. apply Forall_cons in Hb' as [Hlo _].
    rewrite ReadPacketLen_spec, bind_ok by done. rewrite <- E.
    rewrite (u32_small (2 + _)) by len_lia. rewrite (proj2 (Z.ltb_ge _ _)) by len_lia.
    rewrite !(u32_small (go_len done + 2)) by len_lia.
    rewrite !u32_small by len_lia.
    replace (done ++ hi :: lo :: body ++ l) with ((done ++ [hi; lo]) ++ body ++ l) in *
      by (by rewrite <- app_assoc).
    rewrite go_slice_mid, bind_ok, go_copy_make by len_lia.
    assert (deliver RpcDecode s body
            = if MAX_PACKET_SIZE <? go_len body then Ok s else RpcDecode s body) as -> by reflexivity.
    destruct (MAX_PACKET_SIZE <? go_len body).
    + rewrite !bind_ok. rewrite app_assoc in *.
      rewrite <- IH with (fuel := fuel); [|done..|simpl in *; lia]. f_equal. len_lia.
    + destruct (RpcDecode s body) as [s'|p|]; [|done|done].
      rewrite !bind_ok. rewrite app_assoc in *.
      rewrite <- IH with (fuel := fuel); [|done..|simpl in *; lia]. f_equal. len_lia.
Qed.

Lemma MessageDecode_spec l fs rem s :
  Frames l fs rem → Forall is_byte l → go_len l < 2 ^ 32 →
  MessageDecode RpcDecode s l
  = (s' ← foldM (deliver RpcDecode) fs s; Ok (go_len l - go_len rem, s')).
Proof.
  intros H Hb Hlen. unfold MessageDecode. rewrite u32_small by len_lia.
  apply (MessageDecode_loop_spec l fs rem H _ []); [done..|].
  apply Frames_length in H. simpl.
  enough (length fs ≤ sum_list_with (λ f : bytes, Datatypes.S (Datatypes.S (length f))) fs)%nat by lia.
  clear. induction fs; simpl; lia.
Qed.

End MessageDecode_spec.

(** ** The receive buffer shared by the read loops

    [TcpClient], [Remote] and [GateProxy] keep a fixed buffer [recvBuf] whose
    first [remainLen] bytes are received and not yet decoded. *)

(** [conn.Read(recvBuf[remainLen:])] that returned the bytes [data]. *)
Definition recv_into (recvBuf : bytes) (remainLen : Z) (data : bytes) : result bytes :=
  free ← go_slice recvBuf remainLen (go_len recvBuf);
  Ok (take (Z.to_nat remainLen) recvBuf ++ go_copy free data).

Section ReceiveBuffer.
  Context {S : Type} (RpcDecode : S → bytes → result S).

(** Decode the buffer, then move the undecoded rest to its front. *)
Definition decode_shift (s : S) (recvBuf : bytes) (remainLen : Z) : result (S * bytes * Z) :=
  msg ← go_slice recvBuf 0 remainLen;
  '(procLen, s) ← MessageDecode RpcDecode s msg;
  let remainLen := u32 (remainLen - procLen) in
  if remainLen <? 0 then Ok (s, recvBuf, 0)
  else
    src ← go_slice recvBuf procLen (u32 (procLen + remainLen));
    Ok (s, go_copy recvBuf src, remainLen).

(** One read of [data] followed by decoding. *)
Definition recv_chunk (st : S * bytes * Z) (data : bytes) : result (S * bytes * Z) :=
  let '(s, recvBuf, remainLen) := st in
  recvBuf ← recv_into recvBuf remainLen data;
  decode_shift s recvBuf (u32 (remainLen + go_len data)).

(** The contract of [Read]: it returns no more bytes than fit behind the
    [pending] ones. *)
Fixpoint reads_fit (cap : Z) (pending : bytes) (chunks : list bytes) : Prop :=
  match chunks with
  | [] => True
  | data :: chunks =>
      go_len pending + go_len data ≤ cap ∧
      ∀ fs rem, Frames (pending ++ data) fs rem → reads_fit cap rem chunks
  end.

Lemma recv_into_spec pending junk data :
  go_len data ≤ go_len junk →
  recv_into (pending ++ junk) (go_len pending) data
  = Ok (pending ++ data ++ drop (length data) junk).
Proof.
  intros H. unfold recv_into. rewrite go_slice_suffix, bind_ok by len_lia.
  rewrite go_copy_fits by (unfold go_len in *; lia). unfold go_len.
  by rewrite Nat2Z.id, take_app_length.
Qed.

Lemma Frames_suffix l fs rem : Frames l fs rem → ∃ consumed, l = consumed ++ rem.
Proof.
  induction 1 as [l|hi lo body l fs rem E H [c ->]]; [by exists []|].
  exists (hi :: lo :: body ++ c). simpl. by rewrite <- app_assoc.
Qed.

Lemma decode_shift_spec s l junk fs rem :
  Frames l fs rem → Forall is_byte l → go_len l < 2 ^ 32 →
  ∃ junk', length (rem ++ junk') = length (l ++ junk) ∧
    decode_shift s (l ++ junk) (go_len l)
    = (s' ← foldM (deliver RpcDecode) fs s; Ok (s', rem ++ junk', go_len rem)).
Proof.
  intros HF Hb Hlen. destruct (Frames_suffix _ _ _ HF) as [c ->].
  exists (drop (length rem) ((c ++ rem) ++ junk)). split.
  { rewrite !length_app, length_drop, !length_app. lia. }
  unfold decode_shift.
  rewrite (go_slice_mid [] (c ++ rem) junk), bind_ok by len_lia.
  rewrite (MessageDecode_spec _ _ fs rem) by done.
  destruct (foldM (deliver RpcDecode) fs s) as [s'|p|]; [|done|done].
  rewrite !bind_ok. rewrite u32_small by len_lia.
  rewrite (proj2 (Z.ltb_ge _ _)) by len_lia.
  rewrite u32_small by len_lia. rewrite <- app_assoc.
  rewrite go_slice_mid, bind_ok by len_lia.
  rewrite go_copy_fits by (rewrite !length_app; lia).
  do 2 f_equal. len_lia.
Qed.

Lemma recv_chunk_spec s pending junk data fs rem :
  Frames (pending ++ data) fs rem → Forall is_byte (pending ++ data) →
  go_len data ≤ go_len junk → go_len (pending ++ junk) < 2 ^ 32 →
  ∃ junk', length (rem ++ junk') = length (pending ++ junk) ∧
    recv_chunk (s, pending ++ junk, go_len pending) data
    = (s' ← foldM (deliver RpcDecode) fs s; Ok (s', rem ++ junk', go_len rem)).
Proof.
  intros HF Hb Hfit Hcap. unfold recv_chunk. rewrite recv_into_spec, bind_ok by done.
  rewrite u32_small, <- go_len_app, app_assoc by len_lia.
  destruct (decode_shift_spec s (pending ++ data) (drop (length data) junk) fs rem)
    as (junk' & Hl & ->); [done..|len_lia|].
  exists junk'. split; [|done]. rewrite Hl, !length_app, length_drop.
  unfold go_len in *. lia.
Qed.

Lemma Frames_rem_bytes l fs rem : Frames l fs rem → Forall is_byte l → Forall is_byte rem.
Proof. intros H Hb. destruct (Frames_suffix _ _ _ H) as [c ->]. by apply Forall_app in Hb as [_ ?]. Qed.

Lemma recv_chunks_spec chunks s pending junk cap fs rem :
  cap = go_len (pending ++ junk) → cap < 2 ^ 32 →
  Forall is_byte pending → Forall (Forall is_byte) chunks →
  incomplete pending = true → reads_fit cap pending chunks →
  Frames (pending ++ concat chunks) fs rem →
  ∃ junk', foldM recv_chunk chunks (s, pending ++ junk, go_len pending)
           = (s' ← foldM (deliver RpcDecode) fs s; Ok (s', rem ++ junk', go_len rem)).
Proof.
  intros Hcap H32. revert s pending junk fs rem Hcap.
  induction chunks as [|data chunks IH]; intros s pending junk fs rem Hcap Hp Hbs Hi Hfit HF.
  - simpl in HF. rewrite app_nil_r in HF. apply Frames_stop_inv in HF as [-> ->]; [|done].
    by exists junk.
  - apply Forall_cons in Hbs as [Hd Hbs]. destruct Hfit as [Hfit Hrest].
    assert (Forall is_byte (pending ++ data)) as Hpd by (by apply Forall_app).
    destruct (Frames_total (pending ++ data)) as (fs1 & rem1 & HF1); [done|].
    destruct (recv_chunk_spec s pending junk data fs1 rem1) as (junk1 & Hl1 & E1);
      [done..|len_lia|len_lia|].
    assert (Forall is_byte rem1) as Hr1 by eauto using Frames_rem_bytes.
    destruct (Frames_total (rem1 ++ concat chunks)) as (fs2 & rem2 & HF2).
    { apply Forall_app. split; [done|]. by apply Forall_concat. }
    pose proof (Frames_app _ _ _ _ _ _ HF1 HF2) as HF'.
    rewrite <- app_assoc in HF'. destruct (Frames_det _ _ _ _ _ HF HF') as [-> ->].
    cbn [foldM]. rewrite E1, foldM_app.
    destruct (foldM (deliver RpcDecode) fs1 s) as [s1|p|]; [|by exists []..].
    rewrite !bind_ok. apply IH; [|done|done|by eapply Frames_rem_incomplete|eauto|done].
    rewrite Hcap. unfold go_len. by rewrite Hl1.
Qed.

(** What every message keeps, decoding a buffer keeps. *)
Lemma decode_shift_preserves (P : S → Prop) s recvBuf remainLen s' buf' rem' :
  (∀ s p s', RpcDecode s p = Ok s' → P s → P s') →
  decode_shift s recvBuf remainLen = Ok (s', buf', rem') → P s → P s'.
Proof.
  intros HP H Hs. unfold decode_shift in H. apply bind_ok_inv in H as (msg & _ & H).
  apply bind_ok_inv in H as ([n s1] & Hd & H).
  assert (P s1) as H1.
  { revert Hd Hs. unfold MessageDecode. generalize (Datatypes.S (length msg)) (u32 (go_len msg)) 0.
    clear -HP. intros fuel. revert s. induction fuel as [|fuel IH]; intros s bufLen offset; cbn [MessageDecode_loop]; [done|].
    destruct (offset <? bufLen); [|by intros [= _ <-]].
    destruct (_ <? MESSAGE_SIZE_LEN); [by intros [= _ <-]|].
    intros (tl & _ & H)%bind_ok_inv. apply bind_ok_inv in H as (pkgLen & _ & H). revert H.
    destruct (_ <? _); [by intros [= _ <-]|]. intros (s2 & H2 & H)%bind_ok_inv Hs.
    apply (IH _ _ _ H). revert H2. destruct (_ <? _); [by intros [= <-]|].
    intros (body & _ & H2)%bind_ok_inv. by eapply HP. }
  destruct (_ <? 0); [by injection H as <- _ _|].
  apply bind_ok_inv in H as (src & _ & H). by injection H as <- _ _.
Qed.

End ReceiveBuffer.

(** ** Claims *)

Lemma frame_Frames p l fs rem :
  go_len p < 2 ^ 16 → Frames l fs rem → Frames (frame p ++ l) (p :: fs) rem.
Proof.
  intros Hp H. unfold frame. rewrite !be_encode_cons, be_encode_0. simpl.
  apply Frames_next; [|done]. rewrite be_decode_2.
  pose proof (Z.div_mod (go_len p) 256 ltac:(lia)).
  pose proof (go_len_nonneg p).
  change (256 ^ Z.of_nat 1) with 256. change (256 ^ Z.of_nat 0) with 1.
  rewrite Z.div_1_r, (Z.mod_small (_ / _)); [lia|].
  split; [apply Z.div_pos; lia|apply Z.div_lt_upper_bound; lia].
Qed.

Lemma frames_Frames ps tail :
  Forall (λ p, go_len p < 2 ^ 16) ps → incomplete tail = true →
  Frames (concat (map frame ps) ++ tail) ps tail.
Proof.
  intros H Ht. induction H as [|p ps Hp Hps IH]; simpl; [by apply Frames_stop|].
  rewrite <- app_assoc. by apply frame_Frames.
Qed.

Lemma MessageEncode_inv p m :
  go_len p < 2 ^ 32 → MessageEncode p = Ok m → m = frame p ∧ go_len p ≤ MAX_PACKET_SIZE.
Proof.
  intros Hp H. destruct (Z.le_gt_cases (go_len p) MAX_PACKET_SIZE) as [Hle|Hgt].
  - rewrite MessageEncode_spec in H by done. by injection H as <-.
  - by rewrite MessageEncode_too_long in H by lia.
Qed.

Lemma foldM_deliver {S} (RpcDecode : S → bytes → result S) ps s :
  Forall (λ p, go_len p ≤ MAX_PACKET_SIZE) ps →
  foldM (deliver RpcDecode) ps s = foldM RpcDecode ps s.
Proof.
  intros H. revert s. induction H as [|p ps Hp Hps IH]; intros s; simpl; [done|].
  rewrite deliver_small by done.
  destruct (RpcDecode s p); simpl; [apply IH|done|done].
Qed.

Lemma frame_bytes p : Forall is_byte p → Forall is_byte (frame p).
Proof. intros. apply Forall_app. split; [apply be_encode_bytes|done]. Qed.

(** (framing round trip).  A buffer holding the encodings of any payloads,
    followed by bytes that do not complete another message, is decoded to
    exactly those payloads, in order, and the length reported as consumed is
    exactly that of the complete messages.  What [RpcDecode] does to the state,
    panics included, is arbitrary. *)
Theorem messages_roundtrip {S} (RpcDecode : S → bytes → result S) (s : S)
    (ps msgs : list bytes) (tail : bytes) :
  Forall (λ p, Forall is_byte p ∧ go_len p < 2 ^ 32) ps →
  Forall2 (λ p m, MessageEncode p = Ok m) ps msgs →
  Forall is_byte tail → incomplete tail = true →
  go_len (concat msgs ++ tail) < 2 ^ 32 →
  MessageDecode RpcDecode s (concat msgs ++ tail)
  = (s' ← foldM RpcDecode ps s; Ok (go_len (concat msgs), s')).
Proof.
  intros Hps Henc Htb Hti Hlen.
  assert (msgs = map frame ps ∧ Forall (λ p, go_len p ≤ MAX_PACKET_SIZE) ps) as [-> Hmax].
  { clear -Hps Henc. induction Henc as [|p m ps ms E Henc IH]; [done|].
    apply Forall_cons in Hps as [[Hb Hp] Hps].
    apply MessageEncode_inv in E as [-> Hle]; [|done].
    destruct (IH Hps) as [-> ?]. split; [done|by apply Forall_cons]. }
  rewrite (MessageDecode_spec _ _ ps tail), foldM_deliver; [|done|..|done].
  - destruct (foldM RpcDecode ps s); [|done|done]. rewrite !bind_ok. do 2 f_equal. len_lia.
  - apply frames_Frames; [|done]. eapply Forall_impl; [done|].
    unfold MAX_PACKET_SIZE. simpl. lia.
  - apply Forall_app. split; [|done]. apply Forall_concat, Forall_fmap.
    eapply Forall_impl; [exact Hps|]. intros p [Hb _]. by apply frame_bytes.
Qed.

Lemma messages_roundtrip_witness :
  MessageDecode (λ s p, Ok (s ++ [p])) [] ([0; 2; 10; 11] ++ [0; 1; 9] ++ [0; 3; 7])
  = Ok (7, [[10; 11]; [9]]).
Proof.
  apply (messages_roundtrip (λ s p, Ok (s ++ [p])) [] [[10; 11]; [9]]
           [[0; 2; 10; 11]; [0; 1; 9]] [0; 3; 7]); try reflexivity.
  - repeat constructor; unfold is_byte; lia.
  - repeat constructor.
  - repeat constructor; unfold is_byte; lia.
Defined.

(** C33 (the decoder is total).  On every byte buffer below 4 GiB,
    [MessageDecode] terminates within its fuel and raises no panic of its own:
    it delivers the payloads of the complete frames that are at most
    [MAX_PACKET_SIZE] long, in order, skips longer ones, and consumes all but an
    incomplete frame, which is at most 65536 bytes. *)
Theorem MessageDecode_total {S} (RpcDecode : S → bytes → result S) (s : S) (l : bytes) :
  Forall is_byte l → go_len l < 2 ^ 32 →
  ∃ fs rem, Frames l fs rem ∧
    MessageDecode RpcDecode s l
    = (s' ← foldM RpcDecode (filter (λ f, go_len f ≤ MAX_PACKET_SIZE) fs) s;
       Ok (go_len l - go_len rem, s')) ∧
    0 ≤ go_len rem ≤ go_len l ∧ go_len rem ≤ 65536.
Proof.
  intros Hb Hlen. destruct (Frames_total l Hb) as (fs & rem & HF). exists fs, rem.
  split; [done|]. split; [|split].
  - rewrite (MessageDecode_spec _ _ fs rem) by done. f_equal. clear.
    revert s. induction fs as [|f fs IH]; intros s; [done|]. cbn [foldM].
    rewrite filter_cons. case_decide as Hd.
    + rewrite deliver_small by done. cbn [foldM].
      destruct (RpcDecode s f); [apply IH|done|done].
    + rewrite deliver_large by lia. apply IH.
  - destruct (Frames_suffix _ _ _ HF) as [c ->]. len_lia.
  - pose proof (incomplete_bound rem (Frames_rem_bytes _ _ _ HF Hb) (Frames_rem_incomplete _ _ _ HF)).
    unfold MESSAGE_SIZE_LEN in *. lia.
Qed.

Lemma MessageDecode_total_witness :
  ∃ fs rem, Frames [0; 1; 9; 0] fs rem ∧
    MessageDecode (λ s p, Ok (s ++ [p])) [] [0; 1; 9; 0]
    = (s' ← foldM (λ s p, Ok (s ++ [p])) (filter (λ f, go_len f ≤ MAX_PACKET_SIZE) fs) [];
       Ok (4 - go_len rem, s')) ∧
    0 ≤ go_len rem ≤ 4 ∧ go_len rem ≤ 65536.
Proof.
  apply (MessageDecode_total (λ s p, Ok (s ++ [p])) [] [0; 1; 9; 0]).
  - repeat constructor; unfold is_byte; lia.
  - reflexivity.
Defined.

(** C5 (reassembly).  However the bytes of a connection are divided into reads,
    the read loop hands [RpcDecode] exactly the payloads of the byte stream, in
    order: the result, a panic of [RpcDecode] included, is that of delivering
    the frames of the concatenated reads.  The undecoded rest stays at the
    front of the buffer and never exceeds 65536 bytes, so a buffer larger than
    that always has room for the next read. *)
Theorem reassembly {S} (RpcDecode : S → bytes → result S) (s : S)
    (recvBuf : bytes) (chunks : list bytes) :
  go_len recvBuf < 2 ^ 32 →
  Forall (Forall is_byte) chunks → reads_fit (go_len recvBuf) [] chunks →
  ∃ fs rem junk, Frames (concat chunks) fs rem ∧ go_len rem ≤ 65536 ∧
    foldM (recv_chunk RpcDecode) chunks (s, recvBuf, 0)
    = (s' ← foldM (deliver RpcDecode) fs s; Ok (s', rem ++ junk, go_len rem)).
Proof.
  intros Hcap Hb Hfit.
  assert (Forall is_byte (concat chunks)) as Hbs by (by apply Forall_concat).
  destruct (Frames_total (concat chunks) Hbs) as (fs & rem & HF).
  destruct (recv_chunks_spec RpcDecode chunks s [] recvBuf (go_len recvBuf) fs rem)
    as [junk E]; [done..|].
  exists fs, rem, junk. split; [done|]. split; [|done].
  pose proof (incomplete_bound rem (Frames_rem_bytes _ _ _ HF Hbs) (Frames_rem_incomplete _ _ _ HF)).
  unfold MESSAGE_SIZE_LEN in *. lia.
Qed.

Lemma reassembly_witness :
  ∃ fs rem junk, Frames (concat [[0]; [2; 5]; [6; 0; 1]]) fs rem ∧ go_len rem ≤ 65536 ∧
    foldM (recv_chunk (λ s p, Ok (s ++ [p]))) [[0]; [2; 5]; [6; 0; 1]] ([], replicate 8 0, 0)
    = (s' ← foldM (deliver (λ s p, Ok (s ++ [p]))) fs []; Ok (s', rem ++ junk, go_len rem)).
Proof.
  apply (reassembly (λ s p, Ok (s ++ [p])) [] (replicate 8 0) [[0]; [2; 5]; [6; 0; 1]]).
  - reflexivity.
  - repeat constructor; unfold is_byte; lia.
  - simpl. split; [vm_compute; discriminate|]. intros fs rem H.
    apply Frames_stop_inv in H as [_ ->]; [|reflexivity].
    split; [vm_compute; discriminate|]. intros fs' rem' H.
    apply Frames_stop_inv in H as [_ ->]; [|reflexivity].
    split; [vm_compute; discriminate|]. done.
Defined.

Example reassembly_ex :
  foldM (recv_chunk (λ s p, Ok (s ++ [p]))) [[0]; [2; 5]; [6; 0; 1]] ([], replicate 8 0, 0)
  = Ok ([[5; 6]], [0; 1; 5; 6; 0; 1; 0; 0], 2).
Proof. reflexivity. Qed.
