(* ===== verification/LoadBalancer.v ===== *)
(** * The load balancer ([src/ms_framework/msf_load_balancer.go])

    A set of targets with usage weights, and a round-robin index kept in 16
    bits.  Go iterates over a map in an unspecified order; the code sorts the
    keys before it uses them, so the model takes any enumeration of the keys and
    [sort_Strings_order] shows that the choice does not matter. *)

From S2P Require Import Prelude.
From stdpp Require Import sorting.

Local Open Scope Z_scope.

Definition BalanceStrategy_Rand : Z := 0.
Definition BalanceStrategy_RoundRobin : Z := 1.
Definition BalanceStrategy_TODO : Z := 2.

(** The initial value of the package variable [BALANCE_STRATEGY]. *)
Definition BALANCE_STRATEGY : Z := BalanceStrategy_RoundRobin.

Record BalanceInfo := mkBalanceInfo { weight : Z }.

(** A nil [elements] reads as the empty map, and [AddElement] allocates it
    before the first write: both are [∅] here. *)
Record LoadBalancer := mkLoadBalancer {
  elements : gmap string BalanceInfo;
  rrbIdx : Z;
}.

(** [&LoadBalancer{}] *)
Definition new_LoadBalancer : LoadBalancer := mkLoadBalancer ∅ 0.

Definition AddElement (l : LoadBalancer) (ele : string) : bool * LoadBalancer :=
  match elements l !! ele with
  | Some _ => (false, l)
  | None => (true, mkLoadBalancer (<[ele := mkBalanceInfo 0]> (elements l)) (rrbIdx l))
  end.

Definition DelElement (l : LoadBalancer) (ele : string) : bool * LoadBalancer :=
  match elements l !! ele with
  | None => (false, l)
  | Some _ => (true, mkLoadBalancer (delete ele (elements l)) (rrbIdx l))
  end.

(** [sort.Strings]: byte-wise lexicographic order. *)
Definition sort_Strings (m : list string) : list string := merge_sort String.le m.

(** The sorted keys that [LoadBalanceRand] and [LoadBalanceRoundRobin] build
    under the read lock. *)
Definition snapshot (l : LoadBalancer) : list string :=
  sort_Strings (map_to_list (elements l)).*1.

(** [rand.Intn(len(m))] is the argument [intn]. *)
Definition LoadBalanceRand (intn : Z → Z) (l : LoadBalancer) : result string :=
  if decide (size (elements l) = 0%nat) then Ok EmptyString
  else
    let m := snapshot l in
    go_index m (intn (go_len m)).

(** The second critical section of [LoadBalanceRoundRobin], entered with the
    keys [m] of the first; other goroutines may have changed [l] in between. *)
Definition RoundRobin_pick (m : list string) (l : LoadBalancer) : result (string * LoadBalancer) :=
  let idx := if u16 (go_len m) <=? rrbIdx l then 0 else rrbIdx l in
  ele ← go_index m idx;
  Ok (ele, mkLoadBalancer (elements l) (u16 (idx + 1))).

Definition LoadBalanceRoundRobin (l : LoadBalancer) : result (string * LoadBalancer) :=
  if decide (size (elements l) = 0%nat) then Ok (EmptyString, l)
  else RoundRobin_pick (snapshot l) l.

(** The weight update that closes [LoadBalance]. *)
Definition add_weight (ele : string) (l : LoadBalancer) : LoadBalancer :=
  match elements l !! ele with
  | Some element =>
      mkLoadBalancer (<[ele := mkBalanceInfo (u32 (weight element + 1))]> (elements l)) (rrbIdx l)
  | None => l
  end.

Definition LoadBalance (strategy : Z) (intn : Z → Z) (l : LoadBalancer)
    : result (string * LoadBalancer) :=
  '(ele, l) ←
     (if strategy =? BalanceStrategy_Rand then ele ← LoadBalanceRand intn l; Ok (ele, l)
      else if strategy =? BalanceStrategy_RoundRobin then LoadBalanceRoundRobin l
      else LoadBalanceRoundRobin l);
  Ok (ele, add_weight ele l).

(** [n] consecutive calls under the default strategy. *)
Fixpoint LoadBalances (n : nat) (l : LoadBalancer) : result (list string * LoadBalancer) :=
  match n with
  | O => Ok ([], l)
  | S n =>
      '(ele, l) ← LoadBalance BALANCE_STRATEGY (λ _, 0) l;
      '(eles, l) ← LoadBalances n l;
      Ok (ele :: eles, l)
  end.

(** ** Invariant: the index is a [uint16] *)

Definition lb_wf (l : LoadBalancer) : Prop := 0 ≤ rrbIdx l < 2 ^ 16.

Definition members (l : LoadBalancer) : gset string := dom (elements l).

(** ** Sorting *)

Lemma sort_Strings_order (m m' : list string) : m ≡ₚ m' → sort_Strings m = sort_Strings m'.
Proof.
  intros H. apply (StronglySorted_unique String.le);
    [apply (StronglySorted_merge_sort String.le)..|].
  unfold sort_Strings. by rewrite !merge_sort_Permutation.
Qed.

Lemma snapshot_perm l : snapshot l ≡ₚ (map_to_list (elements l)).*1.
Proof. apply merge_sort_Permutation. Qed.

Lemma snapshot_NoDup l : NoDup (snapshot l).
Proof. rewrite snapshot_perm. apply NoDup_fst_map_to_list. Qed.

Lemma elem_of_snapshot l e : e ∈ snapshot l ↔ e ∈ members l.
Proof.
  rewrite snapshot_perm. unfold members. rewrite elem_of_dom, list_elem_of_fmap. split.
  - intros ([k v] & -> & H%elem_of_map_to_list). by exists v.
  - intros [v H]. exists (e, v). split; [done|]. by apply elem_of_map_to_list.
Qed.

Lemma snapshot_length l : length (snapshot l) = size (elements l).
Proof. rewrite snapshot_perm, length_fmap. apply length_map_to_list. Qed.

(** ** Picking *)

Lemma RoundRobin_pick_ok m l :
  lb_wf l → m ≠ [] →
  ∃ e idx, 0 ≤ idx < go_len m ∧ m !! Z.to_nat idx = Some e ∧
    idx = (if u16 (go_len m) <=? rrbIdx l then 0 else rrbIdx l) ∧
    RoundRobin_pick m l = Ok (e, mkLoadBalancer (elements l) (u16 (idx + 1))).
Proof.
  unfold lb_wf. intros Hwf Hm. unfold RoundRobin_pick.
  set (idx := if u16 (go_len m) <=? rrbIdx l then 0 else rrbIdx l).
  assert (0 ≤ idx < go_len m) as Hidx.
  { unfold idx. destruct m as [|x m]; [done|].
    destruct (Z.leb_spec (u16 (go_len (x :: m))) (rrbIdx l)) as [|Hlt]; [len_lia|].
    unfold u16 in Hlt.
    pose proof (Z.mod_le (go_len (x :: m)) (2 ^ 16) (go_len_nonneg _) ltac:(lia)). lia. }
  destruct (m !! Z.to_nat idx) as [e|] eqn:He.
  - exists e, idx. split; [done|]. split; [done|]. split; [done|].
    unfold go_index. rewrite (proj2 (Z.ltb_ge _ _)) by lia. by rewrite He.
  - apply lookup_ge_None in He. unfold go_len in Hidx. lia.
Qed.

Lemma add_weight_members e l : members (add_weight e l) = members l.
Proof.
  unfold add_weight, members. destruct (elements l !! e) eqn:E; [|done]. simpl.
  rewrite dom_insert_L. apply elem_of_dom_2 in E. set_solver.
Qed.

Lemma add_weight_rrbIdx e l : rrbIdx (add_weight e l) = rrbIdx l.
Proof. unfold add_weight. by destruct (elements l !! e). Qed.

Lemma members_size l : size (elements l) = size (members l).
Proof. unfold members. by rewrite size_dom. Qed.

Lemma snapshot_members l l' : members l = members l' → snapshot l = snapshot l'.
Proof.
  intros H. apply sort_Strings_order, NoDup_Permutation; [apply NoDup_fst_map_to_list..|].
  intros e. rewrite <- !snapshot_perm, !elem_of_snapshot. by rewrite H.
Qed.

(** One call under round robin, on a non-empty balancer. *)
Lemma LoadBalance_rr strategy intn l :
  strategy ≠ BalanceStrategy_Rand → lb_wf l → members l ≠ ∅ →
  ∃ e idx l', 0 ≤ idx < go_len (snapshot l) ∧ snapshot l !! Z.to_nat idx = Some e ∧
    idx = (if u16 (go_len (snapshot l)) <=? rrbIdx l then 0 else rrbIdx l) ∧
    LoadBalance strategy intn l = Ok (e, l') ∧
    members l' = members l ∧ rrbIdx l' = u16 (idx + 1).
Proof.
  intros Hs Hwf Hne. unfold LoadBalance.
  rewrite (proj2 (Z.eqb_neq _ _)) by done.
  assert (size (elements l) ≠ 0%nat).
  { rewrite members_size. by intros E%size_empty_inv%leibniz_equiv. }
  assert (snapshot l ≠ []).
  { intros E. pose proof (snapshot_length l) as Hl. rewrite E in Hl. simpl in Hl. lia. }
  destruct (RoundRobin_pick_ok (snapshot l) l) as (e & idx & Hidx & He & Ei & E); [done..|].
  exists e, idx, (add_weight e (mkLoadBalancer (elements l) (u16 (idx + 1)))).
  split; [done|]. split; [done|]. split; [done|]. split; [|split].
  - destruct (strategy =? BalanceStrategy_RoundRobin); unfold LoadBalanceRoundRobin;
      rewrite decide_False by done; by rewrite E.
  - by rewrite add_weight_members.
  - by rewrite add_weight_rrbIdx.
Qed.

Lemma LoadBalance_empty strategy intn l :
  members l = ∅ → LoadBalance strategy intn l = Ok (EmptyString, l).
Proof.
  intros H. assert (elements l = ∅) as He by (by apply dom_empty_inv_L).
  assert (size (elements l) = 0%nat) as Hs by (by rewrite He).
  unfold LoadBalance, LoadBalanceRand, LoadBalanceRoundRobin, add_weight.
  rewrite !decide_True by done.
  destruct (strategy =? _); [|destruct (strategy =? _)]; simpl; by rewrite He, lookup_empty.
Qed.

(** ** Fairness of round robin *)

(** The index the next pick uses when the balancer has [k] elements. *)
Definition next_idx (l : LoadBalancer) : nat :=
  let k := go_len (snapshot l) in
  Z.to_nat (if u16 k <=? rrbIdx l then 0 else rrbIdx l).

Lemma LoadBalances_app a b l :
  LoadBalances (a + b) l
  = ('(es1, l1) ← LoadBalances a l; '(es2, l2) ← LoadBalances b l1; Ok (es1 ++ es2, l2)).
Proof.
  revert l. induction a as [|a IH]; intros l; cbn [Nat.add LoadBalances].
  - rewrite bind_ok. by destruct (LoadBalances b l) as [[]| |].
  - destruct (LoadBalance _ _ l) as [[e l']| |]; [|done..]. rewrite !bind_ok, IH.
    destruct (LoadBalances a l') as [[es1 l1]| |]; [|done..]. rewrite !bind_ok.
    by destruct (LoadBalances b l1) as [[]| |].
Qed.

(** A run that does not pass the end of the sorted list reads it in order. *)
Lemma LoadBalances_segment n l :
  lb_wf l → members l ≠ ∅ → go_len (snapshot l) < 2 ^ 16 →
  (next_idx l + n ≤ length (snapshot l))%nat →
  ∃ l', LoadBalances n l = Ok (take n (drop (next_idx l) (snapshot l)), l') ∧
    lb_wf l' ∧ members l' = members l ∧
    next_idx l' = if decide (next_idx l + n = length (snapshot l))%nat then 0%nat
                  else (next_idx l + n)%nat.
Proof.
  revert l. induction n as [|n IH]; intros l Hwf Hne Hk Hn.
  { exists l. rewrite take_0, Nat.add_0_r. split; [done|]. split; [done|]. split; [done|].
    rewrite decide_False; [done|]. unfold next_idx.
    destruct (LoadBalance_rr 1 (λ _, 0) l) as (e & idx & l' & Hidx & _ & -> & _); [done..|].
    unfold go_len in *. lia. }
  destruct (LoadBalance_rr BALANCE_STRATEGY (λ _, 0) l)
    as (e & idx & l1 & Hidx & He & Ei & E & Hm & Hr); [done..|].
  assert (snapshot l1 = snapshot l) as Hsn by (by apply snapshot_members).
  assert (next_idx l = Z.to_nat idx) as Hnx by (unfold next_idx; by rewrite Ei).
  unfold go_len in Hidx, Hk. rewrite Hnx in *.
  assert (rrbIdx l1 = idx + 1) as Hr1 by (rewrite Hr, u16_small; lia).
  assert (next_idx l1 = if decide (Z.to_nat idx + 1 = length (snapshot l))%nat then 0%nat
                        else (Z.to_nat idx + 1)%nat) as Hnx1.
  { unfold next_idx, go_len. rewrite Hsn, Hr1, u16_small by lia.
    case_decide; [rewrite (proj2 (Z.leb_le _ _)) by lia|rewrite (proj2 (Z.leb_gt _ _)) by lia]; lia. }
  cbn [LoadBalances]. rewrite E, bind_ok.
  destruct (decide (n = 0%nat)) as [->|Hn0].
  { exists l1. simpl. rewrite (drop_S _ e) by done. simpl. rewrite take_0.
    split; [done|]. split; [unfold lb_wf; lia|]. by split. }
  rewrite decide_False in Hnx1 by lia.
  destruct (IH l1) as (l2 & E2 & Hwf2 & Hm2 & Hnx2);
    [unfold lb_wf; lia|congruence|by rewrite Hsn|rewrite Hsn, Hnx1; lia|].
  exists l2. rewrite E2, bind_ok, Hsn, Hnx1. rewrite (drop_S _ e (Z.to_nat idx)) by done. simpl.
  rewrite Nat.add_1_r. split; [done|]. split; [done|]. split; [congruence|].
  rewrite Hnx2, Hsn, Hnx1. by rewrite <- Nat.add_assoc.
Qed.

(** A full turn returns every element once and comes back to its index. *)
Lemma LoadBalances_turn l :
  lb_wf l → members l ≠ ∅ → Z.of_nat (size (members l)) < 2 ^ 16 →
  ∃ es l', LoadBalances (size (members l)) l = Ok (es, l') ∧ es ≡ₚ snapshot l ∧
    lb_wf l' ∧ members l' = members l.
Proof.
  intros Hwf Hne Hk. rewrite <- members_size, <- snapshot_length in *.
  assert (next_idx l < length (snapshot l))%nat as Hi.
  { unfold next_idx. destruct (LoadBalance_rr 1 (λ _, 0) l) as (e & idx & l' & Hidx & _ & -> & _); [done..|].
    unfold go_len in *. lia. }
  set (i := next_idx l) in *. set (m := snapshot l) in *.
  destruct (LoadBalances_segment (length m - i) l) as (l1 & E1 & Hwf1 & Hm1 & Hn1);
    [done..|fold i m; lia|]. fold i m in E1, Hn1. rewrite decide_True in Hn1 by lia.
  assert (snapshot l1 = m) as Hsn by (by apply snapshot_members).
  destruct (LoadBalances_segment i l1) as (l2 & E2 & Hwf2 & Hm2 & Hn2);
    [done|congruence|by rewrite Hsn|rewrite Hsn; lia|].
  exists (drop i m ++ take i m), l2. split; [|split; [|split]].
  - replace (length m) with ((length m - i) + i)%nat at 1 by lia.
    rewrite LoadBalances_app, E1, bind_ok, E2, bind_ok, Hsn, Hn1, drop_0.
    by rewrite take_ge by (rewrite length_drop; lia).
  - rewrite Permutation_app_comm. by rewrite take_drop.
  - done.
  - congruence.
Qed.

(** ** Claims *)

(** C38 (round robin is fair).  While the set of targets does not change and has
    fewer than 65536 members, any [q] full turns of [LoadBalance] return each
    target exactly [q] times, whatever the index they start from; the set of
    targets is left as it was. *)
Theorem round_robin_fair (q : nat) (l : LoadBalancer) :
  lb_wf l → members l ≠ ∅ → Z.of_nat (size (members l)) < 2 ^ 16 →
  ∃ es l', LoadBalances (q * size (members l)) l = Ok (es, l') ∧
    es ≡ₚ concat (replicate q (base.elements (members l))) ∧
    members l' = members l ∧ lb_wf l'.
Proof.
  revert l. induction q as [|q IH]; intros l Hwf Hne Hk.
  - exists [], l. done.
  - destruct (LoadBalances_turn l) as (es1 & l1 & E1 & P1 & Hwf1 & Hm1); [done..|].
    destruct (IH l1) as (es2 & l2 & E2 & P2 & Hm2 & Hwf2); [done|congruence|by rewrite Hm1|].
    rewrite Hm1 in *. exists (es1 ++ es2), l2. split; [|split; [|done]].
    + simpl. rewrite LoadBalances_app, E1, bind_ok, E2. done.
    + simpl. rewrite P1, P2. f_equiv. apply NoDup_Permutation;
        [apply snapshot_NoDup|apply NoDup_elements|].
      intros e. by rewrite elem_of_snapshot, elem_of_elements.
Qed.

Definition lb_example : LoadBalancer :=
  (AddElement (AddElement (AddElement new_LoadBalancer "e2").2 "e1").2 "e3").2.

Lemma round_robin_fair_witness :
  ∃ es l', LoadBalances (2 * size (members lb_example)) lb_example = Ok (es, l') ∧
    es ≡ₚ concat (replicate 2 (base.elements (members lb_example))) ∧
    members l' = members lb_example ∧ lb_wf l'.
Proof.
  apply (round_robin_fair 2 lb_example).
  - unfold lb_wf. vm_compute. split; discriminate || reflexivity.
  - intros H. apply (f_equal size) in H. vm_compute in H. discriminate.
  - vm_compute. reflexivity.
Defined.

(** (no panic under interleaving).  The keys are read under one lock and the
    index is used under another.  Whatever other goroutines do to the balancer
    between the two, the pick is in range and returns one of the keys that were
    read; the targets present by then are untouched. *)
Theorem round_robin_interleaved (l l' : LoadBalancer) :
  members l ≠ ∅ → lb_wf l' →
  ∃ e l'', RoundRobin_pick (snapshot l) l' = Ok (e, l'') ∧
    e ∈ members l ∧ elements l'' = elements l' ∧ lb_wf l''.
Proof.
  intros Hne Hwf.
  assert (snapshot l ≠ []) as Hs.
  { intros E. apply Hne. apply elem_of_equiv_empty_L. intros e.
    rewrite <- elem_of_snapshot, E. apply not_elem_of_nil. }
  destruct (RoundRobin_pick_ok (snapshot l) l') as (e & idx & Hidx & He & _ & E); [done..|].
  exists e, (mkLoadBalancer (elements l') (u16 (idx + 1))). split; [done|]. split; [|split].
  - apply elem_of_snapshot. by eapply list_elem_of_lookup_2.
  - done.
  - apply u16_range.
Qed.

Lemma round_robin_interleaved_witness :
  ∃ e l'', RoundRobin_pick (snapshot lb_example) new_LoadBalancer = Ok (e, l'') ∧
    e ∈ members lb_example ∧ elements l'' = elements new_LoadBalancer ∧ lb_wf l''.
Proof.
  apply (round_robin_interleaved lb_example new_LoadBalancer).
  - intros H. apply (f_equal size) in H. vm_compute in H. discriminate.
  - unfold lb_wf. simpl. lia.
Defined.

(** (the 16-bit index).  When the number of targets is a multiple of 65536,
    [uint16(len(m))] is 0, the index is reset before every pick, and every call
    returns the first target in sorted order: the others are starved. *)
Theorem round_robin_overflow (n : nat) (l : LoadBalancer) :
  lb_wf l → members l ≠ ∅ → Z.of_nat (size (members l)) mod 2 ^ 16 = 0 →
  ∃ e l', head (snapshot l) = Some e ∧ LoadBalances n l = Ok (replicate n e, l').
Proof.
  intros Hwf Hne Hk.
  assert (∃ e, snapshot l !! 0%nat = Some e) as [e0 He0].
  { destruct (LoadBalance_rr 1 (λ _, 0) l) as (e & idx & _ & Hidx & _); [done..|].
    apply lookup_lt_is_Some. unfold go_len in Hidx. lia. }
  exists e0. enough (∃ l', LoadBalances n l = Ok (replicate n e0, l')) as [l' E].
  { exists l'. split; [|done]. by destruct (snapshot l). }
  revert l Hwf Hne Hk He0. induction n as [|n IH]; intros l Hwf Hne Hk He0; [by exists l|].
  destruct (LoadBalance_rr BALANCE_STRATEGY (λ _, 0) l)
    as (e & idx & l1 & Hidx & He & Ei & E & Hm & Hr); [done..|].
  assert (idx = 0) as ->.
  { rewrite Ei. unfold u16, go_len. rewrite snapshot_length, members_size, Hk.
    unfold lb_wf in Hwf. by rewrite (proj2 (Z.leb_le _ _)) by lia. }
  assert (e = e0) as -> by (change (Z.to_nat 0) with 0%nat in He; congruence).
  destruct (IH l1) as [l2 E2].
  - unfold lb_wf. rewrite Hr. apply u16_range.
  - congruence.
  - by rewrite Hm.
  - by rewrite (snapshot_members l1 l).
  - exists l2. cbn [LoadBalances]. rewrite E, bind_ok, E2. done.
Qed.

(** A balancer with [n] targets, named by their numbers. *)
Definition lb_numbered (n : nat) : LoadBalancer :=
  mkLoadBalancer (list_to_map (map (λ i, (pretty i, mkBalanceInfo 0)) (seq 0 n))) 0.

Lemma lb_numbered_size n : size (members (lb_numbered n)) = n.
Proof.
  rewrite <- members_size. unfold lb_numbered. cbn [elements].
  rewrite map_size_list_to_map; [by rewrite length_map, length_seq|].
  rewrite <- list_fmap_compose. apply NoDup_fmap_2; [|apply NoDup_seq].
  intros i j. cbn. apply (inj pretty).
Qed.

Lemma round_robin_overflow_witness :
  ∃ e l', head (snapshot (lb_numbered (Z.to_nat (2 ^ 16)))) = Some e ∧
    LoadBalances 3 (lb_numbered (Z.to_nat (2 ^ 16))) = Ok (replicate 3 e, l').
Proof.
  apply (round_robin_overflow 3 (lb_numbered (Z.to_nat (2 ^ 16)))).
  - unfold lb_wf, lb_numbered. cbn [rrbIdx]. lia.
  - intros H. apply (f_equal size) in H. rewrite lb_numbered_size, size_empty in H. lia.
  - rewrite lb_numbered_size, Z2Nat.id by lia. by rewrite Z.mod_same.
Defined.

(** ** The interface other components rely on *)

(** What a balancer promises to its clients: a set of members under [bal_add]
    and [bal_del], and a [bal_pick] that always returns one of them. *)
Class Balancer (L : Type) := {
  bal_new : L;
  bal_add : L → string → bool * L;
  bal_del : L → string → bool * L;
  bal_pick : L → result (string * L);
  bal_members : L → gset string;
  bal_wf : L → Prop;
  bal_new_spec : bal_wf bal_new ∧ bal_members bal_new = ∅;
  bal_add_spec l e : bal_wf l →
    (bal_add l e).1 = bool_decide (e ∉ bal_members l) ∧
    bal_members (bal_add l e).2 = {[e]} ∪ bal_members l ∧ bal_wf (bal_add l e).2;
  bal_del_spec l e : bal_wf l →
    (bal_del l e).1 = bool_decide (e ∈ bal_members l) ∧
    bal_members (bal_del l e).2 = bal_members l ∖ {[e]} ∧ bal_wf (bal_del l e).2;
  bal_pick_empty l : bal_wf l → bal_members l = ∅ → bal_pick l = Ok (EmptyString, l);
  bal_pick_spec l : bal_wf l → bal_members l ≠ ∅ →
    ∃ e l', bal_pick l = Ok (e, l') ∧ e ∈ bal_members l ∧
      bal_members l' = bal_members l ∧ bal_wf l';
}.

Lemma AddElement_spec l e :
  lb_wf l →
  (AddElement l e).1 = bool_decide (e ∉ members l) ∧
  members (AddElement l e).2 = {[e]} ∪ members l ∧ lb_wf (AddElement l e).2.
Proof.
  intros Hwf. unfold AddElement, members in *.
  destruct (elements l !! e) as [b|] eqn:E; simpl.
  - apply elem_of_dom_2 in E. rewrite bool_decide_eq_false_2 by (intros H; by apply H).
    split; [done|]. split; [set_solver|done].
  - apply not_elem_of_dom in E. rewrite bool_decide_eq_true_2 by done.
    by rewrite dom_insert_L.
Qed.

Lemma DelElement_spec l e :
  lb_wf l →
  (DelElement l e).1 = bool_decide (e ∈ members l) ∧
  members (DelElement l e).2 = members l ∖ {[e]} ∧ lb_wf (DelElement l e).2.
Proof.
  intros Hwf. unfold DelElement, members in *.
  destruct (elements l !! e) as [b|] eqn:E; simpl.
  - apply elem_of_dom_2 in E. rewrite bool_decide_eq_true_2 by done. by rewrite dom_delete_L.
  - apply not_elem_of_dom in E. rewrite bool_decide_eq_false_2 by done.
    split; [done|]. split; [set_solver|done].
Qed.

#[export, refine] Instance LoadBalancer_Balancer : Balancer LoadBalancer := {|
  bal_new := new_LoadBalancer;
  bal_add := AddElement;
  bal_del := DelElement;
  bal_pick := LoadBalance BALANCE_STRATEGY (λ _, 0);
  bal_members := members;
  bal_wf := lb_wf;
|}.
Proof.
  - unfold lb_wf, members. simpl. by rewrite dom_empty_L.
  - apply AddElement_spec.
  - apply DelElement_spec.
  - intros l _. apply LoadBalance_empty.
  - intros l Hwf Hne.
    destruct (LoadBalance_rr BALANCE_STRATEGY (λ _, 0) l)
      as (e & idx & l1 & Hidx & He & Ei & E & Hm & Hr); [done..|].
    exists e, l1. split; [done|]. split; [|split].
    + apply elem_of_snapshot. by eapply list_elem_of_lookup_2.
    + done.
    + unfold lb_wf. rewrite Hr. apply u16_range.
Defined.

(** ** The test drivers *)

(** [loop] calls of [LoadBalance]; [intn i] is the random source when [i] calls are
    left. *)
Fixpoint lb_loop (strategy : Z) (intn : nat → Z → Z) (loop : nat) (l : LoadBalancer) : result LoadBalancer :=
  match loop with
  | O => Ok l
  | S loop => '(_, l) ← LoadBalance strategy (intn loop) l; lb_loop strategy intn loop l
  end.

(** The two states that a driver prints. *)
Definition lb_driver (loop : nat) (strategy : Z) (intn1 intn2 : nat → Z → Z) : result (LoadBalancer * LoadBalancer) :=
  let lb := foldl (λ lb e, (AddElement lb e).2) new_LoadBalancer ["e1"; "e2"; "e3"; "e4"; "e5"] in
  lb1 ← lb_loop strategy intn1 loop lb;
  let lb := (AddElement (DelElement (DelElement lb1 "e4").2 "e5").2 "e6").2 in
  lb2 ← lb_loop strategy intn2 loop lb;
  Ok (lb1, lb2).

Definition lbRandTest (intn1 intn2 : nat → Z → Z) : result (LoadBalancer * LoadBalancer) :=
  lb_driver 1000 BalanceStrategy_Rand intn1 intn2.

Definition lbRoundRobinTest : result (LoadBalancer * LoadBalancer) :=
  lb_driver 1000 BalanceStrategy_RoundRobin (λ _ _, 0) (λ _ _, 0).

(** The sum of the weights. *)
Definition total_weight (l : LoadBalancer) : Z := map_fold (λ _ b n, weight b + n) 0 (elements l).

(** No weight is close to its width. *)
Definition light (n : Z) (l : LoadBalancer) : Prop :=
  ∀ e b, elements l !! e = Some b → 0 ≤ weight b < 2 ^ 32 - n.

Lemma total_weight_delete (m : gmap string BalanceInfo) e b :
  m !! e = Some b →
  map_fold (λ _ b n, weight b + n) 0 m = weight b + map_fold (λ _ b n, weight b + n) 0 (delete e m).
Proof. intros H. rewrite (map_fold_delete_L _ _ e b m); [done|intros; lia|done]. Qed.

Lemma total_weight_insert (m : gmap string BalanceInfo) e b b' :
  m !! e = Some b →
  map_fold (λ _ b n, weight b + n) 0 (<[e := b']> m) = map_fold (λ _ b n, weight b + n) 0 m + weight b' - weight b.
Proof.
  intros H. rewrite (total_weight_delete _ e b') by apply lookup_insert_eq.
  rewrite (total_weight_delete _ e b H), delete_insert_eq. lia.
Qed.

Lemma add_weight_total e l n :
  0 ≤ n → light (n + 1) l → e ∈ members l → total_weight (add_weight e l) = total_weight l + 1 ∧ light n (add_weight e l).
Proof.
  intros Hn Hl He. unfold members in He. apply elem_of_dom in He as [b Hb]. unfold add_weight. rewrite Hb. pose proof (Hl e b Hb) as Hw.
  rewrite u32_small by lia. split.
  - unfold total_weight. cbn [elements]. rewrite (total_weight_insert _ e b) by done. cbn. lia.
  - intros e' b'. cbn [elements]. rewrite lookup_insert. case_decide as He; [subst|].
    + intros [= <-]. cbn. lia.
    + intros H. specialize (Hl e' b' H). lia.
Qed.

(** One random choice. *)
Lemma LoadBalance_rand intn l :
  members l ≠ ∅ → (∀ n, 0 < n → 0 ≤ intn n < n) →
  ∃ e, LoadBalance BalanceStrategy_Rand intn l = Ok (e, add_weight e l) ∧ e ∈ members l.
Proof.
  intros Hne Hi. unfold LoadBalance. cbn [Z.eqb BalanceStrategy_Rand]. unfold LoadBalanceRand.
  assert (size (elements l) ≠ 0%nat) as Hs.
  { rewrite members_size. by intros E%size_empty_inv%leibniz_equiv. }
  rewrite decide_False by done. pose proof (snapshot_length l) as Hlen.
  specialize (Hi (go_len (snapshot l)) ltac:(unfold go_len; lia)).
  destruct (snapshot l !! Z.to_nat (intn (go_len (snapshot l)))) as [e|] eqn:He.
  - exists e. unfold go_index. rewrite (proj2 (Z.ltb_ge _ _)) by lia. rewrite He. split; [done|].
    apply elem_of_snapshot. by eapply list_elem_of_lookup_2.
  - apply lookup_ge_None in He. unfold go_len in *. lia.
Qed.

Lemma lb_loop_rand k intn : ∀ loop l,
  0 ≤ k → members l ≠ ∅ → (∀ i n, 0 < n → 0 ≤ intn i n < n) → light (k + Z.of_nat loop) l → lb_wf l →
  ∃ l', lb_loop BalanceStrategy_Rand intn loop l = Ok l' ∧ members l' = members l ∧
    total_weight l' = total_weight l + Z.of_nat loop ∧ light k l' ∧ lb_wf l'.
Proof.
  induction loop as [|loop IH]; intros l Hk Hne Hi Hl Hwf; cbn [lb_loop].
  { exists l. rewrite Z.add_0_r in Hl. split_and!; [done|done|cbn; lia|done|done]. }
  destruct (LoadBalance_rand (intn loop) l Hne (Hi loop)) as (e & -> & He). rewrite bind_ok.
  destruct (add_weight_total e l (k + Z.of_nat loop)) as [Ht Hl'];
    [lia|by rewrite <- Z.add_assoc, Z.add_1_r, <- Nat2Z.inj_succ|done|].
  destruct (IH (add_weight e l)) as (l' & E & Hm & Ht' & Hl0 & Hwf0);
    [done|by rewrite add_weight_members|done|done|unfold lb_wf; by rewrite add_weight_rrbIdx|].
  exists l'. split_and!; [done|by rewrite Hm, add_weight_members|lia|done|done].
Qed.

(** The members and weights a driver starts the second half with. *)
Lemma lb_replaced l n :
  light n l → 0 < n < 2 ^ 32 → lb_wf l → "e6" ∉ members l →
  let l' := (AddElement (DelElement (DelElement l "e4").2 "e5").2 "e6").2 in
  members l' = {["e6"]} ∪ (members l ∖ {["e4"; "e5"]}) ∧ light n l' ∧ lb_wf l'.
Proof.
  intros Hl [Hn Hn'] Hwf H6. destruct (DelElement_spec l "e4" Hwf) as (_ & Hm4 & Hw4).
  destruct (DelElement_spec _ "e5" Hw4) as (_ & Hm5 & Hw5). destruct (AddElement_spec _ "e6" Hw5) as (_ & Hm6 & Hw6).
  split; [rewrite Hm6, Hm5, Hm4; set_solver|]. split; [|done].
  assert (∀ l e, light n l → light n (DelElement l e).2) as Hdel.
  { intros l0 e H0. unfold DelElement. destruct (elements l0 !! e); [|done]. intros e' b'. cbn [snd elements]. intros [_ H]%lookup_delete_Some. by apply (H0 e'). }
  pose proof (Hdel _ "e5" (Hdel _ "e4" Hl)) as H5. unfold AddElement at 1. destruct (elements _ !! "e6"); [done|].
  intros e' b. cbn [snd elements]. rewrite lookup_insert. case_decide; [|by apply (H5 e')]. intros [= <-]. cbn. lia.
Qed.

Lemma lb_driver_rand loop intn1 intn2 :
  Z.of_nat loop ≤ 1000 → (∀ i n, 0 < n → 0 ≤ intn1 i n < n) → (∀ i n, 0 < n → 0 ≤ intn2 i n < n) →
  ∃ lb1 lb lb2, lb_driver loop BalanceStrategy_Rand intn1 intn2 = Ok (lb1, lb2) ∧
    members lb1 = {["e1"; "e2"; "e3"; "e4"; "e5"]} ∧ total_weight lb1 = Z.of_nat loop ∧
    members lb = {["e1"; "e2"; "e3"; "e6"]} ∧ members lb2 = members lb ∧
    total_weight lb2 = total_weight lb + Z.of_nat loop.
Proof.
  intros Hn H1 H2. unfold lb_driver. set (lb0 := foldl _ _ _).
  assert (members lb0 = {["e1"; "e2"; "e3"; "e4"; "e5"]}) as Hm0 by (vm_compute; reflexivity).
  assert (total_weight lb0 = 0) as Ht0 by (vm_compute; reflexivity).
  assert (light (3000 + Z.of_nat loop) lb0) as Hl0.
  { intros e b He. change (elements lb0) with ({["e5" := mkBalanceInfo 0; "e4" := mkBalanceInfo 0; "e3" := mkBalanceInfo 0;
      "e2" := mkBalanceInfo 0; "e1" := mkBalanceInfo 0]} : gmap string BalanceInfo) in He.
    repeat (apply lookup_insert_Some in He as [[_ <-]|[_ He]]; [cbn; lia|]).
    apply lookup_singleton_Some in He as [_ <-]. cbn; lia. }
  assert (lb_wf lb0) as Hw0 by by split. clearbody lb0.
  assert (∀ e (X : gset string), {[e]} ∪ X ≠ ∅) as Hne by set_solver.
  destruct (lb_loop_rand 3000 intn1 loop lb0) as (lb1 & E1 & Hm1 & Ht1 & Hl1 & Hw1);
    [lia|rewrite Hm0; clear; set_solver|exact H1|exact Hl0|exact Hw0|].
  rewrite E1, bind_ok. set (lb := (AddElement _ _).2).
  destruct (lb_replaced lb1 3000 Hl1 ltac:(lia) Hw1) as (Hm & Hl & Hw); [rewrite Hm1, Hm0; clear; set_solver|]. fold lb in Hm, Hl, Hw.
  rewrite Hm1, Hm0 in Hm.
  destruct (lb_loop_rand (3000 - Z.of_nat loop) intn2 loop lb) as (lb2 & E2 & Hm2 & Ht2 & _);
    [lia|rewrite Hm; apply Hne|exact H2|by rewrite Z.sub_add|exact Hw|].
  rewrite E2, bind_ok. exists lb1, lb, lb2. split_and!; [done|congruence|lia|rewrite Hm; clear; set_solver|done|done].
Qed.

(** The test drivers.  Under round robin the thousand calls are shared evenly, 200
    for each of five targets, and, after two targets were replaced by a new one, 250
    for each of four.  Under random choice they are all counted, whatever the
    random numbers are. *)
Theorem lb_drivers :
  (∃ lb1 lb2, lbRoundRobinTest = Ok (lb1, lb2) ∧
     elements lb1 = {["e1" := mkBalanceInfo 200; "e2" := mkBalanceInfo 200; "e3" := mkBalanceInfo 200;
                      "e4" := mkBalanceInfo 200; "e5" := mkBalanceInfo 200]} ∧
     elements lb2 = {["e1" := mkBalanceInfo 450; "e2" := mkBalanceInfo 450; "e3" := mkBalanceInfo 450;
                      "e6" := mkBalanceInfo 250]}) ∧
  ∀ intn1 intn2, (∀ i n, 0 < n → 0 ≤ intn1 i n < n) → (∀ i n, 0 < n → 0 ≤ intn2 i n < n) →
    ∃ lb1 lb lb2, lbRandTest intn1 intn2 = Ok (lb1, lb2) ∧
      members lb1 = {["e1"; "e2"; "e3"; "e4"; "e5"]} ∧ total_weight lb1 = 1000 ∧
      members lb = {["e1"; "e2"; "e3"; "e6"]} ∧ members lb2 = members lb ∧
      total_weight lb2 = total_weight lb + 1000.
Proof.
  split.
  - eexists _, _. split; [vm_compute; reflexivity|]. split; vm_compute; reflexivity.
  - intros intn1 intn2 H1 H2. by apply (lb_driver_rand 1000).
Qed.
