(* ===== verification/CallbackMgr.v ===== *)
(** * The callback manager ([src/ms_framework/msf_callback_mgr_new.go])

    Pending callbacks are kept twice: in the map [gCbMap], keyed by identifier,
    and as nodes of a doubly linked list whose far end is scanned once a second
    for expired entries.  The nodes live in an explicit heap, so the pointer
    surgery of [queueAdd] and [queueDel] is modelled as it is written.

    [AddCallBack] and [GetCallBack] run on the callers' goroutines and change
    only the map; the list is changed by the manager's goroutine when it
    receives the node on [chQueueAdd] or [chQueueDel].  [cb_step] is the
    transition system of all interleavings of the two. *)

From S2P Require Import Prelude.
From stdpp Require Import sorting.

Local Open Scope Z_scope.

(** The address of a [Node]. *)
Abbreviation ptr := positive.

Section CallbackMgr.
  (** [C]: what is stored for a caller; [T]: the closures run on a timeout. *)
  Context {C T : Type}.

Record Node := mkNode {
  cbid : Z;
  endTime : Z;
  timeOutCb : option T;
  prev : option ptr;
  next : option ptr;
}.

Record PriorityQueue := mkPriorityQueue {
  firstNode : option ptr;
  lastNode : option ptr;
  qsize : Z;
}.

Definition set_prev (v : option ptr) (n : Node) : Node :=
  mkNode (cbid n) (endTime n) (timeOutCb n) v (next n).
Definition set_next (v : option ptr) (n : Node) : Node :=
  mkNode (cbid n) (endTime n) (timeOutCb n) (prev n) v.

Definition load (h : gmap ptr Node) (p : ptr) : result Node :=
  match h !! p with
  | Some n => Ok n
  | None => Panic NilDereference
  end.

(** ** [queueAdd] *)

(** The [for true] loop: [cur] walks from the first node. *)
Fixpoint queueAdd_loop (fuel : nat) (node cur : ptr) (h : gmap ptr Node) (q : PriorityQueue)
    : result (gmap ptr Node * PriorityQueue) :=
  match fuel with
  | O => OutOfFuel
  | S fuel =>
      c ← load h cur;
      match next c with
      | None =>
          let h := alter (set_next (Some node)) cur h in
          let h := alter (set_prev (Some cur)) node h in
          Ok (h, mkPriorityQueue (firstNode q) (Some node) (qsize q))
      | Some nx =>
          n ← load h node;
          x ← load h nx;
          if endTime x <=? endTime n then
            let h := alter (set_next (Some node)) cur h in
            let h := alter (set_prev (Some cur)) node h in
            let h := alter (set_next (Some nx)) node h in
            let h := alter (set_prev (Some node)) nx h in
            Ok (h, q)
          else queueAdd_loop fuel node nx h q
      end
  end.

Definition queueAdd (node : ptr) (h : gmap ptr Node) (q : PriorityQueue)
    : result (gmap ptr Node * PriorityQueue) :=
  let q := mkPriorityQueue (firstNode q) (lastNode q) (i32 (qsize q + 1)) in
  match firstNode q with
  | None => Ok (h, mkPriorityQueue (Some node) (Some node) (qsize q))
  | Some first => queueAdd_loop (S (size h)) node first h q
  end.

(** ** [queueDel] *)

Definition queueDel (node : ptr) (h : gmap ptr Node) (q : PriorityQueue)
    : result (gmap ptr Node * PriorityQueue) :=
  n ← load h node;
  let prv := prev n in
  let nxt := next n in
  let h := match prv with Some p => alter (set_next nxt) p h | None => h end in
  let h := match nxt with Some x => alter (set_prev prv) x h | None => h end in
  let h := alter (set_prev None) node h in
  let h := alter (set_next None) node h in
  let first := if decide (Some node = firstNode q) then nxt else firstNode q in
  let last := if decide (Some node = lastNode q) then prv else lastNode q in
  Ok (h, mkPriorityQueue first last (i32 (qsize q - 1))).

(** ** [priorityQueueTick]: also the timeout closures it runs, in order *)

Fixpoint priorityQueueTick_loop (fuel : nat) (now : Z) (cur : option ptr)
    (h : gmap ptr Node) (q : PriorityQueue) (m : gmap Z (C * ptr)) (fired : list (Z * option T))
    : result (gmap ptr Node * PriorityQueue * gmap Z (C * ptr) * list (Z * option T)) :=
  match fuel with
  | O => OutOfFuel
  | S fuel =>
      match cur with
      | None => Ok (h, q, m, fired)
      | Some c =>
          n ← load h c;
          let prv := prev n in
          if endTime n <=? now then
            let ok := bool_decide (is_Some (m !! cbid n)) in
            let m := delete (cbid n) m in
            let fired := if ok then fired ++ [(cbid n, timeOutCb n)] else fired in
            '(h, q) ← queueDel c h q;
            priorityQueueTick_loop fuel now prv h q m fired
          else Ok (h, q, m, fired)
      end
  end.

Definition priorityQueueTick (now : Z) (h : gmap ptr Node) (q : PriorityQueue)
    (m : gmap Z (C * ptr))
    : result (gmap ptr Node * PriorityQueue * gmap Z (C * ptr) * list (Z * option T)) :=
  priorityQueueTick_loop (S (size h)) now (lastNode q) h q m [].

(** ** The manager's state and its entry points *)

Record CbState := mkCbState {
  heap : gmap ptr Node;
  queue : PriorityQueue;
  gCbMap : gmap Z (C * ptr);
  chQueueAdd : list ptr;  (** senders blocked on [chQueueAdd] *)
  chQueueDel : list ptr;  (** senders blocked on [chQueueDel] *)
}.

Definition init_CbState : CbState :=
  mkCbState ∅ (mkPriorityQueue None None 0) ∅ [] [].

(** [AddCallBack] up to the send on [chQueueAdd]; [now] is [GetNowTimestamp()]. *)
Definition AddCallBack_map (now : Z) (id : Z) (cbs : C) (waitTime : Z) (tcb : option T)
    (st : CbState) : CbState :=
  let p := fresh (dom (heap st)) in
  let node := mkNode id (i64 (waitTime + now)) tcb None None in
  mkCbState (<[p := node]> (heap st)) (queue st) (<[id := (cbs, p)]> (gCbMap st))
    (chQueueAdd st ++ [p]) (chQueueDel st).

(** [GetCallBack] up to the send on [chQueueDel]. *)
Definition GetCallBack_map (id : Z) (st : CbState) : option C * CbState :=
  match gCbMap st !! id with
  | Some (cbs, node) =>
      (Some cbs, mkCbState (heap st) (queue st) (delete id (gCbMap st))
                   (chQueueAdd st) (chQueueDel st ++ [node]))
  | None => (None, mkCbState (heap st) (queue st) (delete id (gCbMap st))
                     (chQueueAdd st) (chQueueDel st))
  end.

(** The three cases of the manager's [select]. *)
Definition recv_QueueAdd (i : nat) (st : CbState) : result CbState :=
  match chQueueAdd st !! i with
  | None => Ok st
  | Some node =>
      '(h, q) ← queueAdd node (heap st) (queue st);
      Ok (mkCbState h q (gCbMap st) (delete i (chQueueAdd st)) (chQueueDel st))
  end.

Definition recv_QueueDel (i : nat) (st : CbState) : result CbState :=
  match chQueueDel st !! i with
  | None => Ok st
  | Some node =>
      '(h, q) ← queueDel node (heap st) (queue st);
      Ok (mkCbState h q (gCbMap st) (chQueueAdd st) (delete i (chQueueDel st)))
  end.

Definition recv_Tick (now : Z) (st : CbState) : result (CbState * list (Z * option T)) :=
  '(h, q, m, fired) ← priorityQueueTick now (heap st) (queue st) (gCbMap st);
  Ok (mkCbState h q m (chQueueAdd st) (chQueueDel st), fired).

(** The calls as their callers see them when the manager takes the node at once. *)
Definition AddCallBack (now : Z) (id : Z) (cbs : C) (waitTime : Z) (tcb : option T)
    (st : CbState) : result CbState :=
  recv_QueueAdd (length (chQueueAdd st)) (AddCallBack_map now id cbs waitTime tcb st).

Definition GetCallBack (id : Z) (st : CbState) : result (option C * CbState) :=
  let '(cbs, st') := GetCallBack_map id st in
  match cbs with
  | Some _ => st'' ← recv_QueueDel (length (chQueueDel st)) st'; Ok (cbs, st'')
  | None => Ok (None, st')
  end.

(** ** Shape of the list

    [seg h pr nx ps]: the nodes [ps] are linked in this order, between the
    outer neighbours [pr] and [nx]. *)

Definition hd_or (ps : list ptr) (nx : option ptr) : option ptr :=
  match ps with [] => nx | p :: _ => Some p end.

Definition last_or (ps : list ptr) (pr : option ptr) : option ptr :=
  match last ps with Some p => Some p | None => pr end.

Fixpoint seg (h : gmap ptr Node) (pr nx : option ptr) (ps : list ptr) : Prop :=
  match ps with
  | [] => True
  | p :: ps =>
      ∃ n, h !! p = Some n ∧ prev n = pr ∧ next n = hd_or ps nx ∧ seg h (Some p) nx ps
  end.

(** [rep h q ps]: the queue [q] is the list [ps], first to last. *)
Record rep (h : gmap ptr Node) (q : PriorityQueue) (ps : list ptr) : Prop := {
  rep_nodup : NoDup ps;
  rep_seg : seg h None None ps;
  rep_first : firstNode q = head ps;
  rep_last : lastNode q = last ps;
  rep_size : i32 (qsize q) = qsize q;
}.

(** The deadline of a node. *)
Definition etime (h : gmap ptr Node) (p : ptr) : Z :=
  match h !! p with Some n => endTime n | None => 0 end.

Lemma hd_or_app l1 l2 nx : hd_or (l1 ++ l2) nx = hd_or l1 (hd_or l2 nx).
Proof. by destruct l1. Qed.

Lemma last_or_cons p l pr : last_or (p :: l) pr = last_or l (Some p).
Proof.
  unfold last_or. rewrite last_cons. by destruct (last l).
Qed.

Lemma seg_app h pr nx l1 l2 :
  seg h pr nx (l1 ++ l2) ↔ seg h pr (hd_or l2 nx) l1 ∧ seg h (last_or l1 pr) nx l2.
Proof.
  revert pr. induction l1 as [|p l1 IH]; intros pr; simpl.
  - unfold last_or. simpl. tauto.
  - rewrite hd_or_app. setoid_rewrite IH. rewrite last_or_cons. naive_solver.
Qed.

Lemma seg_frame h h' pr nx ps :
  (∀ p, p ∈ ps → h' !! p = h !! p) → seg h pr nx ps → seg h' pr nx ps.
Proof.
  revert pr. induction ps as [|p ps IH]; intros pr Hf; simpl; [done|].
  intros (n & Hn & ? & ? & ?). exists n. rewrite Hf by set_solver.
  split_and!; [done..|]. apply IH; [|done]. set_solver.
Qed.

Lemma seg_lookup h pr nx ps p : seg h pr nx ps → p ∈ ps → is_Some (h !! p).
Proof.
  revert pr. induction ps as [|x ps IH]; intros pr; simpl; [set_solver|].
  intros (n & Hn & ? & ? & ?) [->|?]%elem_of_cons; [by exists n|eauto].
Qed.

Lemma rep_length_size h q ps : rep h q ps → (length ps ≤ size h)%nat.
Proof.
  intros [Hnd Hseg _ _ _]. rewrite <- (size_dom h), <- (size_list_to_set (C := gset ptr)) by done.
  apply subseteq_size. intros p Hp%elem_of_list_to_set. apply elem_of_dom.
  by eapply seg_lookup.
Qed.

(** A queue is one list. *)
Lemma seg_unique h ps : ∀ ps' pr pr', seg h pr None ps → seg h pr' None ps' → head ps = head ps' → ps = ps'.
Proof.
  induction ps as [|p ps IH]; intros [|p' ps'] pr pr' H1 H2 Hh; try done. injection Hh as <-.
  destruct H1 as (n & Hn & _ & Hx & H1), H2 as (n' & Hn' & _ & Hx' & H2). f_equal.
  eapply IH; [exact H1|exact H2|].
  assert (∀ l, head l = hd_or l None) as Hd by by intros []. rewrite !Hd. congruence.
Qed.

Lemma rep_unique h q ps ps' : rep h q ps → rep h q ps' → ps = ps'.
Proof. intros [_ H1 F1 _ _] [_ H2 F2 _ _]. by eapply seg_unique; [exact H1|exact H2|congruence]. Qed.

(** ** What pointer surgery keeps: the data of every node *)

Definition data (n : Node) : Z * Z * option T := (cbid n, endTime n, timeOutCb n).

Definition same_data (h h' : gmap ptr Node) : Prop := ∀ p, data <$> h' !! p = data <$> h !! p.

#[local] Instance same_data_po : PreOrder same_data.
Proof. split; [done|]. intros h1 h2 h3 H1 H2 p. by rewrite H2, H1. Qed.

Lemma same_data_alter f p h : (∀ n, data (f n) = data n) → same_data h (alter f p h).
Proof.
  intros Hf x. rewrite lookup_alter. case_decide; [|done]. subst.
  destruct (h !! x); simpl; [by rewrite Hf|done].
Qed.

Lemma same_data_set_next v p h : same_data h (alter (set_next v) p h).
Proof. by apply same_data_alter. Qed.

Lemma same_data_set_prev v p h : same_data h (alter (set_prev v) p h).
Proof. by apply same_data_alter. Qed.

Lemma same_data_etime h h' p : same_data h h' → etime h' p = etime h p.
Proof.
  intros Hd. specialize (Hd p). unfold etime.
  destruct (h' !! p), (h !! p); simplify_eq/=; unfold data in *; congruence.
Qed.

Ltac heap_simpl := rewrite ?lookup_alter; repeat case_decide; subst; try done.

(** ** [queueAdd] refines insertion behind the first node *)

Fixpoint ins (h : gmap ptr Node) (e : Z) (p : ptr) (ps : list ptr) : list ptr :=
  match ps with
  | [] => [p]
  | y :: ys => if etime h y <=? e then p :: y :: ys else y :: ins h e p ys
  end.

Definition spec_add (h : gmap ptr Node) (p : ptr) (ps : list ptr) : list ptr :=
  match ps with
  | [] => [p]
  | x :: xs => x :: ins h (etime h p) p xs
  end.

Lemma seg_insert h h' l1 cur node l2 :
  (∀ p, p ∈ l1 → h' !! p = h !! p) →
  h' !! cur = set_next (Some node) <$> h !! cur →
  (∃ n', h' !! node = Some n' ∧ prev n' = Some cur ∧ next n' = hd_or l2 None) →
  match l2 with
  | [] => True
  | y :: l2 => h' !! y = set_prev (Some node) <$> h !! y ∧ ∀ p, p ∈ l2 → h' !! p = h !! p
  end →
  seg h None None (l1 ++ cur :: l2) → seg h' None None (l1 ++ cur :: node :: l2).
Proof.
  intros Hl1 Hcur Hnode Hl2. rewrite !seg_app. intros [H1 H2]. split.
  { apply (seg_frame h); [done|]. exact H1. }
  destruct H2 as (c & Hc & Hp & Hn & H2). cbn [seg].
  exists (set_next (Some node) c). rewrite Hcur, Hc. split_and!; [done..|].
  destruct Hnode as (n' & Hn' & Hp' & Hx'). exists n'. split_and!; [done..|].
  destruct l2 as [|y l2]; [done|]. destruct Hl2 as [Hy Hl2].
  destruct H2 as (m & Hm & Hmp & Hmn & H2). exists (set_prev (Some node) m).
  rewrite Hy, Hm. split_and!; [done..|]. by apply (seg_frame h).
Qed.

Lemma queueAdd_loop_spec l2 : ∀ fuel l1 cur h q node n,
  NoDup (l1 ++ cur :: l2) → node ∉ l1 ++ cur :: l2 →
  h !! node = Some n → next n = None →
  seg h None None (l1 ++ cur :: l2) → lastNode q = last (l1 ++ cur :: l2) →
  (length l2 < fuel)%nat →
  ∃ h' q', queueAdd_loop fuel node cur h q = Ok (h', q') ∧
    seg h' None None (l1 ++ cur :: ins h (endTime n) node l2) ∧
    firstNode q' = firstNode q ∧ qsize q' = qsize q ∧
    lastNode q' = last (l1 ++ cur :: ins h (endTime n) node l2) ∧
    same_data h h' ∧ (∀ p, p ∉ node :: l1 ++ cur :: l2 → h' !! p = h !! p).
Proof.
  induction l2 as [|y l2 IH]; intros fuel l1 cur h q node n Hnd Hni Hnode Hnx Hseg Hlast Hfuel;
    (destruct fuel as [|fuel]; [simpl in *; lia|]); cbn [queueAdd_loop].
  - pose proof Hseg as Hs. apply seg_app in Hs as [_ (c & Hc & _ & Hcn & _)].
    unfold load. rewrite Hc, bind_ok, Hcn. simpl hd_or.
    eexists _, _. split; [done|]. split_and!; [|done..| | |].
    + apply (seg_insert h); [..|done].
      * intros p Hp. apply NoDup_app in Hnd as (_ & Hd & _). specialize (Hd p Hp).
        heap_simpl; set_solver.
      * heap_simpl. set_solver.
      * exists (set_prev (Some cur) n). heap_simpl; [set_solver|]. by rewrite Hnode.
      * done.
    + simpl. by rewrite last_app_cons.
    + etrans; [apply same_data_set_next|apply same_data_set_prev].
    + intros p Hp. heap_simpl; set_solver.
  - pose proof Hseg as Hs. apply seg_app in Hs as [_ (c & Hc & _ & Hcn & Hy)].
    destruct Hy as (m & Hm & Hmp & Hmn & Hy).
    unfold load. rewrite Hc, bind_ok, Hcn. simpl hd_or. cbv iota.
    rewrite Hnode, bind_ok, Hm, bind_ok. cbn [ins].
    assert (etime h y = endTime m) as -> by (unfold etime; by rewrite Hm).
    destruct (endTime m <=? endTime n) eqn:Hle.
    + clear IH. apply NoDup_app in Hnd as (_ & Hd & Hnd).
      apply NoDup_cons in Hnd as [Hcur Hnd]. apply NoDup_cons in Hnd as [Hny Hnd].
      eexists _, _. split; [done|]. split_and!; [|done..| | |].
      * apply (seg_insert h); [..|done].
        -- intros p Hp. specialize (Hd p Hp). heap_simpl; set_solver.
        -- heap_simpl; set_solver.
        -- exists (set_next (Some y) (set_prev (Some cur) n)).
           heap_simpl; [set_solver..|]. by rewrite Hnode.
        -- split; [heap_simpl; set_solver|]. intros p Hp. heap_simpl; set_solver.
      * by rewrite Hlast, !last_app_cons.
      * repeat (etrans; [|apply same_data_set_prev || apply same_data_set_next]). done.
      * intros p Hp. heap_simpl; set_solver.
    + edestruct (IH fuel (l1 ++ [cur]) y h q node n) as (h' & q' & E & Hseg' & Hf & Hsz & Hl & Hd & Hfr);
        rewrite <- ?app_assoc; [done..|simpl in *; lia|].
      rewrite <- app_assoc in *.
      exists h', q'. split_and!; try done.
Qed.

Lemma ins_perm h e p ps : ins h e p ps ≡ₚ p :: ps.
Proof.
  induction ps as [|y ps IH]; simpl; [done|].
  destruct (etime h y <=? e); [done|]. rewrite IH. constructor.
Qed.

Lemma spec_add_perm h p ps : spec_add h p ps ≡ₚ p :: ps.
Proof. destruct ps as [|x ps]; simpl; [done|]. rewrite ins_perm. constructor. Qed.

(** A node outside the list has no neighbours. *)
Definition detached (h : gmap ptr Node) (p : ptr) : Prop :=
  ∃ n, h !! p = Some n ∧ prev n = None ∧ next n = None.

Lemma queueAdd_spec h q ps node :
  rep h q ps → node ∉ ps → detached h node →
  ∃ h' q', queueAdd node h q = Ok (h', q') ∧ rep h' q' (spec_add h node ps) ∧
    qsize q' = i32 (qsize q + 1) ∧ same_data h h' ∧
    (∀ p, p ∉ node :: ps → h' !! p = h !! p).
Proof.
  intros Hrep Hni (n & Hn & Hpr & Hnx). pose proof (rep_length_size _ _ _ Hrep) as Hsz.
  destruct Hrep as [Hnd Hseg Hf Hl Hi]. unfold queueAdd. cbn [firstNode lastNode qsize].
  rewrite Hf. destruct ps as [|x xs]; cbn [head].
  - eexists _, _. split; [done|]. split_and!; try done.
    split; [apply NoDup_singleton| |done|done|apply i32_idem].
    exists n. done.
  - edestruct (queueAdd_loop_spec xs (S (size h)) [] x h
                 (mkPriorityQueue (head (x :: xs)) (lastNode q) (i32 (qsize q + 1))) node n)
      as (h' & q' & E & Hseg' & Hf' & Hsz' & Hl' & Hd & Hfr); [done..|simpl in *; lia|].
    assert (etime h node = endTime n) as Et by (unfold etime; by rewrite Hn).
    exists h', q'. cbn [spec_add]. rewrite Et. split_and!; try done.
    split; [|done|by rewrite Hf'|done|rewrite Hsz'; apply i32_idem].
    simpl in *. eapply (NoDup_Permutation_proper _ (node :: x :: xs)).
    + rewrite ins_perm. constructor.
    + by apply NoDup_cons.
Qed.

(** ** [queueDel] refines removal *)

Lemma seg_set_last h h' pr nx v l a :
  h' !! a = set_next v <$> h !! a → (∀ p, p ∈ l → h' !! p = h !! p) →
  seg h pr nx (l ++ [a]) → seg h' pr v (l ++ [a]).
Proof.
  intros Ha Hl. rewrite !seg_app. intros [H1 (n & Hn & Hp & _ & _)].
  split; [by apply (seg_frame h)|]. exists (set_next v n). by rewrite Ha, Hn.
Qed.

Lemma seg_set_head h h' pr v nx y l :
  h' !! y = set_prev v <$> h !! y → (∀ p, p ∈ l → h' !! p = h !! p) →
  seg h pr nx (y :: l) → seg h' v nx (y :: l).
Proof.
  intros Hy Hl (n & Hn & _ & Hx & H). exists (set_prev v n). rewrite Hy, Hn.
  split_and!; [done..|]. by apply (seg_frame h).
Qed.

Lemma last_or_None l : last_or l None = last l.
Proof. unfold last_or. by destruct (last l). Qed.

Lemma hd_or_None l : hd_or l None = head l.
Proof. by destruct l. Qed.

(** The heap [queueDel] leaves, for a node between [prv] and [nxt]. *)
Definition unlink (node : ptr) (prv nxt : option ptr) (h : gmap ptr Node) : gmap ptr Node :=
  let h := match prv with Some p => alter (set_next nxt) p h | None => h end in
  let h := match nxt with Some x => alter (set_prev prv) x h | None => h end in
  alter (set_next None) node (alter (set_prev None) node h).

Lemma unlink_same_data node prv nxt h : same_data h (unlink node prv nxt h).
Proof.
  unfold unlink. destruct prv, nxt;
    repeat (etrans; [|apply same_data_set_prev || apply same_data_set_next]); done.
Qed.

Lemma unlink_frame node prv nxt h p :
  p ≠ node → prv ≠ Some p → nxt ≠ Some p → unlink node prv nxt h !! p = h !! p.
Proof. intros. unfold unlink. destruct prv, nxt; heap_simpl; congruence. Qed.

Lemma unlink_prev node a nxt h :
  a ≠ node → nxt ≠ Some a → unlink node (Some a) nxt h !! a = set_next nxt <$> h !! a.
Proof. intros. unfold unlink. destruct nxt; heap_simpl; congruence. Qed.

Lemma unlink_next node prv y h :
  y ≠ node → prv ≠ Some y → unlink node prv (Some y) h !! y = set_prev prv <$> h !! y.
Proof. intros. unfold unlink. destruct prv; heap_simpl; congruence. Qed.

Lemma unlink_node node prv nxt h n :
  h !! node = Some n → prv ≠ Some node → nxt ≠ Some node →
  detached (unlink node prv nxt h) node.
Proof.
  intros Hn ? ?. exists (set_next None (set_prev None n)). unfold unlink.
  split; [|done]. destruct prv, nxt; heap_simpl; try congruence; by rewrite Hn.
Qed.

Lemma queueDel_eq node h q n :
  h !! node = Some n →
  queueDel node h q
  = Ok (unlink node (prev n) (next n) h,
        mkPriorityQueue (if decide (Some node = firstNode q) then next n else firstNode q)
          (if decide (Some node = lastNode q) then prev n else lastNode q)
          (i32 (qsize q - 1))).
Proof. intros Hn. unfold queueDel, load. by rewrite Hn. Qed.

Lemma unlink_seg l1 node l2 h :
  NoDup (l1 ++ node :: l2) → seg h None None (l1 ++ node :: l2) →
  seg (unlink node (last l1) (head l2) h) None None (l1 ++ l2).
Proof.
  intros (Hnd1 & Hdis & Hnd2)%NoDup_app [H1 (n & Hn & Hp & Hx & H2)]%seg_app.
  apply NoDup_cons in Hnd2 as [Hn2 Hnd2].
  assert (node ∉ l1) as Hn1 by set_solver.
  apply seg_app. rewrite last_or_None, hd_or_None. split.
  - destruct l1 as [|a l1 _] using rev_ind; [done|]. rewrite last_snoc in *.
    apply NoDup_app in Hnd1 as (_ & Ha & _).
    assert (a ∉ l2) by set_solver. assert (a ≠ node) by set_solver.
    apply (seg_set_last h _ _ (Some node)).
    + apply unlink_prev; [done|]. intros E. apply head_Some_elem_of in E. done.
    + intros p Hpl. apply unlink_frame; [set_solver|intros [= ->]; by apply (Ha p); [|left]|].
      intros E%head_Some_elem_of. apply (Hdis p); set_solver.
    + done.
  - destruct l2 as [|y l2]; [done|]. apply NoDup_cons in Hnd2 as [Hy Hnd2].
    assert (last l1 ≠ Some y) by (intros E%last_Some_elem_of; apply (Hdis y); set_solver).
    apply (seg_set_head h _ (Some node)).
    + apply unlink_next; [set_solver|done].
    + intros p Hpl. apply unlink_frame; [set_solver| |simpl; congruence].
      intros E%last_Some_elem_of. apply (Hdis p); set_solver.
    + done.
Qed.

Lemma queueDel_spec h q l1 node l2 :
  rep h q (l1 ++ node :: l2) →
  ∃ h' q', queueDel node h q = Ok (h', q') ∧ rep h' q' (l1 ++ l2) ∧
    qsize q' = i32 (qsize q - 1) ∧ same_data h h' ∧ detached h' node ∧
    (∀ p, p ∉ l1 ++ node :: l2 → h' !! p = h !! p).
Proof.
  intros [Hnd Hseg Hf Hl Hi].
  pose proof Hseg as Hs. apply seg_app in Hs as [_ (n & Hn & Hp & Hx & _)].
  rewrite last_or_None in Hp. rewrite hd_or_None in Hx.
  pose proof Hnd as (Hnd1 & Hdis & [Hn2 Hnd2]%NoDup_cons)%NoDup_app.
  assert (node ∉ l1) as Hn1 by set_solver.
  rewrite (queueDel_eq node h q n) by done. rewrite Hp, Hx.
  eexists _, _. split; [done|]. split_and!.
  - split.
    + apply NoDup_app. split_and!; [done| |done]. set_solver.
    + by apply unlink_seg.
    + cbn. rewrite Hf. destruct l1 as [|a l1]; simpl; case_decide; set_solver.
    + cbn. rewrite Hl, !last_app, last_cons.
      destruct (last l2) as [z|] eqn:Ez; case_decide; try congruence.
      apply last_Some_elem_of in Ez. congruence.
    + apply i32_idem.
  - done.
  - apply unlink_same_data.
  - eapply unlink_node; [done|..].
    + by intros E%last_Some_elem_of.
    + by intros E%head_Some_elem_of.
  - intros p Hpn. apply unlink_frame; [set_solver|..].
    + intros E%last_Some_elem_of. set_solver.
    + intros E%head_Some_elem_of. set_solver.
Qed.

(** Deleting a node that is not in the list only moves the size counter. *)
Lemma queueDel_detached h q ps node :
  rep h q ps → node ∉ ps → detached h node →
  ∃ h' q', queueDel node h q = Ok (h', q') ∧ rep h' q' ps ∧
    qsize q' = i32 (qsize q - 1) ∧ same_data h h' ∧ detached h' node ∧
    (∀ p, p ≠ node → h' !! p = h !! p).
Proof.
  intros [Hnd Hseg Hf Hl Hi] Hni (n & Hn & Hp & Hx).
  rewrite (queueDel_eq node h q n) by done. rewrite Hp, Hx.
  assert (∀ p, p ≠ node → unlink node None None h !! p = h !! p) as Hfr.
  { intros p ?. by apply unlink_frame. }
  eexists _, _. split; [done|]. split_and!.
  - split; [done| |..].
    + apply (seg_frame h); [|done]. intros p ?. apply Hfr. set_solver.
    + cbn. rewrite Hf. case_decide as Hd; [|done].
      symmetry in Hd. apply head_Some_elem_of in Hd. done.
    + cbn. rewrite Hl. case_decide as Hd; [|done].
      symmetry in Hd. apply last_Some_elem_of in Hd. done.
    + apply i32_idem.
  - done.
  - apply unlink_same_data.
  - by eapply unlink_node.
  - done.
Qed.

(** ** [priorityQueueTick] removes the expired end of the list *)

(** Expiring the nodes [l], in this order: the entries left in the map and the
    timeouts reported. *)
Fixpoint fire (h : gmap ptr Node) (l : list ptr) (m : gmap Z (C * ptr))
    : gmap Z (C * ptr) * list (Z * option T) :=
  match l with
  | [] => (m, [])
  | p :: l =>
      match h !! p with
      | None => fire h l m
      | Some n =>
          let '(m', f) := fire h l (delete (cbid n) m) in
          (m', if bool_decide (is_Some (m !! cbid n)) then (cbid n, timeOutCb n) :: f else f)
      end
  end.

Lemma fire_same_data h h' l m : same_data h h' → fire h' l m = fire h l m.
Proof.
  intros Hd. revert m. induction l as [|p l IH]; intros m; simpl; [done|].
  specialize (Hd p). unfold data in Hd.
  destruct (h' !! p) as [n'|], (h !! p) as [n|]; simpl in Hd; try discriminate; [|apply IH].
  injection Hd as -> _ ->. by rewrite IH.
Qed.

Lemma priorityQueueTick_loop_spec now ps : ∀ fuel h q m fired,
  rep h q ps → (length ps < fuel)%nat →
  ∃ keep exp h' q',
    ps = keep ++ exp ∧ Forall (λ p, etime h p ≤ now) exp ∧
    (∀ p, last keep = Some p → now < etime h p) ∧
    priorityQueueTick_loop fuel now (lastNode q) h q m fired
    = Ok (h', q', (fire h (reverse exp) m).1, fired ++ (fire h (reverse exp) m).2) ∧
    rep h' q' keep ∧ qsize q' = i32 (qsize q - go_len exp) ∧ same_data h h' ∧
    (∀ p, p ∈ exp → detached h' p) ∧ (∀ p, p ∉ ps → h' !! p = h !! p).
Proof.
  induction ps as [|c ps IH] using rev_ind; intros fuel h q m fired Hrep Hfuel;
    (destruct fuel as [|fuel]; [simpl in *; lia|]).
  - exists [], [], h, q. rewrite (rep_last _ _ _ Hrep). simpl. rewrite app_nil_r.
    split_and!; try done; [|set_solver].
    by rewrite Z.sub_0_r, (rep_size _ _ _ Hrep).
  - rewrite (rep_last _ _ _ Hrep), last_snoc. cbn [priorityQueueTick_loop].
    pose proof (rep_seg _ _ _ Hrep) as [_ (n & Hn & Hp & Hx & _)]%seg_app.
    unfold load. rewrite Hn, bind_ok. rewrite last_or_None in Hp.
    assert (etime h c = endTime n) as Et by (unfold etime; by rewrite Hn).
    destruct (Z.leb_spec (endTime n) now) as [Hle|Hgt].
    + destruct (queueDel_spec h q ps c []) as (h1 & q1 & E1 & Hrep1 & Hs1 & Hd1 & Hdet1 & Hfr1); [done|].
      rewrite app_nil_r in Hrep1. rewrite E1, bind_ok, Hp, <- (rep_last _ _ _ Hrep1).
      edestruct (IH fuel h1 q1) as (keep & exp & h2 & q2 & -> & He & Hk & E2 & Hrep2 & Hs2 & Hd2 & Hdet2 & Hfr2);
        [done|rewrite length_app in Hfuel; simpl in Hfuel; lia|].
      assert (∀ p, etime h1 p = etime h p) as Hets by (intros; by apply same_data_etime).
      exists keep, (exp ++ [c]), h2, q2. split_and!.
      * by rewrite app_assoc.
      * apply Forall_snoc. split; [|lia]. eapply Forall_impl; [exact He|]. intros p. simpl. by rewrite Hets.
      * intros p Hl. rewrite <- Hets. by apply Hk.
      * rewrite E2. rewrite reverse_app. simpl. rewrite Hn.
        rewrite !(fire_same_data h h1) by done.
        destruct (fire h (reverse exp) (delete (cbid n) m)) as [m' f]. simpl.
        case_bool_decide; by rewrite <- ?app_assoc.
      * done.
      * rewrite Hs2, Hs1, <- Z.add_opp_r, i32_add. f_equal. len_lia.
      * by etrans.
      * intros p [Hpe| ->%list_elem_of_singleton]%elem_of_app; [by apply Hdet2|].
        destruct Hdet1 as (n1 & ? & ? & ?). exists n1. rewrite Hfr2; [done|].
        pose proof (rep_nodup _ _ _ Hrep) as (_ & Hdis & _)%NoDup_app.
        intros Hin. apply (Hdis c); set_solver.
      * intros p Hpn. rewrite Hfr2, Hfr1; [done|..]; set_solver.
    + exists (ps ++ [c]), [], h, q. rewrite !app_nil_r. split_and!; try done.
      * intros p. rewrite last_snoc. intros [= <-]. lia.
      * by rewrite Z.sub_0_r, (rep_size _ _ _ Hrep).
      * set_solver.
Qed.

(** ** Order: all nodes but the first are sorted, latest deadline first *)

Definition later (h : gmap ptr Node) (p p' : ptr) : Prop := etime h p' ≤ etime h p.

Definition tail_sorted (h : gmap ptr Node) (ps : list ptr) : Prop :=
  StronglySorted (later h) (tail ps).

Lemma ins_sorted h p xs :
  StronglySorted (later h) xs → StronglySorted (later h) (ins h (etime h p) p xs).
Proof.
  induction 1 as [|y ys Hs IH Hy]; simpl; [repeat constructor|].
  destruct (Z.leb_spec (etime h y) (etime h p)).
  - constructor; [by constructor|]. constructor; [done|].
    eapply Forall_impl; [done|]. unfold later. simpl. intros. lia.
  - constructor; [done|]. rewrite ins_perm. constructor; [unfold later; lia|done].
Qed.

Lemma StronglySorted_sub {A} (R : relation A) l l' :
  sublist l l' → StronglySorted R l' → StronglySorted R l.
Proof.
  induction 1 as [|x l l' Hsub IH|x l l' Hsub IH]; intros Hs; [done|..];
    apply StronglySorted_inv in Hs as [Hs Hx].
  - constructor; [by apply IH|]. rewrite Forall_forall in *.
    eauto using elem_of_sublist.
  - by apply IH.
Qed.

Lemma later_same_data h h' l :
  same_data h h' → StronglySorted (later h) l → StronglySorted (later h') l.
Proof.
  intros Hd. induction 1 as [|x l Hs IH Hx]; constructor; [done|].
  eapply Forall_impl; [exact Hx|]. intros y. unfold later.
  by rewrite !(same_data_etime h h').
Qed.

Lemma tail_sublist {A} (l l' : list A) : sublist l l' → sublist (tail l) (tail l').
Proof.
  intros H. destruct H as [|x l l' H|x l l' H]; simpl; [done|done|].
  destruct l as [|y l]; simpl; [apply sublist_nil_l|]. etrans; [|exact H]. by constructor.
Qed.

Lemma tail_sorted_sub h h' ps ps' :
  same_data h h' → sublist ps' ps → tail_sorted h ps → tail_sorted h' ps'.
Proof.
  intros Hd Hsub Hs. apply (later_same_data h); [done|].
  eapply StronglySorted_sub; [|exact Hs]. by apply tail_sublist.
Qed.

Lemma spec_add_sorted h h' p ps :
  same_data h h' → tail_sorted h ps → tail_sorted h' (spec_add h p ps).
Proof.
  intros Hd Hs. apply (later_same_data h); [done|].
  destruct ps as [|x xs]; simpl; [constructor|]. by apply ins_sorted.
Qed.

(** In a sorted tail, nothing is due once the last node is not. *)
Lemma tail_sorted_last h ps now :
  tail_sorted h ps → (∀ p, last ps = Some p → now < etime h p) →
  ∀ p, p ∈ tail ps → now < etime h p.
Proof.
  intros Hs Hl p Hp. destruct ps as [|x xs]; simpl in *; [set_solver|].
  unfold tail_sorted in Hs. simpl in Hs.
  destruct xs as [|z xs _] using rev_ind; [set_solver|].
  specialize (Hl z). rewrite last_cons, last_snoc in Hl. specialize (Hl eq_refl).
  apply elem_of_app in Hp as [Hp| ->%list_elem_of_singleton]; [|done].
  assert (etime h z ≤ etime h p); [|lia].
  clear -Hs Hp. induction xs as [|y xs IH]; [set_solver|].
  simpl in Hs. apply StronglySorted_inv in Hs as [Hs Hy].
  apply elem_of_cons in Hp as [->|Hp]; [|by apply IH].
  apply Forall_app in Hy as [_ Hy]. by apply Forall_inv in Hy.
Qed.

(** ** The invariant of the manager *)

Record cb_inv (st : CbState) (ps : list ptr) : Prop := {
  inv_rep : rep (heap st) (queue st) ps;
  inv_sorted : tail_sorted (heap st) ps;
  inv_detached : ∀ p, p ∈ dom (heap st) → p ∉ ps → detached (heap st) p;
  inv_adds : NoDup (chQueueAdd st);
  inv_add : ∀ p, p ∈ chQueueAdd st → p ∈ dom (heap st) ∧ p ∉ ps;
  inv_del : ∀ p, p ∈ chQueueDel st → p ∈ dom (heap st);
  inv_map : ∀ id cbs p, gCbMap st !! id = Some (cbs, p) →
    ∃ n, heap st !! p = Some n ∧ cbid n = id;
}.

Lemma same_data_dom h h' : same_data h h' → dom h' = dom h.
Proof.
  intros Hd. apply set_eq. intros p. rewrite !elem_of_dom. specialize (Hd p).
  destruct (h' !! p), (h !! p); simpl in Hd; naive_solver.
Qed.

Lemma same_data_cbid h h' p n :
  same_data h h' → h !! p = Some n → ∃ n', h' !! p = Some n' ∧ cbid n' = cbid n.
Proof.
  intros Hd Hn. specialize (Hd p). rewrite Hn in Hd.
  destruct (h' !! p) as [n'|]; simpl in Hd; [|done]. exists n'. split; [done|].
  unfold data in Hd. congruence.
Qed.

Lemma init_inv : cb_inv init_CbState [].
Proof.
  split; cbn; [split; [constructor|done..]|constructor|set_solver|constructor|set_solver..|].
  intros id cbs p. by rewrite lookup_empty.
Qed.

Lemma AddCallBack_map_inv now id cbs w tcb st ps :
  cb_inv st ps → cb_inv (AddCallBack_map now id cbs w tcb st) ps.
Proof.
  intros [Hrep Hs Hdet Hadds Hadd Hdel Hmap]. unfold AddCallBack_map.
  set (p0 := fresh (dom (heap st))). pose proof (is_fresh (dom (heap st))) as Hf. fold p0 in Hf.
  assert (∀ p, p ∈ ps → p ≠ p0) as Hne.
  { intros p Hp ->. apply Hf, elem_of_dom. eapply seg_lookup; [apply Hrep|done]. }
  split; cbn.
  - destruct Hrep as [? Hseg ? ? ?]. split; try done. apply (seg_frame (heap st)); [|done].
    intros p Hp. apply lookup_insert_ne. intros E. by apply (Hne p Hp).
  - unfold tail_sorted in *.
    assert (∀ l, (∀ p, p ∈ l → p ≠ p0) → StronglySorted (later (heap st)) l →
              StronglySorted (later (<[p0 := mkNode id (i64 (w + now)) tcb None None]> (heap st))) l) as HS.
    { intros l Hl. induction 1 as [|x l Hl' IH Hx]; constructor; [set_solver|].
      rewrite Forall_forall in *. intros y Hy. unfold later, etime.
      rewrite !lookup_insert_ne by (intros <-; eapply Hl; [|done]; set_solver). by apply Hx. }
    apply HS; [|done]. intros p Hp. apply Hne. by destruct ps; [|right].
  - intros p Hp Hni. rewrite dom_insert in Hp. unfold detached.
    destruct (decide (p = p0)) as [->|Hpp].
    + eexists. by rewrite lookup_insert_eq.
    + rewrite lookup_insert_ne by done. apply Hdet; set_solver.
  - apply NoDup_app. split_and!; [done| |apply NoDup_singleton].
    intros p Hp ->%list_elem_of_singleton. by apply Hadd in Hp as [? _].
  - intros p [Hp| ->%list_elem_of_singleton]%elem_of_app; rewrite dom_insert.
    + apply Hadd in Hp. set_solver.
    + set_solver.
  - intros p Hp%Hdel. rewrite dom_insert. set_solver.
  - intros id' cbs' p. destruct (decide (id = id')) as [->|Hid].
    + rewrite lookup_insert_eq. intros [= _ <-]. eexists. by rewrite lookup_insert_eq.
    + rewrite lookup_insert_ne by done. intros (n & Hn & Hc)%Hmap. exists n.
      rewrite lookup_insert_ne; [done|]. intros <-. apply Hf, elem_of_dom. by exists n.
Qed.

Lemma GetCallBack_map_inv id st ps : cb_inv st ps → cb_inv (GetCallBack_map id st).2 ps.
Proof.
  intros [Hrep Hs Hdet Hadds Hadd Hdel Hmap]. unfold GetCallBack_map.
  destruct (gCbMap st !! id) as [[cbs p]|] eqn:E; split; cbn; try done.
  - intros x [Hx| ->%list_elem_of_singleton]%elem_of_app; [by apply Hdel|].
    apply Hmap in E as (n & Hn & _). apply elem_of_dom. by exists n.
  - intros id' cbs' p' [_ H]%lookup_delete_Some. by eapply Hmap.
  - intros id' cbs' p' [_ H]%lookup_delete_Some. by eapply Hmap.
Qed.

Lemma inv_map_same_data h h' (m : gmap Z (C * ptr)) :
  same_data h h' →
  (∀ id cbs p, m !! id = Some (cbs, p) → ∃ n, h !! p = Some n ∧ cbid n = id) →
  ∀ id cbs p, m !! id = Some (cbs, p) → ∃ n, h' !! p = Some n ∧ cbid n = id.
Proof.
  intros Hd Hmap id cbs p (n & Hn & <-)%Hmap.
  destruct (same_data_cbid h h' p n) as (n' & ? & ?); [done..|]. by exists n'.
Qed.

Lemma recv_QueueAdd_inv i st ps :
  cb_inv st ps →
  ∃ st' ps', recv_QueueAdd i st = Ok st' ∧ cb_inv st' ps' ∧ gCbMap st' = gCbMap st ∧
    ps' = match chQueueAdd st !! i with Some p => spec_add (heap st) p ps | None => ps end ∧
    same_data (heap st) (heap st') ∧ chQueueDel st' = chQueueDel st ∧
    chQueueAdd st' = match chQueueAdd st !! i with Some _ => delete i (chQueueAdd st) | None => chQueueAdd st end.
Proof.
  intros Hinv. pose proof Hinv as [Hrep Hs Hdet Hadds Hadd Hdel Hmap].
  unfold recv_QueueAdd. destruct (chQueueAdd st !! i) as [node|] eqn:Ei; [|by exists st, ps].
  destruct (Hadd node) as [Hdom Hni]; [by eapply list_elem_of_lookup_2|].
  destruct (queueAdd_spec (heap st) (queue st) ps node) as (h' & q' & E & Hrep' & Hsz & Hd & Hfr);
    [done..|by apply Hdet|].
  rewrite E, bind_ok. eexists _, _. split; [done|]. split; [|by split_and!].
  assert (∀ p, p ∈ spec_add (heap st) node ps ↔ p ∈ node :: ps) as Hperm.
  { intros p. by rewrite spec_add_perm. }
  split; cbn.
  - done.
  - by eapply spec_add_sorted.
  - intros p Hp Hnp. rewrite Hperm in Hnp. unfold detached. rewrite Hfr by done.
    apply Hdet; [|set_solver]. by rewrite <- (same_data_dom _ _ Hd).
  - eapply sublist_NoDup; [done|apply sublist_delete].
  - intros p Hp. rewrite Hperm, (same_data_dom _ _ Hd).
    rewrite (delete_Permutation _ _ _ Ei) in Hadds. apply NoDup_cons in Hadds as [Hnode _].
    assert (p ∈ chQueueAdd st) as Hpa by (rewrite (delete_Permutation _ _ _ Ei); by right).
    apply Hadd in Hpa. set_solver.
  - intros p Hp. rewrite (same_data_dom _ _ Hd). by apply Hdel.
  - by eapply inv_map_same_data.
Qed.

(** [queueDel] of any allocated node, in the queue or not. *)
Lemma queueDel_inv node st ps :
  cb_inv st ps → node ∈ dom (heap st) →
  ∃ h' q' ps', queueDel node (heap st) (queue st) = Ok (h', q') ∧ same_data (heap st) h' ∧
    (∀ m dels, m ⊆ gCbMap st → (∀ p, p ∈ dels → p ∈ chQueueDel st) →
       cb_inv (mkCbState h' q' m (chQueueAdd st) dels) ps') ∧
    sublist ps' ps ∧ (∀ p, p ∈ ps' ↔ p ∈ ps ∧ p ≠ node) ∧ (∀ l, ps = l ++ [node] → ps' = l).
Proof.
  intros [Hrep Hs Hdet Hadds Hadd Hdel Hmap] Hdom.
  assert (∃ h' q' ps', queueDel node (heap st) (queue st) = Ok (h', q') ∧ rep h' q' ps' ∧
            sublist ps' ps ∧ same_data (heap st) h' ∧
            (∀ p, p ∈ dom (heap st) → p ∉ ps' → detached h' p) ∧
            (∀ p, p ∈ ps' ↔ p ∈ ps ∧ p ≠ node) ∧ (∀ l, ps = l ++ [node] → ps' = l))
    as (h' & q' & ps' & E & Hrep' & Hsub & Hd & Hdet' & Hel & Hlast).
  { pose proof (rep_nodup _ _ _ Hrep) as Hnd. destruct (decide (node ∈ ps)) as [Hin|Hni].
    - apply list_elem_of_split in Hin as (l1 & l2 & ->).
      destruct (queueDel_spec _ _ _ _ _ Hrep) as (h' & q' & E & Hrep' & _ & Hd & Hdn & Hfr).
      pose proof Hnd as (_ & Hdis & [Hn2 _]%NoDup_cons)%NoDup_app.
      assert (node ∉ l1) as Hn1 by set_solver.
      exists h', q', (l1 ++ l2). split_and!; [done..| |done| | |].
      + apply sublist_app; [done|]. by apply sublist_cons.
      + intros p Hp Hnp. destruct (decide (p = node)) as [->|]; [done|].
        unfold detached. rewrite Hfr by set_solver. apply Hdet; set_solver.
      + set_solver.
      + intros l E'. destruct l2 as [|y l2 _] using rev_ind; [by apply app_inj_tail in E' as [-> _]; rewrite app_nil_r|].
        rewrite app_comm_cons, app_assoc in E'. apply app_inj_tail in E' as [_ ->]. set_solver.
    - destruct (queueDel_detached _ _ _ _ Hrep Hni) as (h' & q' & E & Hrep' & _ & Hd & Hdn & Hfr);
        [by apply Hdet|].
      exists h', q', ps. split_and!; [done..| |set_solver|intros l ->; set_solver]. intros p Hp Hnp.
      destruct (decide (p = node)) as [->|]; [done|].
      unfold detached. rewrite Hfr by done. by apply Hdet. }
  exists h', q', ps'. split_and!; try done. intros m dels Hm Hdels.
  assert (∀ p, p ∈ ps' → p ∈ ps) as Hincl by eauto using elem_of_sublist.
  split; cbn; rewrite ?(same_data_dom _ _ Hd).
  - done.
  - by eapply tail_sorted_sub.
  - done.
  - done.
  - intros p Hp%Hadd. naive_solver.
  - intros p Hp%Hdels. by apply Hdel.
  - eapply inv_map_same_data; [done|]. intros id cbs p Hp. apply (Hmap id cbs). by eapply lookup_weaken.
Qed.

Lemma recv_QueueDel_inv i st ps :
  cb_inv st ps →
  ∃ st' ps', recv_QueueDel i st = Ok st' ∧ cb_inv st' ps' ∧ gCbMap st' = gCbMap st ∧
    sublist ps' ps ∧ same_data (heap st) (heap st') ∧ chQueueAdd st' = chQueueAdd st ∧
    chQueueDel st' = match chQueueDel st !! i with Some _ => delete i (chQueueDel st) | None => chQueueDel st end ∧
    (∀ p, p ∈ ps → chQueueDel st !! i ≠ Some p → p ∈ ps').
Proof.
  intros Hinv. unfold recv_QueueDel. destruct (chQueueDel st !! i) as [node|] eqn:Ei; [|by exists st, ps].
  destruct (queueDel_inv node st ps Hinv) as (h' & q' & ps' & E & Hd & Hinv' & Hsub & Hel & _).
  { eapply (inv_del _ _ Hinv), list_elem_of_lookup_2, Ei. }
  rewrite E, bind_ok. eexists _, ps'. split; [done|]. split.
  { apply Hinv'; [done|]. intros p Hp. rewrite (delete_Permutation _ _ _ Ei). by right. }
  split_and!; try done. intros p Hp Hne. apply Hel. split; [done|congruence].
Qed.

(** ** What a tick does *)

Lemma fire_spec h l m :
  (fire h l m).1 ⊆ m ∧ NoDup (fire h l m).2.*1 ∧
  ∀ id, id ∈ (fire h l m).2.*1 ↔
    is_Some (m !! id) ∧ (fire h l m).1 !! id = None.
Proof.
  revert m. induction l as [|p l IH]; intros m; simpl.
  { split; [done|]. split; [constructor|]. intros id. split; [set_solver|].
    intros [[x Hx] Hn]. congruence. }
  destruct (h !! p) as [n|]; [|apply IH].
  specialize (IH (delete (cbid n) m)).
  destruct (fire h l (delete (cbid n) m)) as [m' f]. simpl in *.
  destruct IH as (Hsub & Hnd & Hiff).
  assert (m' !! cbid n = None) as Hm'.
  { destruct (m' !! cbid n) as [x|] eqn:Ex; [|done].
    eapply lookup_weaken in Ex; [|done]. by rewrite lookup_delete_eq in Ex. }
  split; [etrans; [done|apply delete_subseteq]|].
  case_bool_decide as Hb; simpl.
  - split.
    + apply NoDup_cons. split; [|done]. intros [[x Hx] _]%Hiff. by rewrite lookup_delete_eq in Hx.
    + intros id. rewrite elem_of_cons, Hiff.
      destruct (decide (id = cbid n)) as [->|Hne]; [naive_solver|].
      rewrite lookup_delete_ne by done. naive_solver.
  - split; [done|]. intros id. rewrite Hiff.
    destruct (decide (id = cbid n)) as [->|Hne].
    + rewrite lookup_delete_eq. split; [intros [[? ?] _]; congruence|naive_solver].
    + by rewrite lookup_delete_ne by done.
Qed.

(** Only nodes of the list are reported, each with its own closure. *)
Lemma fire_source h l m id tcb :
  (id, tcb) ∈ (fire h l m).2 →
  ∃ p n, p ∈ l ∧ h !! p = Some n ∧ cbid n = id ∧ timeOutCb n = tcb.
Proof.
  revert m. induction l as [|p l IH]; intros m; simpl; [set_solver|].
  destruct (h !! p) as [n|] eqn:Hn.
  - specialize (IH (delete (cbid n) m)).
    destruct (fire h l (delete (cbid n) m)) as [m' f]. simpl in *.
    case_bool_decide; [rewrite elem_of_cons; intros [[= -> ->]|Hin]|intros Hin].
    + exists p, n. set_solver.
    + destruct (IH Hin) as (p' & n' & ? & ?). exists p', n'. set_solver.
    + destruct (IH Hin) as (p' & n' & ? & ?). exists p', n'. set_solver.
  - intros Hin. destruct (IH _ Hin) as (p' & n' & ? & ?). exists p', n'. set_solver.
Qed.

Lemma recv_Tick_inv now st ps :
  cb_inv st ps →
  ∃ keep exp st' fired,
    recv_Tick now st = Ok (st', fired) ∧ cb_inv st' keep ∧ ps = keep ++ exp ∧
    Forall (λ p, etime (heap st) p ≤ now) exp ∧
    (∀ p, last keep = Some p → now < etime (heap st) p) ∧
    same_data (heap st) (heap st') ∧
    (gCbMap st', fired) = fire (heap st) (reverse exp) (gCbMap st) ∧
    chQueueAdd st' = chQueueAdd st ∧ chQueueDel st' = chQueueDel st.
Proof.
  intros [Hrep Hs Hdet Hadds Hadd Hdel Hmap].
  unfold recv_Tick, priorityQueueTick.
  destruct (priorityQueueTick_loop_spec now ps (S (size (heap st))) (heap st) (queue st) (gCbMap st) [])
    as (keep & exp & h' & q' & -> & He & Hk & E & Hrep' & _ & Hd & Hdet' & Hfr);
    [done|pose proof (rep_length_size _ _ _ Hrep); lia|].
  rewrite E, bind_ok. exists keep, exp. eexists _, _. split; [done|].
  split; [|split_and!; try done; cbn; by destruct (fire _ _ _)].
  split; cbn; rewrite ?(same_data_dom _ _ Hd).
  - done.
  - eapply tail_sorted_sub; [done| |done]. by apply sublist_inserts_r.
  - intros p Hp Hnk. destruct (decide (p ∈ exp)); [by apply Hdet'|].
    unfold detached. rewrite Hfr by set_solver. apply Hdet; set_solver.
  - done.
  - intros p Hp%Hadd. set_solver.
  - done.
  - eapply inv_map_same_data; [done|]. intros id cbs p Hp. apply (Hmap id cbs).
    eapply lookup_weaken; [done|]. apply fire_spec.
Qed.

(** ** All interleavings

    [cb_reach added delivered st]: [st] is reached by some interleaving of
    callers and manager in which the identifiers [added] were registered and
    the callbacks [delivered] were handed to a caller or timed out. *)

Inductive cb_reach : list Z → list Z → CbState → Prop :=
  | reach_init : cb_reach [] [] init_CbState
  | reach_add added delivered st now id cbs w tcb :
      cb_reach added delivered st →
      cb_reach (id :: added) delivered (AddCallBack_map now id cbs w tcb st)
  | reach_get added delivered st id cbs st' :
      cb_reach added delivered st → GetCallBack_map id st = (Some cbs, st') →
      cb_reach added (id :: delivered) st'
  | reach_get_none added delivered st id st' :
      cb_reach added delivered st → GetCallBack_map id st = (None, st') →
      cb_reach added delivered st'
  | reach_queue_add added delivered st i st' :
      cb_reach added delivered st → recv_QueueAdd i st = Ok st' →
      cb_reach added delivered st'
  | reach_queue_del added delivered st i st' :
      cb_reach added delivered st → recv_QueueDel i st = Ok st' →
      cb_reach added delivered st'
  | reach_tick added delivered st now st' fired :
      cb_reach added delivered st → recv_Tick now st = Ok (st', fired) →
      cb_reach added (fired.*1 ++ delivered) st'.

Lemma cb_reach_inv added delivered st : cb_reach added delivered st → ∃ ps, cb_inv st ps.
Proof.
  induction 1 as [|a d st now id cbs w tcb _ [ps IH]|a d st id cbs st' _ [ps IH] E
                  |a d st id st' _ [ps IH] E|a d st i st' _ [ps IH] E|a d st i st' _ [ps IH] E
                  |a d st now st' fired _ [ps IH] E].
  - exists []. apply init_inv.
  - exists ps. by apply AddCallBack_map_inv.
  - exists ps. apply (GetCallBack_map_inv id) in IH. by rewrite E in IH.
  - exists ps. apply (GetCallBack_map_inv id) in IH. by rewrite E in IH.
  - destruct (recv_QueueAdd_inv i st ps IH) as (st'' & ps' & E' & ? & _). exists ps'. congruence.
  - destruct (recv_QueueDel_inv i st ps IH) as (st'' & ps' & E' & ? & _). exists ps'. congruence.
  - destruct (recv_Tick_inv now st ps IH) as (keep & exp & st'' & f & E' & ? & _). exists keep. congruence.
Qed.

(** ** Claims *)

(** C11 (pointer safety under every interleaving).  In every state that callers
    and manager can reach together, the queue is a well-formed doubly linked
    list whose nodes behind the first are sorted by deadline, and whatever the
    manager receives next (a node to insert, a node to delete, present in the
    list or not, or a tick) is handled without a nil dereference and in
    finitely many steps. *)
Theorem callback_queue_safe (added delivered : list Z) (st : CbState) :
  cb_reach added delivered st →
  (∃ ps, rep (heap st) (queue st) ps ∧ tail_sorted (heap st) ps) ∧
  (∀ i, is_ok (recv_QueueAdd i st)) ∧ (∀ i, is_ok (recv_QueueDel i st)) ∧
  (∀ now, is_ok (recv_Tick now st)).
Proof.
  intros [ps Hinv]%cb_reach_inv. split_and!.
  - exists ps. split; apply Hinv.
  - intros i. destruct (recv_QueueAdd_inv i st ps Hinv) as (st' & _ & E & _). by exists st'.
  - intros i. destruct (recv_QueueDel_inv i st ps Hinv) as (st' & _ & E & _). by exists st'.
  - intros now. destruct (recv_Tick_inv now st ps Hinv) as (k & e & st' & f & E & _).
    by exists (st', f).
Qed.

(** The delivery invariant, and that expiring nodes preserves it. *)
Definition delivery (added delivered : list Z) (m : gmap Z (C * ptr)) : Prop :=
  NoDup delivered ∧
  (∀ id, id ∈ added ↔ id ∈ delivered ∨ is_Some (m !! id)) ∧
  (∀ id, id ∈ delivered → m !! id = None).

Lemma delivery_fire added delivered h l m m' f :
  (m', f) = fire h l m → delivery added delivered m →
  delivery added (f.*1 ++ delivered) m'.
Proof.
  intros Ef (Hd & Hiff & Hnone). destruct (fire_spec h l m) as (Hsub & Hndf & Hf).
  rewrite <- Ef in Hsub, Hndf, Hf. simpl in *. split_and!.
  - apply NoDup_app. split_and!; [done| |done]. intros x [[y Hy] _]%Hf Hx%Hnone. congruence.
  - intros x. rewrite Hiff, elem_of_app, Hf. destruct (m' !! x) as [y|] eqn:Ey.
    + assert (m !! x = Some y) by (by eapply lookup_weaken). naive_solver.
    + destruct (m !! x); naive_solver.
  - intros x [Hx|Hx]%elem_of_app; [by apply Hf in Hx as [_ ?]|].
    apply Hnone in Hx. by eapply lookup_weaken_None.
Qed.

(** C10 (exactly once).  When the registered identifiers are distinct, every
    registered callback is at any moment either still pending in the map or has
    been delivered (to [GetCallBack], or as a timeout), never both and never
    twice, whatever the interleaving. *)
Theorem callback_exactly_once (added delivered : list Z) (st : CbState) :
  cb_reach added delivered st → NoDup added →
  NoDup delivered ∧
  (∀ id, id ∈ added ↔ id ∈ delivered ∨ is_Some (gCbMap st !! id)) ∧
  (∀ id, id ∈ delivered → gCbMap st !! id = None).
Proof.
  induction 1 as [|a d st now id cbs w tcb Hr IH|a d st id cbs st' Hr IH E
                  |a d st id st' Hr IH E|a d st i st' Hr IH E|a d st i st' Hr IH E
                  |a d st now st' fired Hr IH E]; intros Hnd.
  - split; [constructor|]. split; [|set_solver]. intros id. cbn. rewrite lookup_empty.
    split; [set_solver|]. intros [?|[? ?]]; [set_solver|done].
  - apply NoDup_cons in Hnd as [Hid Hnd]. destruct (IH Hnd) as (Hd & Hiff & Hnone).
    split; [done|]. cbn. split.
    + intros x. rewrite elem_of_cons, Hiff, lookup_insert. case_decide; naive_solver.
    + intros x Hx. rewrite lookup_insert_ne; [by apply Hnone|]. intros <-.
      apply Hid. rewrite Hiff. by left.
  - destruct (IH Hnd) as (Hd & Hiff & Hnone). unfold GetCallBack_map in E.
    destruct (gCbMap st !! id) as [[c p]|] eqn:Em; simplify_eq/=. split_and!.
    + apply NoDup_cons. split; [|done]. intros Hin%Hnone. congruence.
    + intros x. rewrite Hiff, elem_of_cons, lookup_delete. case_decide; naive_solver.
    + intros x. rewrite elem_of_cons, lookup_delete. case_decide; naive_solver.
  - destruct (IH Hnd) as (Hd & Hiff & Hnone). unfold GetCallBack_map in E.
    destruct (gCbMap st !! id) as [[c p]|] eqn:Em; simplify_eq/=.
    rewrite delete_id by done. done.
  - apply cb_reach_inv in Hr as [ps Hinv].
    destruct (recv_QueueAdd_inv i st ps Hinv) as (st'' & ps' & E' & _ & Hm & _).
    rewrite E in E'. injection E' as <-. rewrite Hm. by apply IH.
  - apply cb_reach_inv in Hr as [ps Hinv].
    destruct (recv_QueueDel_inv i st ps Hinv) as (st'' & ps' & E' & _ & Hm & _).
    rewrite E in E'. injection E' as <-. rewrite Hm. by apply IH.
  - destruct (IH Hnd) as (Hd & Hiff & Hnone). apply cb_reach_inv in Hr as [ps Hinv].
    destruct (recv_Tick_inv now st ps Hinv) as (k & e & st'' & f & E' & _ & _ & _ & _ & _ & Ef & _).
    rewrite E in E'. injection E' as <- <-.
    by apply (delivery_fire _ _ _ _ _ _ _ Ef).
Qed.

(** (timeouts).  A tick reports a timeout only for a registered node whose
    deadline has passed; and after it every node of the queue but the first has
    a deadline in the future, so behind the first node no expired callback is
    left waiting. *)
Theorem tick_timeouts (added delivered : list Z) (st st' : CbState) (now : Z)
    (fired : list (Z * option T)) :
  cb_reach added delivered st → recv_Tick now st = Ok (st', fired) →
  (∀ id tcb, (id, tcb) ∈ fired →
     ∃ p n, heap st !! p = Some n ∧ cbid n = id ∧ timeOutCb n = tcb ∧ endTime n ≤ now) ∧
  ∃ ps, rep (heap st') (queue st') ps ∧ ∀ p, p ∈ tail ps → now < etime (heap st') p.
Proof.
  intros [ps Hinv]%cb_reach_inv E.
  destruct (recv_Tick_inv now st ps Hinv)
    as (keep & exp & st'' & f & E' & Hinv' & -> & He & Hk & Hd & Ef & _).
  rewrite E in E'. injection E' as <- <-. split.
  - intros id tcb Hin.
    assert ((id, tcb) ∈ (fire (heap st) (reverse exp) (gCbMap st)).2) as Hin' by (by rewrite <- Ef).
    apply fire_source in Hin' as (p & n & Hp & Hn & Hc & Ht). exists p, n. split_and!; try done.
    rewrite elem_of_reverse in Hp. rewrite Forall_forall in He. specialize (He p Hp).
    unfold etime in He. by rewrite Hn in He.
  - exists keep. split; [apply Hinv'|]. apply tail_sorted_last; [apply Hinv'|].
    intros p Hp. rewrite (same_data_etime (heap st)) by done. by apply Hk.
Qed.

(** C37 (the list refines a sequence).  The pointer operations implement their
    meaning on the sequence of nodes: [queueAdd] inserts a fresh node behind the
    first one, before the first node whose deadline is not later; [queueDel]
    removes the node and detaches it; a tick removes exactly the longest end
    segment of expired nodes. *)
Theorem queue_refines_list (h : gmap ptr Node) (q : PriorityQueue) (ps : list ptr) :
  rep h q ps →
  (∀ node, node ∉ ps → detached h node →
     ∃ h' q', queueAdd node h q = Ok (h', q') ∧ rep h' q' (spec_add h node ps) ∧
       qsize q' = i32 (qsize q + 1)) ∧
  (∀ node, node ∈ ps →
     ∃ h' q', queueDel node h q = Ok (h', q') ∧ rep h' q' (filter (λ p, p ≠ node) ps) ∧
       detached h' node ∧ qsize q' = i32 (qsize q - 1)) ∧
  (∀ now m,
     ∃ keep exp h' q' m' fired,
       priorityQueueTick now h q m = Ok (h', q', m', fired) ∧ rep h' q' keep ∧
       ps = keep ++ exp ∧ Forall (λ p, etime h p ≤ now) exp ∧
       (∀ p, last keep = Some p → now < etime h p) ∧ qsize q' = i32 (qsize q - go_len exp)).
Proof.
  intros Hrep. split_and!.
  - intros node Hni Hdet.
    destruct (queueAdd_spec h q ps node) as (h' & q' & E & Hrep' & Hsz & _); [done..|].
    by exists h', q'.
  - intros node (l1 & l2 & ->)%list_elem_of_split.
    destruct (queueDel_spec h q l1 node l2 Hrep) as (h' & q' & E & Hrep' & Hsz & _ & Hdet & _).
    exists h', q'. split_and!; try done.
    pose proof (rep_nodup _ _ _ Hrep) as (_ & Hdis & [Hn2 _]%NoDup_cons)%NoDup_app.
    rewrite filter_app, filter_cons_False by (intros H; by apply H).
    rewrite !(filter_keeps_all (λ p, p ≠ node)); [done|..]; set_solver.
  - intros now m.
    destruct (priorityQueueTick_loop_spec now ps (S (size h)) h q m [])
      as (keep & exp & h' & q' & Eq & He & Hk & E & Hrep' & Hs & _);
      [done|pose proof (rep_length_size _ _ _ Hrep); lia|].
    exists keep, exp, h', q'. eexists _, _. by split_and!.
Qed.

(** ** The calls in sequence *)

Lemma AddCallBack_spec now id cbs w tcb st ps :
  cb_inv st ps →
  ∃ st' p, AddCallBack now id cbs w tcb st = Ok st' ∧
    cb_inv st' (spec_add (<[p := mkNode id (i64 (w + now)) tcb None None]> (heap st)) p ps) ∧
    p ∉ dom (heap st) ∧
    same_data (<[p := mkNode id (i64 (w + now)) tcb None None]> (heap st)) (heap st') ∧
    gCbMap st' = <[id := (cbs, p)]> (gCbMap st) ∧
    chQueueAdd st' = chQueueAdd st ∧ chQueueDel st' = chQueueDel st.
Proof.
  intros Hinv. unfold AddCallBack.
  set (st1 := AddCallBack_map now id cbs w tcb st).
  pose proof (AddCallBack_map_inv now id cbs w tcb st ps Hinv) as Hinv1. fold st1 in Hinv1.
  assert (chQueueAdd st1 !! length (chQueueAdd st) = Some (fresh (dom (heap st)))) as Hl.
  { cbn. rewrite lookup_app_r, Nat.sub_diag by lia. done. }
  destruct (recv_QueueAdd_inv (length (chQueueAdd st)) st1 ps Hinv1)
    as (st' & ps' & E & Hinv' & Hm & Hps & _). rewrite Hl in Hps.
  exists st', (fresh (dom (heap st))). split; [done|]. subst ps'. split; [done|].
  split; [apply is_fresh|]. unfold recv_QueueAdd in E. rewrite Hl in E.
  destruct (inv_add _ _ Hinv1 (fresh (dom (heap st)))) as [Hdom Hni];
    [by eapply list_elem_of_lookup_2|].
  destruct (queueAdd_spec (heap st1) (queue st1) ps (fresh (dom (heap st))))
    as (h' & q' & Eq & _ & _ & Hd & _); [apply Hinv1|done|by apply (inv_detached _ _ Hinv1)|].
  rewrite Eq, bind_ok in E. injection E as <-. cbn. split_and!; try done.
  by rewrite delete_middle, app_nil_r.
Qed.

Lemma GetCallBack_spec id st ps :
  cb_inv st ps →
  ∃ st' ps', GetCallBack id st = Ok (fst <$> gCbMap st !! id, st') ∧ cb_inv st' ps' ∧
    gCbMap st' = delete id (gCbMap st).
Proof.
  intros Hinv. pose proof (GetCallBack_map_inv id st ps Hinv) as Hinv1. unfold GetCallBack.
  destruct (gCbMap st !! id) as [[cbs node]|] eqn:E; unfold GetCallBack_map in *; rewrite E in *; cbn in *.
  - destruct (recv_QueueDel_inv (length (chQueueDel st)) _ _ Hinv1) as (st' & ps' & -> & Hi & Hm & _).
    exists st', ps'. by rewrite Hm.
  - eexists _, ps. by split_and!.
Qed.

Lemma tick_nothing_due now st ps p :
  cb_inv st ps → last ps = Some p → now < etime (heap st) p →
  ∃ st', recv_Tick now st = Ok (st', []) ∧ gCbMap st' = gCbMap st.
Proof.
  intros Hinv Hl Hp.
  destruct (recv_Tick_inv now st ps Hinv)
    as (keep & exp & st' & f & E & _ & -> & He & _ & _ & Ef & _).
  exists st'. destruct exp as [|z exp _] using rev_ind.
  { rewrite reverse_nil in Ef. injection Ef as -> ->. done. }
  rewrite app_assoc, last_snoc in Hl. injection Hl as ->.
  apply Forall_snoc in He as [_ He]. lia.
Qed.

(** (the first callback is overlooked).  The first node is never compared
    with a new one, so when all callbacks live equally long the oldest one stays
    at the head of the list while ticks read it from the other end.  A callback
    registered at [t1] on an idle manager, and long expired, is not reported by
    a tick as long as a callback registered later at [t2] is not due. *)
Theorem first_callback_overdue (t1 t2 w now id1 id2 : Z) (c1 c2 : C) (k1 k2 : option T) :
  0 ≤ t1 < t2 → t2 < 2 ^ 62 → 0 < w < 128 → id1 ≠ id2 → t1 + w ≤ now < t2 + w →
  ∃ st st', (AddCallBack t1 id1 c1 w k1 init_CbState ≫= AddCallBack t2 id2 c2 w k2) = Ok st ∧
    recv_Tick now st = Ok (st', []) ∧ is_Some (gCbMap st' !! id1).
Proof.
  intros Ht1 Ht2 Hw Hid Hnow.
  destruct (AddCallBack_spec t1 id1 c1 w k1 init_CbState [] init_inv)
    as (st1 & p1 & E1 & Hinv1 & Hp1 & Hd1 & Hm1 & _).
  destruct (AddCallBack_spec t2 id2 c2 w k2 st1 _ Hinv1)
    as (st2 & p2 & E2 & Hinv2 & Hp2 & Hd2 & Hm2 & _).
  cbn [spec_add ins] in Hinv2.
  destruct (tick_nothing_due now st2 _ p2 Hinv2) as (st' & E & Hm); [done| |].
  - rewrite (same_data_etime _ _ p2 Hd2). unfold etime. rewrite lookup_insert_eq. cbn.
    unfold i64, swrap. rewrite Z.mod_small by lia. lia.
  - exists st2, st'. rewrite E1, bind_ok. split; [done|]. split; [done|].
    rewrite Hm, Hm2, Hm1, lookup_insert_ne, lookup_insert_eq by done. by eexists.
Qed.

End CallbackMgr.
Arguments Node T : clear implicits.
Arguments CbState C T : clear implicits.

(** ** Witnesses: runs with unit payloads *)

Abbreviation ustate := (CbState unit unit).

Definition demo_add (now id w : Z) (st : ustate) : ustate :=
  AddCallBack_map now id tt w (Some tt) st.

(** One callback, registered at time 0 for 10 seconds and queued. *)
Definition demo1 : ustate := from_ok init_CbState (recv_QueueAdd 0 (demo_add 0 1 10 init_CbState)).

Lemma demo1_reach : cb_reach [1] [] demo1.
Proof.
  apply (reach_queue_add _ _ (demo_add 0 1 10 init_CbState) 0); [|vm_compute; reflexivity].
  apply reach_add, reach_init.
Qed.

Lemma callback_queue_safe_witness :
  (∃ ps, rep (heap demo1) (queue demo1) ps ∧ tail_sorted (heap demo1) ps) ∧
  (∀ i, is_ok (recv_QueueAdd i demo1)) ∧ (∀ i, is_ok (recv_QueueDel i demo1)) ∧
  (∀ now, is_ok (recv_Tick now demo1)).
Proof. apply (callback_queue_safe [1] [] demo1), demo1_reach. Defined.

(** [demo1] after a reply was taken for its callback. *)
Definition demo1_got : ustate := (GetCallBack_map 1 demo1).2.

Lemma demo1_got_reach : cb_reach [1] [1] demo1_got.
Proof. apply (reach_get _ _ demo1 1 tt); [apply demo1_reach|vm_compute; reflexivity]. Qed.

Lemma callback_exactly_once_witness : NoDup [1] ∧ gCbMap demo1_got !! 1 = None.
Proof.
  split; [apply NoDup_singleton|].
  apply (callback_exactly_once [1] [1] demo1_got);
    [apply demo1_got_reach|apply NoDup_singleton|left].
Defined.

Definition demo1_ticked : ustate * list (Z * option unit) :=
  from_ok (init_CbState, []) (recv_Tick 10 demo1).

Lemma tick_timeouts_witness :
  ∃ ps, rep (heap demo1_ticked.1) (queue demo1_ticked.1) ps ∧
    ∀ p, p ∈ tail ps → 10 < etime (heap demo1_ticked.1) p.
Proof.
  apply (tick_timeouts [1] [] demo1 demo1_ticked.1 10 demo1_ticked.2);
    [apply demo1_reach|vm_compute; reflexivity].
Defined.

Example demo1_fires : demo1_ticked.2 = [(1, Some tt)].
Proof. vm_compute. reflexivity. Qed.

Lemma queue_refines_list_witness :
  ∃ h' q', queueDel 1%positive (heap demo1) (queue demo1) = Ok (h', q') ∧
    rep h' q' (filter (λ p, p ≠ 1%positive) [1%positive]) ∧ detached h' 1%positive ∧
    qsize q' = i32 (qsize (queue demo1) - 1).
Proof.
  apply (queue_refines_list (C := unit) (heap demo1) (queue demo1) [1%positive]); [|left].
  split; [apply NoDup_singleton| |vm_compute; reflexivity..].
  eexists. split; [vm_compute; reflexivity|]. repeat split.
Defined.

Lemma first_callback_overdue_witness :
  ∃ st st', (AddCallBack 0 1 tt 100 (@None unit) init_CbState ≫= AddCallBack 50 2 tt 100 None) = Ok st ∧
    recv_Tick 149 st = Ok (st', []) ∧ is_Some (gCbMap st' !! 1).
Proof. apply (first_callback_overdue 0 50 100 149 1 2 tt tt None None); lia. Defined.

(** (The size counter drifts.)  A reply that is taken from the map before a
    tick expires its node makes the manager delete the node twice: the queue is
    empty and its size counter is -1. *)
Theorem size_counter_drifts :
  ∃ st : ustate, cb_reach [1] [1] st ∧ rep (heap st) (queue st) [] ∧ chQueueDel st = [] ∧
    qsize (queue st) = -1.
Proof.
  set (st1 := from_ok (init_CbState, []) (recv_Tick 10 demo1_got)).
  exists (from_ok init_CbState (recv_QueueDel 0 st1.1)). split.
  - apply (reach_queue_del _ _ st1.1 0); [|vm_compute; reflexivity].
    apply (reach_tick [1] [1] demo1_got 10 _ []); [apply demo1_got_reach|vm_compute; reflexivity].
  - split; [|split; vm_compute; reflexivity].
    split; [constructor|done|vm_compute; reflexivity..].
Qed.
