(* ===== verification/RemoteMgr.v ===== *)
(** * Routes to the services ([src/ms_framework/msf_remote_mgr.go])

    A gate keeps one connection per service instance, a balancer per service
    and, for ordered requests, the instance each client was first routed to.
    The component is generic in the balancer: what is proved here uses only the
    interface [Balancer], which [LoadBalancer] implements. *)

From S2P Require Import Prelude LoadBalancer.

Local Open Scope Z_scope.

Abbreviation CONN_ID := string.
Abbreviation REMOTE_ID := string.

(** A [net.Conn]: its identity and the address of its peer. *)
Record Conn := mkConn { conn_fd : positive; conn_addr : string }.

#[export] Instance Conn_eq_dec : EqDecision Conn.
Proof. solve_decision. Defined.

Definition GetConnID (c : Conn) : CONN_ID := conn_addr c.

Definition GenConnIDByIPPort (ip : string) (port : Z) : CONN_ID :=
  ip +:+ ":" +:+ pretty port.

Definition GetRemoteID (namespace svrName : string) : REMOTE_ID :=
  namespace +:+ ":" +:+ svrName.

Record Remote := mkRemote {
  id : REMOTE_ID;
  rconn : Conn;
  recvBuf : bytes;
  remainLen : Z;
  lastActiveTime : Z;
}.

Section RemoteMgr.
  Context {L : Type} `{!Balancer L}.
  (** The package variable [RECV_BUF_MAX_LEN]. *)
  Context (RECV_BUF_MAX_LEN : Z).

Record RemoteMgr := mkRemoteMgr {
  remotes : gmap CONN_ID Remote;
  lbs : gmap REMOTE_ID L;
  orderedCache : gmap CONN_ID (gmap REMOTE_ID CONN_ID);
}.

Definition CreateRemoteMgr : RemoteMgr := mkRemoteMgr ∅ ∅ ∅.

Definition GetRemote (connID : CONN_ID) (rm : RemoteMgr) : option Remote := remotes rm !! connID.

(** [ConnectRemote] with the outcome [dial] of [net.DialTimeout], at time [now]:
    whether it returned an error, the connection it closed, the state. *)
Definition ConnectRemote (now : Z) (dial : option Conn) (namespace svrName ip : string) (port : Z)
    (rm : RemoteMgr) : bool * option Conn * RemoteMgr :=
  match dial with
  | None => (true, None, rm)
  | Some c =>
      let connID := GenConnIDByIPPort ip port in
      match remotes rm !! connID with
      | Some _ => (false, Some c, rm)
      | None =>
          let remoteID := GetRemoteID namespace svrName in
          let lb := match lbs rm !! remoteID with Some lb => lb | None => bal_new end in
          let '(added, lb) := bal_add lb connID in
          let rm := mkRemoteMgr (remotes rm) (<[remoteID := lb]> (lbs rm)) (orderedCache rm) in
          if added then
            let r := mkRemote remoteID c (replicate (Z.to_nat RECV_BUF_MAX_LEN) 0) 0 now in
            (false, None, mkRemoteMgr (<[connID := r]> (remotes rm)) (lbs rm) (orderedCache rm))
          else (false, None, rm)
      end
  end.

(** The retry loop of [OnRemoteDiscover]: [dials] gives the outcome of each
    attempt; an attempt beyond the list fails. *)
Fixpoint Discover_loop (retryCnt : nat) (now : Z) (dials : list (option Conn))
    (namespace svrName ip : string) (port : Z) (rm : RemoteMgr) : RemoteMgr :=
  match retryCnt with
  | O => rm
  | S retryCnt =>
      let '(err, _, rm') := ConnectRemote now (mjoin (head dials)) namespace svrName ip port rm in
      if err : bool then Discover_loop retryCnt now (tail dials) namespace svrName ip port rm'
      else rm'
  end.

Definition OnRemoteDiscover (now : Z) (dials : list (option Conn))
    (namespace svrName ip : string) (port : Z) (rm : RemoteMgr) : RemoteMgr :=
  match remotes rm !! GenConnIDByIPPort ip port with
  | Some _ => rm
  | None => Discover_loop 5 now dials namespace svrName ip port rm
  end.

(** A missing balancer is a nil [*LoadBalancer], whose method locks a mutex
    through it. *)
Definition OnRemoteDisappear (remoteID : REMOTE_ID) (connID : CONN_ID) (rm : RemoteMgr)
    : result RemoteMgr :=
  match remotes rm !! connID with
  | None => Ok rm
  | Some _ =>
      match lbs rm !! remoteID with
      | None => Panic NilDereference
      | Some lb =>
          Ok (mkRemoteMgr (delete connID (remotes rm))
                (<[remoteID := (bal_del lb connID).2]> (lbs rm)) (orderedCache rm))
      end
  end.

Definition ChioceRemoteFromOrderCache (remoteID : REMOTE_ID) (clientID : CONN_ID) (rm : RemoteMgr)
    : option Remote * RemoteMgr :=
  match orderedCache rm !! clientID with
  | None => (None, rm)
  | Some cache =>
      match cache !! remoteID with
      | None => (None, rm)
      | Some connID =>
          match remotes rm !! connID with
          | Some remote => (Some remote, rm)
          | None =>
              (None, mkRemoteMgr (remotes rm) (lbs rm)
                       (<[clientID := delete remoteID cache]> (orderedCache rm)))
          end
      end
  end.

Definition UpdateRemoteOrderCache (remoteID : REMOTE_ID) (clientID connID : CONN_ID)
    (rm : RemoteMgr) : RemoteMgr :=
  let cache := match orderedCache rm !! clientID with Some cache => cache | None => ∅ end in
  mkRemoteMgr (remotes rm) (lbs rm)
    (<[clientID := <[remoteID := connID]> cache]> (orderedCache rm)).

Definition DelRemoteOrderCache (clientID : CONN_ID) (rm : RemoteMgr) : RemoteMgr :=
  mkRemoteMgr (remotes rm) (lbs rm) (delete clientID (orderedCache rm)).

(** The part of [ChoiceRemote] after the cache was consulted in vain. *)
Definition ChoiceRemote_balance (remoteID : REMOTE_ID) (isOrdered : bool) (clientID : CONN_ID)
    (rm : RemoteMgr) : result (option Remote * RemoteMgr) :=
  match lbs rm !! remoteID with
  | None => Ok (None, rm)
  | Some lb =>
      '(connID, lb) ← bal_pick lb;
      let rm := mkRemoteMgr (remotes rm) (<[remoteID := lb]> (lbs rm)) (orderedCache rm) in
      let remote := GetRemote connID rm in
      match remote with
      | Some _ =>
          if isOrdered then Ok (remote, UpdateRemoteOrderCache remoteID clientID connID rm)
          else Ok (remote, rm)
      | None => Ok (remote, rm)
      end
  end.

Definition ChoiceRemote (remoteID : REMOTE_ID) (isOrdered : bool) (clientID : CONN_ID)
    (rm : RemoteMgr) : result (option Remote * RemoteMgr) :=
  if isOrdered then
    match ChioceRemoteFromOrderCache remoteID clientID rm with
    | (Some remote, rm) => Ok (Some remote, rm)
    | (None, rm) => ChoiceRemote_balance remoteID isOrdered clientID rm
    end
  else ChoiceRemote_balance remoteID isOrdered clientID rm.

(** ** Invariant

    The balancers hold exactly the connected instances of their service. *)

Record rm_inv (rm : RemoteMgr) : Prop := {
  rm_lb_wf : ∀ rid lb, lbs rm !! rid = Some lb → bal_wf lb;
  rm_balanced : ∀ c r, remotes rm !! c = Some r →
    ∃ lb, lbs rm !! id r = Some lb ∧ c ∈ bal_members lb;
  rm_members : ∀ rid lb c, lbs rm !! rid = Some lb → c ∈ bal_members lb →
    ∃ r, remotes rm !! c = Some r ∧ id r = rid;
}.

(** The connected instances of a service. *)
Definition instances (rid : REMOTE_ID) (rm : RemoteMgr) : gmap CONN_ID Remote :=
  filter (λ p, id p.2 = rid) (remotes rm).

Lemma CreateRemoteMgr_inv : rm_inv CreateRemoteMgr.
Proof. split; intros *; cbn; by rewrite lookup_empty. Qed.

Lemma rm_inv_cache rm cache :
  rm_inv rm → rm_inv (mkRemoteMgr (remotes rm) (lbs rm) cache).
Proof. by intros [? ? ?]. Qed.

(** Replacing a balancer by one with the same members. *)
Lemma rm_inv_rebalance rm rid lb lb' cache :
  rm_inv rm → lbs rm !! rid = Some lb → bal_members lb' = bal_members lb → bal_wf lb' →
  rm_inv (mkRemoteMgr (remotes rm) (<[rid := lb']> (lbs rm)) cache).
Proof.
  intros [Hwf Hb Hm] Hlb Hmem Hwf'. split; cbn.
  - intros r l. rewrite lookup_insert. case_decide; naive_solver.
  - intros c r (l & Hl & Hin)%Hb. rewrite lookup_insert. case_decide as Hd.
    + rewrite <- Hd, Hlb in Hl. injection Hl as <-. exists lb'. by rewrite Hmem.
    + eauto.
  - intros r l c. rewrite lookup_insert. case_decide as Hd.
    + intros [= <-]. rewrite Hmem, <- Hd. by apply Hm.
    + apply Hm.
Qed.

(** The balancer a dial of an unregistered address extends does not know it. *)
Definition balancer_of (rid : REMOTE_ID) (rm : RemoteMgr) : L :=
  match lbs rm !! rid with Some lb => lb | None => bal_new end.

Lemma balancer_of_free rm rid connID :
  rm_inv rm → remotes rm !! connID = None →
  bal_wf (balancer_of rid rm) ∧ connID ∉ bal_members (balancer_of rid rm).
Proof.
  intros Hinv Hc. unfold balancer_of. destruct (lbs rm !! rid) as [l|] eqn:El.
  - split; [by eapply rm_lb_wf|]. intros Hin.
    destruct (rm_members _ Hinv _ _ _ El Hin) as (r & Hr & _). congruence.
  - destruct bal_new_spec as [? ->]. set_solver.
Qed.

Lemma ConnectRemote_inv now dial ns svc ip port rm :
  rm_inv rm → rm_inv (ConnectRemote now dial ns svc ip port rm).2.
Proof.
  intros Hinv. unfold ConnectRemote. destruct dial as [c|]; [|done].
  set (connID := GenConnIDByIPPort ip port). set (rid := GetRemoteID ns svc).
  destruct (remotes rm !! connID) eqn:Hc; [done|].
  fold (balancer_of rid rm). destruct (balancer_of_free rm rid connID) as [Hwf Hnot]; [done..|].
  set (lb := balancer_of rid rm) in *.
  pose proof (bal_add_spec lb connID Hwf) as (Hadd & Hmem & Hwf').
  destruct (bal_add lb connID) as [added lb'] eqn:Ea. cbn in *.
  rewrite bool_decide_eq_true_2 in Hadd by done. subst added. cbn.
  destruct Hinv as [Hw Hb Hm]. split; cbn.
  - intros r l. rewrite lookup_insert. case_decide; naive_solver.
  - intros x r. rewrite lookup_insert. case_decide as Hd.
    + intros [= <-]. cbn. exists lb'. rewrite lookup_insert_eq. set_solver.
    + intros (l & Hl & Hin)%Hb. rewrite lookup_insert. case_decide as Hd'; [|eauto].
      exists lb'. split; [done|]. rewrite Hmem. unfold lb, balancer_of. rewrite Hd', Hl. set_solver.
  - intros r l x. rewrite lookup_insert. case_decide as Hd.
    + intros [= <-]. rewrite Hmem. intros [->%elem_of_singleton|Hin]%elem_of_union.
      * eexists. rewrite lookup_insert_eq. done.
      * unfold lb, balancer_of in Hin. rewrite Hd in Hin. destruct (lbs rm !! r) as [l0|] eqn:El.
        -- destruct (Hm _ _ _ El Hin) as (r0 & Hr0 & <-). exists r0.
           rewrite lookup_insert_ne by congruence. done.
        -- destruct bal_new_spec as [_ E]. rewrite E in Hin. set_solver.
    + intros Hl Hin. destruct (Hm _ _ _ Hl Hin) as (r0 & Hr0 & <-). exists r0.
      rewrite lookup_insert_ne by congruence. done.
Qed.

Lemma OnRemoteDiscover_inv now dials ns svc ip port rm :
  rm_inv rm → rm_inv (OnRemoteDiscover now dials ns svc ip port rm).
Proof.
  intros Hinv. unfold OnRemoteDiscover. destruct (remotes rm !! _); [done|].
  generalize 5%nat. intros n. revert dials rm Hinv. induction n as [|n IH]; intros dials rm Hinv; [done|].
  cbn [Discover_loop]. pose proof (ConnectRemote_inv now (mjoin (head dials)) ns svc ip port rm Hinv) as H.
  destruct (ConnectRemote _ _ _ _ _ _ rm) as [[err cl] rm']. cbn in H. destruct err; [by apply IH|done].
Qed.

Lemma OnRemoteDisappear_ok rid connID rm :
  rm_inv rm → (∀ r, remotes rm !! connID = Some r → id r = rid) →
  ∃ rm', OnRemoteDisappear rid connID rm = Ok rm' ∧ rm_inv rm' ∧
    remotes rm' = delete connID (remotes rm) ∧ orderedCache rm' = orderedCache rm.
Proof.
  intros [Hw Hb Hm] Hid. unfold OnRemoteDisappear.
  destruct (remotes rm !! connID) as [r|] eqn:Hr; [|exists rm; by rewrite delete_id].
  destruct (Hb _ _ Hr) as (lb & Hlb & Hin). rewrite (Hid r) in Hlb by done. rewrite Hlb.
  eexists. split; [done|]. split; [|done].
  destruct (bal_del_spec lb connID) as (_ & Hmem & Hwf); [eauto|].
  split; cbn.
  - intros r0 l. rewrite lookup_insert. case_decide; naive_solver.
  - intros c r0 [Hc Hr0]%lookup_delete_Some. destruct (Hb _ _ Hr0) as (l & Hl & Hi).
    rewrite lookup_insert. case_decide as Hd; [|eauto].
    eexists. split; [done|]. rewrite Hmem. rewrite <- Hd, Hlb in Hl. set_solver.
  - intros r0 l c. rewrite lookup_insert. case_decide as Hd.
    + intros [= <-]. rewrite Hmem. intros [Hi Hne]%elem_of_difference. subst r0.
      destruct (Hm _ _ _ Hlb Hi) as (x & Hx & ?). exists x.
      rewrite lookup_delete_ne by set_solver. done.
    + intros Hl Hi. destruct (Hm _ _ _ Hl Hi) as (x & Hx & Hxid). exists x.
      rewrite lookup_delete_ne; [done|]. intros ->. apply Hd. rewrite <- Hxid. symmetry. apply Hid.
      congruence.
Qed.

(** ** The events a gate's route table goes through

    [OpDiscover] and [OpDisappear] are the etcd notifications, [OpConnect] is
    one dial of a discovery that runs beside others, [OpReadEnd] the deferred
    call at the end of a remote's read loop, [OpChoice] a request to be routed
    and [OpClientClose] the close of a client connection. *)

Inductive rm_op :=
  | OpDiscover (now : Z) (dials : list (option Conn)) (ns svc ip : string) (port : Z)
  | OpConnect (now : Z) (dial : option Conn) (ns svc ip : string) (port : Z)
  | OpDisappear (ns svc ip : string) (port : Z)
  | OpReadEnd (r : Remote)
  | OpChoice (remoteID : REMOTE_ID) (isOrdered : bool) (clientID : CONN_ID)
  | OpClientClose (clientID : CONN_ID).

Definition run_op (rm : RemoteMgr) (op : rm_op) : result RemoteMgr :=
  match op with
  | OpDiscover now dials ns svc ip port => Ok (OnRemoteDiscover now dials ns svc ip port rm)
  | OpConnect now dial ns svc ip port => Ok (ConnectRemote now dial ns svc ip port rm).2
  | OpDisappear ns svc ip port =>
      OnRemoteDisappear (GetRemoteID ns svc) (GenConnIDByIPPort ip port) rm
  | OpReadEnd r => OnRemoteDisappear (id r) (GetConnID (rconn r)) rm
  | OpChoice rid ord cl => snd <$> ChoiceRemote rid ord cl rm
  | OpClientClose cl => Ok (DelRemoteOrderCache cl rm)
  end.

(** The connection an operation may unregister. *)
Definition op_removes (op : rm_op) : option CONN_ID :=
  match op with
  | OpDisappear _ _ ip port => Some (GenConnIDByIPPort ip port)
  | OpReadEnd r => Some (GetConnID (rconn r))
  | _ => None
  end.

(** [svc_of] assigns each address its service: an operation respects it when
    it names an address together with that service. *)
Definition op_ok (svc_of : CONN_ID → REMOTE_ID) (op : rm_op) : Prop :=
  match op with
  | OpDiscover _ _ ns svc ip port | OpConnect _ _ ns svc ip port | OpDisappear ns svc ip port =>
      svc_of (GenConnIDByIPPort ip port) = GetRemoteID ns svc
  | OpReadEnd r => svc_of (GetConnID (rconn r)) = id r
  | OpChoice _ _ _ | OpClientClose _ => True
  end.

Record rm_deployed (svc_of : CONN_ID → REMOTE_ID) (rm : RemoteMgr) : Prop := {
  rd_inv : rm_inv rm;
  rd_key : remotes rm !! EmptyString = None;
  rd_svc : ∀ c r, remotes rm !! c = Some r → id r = svc_of c;
  rd_cache : ∀ cl cache rid c,
    orderedCache rm !! cl = Some cache → cache !! rid = Some c → svc_of c = rid;
}.

Lemma GenConnIDByIPPort_nonempty ip port : GenConnIDByIPPort ip port ≠ EmptyString.
Proof. unfold GenConnIDByIPPort. by destruct ip. Qed.

(** A dial registers at most the dialled address, and only when it was free. *)
Lemma ConnectRemote_remotes now dial ns svc ip port rm c :
  let rm' := (ConnectRemote now dial ns svc ip port rm).2 in
  orderedCache rm' = orderedCache rm ∧
  (remotes rm' !! c = remotes rm !! c ∨
   remotes rm !! c = None ∧ c = GenConnIDByIPPort ip port ∧
   ∃ r, remotes rm' !! c = Some r ∧ id r = GetRemoteID ns svc).
Proof.
  cbn zeta. unfold ConnectRemote. destruct dial as [d|]; [|by auto].
  destruct (remotes rm !! GenConnIDByIPPort ip port) eqn:Hc; [by auto|].
  destruct (bal_add _ _) as [[] lb']; cbn; [|by auto]. split; [done|].
  rewrite lookup_insert. case_decide as Hd; [|by left]. subst c. right. eauto.
Qed.

(** Only a failed dial is an error, and it changes nothing. *)
Lemma ConnectRemote_err now dial ns svc ip port rm :
  (ConnectRemote now dial ns svc ip port rm).1.1 = true →
  (ConnectRemote now dial ns svc ip port rm).2 = rm.
Proof.
  unfold ConnectRemote. destruct dial; [|done]. destruct (remotes rm !! _); [done|].
  destruct (bal_add _ _) as [[] ?]; cbn; congruence.
Qed.

Lemma OnRemoteDiscover_remotes now dials ns svc ip port rm c :
  let rm' := OnRemoteDiscover now dials ns svc ip port rm in
  orderedCache rm' = orderedCache rm ∧
  (remotes rm' !! c = remotes rm !! c ∨
   remotes rm !! c = None ∧ c = GenConnIDByIPPort ip port ∧
   ∃ r, remotes rm' !! c = Some r ∧ id r = GetRemoteID ns svc).
Proof.
  unfold OnRemoteDiscover. destruct (remotes rm !! GenConnIDByIPPort ip port); [by auto|].
  generalize 5%nat. intros n. revert dials rm. induction n as [|n IH]; intros dials rm; [by split; [|left]|].
  cbn [Discover_loop].
  pose proof (ConnectRemote_remotes now (mjoin (head dials)) ns svc ip port rm c) as H.
  pose proof (ConnectRemote_err now (mjoin (head dials)) ns svc ip port rm) as Herr.
  destruct (ConnectRemote _ _ _ _ _ _ rm) as [[err cl] rm']. cbn in H, Herr.
  destruct err; [rewrite Herr by done; apply IH|done].
Qed.

(** One of the five attempts reaches the address. *)
Definition dials_ok (dials : list (option Conn)) : Prop := ∃ k c, (k < 5)%nat ∧ dials !! k = Some (Some c).

Lemma Discover_loop_connects n now ns svc ip port : ∀ dials rm,
  rm_inv rm → remotes rm !! GenConnIDByIPPort ip port = None →
  (∃ k c, (k < n)%nat ∧ dials !! k = Some (Some c)) →
  is_Some (remotes (Discover_loop n now dials ns svc ip port rm) !! GenConnIDByIPPort ip port).
Proof.
  induction n as [|n IH]; intros dials rm Hinv Hnone (k & c & Hk & Hd); [lia|]. cbn [Discover_loop].
  destruct dials as [|[d|] dials]; [done| |].
  - unfold ConnectRemote. cbn [head mjoin option_join]. rewrite Hnone. fold (balancer_of (GetRemoteID ns svc) rm).
    destruct (balancer_of_free rm (GetRemoteID ns svc) (GenConnIDByIPPort ip port)) as [Hwf Hnot]; [done..|].
    destruct (bal_add_spec _ (GenConnIDByIPPort ip port) Hwf) as (Ha & _).
    destruct (bal_add _ _) as [added lb]. cbn in Ha. rewrite bool_decide_eq_true_2 in Ha by done. subst added. cbn.
    rewrite lookup_insert_eq. by eexists.
  - cbn. destruct k as [|k]; [done|]. apply IH; [done..|]. exists k, c. split; [lia|done].
Qed.

Lemma OnRemoteDiscover_dom now dials ns svc ip port rm :
  rm_inv rm → dials_ok dials →
  dom (remotes (OnRemoteDiscover now dials ns svc ip port rm)) = {[GenConnIDByIPPort ip port]} ∪ dom (remotes rm).
Proof.
  intros Hinv Hd. apply set_eq. intros c. rewrite elem_of_union, elem_of_singleton, !elem_of_dom.
  destruct (decide (c = GenConnIDByIPPort ip port)) as [->|Hc].
  - split; [by left|]. intros _. unfold OnRemoteDiscover. destruct (remotes rm !! _) eqn:E; [rewrite E; by eexists|].
    by apply Discover_loop_connects.
  - destruct (OnRemoteDiscover_remotes now dials ns svc ip port rm c) as [_ [->|(_ & ? & _)]]; [|done]. tauto.
Qed.

Lemma instances_Some rid rm c r : instances rid rm !! c = Some r ↔ remotes rm !! c = Some r ∧ id r = rid.
Proof. unfold instances. by rewrite map_lookup_filter_Some. Qed.

(** What a caller learns from the remote it was given. *)
Definition routed (rid : REMOTE_ID) (rm : RemoteMgr) (o : option Remote) : Prop :=
  match o with
  | Some r => ∃ c, instances rid rm !! c = Some r
  | None => instances rid rm = ∅
  end.

Lemma rm_deployed_cache svc_of rm cl rid c :
  rm_deployed svc_of rm → svc_of c = rid → rm_deployed svc_of (UpdateRemoteOrderCache rid cl c rm).
Proof.
  intros [Hi Hk Hs Hc] Hr. split; cbn; [by apply rm_inv_cache|done|done|].
  intros cl' cache rid' c'. rewrite lookup_insert. case_decide as Hcl; [|by apply Hc].
  intros [= <-]. rewrite lookup_insert. case_decide as Hrid; [naive_solver|].
  destruct (orderedCache rm !! cl) as [cache|] eqn:E; [by apply (Hc cl)|by rewrite lookup_empty].
Qed.

Lemma ChoiceRemote_balance_spec svc_of rm rid ord cl :
  rm_deployed svc_of rm →
  ∃ o rm', ChoiceRemote_balance rid ord cl rm = Ok (o, rm') ∧ rm_deployed svc_of rm' ∧
    remotes rm' = remotes rm ∧ routed rid rm o.
Proof.
  intros Hd. pose proof (rd_inv _ _ Hd) as Hinv. unfold ChoiceRemote_balance.
  destruct (lbs rm !! rid) as [lb|] eqn:Hlb.
  2: { exists None, rm. do 3 (split; [done|]). apply map_eq. intros c. rewrite lookup_empty.
       apply eq_None_not_Some. intros [r [Hr Hid]%instances_Some].
       destruct (rm_balanced _ Hinv _ _ Hr) as (lb & Hl & _). congruence. }
  pose proof (rm_lb_wf _ Hinv _ _ Hlb) as Hwf.
  destruct (decide (bal_members lb = ∅)) as [He|Hne].
  - rewrite (bal_pick_empty _ Hwf He). cbn. unfold GetRemote. cbn. rewrite (rd_key _ _ Hd).
    eexists None, _. split; [done|]. rewrite insert_id by done. split; [by destruct rm|].
    split; [done|]. apply map_eq. intros c. rewrite lookup_empty.
    apply eq_None_not_Some. intros [r [Hr Hid]%instances_Some].
    destruct (rm_balanced _ Hinv _ _ Hr) as (lb' & Hl & Hin). rewrite Hid, Hlb in Hl.
    injection Hl as <-. set_solver.
  - destruct (bal_pick_spec _ Hwf Hne) as (e & lb' & -> & Hin & Hm & Hwf'). cbn.
    unfold GetRemote. cbn. destruct (rm_members _ Hinv _ _ _ Hlb Hin) as (r & Hr & Hid).
    rewrite Hr. set (rm1 := mkRemoteMgr _ _ _).
    assert (rm_deployed svc_of rm1) as Hd1.
    { destruct Hd as [_ Hk Hs Hc]. split; [by eapply rm_inv_rebalance|done|done|done]. }
    assert (routed rid rm (Some r)) as Hrt by (exists e; by apply instances_Some).
    destruct ord; eexists _, _; (split; [done|]); [|done].
    split; [|done]. apply rm_deployed_cache; [done|]. by rewrite <- (rd_svc _ _ Hd _ _ Hr).
Qed.

Lemma ChoiceRemote_spec svc_of rm rid ord cl :
  rm_deployed svc_of rm →
  ∃ o rm', ChoiceRemote rid ord cl rm = Ok (o, rm') ∧ rm_deployed svc_of rm' ∧
    remotes rm' = remotes rm ∧ routed rid rm o.
Proof.
  intros Hd. unfold ChoiceRemote. destruct ord; [|by apply ChoiceRemote_balance_spec].
  unfold ChioceRemoteFromOrderCache.
  destruct (orderedCache rm !! cl) as [cache|] eqn:Hcl; [|by apply ChoiceRemote_balance_spec].
  destruct (cache !! rid) as [c|] eqn:Hc; [|by apply ChoiceRemote_balance_spec].
  destruct (remotes rm !! c) as [r|] eqn:Hr.
  - exists (Some r), rm. do 3 (split; [done|]). exists c. apply instances_Some.
    by rewrite (rd_svc _ _ Hd _ _ Hr), (rd_cache _ _ Hd _ _ _ _ Hcl Hc).
  - set (rm1 := mkRemoteMgr _ _ _). change (remotes rm) with (remotes rm1).
    change (routed rid rm) with (routed rid rm1). apply ChoiceRemote_balance_spec.
    destruct Hd as [Hi Hk Hs Hcc]. split; cbn; [by apply rm_inv_cache|done|done|].
    intros cl' cache' rid' c'. rewrite lookup_insert. case_decide as Hd'; [|by apply Hcc].
    intros [= <-] [_ H]%lookup_delete_Some. by apply (Hcc cl cache).
Qed.

(** Registering an address for its own service. *)
Lemma rm_deployed_register svc_of rm rm' ns svc ip port :
  rm_deployed svc_of rm → rm_inv rm' → svc_of (GenConnIDByIPPort ip port) = GetRemoteID ns svc →
  (∀ c, orderedCache rm' = orderedCache rm ∧
    (remotes rm' !! c = remotes rm !! c ∨
     remotes rm !! c = None ∧ c = GenConnIDByIPPort ip port ∧
     ∃ r, remotes rm' !! c = Some r ∧ id r = GetRemoteID ns svc)) →
  rm_deployed svc_of rm'.
Proof.
  intros Hd Hi' Hok Hstep. split; [done| | |].
  - destruct (Hstep EmptyString) as [_ [->|(_ & E & _)]]; [apply Hd|].
    by destruct (GenConnIDByIPPort_nonempty ip port).
  - intros c r Hr. destruct (Hstep c) as [_ [E|(_ & -> & r' & Hr' & Hid)]].
    + rewrite E in Hr. by eapply rd_svc.
    + congruence.
  - destruct (Hstep EmptyString) as [-> _]. apply Hd.
Qed.

Lemma run_op_deployed svc_of rm op :
  rm_deployed svc_of rm → op_ok svc_of op →
  ∃ rm', run_op rm op = Ok rm' ∧ rm_deployed svc_of rm'.
Proof.
  intros Hd Hok.
  assert (∀ rid c, svc_of c = rid →
    ∃ rm', OnRemoteDisappear rid c rm = Ok rm' ∧ rm_deployed svc_of rm') as Hdis.
  { intros rid c Hrid. destruct (OnRemoteDisappear_ok rid c rm) as (rm' & ? & ? & Hr & Hc).
    - apply Hd.
    - intros r Hr. by rewrite (rd_svc _ _ Hd _ _ Hr).
    - exists rm'. split; [done|]. split; [done| | |rewrite Hc; apply Hd].
      + rewrite Hr, lookup_delete_None. right. apply Hd.
      + intros c' r'. rewrite Hr, lookup_delete_Some. intros [_ H']. by eapply rd_svc. }
  destruct op as [now dials ns svc ip port|now dial ns svc ip port|ns svc ip port|r|rid ord cl|cl];
    cbn in *; [| |by apply Hdis..| |].
  - eexists. split; [done|]. eapply rm_deployed_register; [done| |done|].
    + apply OnRemoteDiscover_inv, Hd.
    + intros c. apply OnRemoteDiscover_remotes.
  - eexists. split; [done|]. eapply rm_deployed_register; [done| |done|].
    + apply ConnectRemote_inv, Hd.
    + intros c. apply ConnectRemote_remotes.
  - destruct (ChoiceRemote_spec svc_of rm rid ord cl Hd) as (o & rm' & -> & ? & _). eauto.
  - eexists. split; [done|]. destruct Hd as [Hi Hk Hs Hc]. split; cbn; [by apply rm_inv_cache|done|done|].
    intros cl' cache rid c [_ H]%lookup_delete_Some. by eapply Hc.
Qed.

Lemma run_ops_deployed svc_of ops : ∀ rm,
  rm_deployed svc_of rm → Forall (op_ok svc_of) ops →
  ∃ rm', foldM run_op ops rm = Ok rm' ∧ rm_deployed svc_of rm'.
Proof.
  induction ops as [|op ops IH]; intros rm Hd Hok; cbn; [eauto|].
  apply Forall_cons in Hok as [Ho Hok].
  destruct (run_op_deployed svc_of rm op Hd Ho) as (rm1 & -> & Hd1). by apply IH.
Qed.

Lemma CreateRemoteMgr_deployed svc_of : rm_deployed svc_of CreateRemoteMgr.
Proof. split; [apply CreateRemoteMgr_inv|done|by intros ? ?|by intros ? ? ? ?]. Qed.


(** ** Ordered requests stay on their instance *)

Definition pinned (cl : CONN_ID) (rid : REMOTE_ID) (c : CONN_ID) (r : Remote) (rm : RemoteMgr) : Prop :=
  (∃ cache, orderedCache rm !! cl = Some cache ∧ cache !! rid = Some c) ∧
  remotes rm !! c = Some r.

Lemma pinned_choice cl rid c r rm :
  pinned cl rid c r rm → ChoiceRemote rid true cl rm = Ok (Some r, rm).
Proof.
  intros [(cache & H1 & H2) H3]. unfold ChoiceRemote, ChioceRemoteFromOrderCache.
  by rewrite H1, H2, H3.
Qed.

Lemma pinned_other cl rid c r rm lbs' cl' cache' :
  pinned cl rid c r rm → cl' ≠ cl →
  pinned cl rid c r (mkRemoteMgr (remotes rm) lbs' (<[cl' := cache']> (orderedCache rm))).
Proof. intros [(cache & H1 & H2) H3] ?. split; [|done]. exists cache. cbn. by rewrite lookup_insert_ne. Qed.

(** Balancing a request of another client or for another service. *)
Lemma ChoiceRemote_balance_pinned cl rid c r rm rid' ord cl' o rm' :
  pinned cl rid c r rm → (ord = false ∨ cl' ≠ cl ∨ rid' ≠ rid) →
  ChoiceRemote_balance rid' ord cl' rm = Ok (o, rm') → pinned cl rid c r rm'.
Proof.
  intros Hp Hne. unfold ChoiceRemote_balance. destruct (lbs rm !! rid') as [lb|]; [|by intros [= _ <-]].
  destruct (bal_pick lb) as [[e lb']| |]; [|discriminate 1..]. cbn. unfold GetRemote. cbn.
  destruct (remotes rm !! e) as [r'|] eqn:He; [|by intros [= _ <-]].
  destruct ord; [|by intros [= _ <-]]. intros [= _ <-]. unfold UpdateRemoteOrderCache. cbn.
  destruct Hne as [?|Hne]; [done|]. destruct (decide (cl' = cl)) as [->|?]; [|by apply pinned_other].
  destruct Hne as [?|Hne]; [done|]. destruct Hp as [(cache & H1 & H2) H3]. split; [|done].
  rewrite H1. eexists. cbn. rewrite lookup_insert_eq. split; [done|]. by rewrite lookup_insert_ne.
Qed.

Lemma ChoiceRemote_pinned cl rid c r rm rid' ord cl' o rm' :
  pinned cl rid c r rm → ChoiceRemote rid' ord cl' rm = Ok (o, rm') → pinned cl rid c r rm'.
Proof.
  intros Hp. destruct ord; [|by eapply ChoiceRemote_balance_pinned; eauto].
  destruct (decide (cl' = cl ∧ rid' = rid)) as [[-> ->]|Hne].
  { rewrite (pinned_choice _ _ _ _ _ Hp). by intros [= _ <-]. }
  assert (cl' ≠ cl ∨ rid' ≠ rid) as Hne' by (destruct (decide (cl' = cl)); naive_solver).
  unfold ChoiceRemote, ChioceRemoteFromOrderCache.
  destruct (orderedCache rm !! cl') as [cache'|] eqn:E1;
    [|eapply ChoiceRemote_balance_pinned; eauto].
  destruct (cache' !! rid') as [c'|] eqn:E2; [|eapply ChoiceRemote_balance_pinned; eauto].
  destruct (remotes rm !! c') eqn:E3; [by intros [= _ <-]|].
  apply ChoiceRemote_balance_pinned; [|by eauto].
  destruct (decide (cl' = cl)) as [->|?]; [|by apply pinned_other].
  destruct Hp as [(cache & H1 & H2) H3]. split; [|done]. cbn. rewrite lookup_insert_eq.
  eexists. split; [done|]. rewrite lookup_delete_ne by naive_solver. by simplify_eq.
Qed.

Lemma OnRemoteDisappear_pinned cl rid c r rm rid' c' rm' :
  pinned cl rid c r rm → c' ≠ c → OnRemoteDisappear rid' c' rm = Ok rm' → pinned cl rid c r rm'.
Proof.
  intros [Hc H3] Hne. unfold OnRemoteDisappear. destruct (remotes rm !! c'); [|by intros [= <-]].
  destruct (lbs rm !! rid'); [|discriminate 1]. intros [= <-]. split; [done|]. cbn.
  by rewrite lookup_delete_ne.
Qed.

Lemma pinned_grow cl rid c r rm rm' :
  pinned cl rid c r rm → orderedCache rm' = orderedCache rm →
  (remotes rm' !! c = remotes rm !! c ∨ remotes rm !! c = None) → pinned cl rid c r rm'.
Proof. intros [Hc H3] E H. split; [by rewrite E|]. destruct H; congruence. Qed.

Lemma run_op_pinned cl rid c r rm op rm' :
  pinned cl rid c r rm → op_removes op ≠ Some c → op ≠ OpClientClose cl →
  run_op rm op = Ok rm' → pinned cl rid c r rm'.
Proof.
  intros Hp Hrem Hcl.
  destruct op as [now dials ns svc ip port|now dial ns svc ip port|ns svc ip port|x|rid' ord cl'|cl'];
    cbn in *.
  - intros [= <-].
    pose proof (OnRemoteDiscover_remotes now dials ns svc ip port rm c) as [? H].
    eapply pinned_grow; naive_solver.
  - intros [= <-]. pose proof (ConnectRemote_remotes now dial ns svc ip port rm c) as [? H].
    eapply pinned_grow; naive_solver.
  - apply OnRemoteDisappear_pinned; congruence.
  - apply OnRemoteDisappear_pinned; congruence.
  - destruct (ChoiceRemote rid' ord cl' rm) as [[o rm1]| |] eqn:E; [|discriminate 1..].
    intros [= <-]. by eapply ChoiceRemote_pinned.
  - intros [= <-]. destruct Hp as [(cache & H1 & H2) H3]. split; [|done]. exists cache. cbn.
    rewrite lookup_delete_ne; [done|]. congruence.
Qed.

Lemma run_ops_pinned cl rid c r ops : ∀ rm rm',
  pinned cl rid c r rm → Forall (λ op, op_removes op ≠ Some c ∧ op ≠ OpClientClose cl) ops →
  foldM run_op ops rm = Ok rm' → pinned cl rid c r rm'.
Proof.
  induction ops as [|op ops IH]; intros rm rm' Hp Hops; cbn; [by intros [= <-]|].
  apply Forall_cons in Hops as [[? ?] Hops]. intros (rm1 & H1 & H2)%bind_ok_inv.
  eapply IH; [|done|done]. by eapply run_op_pinned.
Qed.

(** An ordered request that was routed has pinned its client. *)
Lemma ChoiceRemote_ordered_pins rid cl rm r rm' :
  ChoiceRemote rid true cl rm = Ok (Some r, rm') → ∃ c, pinned cl rid c r rm'.
Proof.
  unfold ChoiceRemote, ChioceRemoteFromOrderCache.
  assert (∀ rm, ChoiceRemote_balance rid true cl rm = Ok (Some r, rm') →
    ∃ c, pinned cl rid c r rm') as Hb.
  { intros rm0. unfold ChoiceRemote_balance. destruct (lbs rm0 !! rid) as [lb|]; [|discriminate 1].
    destruct (bal_pick lb) as [[e lb']| |]; [|discriminate 1..]. cbn. unfold GetRemote. cbn.
    destruct (remotes rm0 !! e) as [r'|] eqn:He; [|discriminate 1]. intros [= -> <-].
    exists e. split; [|done]. eexists. cbn. rewrite lookup_insert_eq. split; [done|].
    by rewrite lookup_insert_eq. }
  destruct (orderedCache rm !! cl) as [cache|] eqn:E1; [|by apply Hb].
  destruct (cache !! rid) as [c|] eqn:E2; [|by apply Hb].
  destruct (remotes rm !! c) as [r'|] eqn:E3; [|by apply Hb].
  intros [= -> ->]. exists c. split; [|done]. by exists cache.
Qed.


(** ** One address, two services *)

Lemma ConnectRemote_free now c ns svc ip port rm :
  rm_inv rm → remotes rm !! GenConnIDByIPPort ip port = None →
  ∃ r lb, (ConnectRemote now (Some c) ns svc ip port rm).2 =
      mkRemoteMgr (<[GenConnIDByIPPort ip port := r]> (remotes rm))
        (<[GetRemoteID ns svc := lb]> (lbs rm)) (orderedCache rm) ∧
    id r = GetRemoteID ns svc ∧ rconn r = c.
Proof.
  intros Hinv Hc. unfold ConnectRemote. rewrite Hc.
  fold (balancer_of (GetRemoteID ns svc) rm).
  destruct (balancer_of_free rm (GetRemoteID ns svc) _ Hinv Hc) as [Hwf Hnot].
  destruct (bal_add_spec _ (GenConnIDByIPPort ip port) Hwf) as (Hadd & _ & _).
  destruct (bal_add (balancer_of _ rm) _) as [added lb']. cbn in *.
  rewrite bool_decide_eq_true_2 in Hadd by done. subst added. eexists _, lb'. done.
Qed.

Lemma OnRemoteDiscover_dial now c dials ns svc ip port rm :
  OnRemoteDiscover now (Some c :: dials) ns svc ip port rm =
  (ConnectRemote now (Some c) ns svc ip port rm).2.
Proof.
  unfold OnRemoteDiscover, ConnectRemote. cbn.
  destruct (remotes rm !! GenConnIDByIPPort ip port); [done|].
  by destruct (bal_add _ _) as [[] ?].
Qed.

(** The ordered cache remembers an address, not a service.  When the address
    of an instance of service [a] is taken over by an instance of service [b],
    the next ordered request of a client that had used [a] there is sent to
    [b]. *)
Theorem address_reuse_misroutes (now : Z) (c1 c2 : Conn) (ns a b ip : string) (port : Z) (cl : CONN_ID) :
  ∃ rm r,
    foldM run_op [OpDiscover now [Some c1] ns a ip port; OpChoice (GetRemoteID ns a) true cl;
                  OpDisappear ns a ip port; OpDiscover now [Some c2] ns b ip port] CreateRemoteMgr = Ok rm ∧
    ChoiceRemote (GetRemoteID ns a) true cl rm = Ok (Some r, rm) ∧
    id r = GetRemoteID ns b ∧ rconn r = c2.
Proof.
  set (svc_of := λ _ : CONN_ID, GetRemoteID ns a). set (adr := GenConnIDByIPPort ip port).
  pose proof (CreateRemoteMgr_deployed svc_of) as Hd0.
  destruct (run_op_deployed svc_of _ (OpDiscover now [Some c1] ns a ip port) Hd0) as (rm1 & Hr1 & Hd1);
    [done|].
  destruct (ConnectRemote_free now c1 ns a ip port CreateRemoteMgr) as (r1 & lb1 & E1 & Hid1 & _);
    [apply CreateRemoteMgr_inv|done|].
  pose proof Hr1 as Hr1'. cbn [run_op] in Hr1'. rewrite OnRemoteDiscover_dial, E1 in Hr1'.
  injection Hr1' as Hrm1.
  destruct (ChoiceRemote_spec svc_of rm1 (GetRemoteID ns a) true cl Hd1)
    as (o & rm2 & Hch & Hd2 & Hsame & Hrt).
  destruct o as [r|].
  2: { cbn in Hrt. assert (instances (GetRemoteID ns a) rm1 !! adr = Some r1) as E.
       { apply instances_Some. rewrite <- Hrm1. cbn. by rewrite lookup_insert_eq. }
       by rewrite Hrt in E. }
  destruct (ChoiceRemote_ordered_pins _ _ _ _ _ Hch) as (c & (cache & Hca & Hcc) & Hc).
  rewrite Hsame, <- Hrm1 in Hc. cbn in Hc.
  assert (c = adr) as ->.
  { destruct (decide (c = adr)) as [|Hne]; [done|]. by rewrite lookup_insert_ne in Hc by done. }
  destruct (OnRemoteDisappear_ok (GetRemoteID ns a) adr rm2) as (rm3 & Hr3 & Hi3 & Hrem3 & Hca3).
  { apply Hd2. }
  { intros x Hx. by rewrite (rd_svc _ _ Hd2 _ _ Hx). }
  destruct (ConnectRemote_free now c2 ns b ip port rm3 Hi3) as (r4 & lb4 & E4 & Hid4 & Hcn4).
  { rewrite Hrem3. apply lookup_delete_eq. }
  exists (mkRemoteMgr (<[adr := r4]> (remotes rm3)) (<[GetRemoteID ns b := lb4]> (lbs rm3))
    (orderedCache rm3)), r4.
  split; [|split; [|done]].
  - cbn [foldM]. rewrite Hr1. cbn [mbind result_bind]. cbn [run_op]. rewrite Hch. cbn [fmap result_fmap mbind result_bind].
    cbn [run_op snd]. fold adr. rewrite Hr3. cbn [mbind result_bind].
    by rewrite OnRemoteDiscover_dial, E4.
  - apply (pinned_choice cl _ adr). split; cbn; [|by rewrite lookup_insert_eq].
    exists cache. by rewrite Hca3.
Qed.

(** A disappearance is trusted to name the right service.  When two services
    announced the same address and the gate connected it for the first, the
    disappearance of the second makes the gate dereference a nil balancer. *)
Theorem foreign_disappear_panics (now : Z) (c : Conn) (dials : list (option Conn)) (ns a b ip : string) (port : Z) :
  GetRemoteID ns a ≠ GetRemoteID ns b →
  foldM run_op [OpDiscover now [Some c] ns a ip port; OpDiscover now dials ns b ip port;
                OpDisappear ns b ip port] CreateRemoteMgr = Panic NilDereference.
Proof.
  intros Hab. destruct (ConnectRemote_free now c ns a ip port CreateRemoteMgr) as (r1 & lb1 & E1 & Hid1 & _);
    [apply CreateRemoteMgr_inv|done|].
  cbn [foldM run_op mbind result_bind]. rewrite OnRemoteDiscover_dial, E1.
  unfold OnRemoteDiscover. cbn. rewrite lookup_insert_eq. cbn.
  unfold OnRemoteDisappear. cbn. rewrite lookup_insert_eq. by rewrite lookup_insert_ne.
Qed.

End RemoteMgr.

(** ** Witnesses *)

Definition demo_conn (fd : positive) (addr : string) : Conn := mkConn fd addr.

Definition demo_discover (fd : positive) (svc : string) (port : Z) : rm_op :=
  OpDiscover 0 [None; Some (demo_conn fd ("10.0.0.1:" +:+ pretty port))] "ns" svc "10.0.0.1" port.

(** Addresses below port 9000 belong to service [a], the others to [b]. *)
Definition demo_svc (c : CONN_ID) : REMOTE_ID :=
  if decide (c = "10.0.0.1:8001" ∨ c = "10.0.0.1:8002") then "ns:a" else "ns:b".

Definition demo_ops : list rm_op :=
  [demo_discover 1 "a" 8001; demo_discover 2 "a" 8002; demo_discover 3 "b" 9001;
   OpChoice "ns:a" true "c1"; OpDisappear "ns" "b" "10.0.0.1" 9001].


Definition demo_rm : RemoteMgr (L := LoadBalancer) :=
  from_ok CreateRemoteMgr (foldM (run_op 4) (take 3 demo_ops) CreateRemoteMgr).


Lemma foreign_disappear_panics_witness :
  GetRemoteID "ns" "a" ≠ GetRemoteID "ns" "b" ∧
  foldM (run_op (L := LoadBalancer) 4)
    [OpDiscover 0 [Some (demo_conn 1 "10.0.0.1:8001")] "ns" "a" "10.0.0.1" 8001;
     OpDiscover 0 [] "ns" "b" "10.0.0.1" 8001;
     OpDisappear "ns" "b" "10.0.0.1" 8001] CreateRemoteMgr = Panic NilDereference.
Proof.
  assert (GetRemoteID "ns" "a" ≠ GetRemoteID "ns" "b") as H by discriminate.
  split; [exact H|]. by apply foreign_disappear_panics.
Defined.
