(* ===== verification/Routing.v ===== *)
(** * Requests that are routed while the routes change
    ([src/ms_framework/msf_remote_mgr.go], [src/ms_framework/msf_load_balancer.go])

    A gate routes requests in many goroutines at once, while others register and
    unregister connections.  [ChoiceRemote] is not atomic: it takes and releases
    the locks of the route table and of a balancer several times.  Here it runs in
    the steps between which it holds no lock, beside other choices and beside the
    operations of [RemoteMgr] that change the routes.  The caches of the clients
    are objects that are shared by pointer: a goroutine may hold one that another
    changes or drops.

    The result is what a caller can rely on under every interleaving: the remote
    it gets is an instance of the service it asked for, it is refused only if an
    instance went away in the meantime, and it always gets an answer; but two
    ordered requests of one client at the same time may go to two instances. *)

From S2P Require Import Prelude LoadBalancer RemoteMgr.

Local Open Scope Z_scope.

Abbreviation RM := (RemoteMgr (L := LoadBalancer)).

(** ** The state *)

(** The route table: [orderedCache] maps a client to its cache, an object in
    [caches]. *)
Record Routes := mkRoutes {
  c_remotes : gmap CONN_ID Remote;
  c_lbs : gmap REMOTE_ID LoadBalancer;
  c_ordered : gmap CONN_ID positive;
  c_caches : gmap positive (gmap REMOTE_ID CONN_ID);
}.

Record Request := mkRequest { q_remoteID : REMOTE_ID; q_isOrdered : bool; q_clientID : CONN_ID }.

(** Where a goroutine is in [ChoiceRemote]: at its start; between the two locks of
    [ChioceRemoteFromOrderCache], with the cache it read; before it looks up the
    balancer; before the first and the second critical section of
    [LoadBalanceRoundRobin] (with the keys of the first) and the one of
    [LoadBalance]; before [GetRemote]; before [UpdateRemoteOrderCache]; at its
    end. *)
Inductive choice :=
  | CBegin
  | CStale (cache : positive)
  | CBalance
  | CSnapshot
  | CPick (m : list string)
  | CWeight (ele : string)
  | CGet (connID : CONN_ID)
  | CUpdate (connID : CONN_ID) (remote : Remote)
  | CDone (remote : option Remote).

(** ** The steps of a choice *)

Definition with_lb (rid : REMOTE_ID) (lb : LoadBalancer) (R : Routes) : Routes :=
  mkRoutes (c_remotes R) (<[rid := lb]> (c_lbs R)) (c_ordered R) (c_caches R).

Definition read_cache (q : Request) (R : Routes) : choice :=
  match c_ordered R !! q_clientID q with
  | None => CBalance
  | Some p =>
      match c_caches R !! p ≫= (.!! q_remoteID q) with
      | None => CBalance
      | Some connID =>
          match c_remotes R !! connID with
          | Some remote => CDone (Some remote)
          | None => CStale p
          end
      end
  end.

Definition update_cache (q : Request) (connID : CONN_ID) (R : Routes) : Routes :=
  match c_ordered R !! q_clientID q with
  | Some p => mkRoutes (c_remotes R) (c_lbs R) (c_ordered R) (alter <[q_remoteID q := connID]> p (c_caches R))
  | None =>
      let p := fresh (dom (c_caches R)) in
      mkRoutes (c_remotes R) (c_lbs R) (<[q_clientID q := p]> (c_ordered R))
        (<[p := {[q_remoteID q := connID]}]> (c_caches R))
  end.

(** The balancer a goroutine works on: it got it from the table by [CBalance], and
    balancers are never removed from it. *)
Definition choice_step (q : Request) (st : choice) (R : Routes) : result (choice * Routes) :=
  let rid := q_remoteID q in
  match st with
  | CBegin => Ok (if q_isOrdered q then read_cache q R else CBalance, R)
  | CStale p => Ok (CBalance, mkRoutes (c_remotes R) (c_lbs R) (c_ordered R) (alter (delete rid) p (c_caches R)))
  | CBalance =>
      Ok (match c_lbs R !! rid with None => CDone None | Some _ => CSnapshot end, R)
  | CSnapshot =>
      match c_lbs R !! rid with
      | None => Panic NilDereference
      | Some lb => Ok (if decide (size (elements lb) = 0%nat) then CWeight EmptyString else CPick (snapshot lb), R)
      end
  | CPick m =>
      match c_lbs R !! rid with
      | None => Panic NilDereference
      | Some lb => '(ele, lb) ← RoundRobin_pick m lb; Ok (CWeight ele, with_lb rid lb R)
      end
  | CWeight ele =>
      match c_lbs R !! rid with
      | None => Panic NilDereference
      | Some lb => Ok (CGet ele, with_lb rid (add_weight ele lb) R)
      end
  | CGet connID =>
      match c_remotes R !! connID with
      | None => Ok (CDone None, R)
      | Some remote => Ok (if q_isOrdered q then CUpdate connID remote else CDone (Some remote), R)
      end
  | CUpdate connID remote => Ok (CDone (Some remote), update_cache q connID R)
  | CDone o => Ok (CDone o, R)
  end.

(** ** The gate *)

(** The operations of [RemoteMgr] that run under the lock of the table. *)
Inductive route_op :=
  | RConnect (now : Z) (dial : option Conn) (ns svc ip : string) (port : Z)
  | RDisappear (remoteID : REMOTE_ID) (connID : CONN_ID)
  | RClientClose (clientID : CONN_ID).

Definition table (R : Routes) : RM := mkRemoteMgr (c_remotes R) (c_lbs R) ∅.
Definition with_table (rm : RM) (R : Routes) : Routes := mkRoutes (remotes rm) (lbs rm) (c_ordered R) (c_caches R).

Definition run_route (RECV_BUF_MAX_LEN : Z) (op : route_op) (R : Routes) : result Routes :=
  match op with
  | RConnect now dial ns svc ip port =>
      Ok (with_table (ConnectRemote RECV_BUF_MAX_LEN now dial ns svc ip port (table R)).2 R)
  | RDisappear remoteID connID => rm ← OnRemoteDisappear remoteID connID (table R); Ok (with_table rm R)
  | RClientClose clientID => Ok (mkRoutes (c_remotes R) (c_lbs R) (delete clientID (c_ordered R)) (c_caches R))
  end.

Record GateSys := mkGateSys { g_routes : Routes; g_choices : gmap positive (Request * choice) }.

Inductive glabel :=
  | GBegin (g : positive) (q : Request)   (** a goroutine calls [ChoiceRemote] *)
  | GStep (g : positive)
  | GRoute (op : route_op).

Section Routing.
  Context (RECV_BUF_MAX_LEN : Z).

(** One step; [None] if it is not possible or panics. *)
Definition gexec (l : glabel) (s : GateSys) : option GateSys :=
  match l with
  | GBegin g q =>
      match g_choices s !! g with
      | None => Some (mkGateSys (g_routes s) (<[g := (q, CBegin)]> (g_choices s)))
      | Some _ => None
      end
  | GStep g =>
      match g_choices s !! g with
      | None => None
      | Some (q, st) =>
          match choice_step q st (g_routes s) with
          | Ok (st, R) => Some (mkGateSys R (<[g := (q, st)]> (g_choices s)))
          | _ => None
          end
      end
  | GRoute op =>
      match run_route RECV_BUF_MAX_LEN op (g_routes s) with
      | Ok R => Some (mkGateSys R (g_choices s))
      | _ => None
      end
  end.

Fixpoint gexecs (ls : list glabel) (s : GateSys) : option GateSys :=
  match ls with
  | [] => Some s
  | l :: ls => gexec l s ≫= gexecs ls
  end.

(** ** One choice alone is [ChoiceRemote] *)

Fixpoint choice_run (n : nat) (q : Request) (st : choice) (R : Routes) : result (choice * Routes) :=
  match n with
  | O => Ok (st, R)
  | S n => '(st, R) ← choice_step q st R; choice_run n q st R
  end.

(** The route table of [RemoteMgr], with the caches by value. *)
Definition rm_of (R : Routes) : RM :=
  mkRemoteMgr (c_remotes R) (c_lbs R) (omap (λ p, c_caches R !! p) (c_ordered R)).

(** ** Invariant *)

Section Invariant.
  Context (svc_of : CONN_ID → REMOTE_ID).

(** The table and its balancers agree ([RemoteMgr.rm_deployed]), a cache belongs to
    at most one client, and it holds addresses of the services they stand for. *)
Record routes_ok (R : Routes) : Prop := {
  ro_table : rm_deployed svc_of (table R);
  ro_ptr : ∀ cl p, c_ordered R !! cl = Some p → is_Some (c_caches R !! p);
  ro_inj : ∀ cl cl' p, c_ordered R !! cl = Some p → c_ordered R !! cl' = Some p → cl = cl';
  ro_cache : ∀ p cache rid c, c_caches R !! p = Some cache → cache !! rid = Some c → svc_of c = rid;
}.

(** What a goroutine relies on between two steps. *)
Definition choice_ok (R : Routes) (q : Request) (st : choice) : Prop :=
  match st with
  | CStale p => is_Some (c_caches R !! p) ∧ ∀ cl, c_ordered R !! cl = Some p → cl = q_clientID q
  | CSnapshot => is_Some (c_lbs R !! q_remoteID q)
  | CPick m => is_Some (c_lbs R !! q_remoteID q) ∧ m ≠ [] ∧ ∀ e, e ∈ m → svc_of e = q_remoteID q
  | CWeight e => is_Some (c_lbs R !! q_remoteID q) ∧ (e = EmptyString ∨ svc_of e = q_remoteID q)
  | CGet e => e = EmptyString ∨ svc_of e = q_remoteID q
  | CUpdate e r => svc_of e = q_remoteID q ∧ id r = q_remoteID q
  | CDone (Some r) => id r = q_remoteID q
  | _ => True
  end.

(** What no step of another goroutine takes away. *)
Record extends (R R' : Routes) : Prop := {
  ext_caches : ∀ p, is_Some (c_caches R !! p) → is_Some (c_caches R' !! p);
  ext_lbs : ∀ rid, is_Some (c_lbs R !! rid) → is_Some (c_lbs R' !! rid);
  ext_ordered : ∀ cl p, is_Some (c_caches R !! p) → c_ordered R' !! cl = Some p → c_ordered R !! cl = Some p;
}.

Lemma extends_refl R : extends R R.
Proof. by split. Qed.

Lemma choice_ok_extends R R' q st : extends R R' → choice_ok R q st → choice_ok R' q st.
Proof.
  intros [Hc Hl Ho]. destruct st; cbn; try done.
  - intros [Hp Hcl]. split; [by apply Hc|]. intros cl H. apply Hcl. by apply Ho.
  - apply Hl.
  - intros (? & ?). split; [by apply Hl|done].
  - intros (? & ?). split; [by apply Hl|done].
Qed.

Lemma deployed_table (rm : RM) : rm_deployed svc_of rm → rm_deployed svc_of (mkRemoteMgr (remotes rm) (lbs rm) ∅).
Proof. intros [Hi Hk Hs Hc]. split; cbn; [by apply rm_inv_cache|done|done|by intros ? ? ? ?]. Qed.

(** The members of a balancer are addresses of its service. *)
Lemma member_svc R rid lb e : routes_ok R → c_lbs R !! rid = Some lb → e ∈ members lb → svc_of e = rid ∧ is_Some (c_remotes R !! e).
Proof.
  intros Hok Hlb He. destruct (rm_members _ (rd_inv _ _ (ro_table _ Hok)) _ _ _ Hlb He) as (r & Hr & <-).
  split; [|by eexists]. symmetry. by apply (rd_svc _ _ (ro_table _ Hok)).
Qed.

(** A balancer whose index or weights changed. *)
Lemma with_lb_ok R rid lb lb' :
  routes_ok R → c_lbs R !! rid = Some lb → members lb' = members lb → lb_wf lb' →
  routes_ok (with_lb rid lb' R) ∧ extends R (with_lb rid lb' R).
Proof.
  intros [[Hi Hk Hs Hc] Hp Hj Hca] Hlb Hm Hwf. split.
  - split; [|done..]. split; [|done|done|done]. by apply (rm_inv_rebalance (table R) rid lb lb' ∅).
  - split; [done| |done]. cbn. intros r. rewrite lookup_insert. case_decide; by eauto.
Qed.

(** Changing one cache. *)
Lemma caches_ok R p f :
  routes_ok R → (∀ cache rid c, c_caches R !! p = Some cache → f cache !! rid = Some c → svc_of c = rid) →
  let R' := mkRoutes (c_remotes R) (c_lbs R) (c_ordered R) (alter f p (c_caches R)) in
  routes_ok R' ∧ extends R R'.
Proof.
  intros [Ht Hp Hj Hca] Hf R'.
  assert (∀ p', is_Some (c_caches R !! p') → is_Some (alter f p (c_caches R) !! p')) as Hg.
  { intros p'. rewrite lookup_alter. case_decide; [|done]. subst. by rewrite fmap_is_Some. }
  split; [|by split]. split; cbn; [done| |done|].
  - intros cl p' H. by apply Hg, (Hp cl).
  - intros p' cache rid c. rewrite lookup_alter. case_decide; [subst|by apply Hca].
    intros (cache0 & H0 & ->)%fmap_Some. by apply Hf.
Qed.

Lemma update_cache_ok R q c :
  routes_ok R → svc_of c = q_remoteID q → routes_ok (update_cache q c R) ∧ extends R (update_cache q c R).
Proof.
  intros Hok Hc. unfold update_cache. destruct (c_ordered R !! q_clientID q) as [p|] eqn:E.
  - apply caches_ok; [done|]. intros cache rid c' Hp. rewrite lookup_insert. case_decide; [naive_solver|]. by apply (ro_cache _ Hok p).
  - destruct Hok as [Ht Hp Hj Hca]. set (p := fresh _).
    assert (c_caches R !! p = None) as Hfr by apply not_elem_of_dom, is_fresh.
    assert (∀ cl, c_ordered R !! cl ≠ Some p) as Hno.
    { intros cl H. apply Hp in H as [? ?]. congruence. }
    split; split; cbn.
    + done.
    + intros cl p'. rewrite !lookup_insert. do 2 case_decide; naive_solver.
    + intros cl cl' p'. rewrite !lookup_insert. do 2 case_decide; naive_solver.
    + intros p' cache rid c'. rewrite lookup_insert. case_decide; [|by apply Hca].
      intros [= <-] [<- <-]%lookup_singleton_Some. done.
    + intros p'. rewrite lookup_insert. case_decide; by eauto.
    + done.
    + intros cl p' [? Hp']. rewrite lookup_insert. case_decide; [|done]. intros [= <-]. congruence.
Qed.

(** The steps a choice has left. *)
Definition rank (st : choice) : nat :=
  match st with
  | CBegin => 8 | CStale _ => 7 | CBalance => 6 | CSnapshot => 5 | CPick _ => 4 | CWeight _ => 3 | CGet _ => 2
  | CUpdate _ _ => 1 | CDone _ => 0
  end.

Lemma choice_step_ok R q st :
  routes_ok R → choice_ok R q st →
  ∃ st' R', choice_step q st R = Ok (st', R') ∧ routes_ok R' ∧ extends R R' ∧ choice_ok R' q st' ∧
    (rank st' ≤ rank st - 1)%nat.
Proof.
  intros Hok Hst. destruct st as [|p| | |m|e|e|e r|o]; cbn [choice_step choice_ok] in *.
  - exists (if q_isOrdered q then read_cache q R else CBalance), R. split_and!; [done|done|apply extends_refl| |].
    + destruct (q_isOrdered q); [|done]. unfold read_cache.
      destruct (c_ordered R !! _) as [p|] eqn:Ep; [|done]. destruct (c_caches R !! p) as [cache|] eqn:Ec; [|done]. cbn.
      destruct (cache !! _) as [c|] eqn:Er; [|done]. destruct (c_remotes R !! c) as [r|] eqn:Em; cbn.
      * rewrite (rd_svc _ _ (ro_table _ Hok) c r Em). by apply (ro_cache _ Hok p cache).
      * split; [by eexists|]. intros cl Hcl. by apply (ro_inj _ Hok cl _ p).
    + unfold read_cache. repeat case_match; cbn; lia.
  - eexists _, _. split; [reflexivity|]. destruct (caches_ok R p (delete (q_remoteID q)) Hok) as [H1 H2].
    { intros cache rid c Hp [_ H]%lookup_delete_Some. by apply (ro_cache _ Hok p cache). }
    by split_and!.
  - destruct (c_lbs R !! q_remoteID q) as [lb|] eqn:E; eexists _, R; (split; [reflexivity|]);
      (split_and!; [done|apply extends_refl| |cbn; lia]); [by eexists|done].
  - destruct Hst as [lb Hlb]. rewrite Hlb. eexists _, R. split; [reflexivity|]. split_and!; [done|apply extends_refl| |].
    + case_decide as Hsz; cbn; (split; [by eexists|]); [by left|]. split.
      * intros E. apply Hsz. by rewrite <- snapshot_length, E.
      * intros e He. apply elem_of_snapshot in He. by apply (member_svc R _ lb).
    + case_decide; cbn; lia.
  - destruct Hst as ([lb Hlb] & Hm & Hall). rewrite Hlb.
    destruct (RoundRobin_pick_ok m lb) as (e & idx & _ & He & _ & E).
    { by apply (rm_lb_wf _ (rd_inv _ _ (ro_table _ Hok)) (q_remoteID q)). }
    { done. }
    rewrite E, bind_ok. eexists _, _. split; [reflexivity|].
    destruct (with_lb_ok R (q_remoteID q) lb (mkLoadBalancer (elements lb) (u16 (idx + 1))) Hok Hlb eq_refl (u16_range _)) as [H1 H2].
    split_and!; [done|done| |cbn; lia]. cbn. rewrite lookup_insert_eq. split; [by eexists|]. right. apply Hall.
    by eapply list_elem_of_lookup_2.
  - destruct Hst as [[lb Hlb] He]. rewrite Hlb. eexists _, _. split; [reflexivity|].
    destruct (with_lb_ok R (q_remoteID q) lb (add_weight e lb) Hok Hlb) as [H1 H2].
    { apply add_weight_members. }
    { unfold lb_wf. rewrite add_weight_rrbIdx. by apply (rm_lb_wf _ (rd_inv _ _ (ro_table _ Hok)) (q_remoteID q)). }
    by split_and!.
  - destruct (c_remotes R !! e) as [r|] eqn:Er; eexists _, R; (split; [reflexivity|]);
      (split_and!; [done|apply extends_refl| |cbn; try case_match; cbn; lia]); [|done].
    destruct Hst as [->|He]; [pose proof (rd_key _ _ (ro_table _ Hok)) as Hk; cbn in Hk; congruence|].
    assert (id r = q_remoteID q) as Hid by (rewrite <- He; by apply (rd_svc _ _ (ro_table _ Hok))).
    by destruct (q_isOrdered q).
  - destruct Hst as [He Hid]. eexists _, _. split; [reflexivity|].
    destruct (update_cache_ok R q e Hok He) as [H1 H2]. by split_and!.
  - exists (CDone o), R. split_and!; [done|done|apply extends_refl|done|cbn; lia].
Qed.

(** ** The gate's steps *)

Definition route_ok (op : route_op) : Prop :=
  match op with
  | RConnect _ _ ns svc ip port => svc_of (GenConnIDByIPPort ip port) = GetRemoteID ns svc
  | RDisappear rid c => svc_of c = rid
  | RClientClose _ => True
  end.

Definition glabel_ok (l : glabel) : Prop := match l with GRoute op => route_ok op | _ => True end.

Lemma ConnectRemote_lbs now dial ns svc ip port (rm : RM) rid :
  is_Some (lbs rm !! rid) → is_Some (lbs (ConnectRemote RECV_BUF_MAX_LEN now dial ns svc ip port rm).2 !! rid).
Proof.
  intros H. unfold ConnectRemote. destruct dial; [|done]. destruct (remotes rm !! _); [done|].
  destruct (bal_add _ _) as [[] lb']; cbn; rewrite lookup_insert; case_decide; by eauto.
Qed.

Lemma run_route_ok R op :
  routes_ok R → route_ok op → ∃ R', run_route RECV_BUF_MAX_LEN op R = Ok R' ∧ routes_ok R' ∧ extends R R'.
Proof.
  intros [Ht Hp Hj Hca] Hop. destruct op as [now dial ns svc ip port|rid c|cl]; cbn in *.
  - destruct (run_op_deployed RECV_BUF_MAX_LEN svc_of (table R) (OpConnect now dial ns svc ip port) Ht Hop) as (rm & [= <-] & Hd).
    eexists. split; [reflexivity|]. split; [split; [by apply deployed_table in Hd|done..]|].
    split; [done| |done]. intros rid. by apply (ConnectRemote_lbs now dial ns svc ip port (table R)).
  - destruct (OnRemoteDisappear_ok rid c (table R)) as (rm & E & Hi & Hr & Hc).
    { apply Ht. }
    { intros r Hr. by rewrite (rd_svc _ _ Ht _ _ Hr). }
    rewrite E. eexists. split; [reflexivity|]. split; [split; [|done..]|].
    + apply (deployed_table rm). split; [done| | |].
      * rewrite Hr, lookup_delete_None. right. apply Ht.
      * intros c' r'. rewrite Hr, lookup_delete_Some. intros [_ H']. by apply (rd_svc _ _ Ht).
      * by rewrite Hc.
    + split; [done| |done]. intros rid'. cbn. unfold OnRemoteDisappear in E. cbn in E.
      destruct (c_remotes R !! c); [|by injection E as <-]. destruct (c_lbs R !! rid); [|done]. injection E as <-. cbn.
      rewrite lookup_insert. case_decide; by eauto.
  - eexists. split; [reflexivity|]. split; [|by split; cbn; [..|intros ? ? _ [_ ?]%lookup_delete_Some]]. split; cbn; [done| | |done].
    + intros cl' p [_ H]%lookup_delete_Some. by apply (Hp cl').
    + intros cl1 cl2 p [_ H1]%lookup_delete_Some [_ H2]%lookup_delete_Some. by apply (Hj cl1 cl2 p).
Qed.

Record gate_ok (s : GateSys) : Prop := {
  go_routes : routes_ok (g_routes s);
  go_choices : ∀ g q st, g_choices s !! g = Some (q, st) → choice_ok (g_routes s) q st;
}.

Lemma gexec_ok l s s' : gate_ok s → glabel_ok l → gexec l s = Some s' → gate_ok s'.
Proof.
  intros [Hr Hc] Hl. destruct l as [g q|g|op]; cbn in *.
  - destruct (g_choices s !! g); [done|]. intros [= <-]. split; [done|]. cbn. intros g' q' st.
    rewrite lookup_insert. case_decide; [by intros [= <- <-]|apply Hc].
  - destruct (g_choices s !! g) as [[q st]|] eqn:E; [|done].
    destruct (choice_step_ok _ q st Hr (Hc _ _ _ E)) as (st' & R' & -> & Hr' & Hx & Hok & _). intros [= <-].
    split; [done|]. cbn. intros g' q' st1. rewrite lookup_insert. case_decide; [by intros [= <- <-]|].
    intros Hg'. eapply choice_ok_extends; [done|]. by apply (Hc g').
  - destruct (run_route_ok _ op Hr Hl) as (R' & -> & Hr' & Hx). intros [= <-]. split; [done|]. cbn.
    intros g q st H. eapply choice_ok_extends; [done|]. by apply (Hc g).
Qed.

Lemma gexecs_app ls1 ls2 s : gexecs (ls1 ++ ls2) s = gexecs ls1 s ≫= gexecs ls2.
Proof. revert s. induction ls1 as [|l ls1 IH]; intros s; cbn; [done|]. destruct (gexec l s); cbn; [apply IH|done]. Qed.

Lemma gexecs_ok ls : ∀ s s', gate_ok s → Forall glabel_ok ls → gexecs ls s = Some s' → gate_ok s'.
Proof.
  induction ls as [|l ls IH]; intros s s' Hs Hls; cbn; [by intros [= <-]|]. apply Forall_cons in Hls as [Hl Hls].
  intros (s1 & H1 & H2)%bind_Some. eapply IH; [by eapply gexec_ok|done|done].
Qed.

(** A gate that starts. *)
Definition gate_init : GateSys := mkGateSys (mkRoutes ∅ ∅ ∅ ∅) ∅.

Lemma gate_init_ok : gate_ok gate_init.
Proof.
  split; [|by intros ? ? ?]. split; cbn.
  - apply (CreateRemoteMgr_deployed svc_of).
  - by intros ? ?.
  - by intros ? ? ?.
  - by intros ? ? ? ?.
Qed.

(** ** Every choice gets an answer *)

Lemma choice_ends n : ∀ s g q st,
  gate_ok s → g_choices s !! g = Some (q, st) → (rank st ≤ n)%nat →
  ∃ s' o, gexecs (replicate n (GStep g)) s = Some s' ∧ g_choices s' !! g = Some (q, CDone o).
Proof.
  induction n as [|n IH]; intros s g q st Hs Hg Hn.
  { destruct st; cbn in Hn; try lia. by exists s, remote. }
  destruct (choice_step_ok _ q st (go_routes _ Hs) (go_choices _ Hs _ _ _ Hg)) as (st' & R' & E & _ & _ & _ & Hrk).
  assert (gexec (GStep g) s = Some (mkGateSys R' (<[g := (q, st')]> (g_choices s)))) as E1 by (cbn; by rewrite Hg, E).
  destruct (IH (mkGateSys R' (<[g := (q, st')]> (g_choices s))) g q st') as (s' & o & E2 & Ho).
  - by apply (gexec_ok (GStep g) s).
  - apply lookup_insert_eq.
  - lia.
  - exists s', o. split; [|done]. cbn [replicate gexecs]. by rewrite E1.
Qed.

(** [r] was registered while [g] was choosing. *)
Definition was_there (ls : list glabel) (s0 : GateSys) (g : positive) (q : Request) (r : Remote) : Prop :=
  ∃ ls1 ls2 s1 st c, ls = ls1 ++ ls2 ∧ gexecs ls1 s0 = Some s1 ∧ g_choices s1 !! g = Some (q, st) ∧
    c_remotes (g_routes s1) !! c = Some r.

Lemma was_there_snoc ls l s0 g q r : was_there ls s0 g q r → was_there (ls ++ [l]) s0 g q r.
Proof. intros (ls1 & ls2 & s1 & st & c & -> & ?). exists ls1, (ls2 ++ [l]), s1, st, c. by rewrite <- app_assoc. Qed.

(** The remote a goroutine has found. *)
Definition found (st : choice) : option Remote :=
  match st with CUpdate _ r | CDone (Some r) => Some r | _ => None end.

Lemma found_step q st R st' R' r :
  choice_step q st R = Ok (st', R') → found st' = Some r → found st = Some r ∨ ∃ c, c_remotes R !! c = Some r.
Proof.
  clear. destruct st as [|p| | |m|e|e|e r0|o]; cbn.
  - intros [= <- _]. destruct (q_isOrdered q); [|done]. unfold read_cache. repeat case_match; cbn; naive_solver.
  - by intros [= <- _].
  - intros [= <- _]. by case_match.
  - destruct (c_lbs R !! _); [|done]. intros [= <- _]. by case_decide.
  - destruct (c_lbs R !! _) as [lb|]; [|done]. destruct (RoundRobin_pick m lb) as [[]| |]; [|done..]. by intros [= <- _].
  - destruct (c_lbs R !! _); [|done]. by intros [= <- _].
  - destruct (c_remotes R !! e) eqn:E; intros [= <- _]; [|done]. destruct (q_isOrdered q); cbn; naive_solver.
  - intros [= <- _]. cbn. naive_solver.
  - intros [= <- _]. destruct o; cbn; naive_solver.
Qed.

Lemma found_there ls : ∀ s0 s g q st r,
  g_choices s0 = ∅ → gexecs ls s0 = Some s → g_choices s !! g = Some (q, st) → found st = Some r → was_there ls s0 g q r.
Proof.
  induction ls as [|l ls IH] using rev_ind; intros s0 s g q st r H0.
  { cbn. intros [= <-]. by rewrite H0, lookup_empty. }
  rewrite gexecs_app. intros (s1 & H1 & H2)%bind_Some. cbn in H2. apply bind_Some in H2 as (s2 & H2 & [= <-]).
  assert (∀ st, g_choices s1 !! g = Some (q, st) → found st = Some r → was_there (ls ++ [l]) s0 g q r) as Hold.
  { intros st1 Hg Hf. by eapply was_there_snoc, IH. }
  destruct l as [g' q'|g'|op]; cbn in H2.
  - destruct (g_choices s1 !! g'); [done|]. injection H2 as <-. cbn. rewrite lookup_insert. case_decide; [|apply Hold].
    by intros [= <- <-].
  - destruct (g_choices s1 !! g') as [[q' st']|] eqn:E; [|done].
    destruct (choice_step q' st' (g_routes s1)) as [[st2 R2]| |] eqn:Es; [|done..]. injection H2 as <-. cbn.
    rewrite lookup_insert. case_decide as Hd; [|apply Hold]. intros [= -> ->] Hf. subst g'.
    destruct (found_step _ _ _ _ _ _ Es Hf) as [Hf'|[c Hc]]; [by apply (Hold st')|].
    exists ls, [GStep g], s1, st', c. by split_and!.
  - destruct (run_route _ _ _); [|done..]. injection H2 as <-. cbn. apply Hold.
Qed.


(** ** When a choice is refused *)

(** A service that keeps its instances: what a choice for it has found is still
    connected. *)
Definition served (R : Routes) (q : Request) (st : choice) : Prop :=
  (∃ c r, c_remotes R !! c = Some r ∧ id r = q_remoteID q) ∧
  match st with
  | CPick m => ∀ e, e ∈ m → is_Some (c_remotes R !! e)
  | CWeight e | CGet e => is_Some (c_remotes R !! e)
  | CDone None => False
  | _ => True
  end.

Lemma served_step R q st st' R' :
  routes_ok R → choice_ok R q st → served R q st → choice_step q st R = Ok (st', R') → served R' q st'.
Proof.
  intros Hok Hst [(c & r & Hc & Hid) H].
  assert (∃ lb, c_lbs R !! q_remoteID q = Some lb ∧ c ∈ members lb) as (lb & Hlb & Hin).
  { destruct (rm_balanced _ (rd_inv _ _ (ro_table _ Hok)) c r Hc) as (lb & Hlb & Hin). exists lb. by rewrite <- Hid. }
  destruct st as [|p| | |m|e|e|e r0|o]; cbn in *.
  - intros [= <- <-]. split; [by eauto|]. destruct (q_isOrdered q); [|done]. unfold read_cache. by repeat case_match.
  - intros [= <- <-]. split; [by eauto|done].
  - rewrite Hlb. intros [= <- <-]. split; [by eauto|done].
  - rewrite Hlb. intros [= <- <-]. split; [by eauto|]. rewrite decide_False.
    + intros e He%elem_of_snapshot. by apply (member_svc R (q_remoteID q) lb).
    + intros E%map_size_empty_inv. unfold members in Hin. rewrite E, dom_empty_L in Hin. set_solver.
  - rewrite Hlb. destruct Hst as (_ & Hm & _). destruct (RoundRobin_pick_ok m lb) as (e & idx & _ & He & _ & ->).
    { by apply (rm_lb_wf _ (rd_inv _ _ (ro_table _ Hok)) (q_remoteID q)). }
    { done. }
    intros [= <- <-]. split; [by eauto|]. apply H. by eapply list_elem_of_lookup_2.
  - rewrite Hlb. intros [= <- <-]. split; [by eauto|done].
  - destruct H as [r0 Hr0]. rewrite Hr0. intros [= <- <-]. split; [by eauto|]. by destruct (q_isOrdered q).
  - intros [= <- <-]. unfold served, update_cache. destruct (c_ordered R !! _); (split; [by eauto|done]).
  - intros [= <- <-]. split; [by eauto|done].
Qed.

(** The service of a label that unregisters a connection. *)
Definition removes (l : glabel) : option REMOTE_ID := match l with GRoute (RDisappear rid _) => Some rid | _ => None end.

Lemma served_route R R' q st op :
  routes_ok R → route_ok op → removes (GRoute op) ≠ Some (q_remoteID q) → run_route RECV_BUF_MAX_LEN op R = Ok R' →
  choice_ok R q st → served R q st → served R' q st.
Proof.
  intros Hok Hop Hrm Hrun Hst [(c & r & Hc & Hid) H].
  assert (∀ e, e = EmptyString ∨ svc_of e = q_remoteID q → is_Some (c_remotes R !! e) → c_remotes R' !! e = c_remotes R !! e) as Hk.
  { intros e He [r0 Hr0]. destruct He as [->|He]; [pose proof (rd_key _ _ (ro_table _ Hok)) as Hn; cbn in Hn; congruence|].
    destruct op as [now dial ns svc ip port|rid c'|cl]; cbn in Hrun.
    - injection Hrun as <-. destruct (ConnectRemote_remotes RECV_BUF_MAX_LEN now dial ns svc ip port (table R) e) as [_ [E|[E _]]];
        [exact E|cbn in E; congruence].
    - apply bind_ok_inv in Hrun as (rm & E & [= <-]). unfold OnRemoteDisappear in E. cbn in *.
      destruct (c_remotes R !! c'); [|by injection E as <-]. destruct (c_lbs R !! rid); [|done]. injection E as <-. cbn.
      rewrite lookup_delete_ne; [done|]. intros ->. apply Hrm. by rewrite <- He, Hop.
    - by injection Hrun as <-. }
  assert (c_remotes R' !! c = Some r) as Hc'.
  { rewrite Hk; [done| |by eexists]. right. rewrite <- Hid. symmetry. by apply (rd_svc _ _ (ro_table _ Hok)). }
  split; [by eauto|]. destruct st; cbn in *; try done.
  - intros e He. rewrite Hk; [by apply H|right; by apply Hst|by apply H].
  - rewrite Hk; [done|by apply Hst|done].
  - by rewrite Hk.
Qed.

Lemma served_steps ls : ∀ s s' g q st,
  gate_ok s → Forall glabel_ok ls → (∀ l, l ∈ ls → removes l ≠ Some (q_remoteID q)) → gexecs ls s = Some s' →
  g_choices s !! g = Some (q, st) → served (g_routes s) q st →
  ∃ st', g_choices s' !! g = Some (q, st') ∧ served (g_routes s') q st'.
Proof.
  induction ls as [|l ls IH]; intros s s' g q st Hs Hls Hrm; cbn; [intros [= <-]; by eauto|].
  apply Forall_cons in Hls as [Hl Hls]. intros (s1 & H1 & H2)%bind_Some Hg Hsv.
  assert (∃ st1, g_choices s1 !! g = Some (q, st1) ∧ served (g_routes s1) q st1) as (st1 & Hg1 & Hsv1).
  { pose proof (go_routes _ Hs) as Hr. pose proof (go_choices _ Hs) as Hc. destruct l as [g' q'|g'|op]; cbn in H1.
    - destruct (g_choices s !! g') eqn:E; [done|]. injection H1 as <-. cbn. exists st. rewrite lookup_insert_ne by congruence. done.
    - destruct (g_choices s !! g') as [[q' st']|] eqn:E; [|done].
      destruct (choice_step q' st' (g_routes s)) as [[st2 R2]| |] eqn:Es; [|done..]. injection H1 as <-. cbn.
      rewrite lookup_insert. case_decide as Hd.
      + subst g'. rewrite Hg in E. injection E as <- <-. exists st2. split; [done|]. by eapply served_step; eauto.
      + exists st. split; [done|]. assert (c_remotes R2 = c_remotes (g_routes s)) as Er.
        { clear -Es. destruct st'; cbn in Es; repeat case_match; simplify_eq/=; try done.
          - apply bind_ok_inv in Es as ([] & _ & [= _ <-]). done.
          - unfold update_cache. by case_match. }
        unfold served. rewrite Er. exact Hsv.
    - destruct (run_route _ op _) as [R2| |] eqn:E; [|done..]. injection H1 as <-. cbn. exists st. split; [done|].
      eapply served_route; eauto. apply Hrm. by left. }
  apply (IH s1 s' g q st1); [by eapply gexec_ok|done|intros l' Hl'; apply Hrm; by right|done..].
Qed.


(** ** A choice that is not interrupted *)

Lemma rm_of_alter R p f cl cache :
  routes_ok R → c_ordered R !! cl = Some p → c_caches R !! p = Some cache →
  rm_of (mkRoutes (c_remotes R) (c_lbs R) (c_ordered R) (alter f p (c_caches R)))
  = mkRemoteMgr (c_remotes R) (c_lbs R) (<[cl := f cache]> (orderedCache (rm_of R))).
Proof.
  intros Hok Hp Hc. unfold rm_of. cbn. f_equal. apply map_eq. intros cl'. rewrite lookup_omap, lookup_insert, lookup_omap.
  case_decide as Hcl.
  - subst cl'. rewrite Hp. cbn. by rewrite lookup_alter_eq, Hc.
  - destruct (c_ordered R !! cl') as [p'|] eqn:E; [|done]. cbn. rewrite lookup_alter_ne; [done|].
    intros <-. by apply Hcl, (ro_inj _ Hok cl cl' p).
Qed.

Lemma rm_of_update R q c :
  routes_ok R → rm_of (update_cache q c R) = UpdateRemoteOrderCache (q_remoteID q) (q_clientID q) c (rm_of R).
Proof.
  intros Hok. unfold update_cache, UpdateRemoteOrderCache. cbn. rewrite lookup_omap.
  destruct (c_ordered R !! q_clientID q) as [p|] eqn:E.
  - destruct (ro_ptr _ Hok _ _ E) as [cache Hc]. rewrite (rm_of_alter R p _ _ cache Hok E Hc). cbn. by rewrite Hc.
  - unfold rm_of. cbn. f_equal. set (p := fresh _). apply map_eq. intros cl'.
    rewrite lookup_omap, !lookup_insert, lookup_omap. case_decide as Hcl; cbn; [by rewrite lookup_insert_eq|].
    destruct (c_ordered R !! cl') as [p'|] eqn:E'; [|done]. cbn. rewrite lookup_insert_ne; [done|].
    destruct (ro_ptr _ Hok _ _ E') as [cache Hc]. intros <-. pose proof (is_fresh (dom (c_caches R))) as Hf.
    apply elem_of_dom_2 in Hc. by apply Hf.
Qed.

Lemma balance_alone R q lb e lb' r :
  c_lbs R !! q_remoteID q = Some lb → lb_wf lb → members lb ≠ ∅ →
  LoadBalance BALANCE_STRATEGY (λ _, 0) lb = Ok (e, lb') → c_remotes R !! e = Some r →
  choice_run 6 q CBalance R =
    Ok (CDone (Some r), if q_isOrdered q then update_cache q e (with_lb (q_remoteID q) lb' R) else with_lb (q_remoteID q) lb' R).
Proof.
  intros Hlb Hwf Hne Hpick Hr. unfold LoadBalance in Hpick. cbn [Z.eqb BALANCE_STRATEGY BalanceStrategy_RoundRobin] in Hpick.
  change (BalanceStrategy_RoundRobin =? BalanceStrategy_Rand) with false in Hpick. cbn in Hpick.
  unfold LoadBalanceRoundRobin in Hpick.
  assert (size (elements lb) ≠ 0%nat) as Hsz.
  { rewrite members_size. by intros E%size_empty_inv%leibniz_equiv. }
  rewrite decide_False in Hpick by done.
  destruct (RoundRobin_pick (snapshot lb) lb) as [[e1 lb1]| |] eqn:E1; [|done..]. cbn in Hpick. injection Hpick as -> <-.
  cbn [choice_run choice_step]. rewrite Hlb, bind_ok. cbn [choice_step]. rewrite Hlb, decide_False, bind_ok by done.
  cbn [choice_step]. rewrite Hlb, E1, !bind_ok. cbn [choice_step c_lbs with_lb]. rewrite lookup_insert_eq, bind_ok.
  cbn [choice_step c_remotes with_lb]. rewrite Hr, bind_ok. unfold with_lb. cbn. rewrite insert_insert_eq.
  by destruct (q_isOrdered q).
Qed.

Lemma balance_alone_none R q :
  routes_ok R → (∀ lb, c_lbs R !! q_remoteID q = Some lb → members lb = ∅) →
  choice_run 6 q CBalance R = Ok (CDone None, R).
Proof.
  intros Hok Hno. destruct (c_lbs R !! q_remoteID q) as [lb|] eqn:Hlb; cbn [choice_run choice_step]; rewrite Hlb; [|done].
  specialize (Hno lb eq_refl). unfold members in Hno. apply dom_empty_inv_L in Hno. rewrite bind_ok. cbn [choice_step]. rewrite Hlb, decide_True, bind_ok by by rewrite Hno.
  cbn [choice_step]. rewrite Hlb, bind_ok. unfold add_weight. rewrite Hno, lookup_empty. unfold with_lb.
  rewrite insert_id by done. cbn. pose proof (rd_key _ _ (ro_table _ Hok)) as Hk. cbn in Hk. rewrite Hk. cbn. by destruct R.
Qed.

(** [ChoiceRemote] is these steps in a row. *)
Lemma balance_run R q :
  routes_ok R → ∃ o R', choice_run 6 q CBalance R = Ok (CDone o, R') ∧
    ChoiceRemote_balance (q_remoteID q) (q_isOrdered q) (q_clientID q) (rm_of R) = Ok (o, rm_of R').
Proof.
  intros Hok. unfold ChoiceRemote_balance. cbn [lbs rm_of remotes orderedCache].
  assert ((∃ lb, c_lbs R !! q_remoteID q = Some lb ∧ members lb ≠ ∅) ∨
    ∀ lb, c_lbs R !! q_remoteID q = Some lb → members lb = ∅) as [(lb & Hlb & Hne)|Hem].
  { destruct (c_lbs R !! q_remoteID q) as [lb|]; [|by right]. destruct (decide (members lb = ∅)); naive_solver. }
  - pose proof (rm_lb_wf _ (rd_inv _ _ (ro_table _ Hok)) _ _ Hlb) as Hwf. rewrite Hlb.
    destruct (bal_pick_spec lb Hwf Hne) as (e & lb' & E & Hin & Hm & Hwf'). rewrite E, bind_ok. cbn [bal_pick LoadBalancer_Balancer] in E.
    destruct (member_svc R _ lb e Hok Hlb Hin) as [_ [r Hr]]. unfold GetRemote. cbn [remotes]. rewrite Hr.
    rewrite (balance_alone R q lb e lb' r Hlb Hwf Hne E Hr). eexists _, _. split; [reflexivity|].
    destruct (q_isOrdered q); [|done]. by rewrite rm_of_update by by apply (with_lb_ok R _ lb).
  - rewrite (balance_alone_none R q Hok Hem). eexists _, _. split; [reflexivity|].
    destruct (c_lbs R !! q_remoteID q) as [lb|] eqn:Hlb; [|done].
    rewrite (bal_pick_empty lb (rm_lb_wf _ (rd_inv _ _ (ro_table _ Hok)) _ _ Hlb) (Hem lb eq_refl)), bind_ok.
    unfold GetRemote. cbn [remotes]. pose proof (rd_key _ _ (ro_table _ Hok)) as Hk. cbn in Hk. rewrite Hk.
    unfold rm_of. by rewrite insert_id.
Qed.

Lemma choice_run_add n m q st R :
  choice_run (n + m) q st R = ('(st, R) ← choice_run n q st R; choice_run m q st R).
Proof.
  revert st R. induction n as [|n IH]; intros st R; cbn [Nat.add choice_run]; [done|].
  destruct (choice_step q st R) as [[st1 R1]| |]; [|done..]. by rewrite !bind_ok.
Qed.


Lemma gexecs_alone n : ∀ g q st R st' R' cs,
  cs !! g = Some (q, st) → choice_run n q st R = Ok (st', R') →
  gexecs (replicate n (GStep g)) (mkGateSys R cs) = Some (mkGateSys R' (<[g := (q, st')]> cs)).
Proof.
  induction n as [|n IH]; intros g q st R st' R' cs Hg; cbn [choice_run replicate gexecs].
  { intros [= <- <-]. by rewrite insert_id. }
  destruct (choice_step q st R) as [[st1 R1]| |] eqn:E; [|done..]. rewrite bind_ok. intros Hrun.
  cbn [gexec g_choices g_routes]. rewrite Hg, E. cbn.
  rewrite (IH g q st1 R1 st' R' (<[g := (q, st1)]> cs)); [by rewrite insert_insert_eq|apply lookup_insert_eq|done].
Qed.

(** ** Two ordered requests at the same time *)

(** Two picks in a row are different. *)
Lemma picks_differ lb : lb_wf lb → (2 ≤ size (members lb))%nat → Z.of_nat (size (members lb)) < 2 ^ 16 →
  ∃ e1 lb1 e2 lb2, LoadBalance BALANCE_STRATEGY (λ _, 0) lb = Ok (e1, lb1) ∧
    LoadBalance BALANCE_STRATEGY (λ _, 0) lb1 = Ok (e2, lb2) ∧ e1 ≠ e2 ∧
    members lb1 = members lb ∧ lb_wf lb1 ∧ e1 ∈ members lb ∧ e2 ∈ members lb.
Proof.
  intros Hwf Hsz Hlt. assert (members lb ≠ ∅) as Hne by (intros E; rewrite E, size_empty in Hsz; lia).
  destruct (LoadBalance_rr BALANCE_STRATEGY (λ _, 0) lb) as (e1 & i1 & lb1 & Hi1 & He1 & Ei1 & E1 & Hm1 & Hr1); [done..|].
  assert (lb_wf lb1) as Hwf1 by (unfold lb_wf; rewrite Hr1; apply u16_range).
  destruct (LoadBalance_rr BALANCE_STRATEGY (λ _, 0) lb1) as (e2 & i2 & lb2 & Hi2 & He2 & Ei2 & E2 & _); [done|done|by rewrite Hm1|].
  rewrite (snapshot_members lb1 lb Hm1) in *.
  assert (go_len (snapshot lb) = Z.of_nat (size (members lb))) as Hk by (unfold go_len; by rewrite snapshot_length, members_size).
  exists e1, lb1, e2, lb2. split_and!; try done.
  - intros ->. pose proof (NoDup_lookup _ _ _ _ (snapshot_NoDup lb) He1 He2) as Hij.
    rewrite Hr1, Hk in Ei2. rewrite Hk in *. rewrite (u16_small (Z.of_nat _)), (u16_small (i1 + 1)) in Ei2 by lia.
    destruct (Z.leb_spec (Z.of_nat (size (members lb))) (i1 + 1)); lia.
  - apply elem_of_snapshot. by eapply list_elem_of_lookup_2.
  - apply elem_of_snapshot. by eapply list_elem_of_lookup_2.
Qed.

(** Ordered requests that are routed at the same time.  The cache that keeps
    the ordered requests of a client on one instance is read and written under
    different locks.  When a client has no entry yet and its service has several
    instances, two of its ordered requests that are routed at the same time can be
    given two different instances, although both stay connected: the order between
    them is lost. *)
Theorem ordered_race (R : Routes) (q : Request) (lb : LoadBalancer) :
  routes_ok R → q_isOrdered q = true → c_ordered R !! q_clientID q = None →
  c_lbs R !! q_remoteID q = Some lb → (2 ≤ size (members lb))%nat → Z.of_nat (size (members lb)) < 2 ^ 16 →
  ∃ ls s e1 e2 r1 r2, gexecs ls (mkGateSys R ∅) = Some s ∧ (∀ l, l ∈ ls → ∃ g, l = GStep g ∨ l = GBegin g q) ∧
    g_choices s !! 1%positive = Some (q, CDone (Some r1)) ∧ g_choices s !! 2%positive = Some (q, CDone (Some r2)) ∧
    e1 ≠ e2 ∧ c_remotes (g_routes s) !! e1 = Some r1 ∧ c_remotes (g_routes s) !! e2 = Some r2.
Proof.
  intros Hok Ho Hcl Hlb Hsz Hlt. pose proof (rm_lb_wf _ (rd_inv _ _ (ro_table _ Hok)) _ _ Hlb) as Hwf.
  destruct (picks_differ lb Hwf Hsz Hlt) as (e1 & lb1 & e2 & lb2 & E1 & E2 & Hne & Hm1 & Hwf1 & Hin1 & Hin2).
  assert (members lb ≠ ∅) as Hnem by (intros E; rewrite E, size_empty in Hsz; lia).
  destruct (member_svc R _ lb e1 Hok Hlb Hin1) as [_ [r1 Hr1]], (member_svc R _ lb e2 Hok Hlb Hin2) as [_ [r2 Hr2]].
  pose proof (balance_alone R q lb e1 lb1 r1 Hlb Hwf Hnem E1 Hr1) as A1. rewrite Ho in A1.
  set (R1 := update_cache q e1 _) in A1.
  assert (c_remotes R1 = c_remotes R ∧ c_lbs R1 !! q_remoteID q = Some lb1) as [HR1 Hlb1].
  { unfold R1, update_cache. cbn. rewrite Hcl. cbn. by rewrite lookup_insert_eq. }
  pose proof (balance_alone R1 q lb1 e2 lb2 r2 Hlb1 Hwf1 ltac:(by rewrite Hm1) E2 ltac:(by rewrite HR1)) as A2. rewrite Ho in A2.
  set (R2 := update_cache q e2 _) in A2.
  assert (c_remotes R2 = c_remotes R) as HR2.
  { unfold R2, update_cache. cbn. rewrite <- HR1. by destruct (c_ordered R1 !! _). }
  assert (∀ R, c_ordered R !! q_clientID q = None → choice_run 1 q CBegin R = Ok (CBalance, R)) as A0.
  { intros R0 H0. cbn. unfold read_cache. by rewrite Ho, H0. }
  exists ([GBegin 1 q; GBegin 2 q] ++ replicate 1 (GStep 1) ++ replicate 1 (GStep 2) ++ replicate 6 (GStep 1) ++ replicate 6 (GStep 2)).
  assert (gexecs [GBegin 1 q; GBegin 2 q] (mkGateSys R ∅) =
    Some (mkGateSys R (<[2%positive := (q, CBegin)]> (<[1%positive := (q, CBegin)]> ∅)))) as E0 by reflexivity.
  rewrite gexecs_app, E0. cbn [mbind option_bind].
  rewrite gexecs_app. erewrite (gexecs_alone 1 1 q); [|reflexivity|by apply A0]. cbn [mbind option_bind].
  rewrite gexecs_app. erewrite (gexecs_alone 1 2 q); [|reflexivity|by apply A0]. cbn [mbind option_bind].
  rewrite gexecs_app. erewrite (gexecs_alone 6 1 q); [|reflexivity|exact A1]. cbn [mbind option_bind].
  erewrite (gexecs_alone 6 2 q); [|reflexivity|exact A2].
  eexists _, e1, e2, r1, r2. split; [reflexivity|]. cbn [g_choices g_routes]. rewrite HR2. split_and!; try done.
  intros l. rewrite !elem_of_app, !elem_of_replicate, !elem_of_cons. intros [[->|[->|[]%not_elem_of_nil]]|[[-> _]|[[-> _]|[[-> _]|[-> _]]]]]; by eauto.
Qed.

End Invariant.

End Routing.

(** ** Witnesses: a gate with two instances of one service *)
Module RoutingDemo.

Definition connect (fd : positive) (port : Z) : glabel :=
  GRoute (RConnect 0 (Some (demo_conn fd ("10.0.0.1:" +:+ pretty port))) "ns" "a" "10.0.0.1" port).
Definition req : Request := mkRequest "ns:a" true "c1".

(** A request is being routed while another client asks and a third one leaves. *)
Definition start : list glabel := [connect 1 8001; connect 2 8002].
Definition busy : list glabel :=
  [GBegin 1 req; GStep 1; GStep 1; GBegin 2 (mkRequest "ns:a" false "c2"); GStep 1; GStep 2; GStep 1;
   GRoute (RClientClose "c3"); GStep 1; GStep 1; GStep 1].

Definition run_to (ls : list glabel) : GateSys := default gate_init (gexecs 4 ls gate_init).

Lemma route_run_ok ls : bool_decide (is_Some (gexecs 4 ls gate_init)) = true → gexecs 4 ls gate_init = Some (run_to ls).
Proof. intros [s E]%bool_decide_eq_true. unfold run_to. by rewrite E. Qed.

Lemma busy_labels : Forall (glabel_ok demo_svc) (start ++ busy).
Proof. repeat constructor; vm_compute; reflexivity. Qed.



Lemma demo_routes_ok : routes_ok demo_svc (g_routes (run_to start)).
Proof.
  apply (gexecs_ok 4 demo_svc start gate_init (run_to start)).
  - apply gate_init_ok.
  - repeat constructor; vm_compute; reflexivity.
  - apply route_run_ok. vm_compute. reflexivity.
Qed.


Lemma ordered_race_witness :
  ∃ ls s e1 e2 r1 r2, gexecs 4 ls (mkGateSys (g_routes (run_to start)) ∅) = Some s ∧
    g_choices s !! 1%positive = Some (req, CDone (Some r1)) ∧ g_choices s !! 2%positive = Some (req, CDone (Some r2)) ∧
    e1 ≠ e2 ∧ c_remotes (g_routes s) !! e1 = Some r1 ∧ c_remotes (g_routes s) !! e2 = Some r2.
Proof.
  destruct (c_lbs (g_routes (run_to start)) !! "ns:a") as [lb|] eqn:El; [|exfalso; vm_compute in El; discriminate El].
  assert (size (members lb) = 2%nat) as Hsz.
  { apply (f_equal (fmap (λ lb, size (members lb)))) in El. vm_compute in El. by injection El as ->. }
  destruct (ordered_race 4 demo_svc (g_routes (run_to start)) req lb) as (ls & s & e1 & e2 & r1 & r2 & E & _ & H1 & H2 & Hne & Hr1 & Hr2).
  - exact demo_routes_ok.
  - reflexivity.
  - reflexivity.
  - exact El.
  - rewrite Hsz. lia.
  - rewrite Hsz. reflexivity.
  - exists ls, s, e1, e2, r1, r2. by split_and!.
Defined.

End RoutingDemo.
