(* ===== verification/Msgpack.v ===== *)
(** * Messages: names and arguments

    [RpcEncode] writes the name of an rpc and its arguments with the msgpack
    library, the decoders of [RpcDecode] and of the handlers read them back.
    The library ([github.com/vmihailenco/msgpack]) is a parameter: the class
    [Msgpack] states the one fact the code relies on, that a value decodes to
    itself when it is read at a type it belongs to.  [RefMsgpack] is a concrete
    codec in the msgpack format that satisfies the class. *)

From S2P Require Import Prelude Utils Wire.

Local Open Scope Z_scope.

(** ** Values

    The Go values that are passed to [RpcEncode] or decoded into the fields of
    a request.  A map is listed in the order in which it is traversed; a nil
    map, slice or interface is [GNil]; a [float32] is its bit pattern. *)
Inductive goval :=
  | GNil
  | GBool (b : bool)
  | GUint32 (z : Z)
  | GInt32 (z : Z)
  | GInt (z : Z)
  | GInt64 (z : Z)
  | GFloat32 (bits : Z)
  | GInt32s (l : list Z)
  | GStr (s : string)
  | GBytes (l : bytes)
  | GMapBool (m : list (string * bool))
  | GMapAny (m : list (string * goval)).

(** The types of the fields of the requests. *)
Inductive gotype := TBool | TUint32 | TInt32 | TFloat32 | TInt32s | TString | TBytes | TMapBool | TMapAny.

(** Length prefixes are 32 bits wide. *)
Definition short {A} (l : list A) : bool := go_len l <? 2 ^ 32.

Definition short_string (s : string) : bool := short (bytes_of_string s).

Definition in_int32 (z : Z) : bool := (- 2 ^ 31 <=? z) && (z <? 2 ^ 31).

(** Values inside a [map[string]interface{}] that keep their type when they are
    decoded without knowing it. *)
Definition self_describing (v : goval) : bool :=
  match v with
  | GNil | GBool _ => true
  | GUint32 z | GFloat32 z => (0 <=? z) && (z <? 2 ^ 32)
  | GInt32 z => in_int32 z
  | GInt64 z => (- 2 ^ 63 <=? z) && (z <? 2 ^ 63)
  | GStr s => short_string s
  | GBytes l => short l && forallb (λ b, (0 <=? b) && (b <? 256)) l
  | _ => false
  end.

(** The value a field of type [ty] holds after decoding the encoding of [v];
    [None] where nothing is promised. *)
Definition coerce (ty : gotype) (v : goval) : option goval :=
  match ty, v with
  | TBool, GBool b => Some v
  | TUint32, (GUint32 z | GInt z | GInt64 z) => if (0 <=? z) && (z <? 2 ^ 32) then Some (GUint32 z) else None
  | TUint32, GInt32 z => if (0 <=? z) && (z <? 2 ^ 31) then Some (GUint32 z) else None
  | TInt32, (GInt32 z | GInt z | GInt64 z) => if in_int32 z then Some (GInt32 z) else None
  | TFloat32, GFloat32 z => if (0 <=? z) && (z <? 2 ^ 32) then Some v else None
  | TInt32s, GInt32s l => if short l && forallb in_int32 l then Some v else None
  | TInt32s, GNil => Some GNil
  | TString, GStr s => if short_string s then Some v else None
  | TBytes, GBytes l => if short l && forallb (λ b, (0 <=? b) && (b <? 256)) l then Some v else None
  | TMapBool, GMapBool m =>
      if decide (NoDup m.*1) then if short m && forallb (λ p, short_string p.1) m then Some v else None
      else None
  | TMapAny, GMapAny m =>
      if decide (NoDup m.*1) then
        if short m && forallb (λ p, short_string p.1 && self_describing p.2) m then Some v else None
      else None
  | (TMapBool | TMapAny), GNil => Some GNil
  | _, _ => None
  end.

(** The values a field of a type can hold. *)
Definition has_shape (ty : gotype) (v : goval) : bool :=
  match ty, v with
  | TBool, GBool _ | TUint32, GUint32 _ | TInt32, GInt32 _ | TFloat32, GFloat32 _ | TInt32s, (GInt32s _ | GNil) | TString, GStr _ | TBytes, GBytes _
  | TMapBool, (GMapBool _ | GNil) | TMapAny, (GMapAny _ | GNil) => true
  | _, _ => false
  end.

Lemma coerce_bytes l : short l = true → Forall is_byte l → coerce TBytes (GBytes l) = Some (GBytes l).
Proof.
  intros Hs Hb. cbn. rewrite Hs.
  assert (forallb (λ b, (0 <=? b) && (b <? 256)) l = true) as ->; [|done]. apply Is_true_true, forallb_True.
  eapply Forall_impl; [exact Hb|]. intros b Hl. unfold is_byte in Hl. apply Is_true_true, andb_true_iff. lia.
Qed.

Lemma coerce_string s : short_string s = true → coerce TString (GStr s) = Some (GStr s).
Proof. intros H. cbn. by rewrite H. Qed.

Lemma coerce_u32 z : coerce TUint32 (GUint32 (u32 z)) = Some (GUint32 (u32 z)).
Proof.
  pose proof (u32_range z). cbn. rewrite (proj2 (Z.leb_le _ _)), (proj2 (Z.ltb_lt _ _)) by lia. done.
Qed.

Class Msgpack := {
  enc : goval → bytes;
  (** [decoder.Decode]: the value or an error, and what is left to read. *)
  dec : gotype → bytes → option goval * bytes;
  (** The text of the error. *)
  dec_err : gotype → bytes → string;
  enc_bytes v : Forall is_byte (enc v);
  dec_shape ty l v rest : dec ty l = (Some v, rest) → has_shape ty v = true;
  (** What is decoded was read from the buffer, headers included. *)
  dec_shrinks ty l :
    (length (dec ty l).2 + match (dec ty l).1 with Some (GBytes b) => S (length b) | _ => 0 end
     ≤ length l)%nat;
  dec_enc ty v w rest : coerce ty v = Some w → dec ty (enc v ++ rest) = (Some w, rest);
}.

(** ** What the framework does with the codec *)

Section Codec.
  Context {MP : Msgpack}.

(** [RpcEncode(name, args...)]. *)
Definition RpcEncode (name : string) (args : list goval) : bytes :=
  foldl (λ writer arg, writer ++ enc arg) (enc (GStr name)) args.

(** [var rpcName string; decoder.Decode(&rpcName)], whose error is ignored. *)
Definition decode_name (buf : bytes) : string * bytes :=
  match dec TString buf with
  | (Some (GStr name), rest) => (name, rest)
  | (_, rest) => (EmptyString, rest)
  end.

(** The loop over the fields of the request: it stops at the first field that
    does not decode, with that field and the error. *)
Fixpoint decode_fields (fields : list (string * gotype)) (buf : bytes) (acc : list goval)
    : (string * gotype * string) + list goval :=
  match fields with
  | [] => inr acc
  | (fname, ty) :: fields =>
      match dec ty buf with
      | (Some nv, buf) => decode_fields fields buf (acc ++ [nv])
      | (None, _) => inl (fname, ty, dec_err ty buf)
      end
  end.

(** The name in an inner message. *)
Definition inner_name (innerRpc : bytes) : string := (decode_name innerRpc).1.

Lemma RpcEncode_app name args : RpcEncode name args = enc (GStr name) ++ concat (map enc args).
Proof.
  unfold RpcEncode. generalize (enc (GStr name)). induction args as [|a args IH]; intros w; simpl.
  - by rewrite app_nil_r.
  - by rewrite IH, <- app_assoc.
Qed.

Lemma RpcEncode_bytes name args : Forall is_byte (RpcEncode name args).
Proof.
  rewrite RpcEncode_app, Forall_app. split; [apply enc_bytes|].
  apply Forall_concat, Forall_fmap. rewrite Forall_forall. intros v _. apply enc_bytes.
Qed.

Lemma decode_name_enc name rest :
  short_string name = true → decode_name (enc (GStr name) ++ rest) = (name, rest).
Proof. intros H. unfold decode_name. by rewrite (dec_enc TString _ (GStr name)) by (by cbn; rewrite H). Qed.

Lemma inner_name_enc name args :
  short_string name = true → inner_name (RpcEncode name args) = name.
Proof. intros H. unfold inner_name. by rewrite RpcEncode_app, decode_name_enc. Qed.

(** Arguments that decode into the fields of a request, to [vals]. *)
Definition args_fit (fields : list (string * gotype)) (args vals : list goval) : Prop :=
  Forall3 (λ f v w, coerce f.2 v = Some w) fields args vals.

Lemma decode_fields_enc fields args vals acc rest :
  args_fit fields args vals →
  decode_fields fields (concat (map enc args) ++ rest) acc = inr (acc ++ vals).
Proof.
  intros H. revert acc. induction H as [|[fname ty] v w fields args vals Hc H IH]; intros acc; simpl.
  - by rewrite app_nil_r.
  - by rewrite <- app_assoc, (dec_enc _ _ w) by done; rewrite IH, <- app_assoc.
Qed.

(** An rpc message decodes to its name and to its arguments at the types of
    the request. *)
Lemma RpcEncode_decode name fields args vals :
  short_string name = true →
  args_fit fields args vals →
  ∃ rest, decode_name (RpcEncode name args) = (name, rest) ∧
    decode_fields fields rest [] = inr vals.
Proof.
  intros Hn H. exists (concat (map enc args)). rewrite RpcEncode_app. split.
  - by apply decode_name_enc.
  - rewrite <- (app_nil_r (concat _)). by apply (decode_fields_enc _ _ _ []).
Qed.

(** Decoded fields have the types of the request. *)
Lemma decode_fields_shape fields : ∀ buf acc vals,
  decode_fields fields buf acc = inr vals →
  ∃ vals', vals = acc ++ vals' ∧ Forall2 (λ f v, has_shape f.2 v = true) fields vals'.
Proof.
  induction fields as [|[fname ty] fields IH]; intros buf acc vals; simpl.
  - intros [= <-]. exists []. split; [by rewrite app_nil_r|constructor].
  - destruct (dec ty buf) as [[nv|] buf'] eqn:E; [|discriminate 1].
    intros (vals' & -> & H)%IH. exists (nv :: vals'). split; [by rewrite <- app_assoc|].
    constructor; [|done]. by eapply dec_shape.
Qed.

(** A byte slice in a request is shorter than the message it came in. *)
Lemma decode_fields_shrinks fields : ∀ buf acc vals b,
  decode_fields fields buf acc = inr vals → GBytes b ∈ vals →
  GBytes b ∈ acc ∨ (length b < length buf)%nat.
Proof.
  induction fields as [|[fname ty] fields IH]; intros buf acc vals b; simpl; [intros [= <-]; auto|].
  pose proof (dec_shrinks ty buf) as E. destruct (dec ty buf) as [[nv|] buf']; [|discriminate 1]. cbn in E.
  intros H Hin. destruct (IH _ _ _ _ H Hin) as [[?|Hnv%list_elem_of_singleton]%elem_of_app|?];
    [by left|subst nv; right; lia|right; destruct nv; lia].
Qed.

Lemma decode_name_shrinks buf : (length (decode_name buf).2 ≤ length buf)%nat.
Proof.
  unfold decode_name. pose proof (dec_shrinks TString buf) as E.
  destruct (dec TString buf) as [[[]|] rest]; cbn in *; lia.
Qed.

End Codec.

(** ** A reference codec

    The wide forms of the msgpack format. *)
Module RefMsgpack.

Definition enc_string (s : string) : bytes :=
  219 :: be_encode 4 (go_len (bytes_of_string s)) ++ bytes_of_string s.

Fixpoint enc (v : goval) : bytes :=
  match v with
  | GNil => [192]
  | GBool b => [if b then 195 else 194]
  | GUint32 z => 206 :: be_encode 4 z
  | GInt32 z => 210 :: be_encode 4 z
  | GInt z | GInt64 z => 211 :: be_encode 8 z
  | GFloat32 z => 202 :: be_encode 4 z
  | GInt32s l => 221 :: be_encode 4 (go_len l) ++ concat (map (λ z, 210 :: be_encode 4 z) l)
  | GStr s => enc_string s
  | GBytes l => 198 :: be_encode 4 (go_len l) ++ map u8 l
  | GMapBool m =>
      223 :: be_encode 4 (go_len m) ++
      concat (map (λ p : string * bool, enc_string p.1 ++ [if p.2 then 195 else 194]) m)
  | GMapAny m =>
      223 :: be_encode 4 (go_len m) ++
      concat (map (λ p : string * goval, enc_string p.1 ++ enc p.2) m)
  end.

(** A scalar, by its tag. *)
Definition dec_scalar (l : bytes) : option (goval * bytes) :=
  match l with
  | 192 :: l => Some (GNil, l)
  | 194 :: l => Some (GBool false, l)
  | 195 :: l => Some (GBool true, l)
  | 206 :: l => Some (GUint32 (be_decode (take 4 l)), drop 4 l)
  | 210 :: l => Some (GInt32 (i32 (be_decode (take 4 l))), drop 4 l)
  | 202 :: l => Some (GFloat32 (be_decode (take 4 l)), drop 4 l)
  | 211 :: l => Some (GInt64 (i64 (be_decode (take 8 l))), drop 8 l)
  | 219 :: l =>
      let n := Z.to_nat (be_decode (take 4 l)) in
      Some (GStr (string_of_bytes (take n (drop 4 l))), drop n (drop 4 l))
  | 198 :: l =>
      let n := Z.to_nat (be_decode (take 4 l)) in
      Some (GBytes (take n (drop 4 l)), drop n (drop 4 l))
  | _ => None
  end.

(** [n] pairs of a string and a scalar. *)
Fixpoint dec_pairs (n : nat) (l : bytes) : option (list (string * goval) * bytes) :=
  match n with
  | O => Some ([], l)
  | S n =>
      match dec_scalar l with
      | Some (GStr k, l) =>
          match dec_scalar l with
          | Some (v, l) =>
              match dec_pairs n l with
              | Some (m, l) => Some ((k, v) :: m, l)
              | None => None
              end
          | None => None
          end
      | _ => None
      end
  end.

Definition as_bool (p : string * goval) : string * bool :=
  (p.1, match p.2 with GBool b => b | _ => false end).

Definition dec_map (ty : gotype) (l : bytes) : option (goval * bytes) :=
  match dec_pairs (Z.to_nat (be_decode (take 4 l))) (drop 4 l) with
  | Some (m, rest) =>
      Some (match ty with TMapBool => GMapBool (map as_bool m) | _ => GMapAny m end, rest)
  | None => None
  end.

(** [n] integers. *)
Fixpoint dec_ints (n : nat) (l : bytes) : option (list Z * bytes) :=
  match n with
  | O => Some ([], l)
  | S n =>
      match dec_scalar l with
      | Some (GInt32 z, l) =>
          match dec_ints n l with
          | Some (zs, l) => Some (z :: zs, l)
          | None => None
          end
      | _ => None
      end
  end.

Definition dec_list (l : bytes) : option (goval * bytes) :=
  match dec_ints (Z.to_nat (be_decode (take 4 l))) (drop 4 l) with
  | Some (zs, rest) => Some (GInt32s zs, rest)
  | None => None
  end.

Definition dec_value (ty : gotype) (l : bytes) : option (goval * bytes) :=
  match l with
  | tag :: l' =>
      if tag =? 223 then dec_map ty l' else if tag =? 221 then dec_list l' else dec_scalar l
  | [] => None
  end.

Definition dec (ty : gotype) (l : bytes) : option goval * bytes :=
  match dec_value ty l with
  | Some (v, rest) =>
      match coerce ty v with
      | Some w => (Some w, rest)
      | None => (None, rest)
      end
  | None => (None, l)
  end.

Definition dec_err (_ : gotype) (_ : bytes) : string := "msgpack: decode error".

Lemma u8_byte b : is_byte (u8 b).
Proof. apply Z.mod_pos_bound. lia. Qed.

Lemma bool_byte (b : bool) : is_byte (if b then 195 else 194).
Proof. unfold is_byte. destruct b; lia. Qed.

Lemma enc_string_bytes s : Forall is_byte (enc_string s).
Proof.
  apply Forall_cons. split; [unfold is_byte; lia|]. apply Forall_app. split.
  - apply be_encode_bytes.
  - apply bytes_of_string_bytes.
Qed.

Lemma enc_bytes : ∀ v, Forall is_byte (enc v).
Proof.
  assert (∀ t l, 0 ≤ t < 256 → Forall is_byte l → Forall is_byte (t :: l)) as Htag
    by (intros; by apply Forall_cons).
  fix IH 1. intros [ |b|z|z|z|z|z|l|s|l|m|m]; cbn [enc].
  - by apply Htag.
  - by apply Htag; [apply bool_byte|].
  - apply Htag; [lia|apply be_encode_bytes].
  - apply Htag; [lia|apply be_encode_bytes].
  - apply Htag; [lia|apply be_encode_bytes].
  - apply Htag; [lia|apply be_encode_bytes].
  - apply Htag; [lia|apply be_encode_bytes].
  - apply Htag; [lia|]. apply Forall_app. split; [apply be_encode_bytes|].
    apply Forall_concat, Forall_fmap, Forall_true. intros z. apply Htag; [lia|apply be_encode_bytes].
  - apply enc_string_bytes.
  - apply Htag; [lia|]. apply Forall_app. split; [apply be_encode_bytes|].
    apply Forall_fmap, Forall_true, u8_byte.
  - apply Htag; [lia|]. apply Forall_app. split; [apply be_encode_bytes|].
    apply Forall_concat, Forall_fmap, Forall_true. intros p. apply Forall_app.
    split; [apply enc_string_bytes|]. by apply Htag; [apply bool_byte|].
  - apply Htag; [lia|]. apply Forall_app. split; [apply be_encode_bytes|].
    induction m as [|[k v] m IHm]; cbn [map concat fst snd]; [constructor|]. rewrite !Forall_app.
    split; [split; [apply enc_string_bytes|apply IH]|apply IHm].
Qed.

Lemma take_be n z l : take n (be_encode n z ++ l) = be_encode n z.
Proof. by rewrite <- (be_encode_length n z) at 1; rewrite take_app_length. Qed.

Lemma drop_be n z l : drop n (be_encode n z ++ l) = l.
Proof. by rewrite <- (be_encode_length n z) at 1; rewrite drop_app_length. Qed.

Lemma be_length {A} (l : list A) : short l = true → Z.to_nat (be_decode (be_encode 4 (go_len l))) = length l.
Proof.
  unfold short. intros H%Z.ltb_lt. rewrite be_decode_encode.
  rewrite Z.mod_small; [unfold go_len; lia|]. pose proof (go_len_nonneg l).
  change (256 ^ Z.of_nat 4) with (2 ^ 32). lia.
Qed.

Lemma dec_scalar_string s rest :
  short_string s = true → dec_scalar (enc_string s ++ rest) = Some (GStr s, rest).
Proof.
  intros H. unfold enc_string. cbn -[be_encode be_decode take drop]. rewrite <- !app_assoc.
  rewrite take_be, drop_be, be_length by done.
  by rewrite take_app_length, drop_app_length, string_bytes_string.
Qed.

Lemma map_u8 l : forallb (λ b, (0 <=? b) && (b <? 256)) l = true → map u8 l = l.
Proof.
  induction l as [|b l IH]; simpl; [done|]. intros [Hb Hl]%andb_true_iff.
  rewrite IH by done. f_equal. apply u8_small. lia.
Qed.

Lemma dec_scalar_u32 z rest :
  (0 <=? z) && (z <? 2 ^ 32) = true → dec_scalar (enc (GUint32 z) ++ rest) = Some (GUint32 z, rest).
Proof.
  intros [? ?]%andb_true_iff. cbn -[be_encode be_decode take drop].
  rewrite take_be, drop_be, be_decode_encode, Z.mod_small; [done|]. change (256 ^ Z.of_nat 4) with (2 ^ 32). lia.
Qed.

Lemma dec_scalar_f32 z rest :
  (0 <=? z) && (z <? 2 ^ 32) = true → dec_scalar (enc (GFloat32 z) ++ rest) = Some (GFloat32 z, rest).
Proof.
  intros [? ?]%andb_true_iff. cbn -[be_encode be_decode take drop].
  rewrite take_be, drop_be, be_decode_encode, Z.mod_small; [done|]. change (256 ^ Z.of_nat 4) with (2 ^ 32). lia.
Qed.

Lemma dec_scalar_i32 z rest :
  in_int32 z = true → dec_scalar (enc (GInt32 z) ++ rest) = Some (GInt32 z, rest).
Proof.
  unfold in_int32. intros [? ?]%andb_true_iff. cbn -[be_encode be_decode take drop].
  rewrite take_be, drop_be, be_decode_encode. change (256 ^ Z.of_nat 4) with (2 ^ 32).
  unfold i32. by rewrite swrap_mod by lia.
Qed.

Lemma dec_scalar_i64 z rest :
  (- 2 ^ 63 <=? z) && (z <? 2 ^ 63) = true → dec_scalar (enc (GInt64 z) ++ rest) = Some (GInt64 z, rest).
Proof.
  intros [? ?]%andb_true_iff. cbn -[be_encode be_decode take drop].
  rewrite take_be, drop_be, be_decode_encode. change (256 ^ Z.of_nat 8) with (2 ^ 64).
  unfold i64. by rewrite swrap_mod by lia.
Qed.

Lemma dec_ints_enc l rest :
  forallb in_int32 l = true →
  dec_ints (length l) (concat (map (λ z, enc (GInt32 z)) l) ++ rest) = Some (l, rest).
Proof.
  induction l as [|z l IH]; [done|]. cbn [map concat length dec_ints forallb].
  intros [Hz Hl]%andb_true_iff. rewrite <- !app_assoc, dec_scalar_i32 by done. by rewrite IH.
Qed.

Lemma dec_scalar_self v rest :
  self_describing v = true → dec_scalar (enc v ++ rest) = Some (v, rest).
Proof.
  destruct v as [ |[]|z|z|z|z|z|l|s|l|m|m]; try done; try apply dec_scalar_string.
  - apply dec_scalar_u32.
  - apply dec_scalar_i32.
  - apply dec_scalar_i64.
  - apply dec_scalar_f32.
  - cbn [self_describing]. intros [Hs Hb]%andb_true_iff.
    cbn -[be_encode be_decode take drop]. rewrite map_u8, <- !app_assoc by done.
    by rewrite take_be, drop_be, be_length, take_app_length, drop_app_length.
Qed.

Lemma dec_pairs_enc (m : list (string * goval)) rest :
  forallb (λ p, short_string p.1 && self_describing p.2) m = true →
  dec_pairs (length m) (concat (map (λ p, enc_string p.1 ++ enc p.2) m) ++ rest) = Some (m, rest).
Proof.
  induction m as [|[k v] m IH]; [done|]. cbn [map concat length dec_pairs forallb fst snd].
  intros [[Hk Hv]%andb_true_iff Hm]%andb_true_iff.
  rewrite <- !app_assoc, dec_scalar_string, dec_scalar_self by done. by rewrite IH.
Qed.

Lemma dec_of ty v u w rest l :
  coerce ty v = Some w → coerce ty u = coerce ty v → dec_value ty l = Some (u, rest) →
  dec ty l = (Some w, rest).
Proof. intros Hc Hu Hl. unfold dec. by rewrite Hl, Hu, Hc. Qed.

Lemma enc_GMapBool m :
  enc (GMapBool m) = 223 :: be_encode 4 (go_len m) ++
    concat (map (λ p, enc_string p.1 ++ enc p.2) (map (λ p, (p.1, GBool p.2)) m)).
Proof. cbn. by rewrite map_map. Qed.

Lemma dec_enc_map (m : list (string * goval)) ty rest :
  short m = true → forallb (λ p, short_string p.1 && self_describing p.2) m = true →
  dec_map ty ((be_encode 4 (go_len m) ++ concat (map (λ p, enc_string p.1 ++ enc p.2) m)) ++ rest)
  = Some (match ty with TMapBool => GMapBool (map as_bool m) | _ => GMapAny m end, rest).
Proof.
  intros Hs Hm. unfold dec_map. rewrite <- !app_assoc, take_be, drop_be, be_length by done.
  by rewrite dec_pairs_enc.
Qed.

Lemma dec_GMapBool m rest :
  short m = true → forallb (λ p, short_string p.1) m = true →
  dec_map TMapBool ((be_encode 4 (go_len m) ++
    concat (map (λ p : string * bool, enc_string p.1 ++ [if p.2 then 195 else 194]) m)) ++ rest)
  = Some (GMapBool m, rest).
Proof.
  intros Hs Hm. set (m' := map (λ p : string * bool, (p.1, GBool p.2)) m).
  assert (go_len m' = go_len m) as El by (unfold go_len, m'; by rewrite length_map).
  pose proof (dec_enc_map m' TMapBool rest) as E. unfold short in E. rewrite El in E.
  unfold m' in E. rewrite !map_map in E. cbn [fst snd enc] in E. rewrite E; [|done|].
  - do 3 f_equal. rewrite (map_ext _ (λ p, p)), map_id; [done|]. by intros [].
  - revert Hm. clear. induction m as [|[k b] m IH]; simpl; [done|].
    intros [-> Hm]%andb_true_iff. by apply IH.
Qed.

Lemma dec_enc_list l rest :
  short l = true → forallb in_int32 l = true →
  dec_list ((be_encode 4 (go_len l) ++ concat (map (λ z, 210 :: be_encode 4 z) l)) ++ rest) = Some (GInt32s l, rest).
Proof.
  intros Hs Hl. unfold dec_list. rewrite <- !app_assoc, take_be, drop_be, be_length by done.
  change (λ z, 210 :: be_encode 4 z) with (λ z, enc (GInt32 z)). by rewrite dec_ints_enc.
Qed.

(** An [int] is read back as an [int64]. *)
Definition wire_value (v : goval) : goval := match v with GInt z => GInt64 z | _ => v end.

Lemma coerce_wire ty v : coerce ty (wire_value v) = coerce ty v.
Proof. by destruct ty, v. Qed.

Lemma dec_value_enc ty v w rest :
  coerce ty v = Some w → dec_value ty (enc v ++ rest) = Some (wire_value v, rest).
Proof.
  intros Hc.
  destruct ty, v as [ |[]|z|z|z|z|z|l|s|l|m|m]; try discriminate Hc; try reflexivity; cbn [coerce] in Hc.
  all: try (destruct (decide _) in Hc; [|discriminate Hc]).
  all: try (destruct (_ && _) eqn:E in Hc; [|discriminate Hc]).
  all: try (destruct (in_int32 _) eqn:E in Hc; [|discriminate Hc]).
  all: try (destruct (short_string _) eqn:E in Hc; [|discriminate Hc]).
  all: try (apply dec_scalar_self; exact E).
  all: try unfold in_int32 in E; apply andb_true_iff in E as [E1 E2].
  all: lazymatch goal with
    | |- dec_value _ (enc (GMapBool _) ++ _) = _ => by apply dec_GMapBool
    | |- dec_value _ (enc (GMapAny _) ++ _) = _ => by apply dec_enc_map
    | |- dec_value _ (enc (GInt32s _) ++ _) = _ => by apply dec_enc_list
    | |- dec_value _ (enc (GInt32 _) ++ _) = _ => apply dec_scalar_i32; unfold in_int32; apply andb_true_iff; split; lia
    | |- _ => apply dec_scalar_i64; apply andb_true_iff; split; lia
    end.
Qed.

Lemma dec_enc ty v w rest : coerce ty v = Some w → dec ty (enc v ++ rest) = (Some w, rest).
Proof.
  intros Hc. eapply dec_of; [exact Hc|apply coerce_wire|]. by eapply dec_value_enc.
Qed.

Lemma coerce_shape ty v w : coerce ty v = Some w → has_shape ty w = true.
Proof.
  destruct ty, v; cbn; try discriminate 1; try (by intros [= <-]);
    repeat case_match; try discriminate 1; by intros [= <-].
Qed.

Lemma dec_shape ty l v rest : dec ty l = (Some v, rest) → has_shape ty v = true.
Proof.
  unfold dec. destruct (dec_value ty l) as [[u r]|]; [|discriminate 1].
  destruct (coerce ty u) as [w|] eqn:E; [|discriminate 1]. intros [= <- <-]. by eapply coerce_shape.
Qed.

(** The bytes a value took at most. *)
Definition taken (v : goval) : nat := match v with GBytes b => S (length b) | _ => 0 end.

Lemma dec_scalar_shrinks l v rest :
  dec_scalar l = Some (v, rest) → (length rest + taken v ≤ length l)%nat.
Proof.
  unfold dec_scalar. repeat case_match; try discriminate 1; intros [= <- <-]; subst; cbn [taken length];
    rewrite ?length_drop, ?length_take, ?length_drop; lia.
Qed.

Lemma dec_pairs_shrinks n : ∀ l m rest, dec_pairs n l = Some (m, rest) → (length rest ≤ length l)%nat.
Proof.
  induction n as [|n IH]; intros l m rest; cbn [dec_pairs]; [by intros [= _ <-]|].
  destruct (dec_scalar l) as [[v1 l1]|] eqn:E1; [|discriminate 1]. destruct v1; try discriminate 1.
  destruct (dec_scalar l1) as [[v2 l2]|] eqn:E2; [|discriminate 1].
  destruct (dec_pairs n l2) as [[m' l3]|] eqn:E3; [|discriminate 1]. intros [= _ <-].
  apply dec_scalar_shrinks in E1, E2. apply IH in E3. lia.
Qed.

Lemma dec_ints_shrinks n : ∀ l zs rest, dec_ints n l = Some (zs, rest) → (length rest ≤ length l)%nat.
Proof.
  induction n as [|n IH]; intros l zs rest; cbn [dec_ints]; [by intros [= _ <-]|].
  destruct (dec_scalar l) as [[v1 l1]|] eqn:E1; [|discriminate 1]. destruct v1; try discriminate 1.
  destruct (dec_ints n l1) as [[m' l3]|] eqn:E3; [|discriminate 1]. intros [= _ <-].
  apply dec_scalar_shrinks in E1. apply IH in E3. lia.
Qed.

Lemma coerce_taken ty v w : coerce ty v = Some w → (taken w ≤ taken v)%nat.
Proof.
  destruct ty, v; cbn; try discriminate 1; try (by intros [= <-]; cbn; lia);
    repeat case_match; try discriminate 1; intros [= <-]; cbn; lia.
Qed.

Lemma dec_shrinks ty l :
  (length (dec ty l).2 + match (dec ty l).1 with Some (GBytes b) => S (length b) | _ => 0 end ≤ length l)%nat.
Proof.
  unfold dec. destruct (dec_value ty l) as [[u r]|] eqn:El; [|cbn; lia].
  assert (length r + taken u ≤ length l)%nat as Hr.
  { assert (dec_scalar l = Some (u, r) ∨ (∃ l', l = 221 :: l' ∧ dec_list l' = Some (u, r)) ∨
      ∃ l', l = 223 :: l' ∧ dec_map ty l' = Some (u, r)) as [H|[(l' & -> & H)|(l' & -> & H)]].
    { revert El. unfold dec_value. destruct l as [|tag l']; [discriminate 1|].
      destruct (Z.eqb_spec tag 223); [subst; eauto|]. destruct (Z.eqb_spec tag 221); [subst; eauto|by left]. }
    - by apply dec_scalar_shrinks.
    - unfold dec_list in H. destruct (dec_ints _ _) as [[zs l1]|] eqn:Ep; [|discriminate H].
      injection H as <- <-. apply dec_ints_shrinks in Ep. rewrite length_drop in Ep. cbn [length taken]. lia.
    - unfold dec_map in H. destruct (dec_pairs _ _) as [[m l1]|] eqn:Ep; [|discriminate H].
      injection H as <- <-. apply dec_pairs_shrinks in Ep. rewrite length_drop in Ep. cbn [length].
      destruct ty; cbn [taken]; lia. }
  destruct (coerce ty u) as [w|] eqn:E; cbn; [|lia].
  apply coerce_taken in E. unfold taken at 1 in E. lia.
Qed.

End RefMsgpack.

Definition ref_msgpack : Msgpack := {|
  enc := RefMsgpack.enc;
  dec := RefMsgpack.dec;
  dec_err := RefMsgpack.dec_err;
  enc_bytes := RefMsgpack.enc_bytes;
  dec_shape := RefMsgpack.dec_shape;
  dec_shrinks := RefMsgpack.dec_shrinks;
  dec_enc := RefMsgpack.dec_enc;
|}.
