(* ===== verification/World.v ===== *)
(** * The state of a process

    A gate or a service is one Go process whose components share package
    variables: the rpc table and the task pool of [msf_simple_rpc.go] and
    [msf_task_pool_new.go], the tcp server of [msf_tcp_server.go], the routes,
    the callbacks, the counter behind [GenGid] and the variables of the program
    itself.  [World] is that state, [M W] the effects of a Go function on it.

    Client connections and sessions are shared objects: the server's table, the
    read loops, the pending tasks and the handlers hold pointers to the same
    [TcpClient] and the same [Session], so both live in heaps. *)

From S2P Require Import Prelude Utils Wire Msgpack LoadBalancer CallbackMgr RemoteMgr.

Local Open Scope Z_scope.

(** ** Effects

    A call ends with a result or a panic, and in both cases with the state it
    leaves behind: a recovered panic keeps the writes made before it. *)
Definition M (W A : Type) : Type := W → result A * W.

#[export] Instance M_ret {W} : MRet (M W) := λ A a w, (Ok a, w).
#[export] Instance M_bind {W} : MBind (M W) := λ A B f m w,
  match m w with
  | (Ok a, w) => f a w
  | (Panic p, w) => (Panic p, w)
  | (OutOfFuel, w) => (OutOfFuel, w)
  end.

Definition gets {W A} (f : W → A) : M W A := λ w, (Ok (f w), w).
Definition modify {W} (f : W → W) : M W () := λ w, (Ok (), f w).
Definition lift_result {W A} (r : result A) : M W A := λ w, (r, w).
Definition throw {W A} (p : go_panic) : M W A := λ w, (Panic p, w).

(** [defer func() { recover() }()] around a call. *)
Definition recovered {W} (m : M W ()) : M W () := λ w,
  match m w with
  | (Panic _, w) => (Ok (), w)
  | r => r
  end.

(** The final state of a call, when it returned. *)
Definition final {W A} (r : result A * W) : result W :=
  match r with
  | (Ok _, w) => Ok w
  | (Panic p, _) => Panic p
  | (OutOfFuel, _) => OutOfFuel
  end.

Lemma M_bind_ok {W A B} (m : M W A) (f : A → M W B) w a w' :
  m w = (Ok a, w') → (m ≫= f) w = f a w'.
Proof. intros E. unfold mbind, M_bind. by rewrite E. Qed.

Lemma M_bind_panic {W A B} (m : M W A) (f : A → M W B) w p w' :
  m w = (Panic p, w') → (m ≫= f) w = (Panic p, w').
Proof. intros E. unfold mbind, M_bind. by rewrite E. Qed.

(** A call that keeps a property of the state. *)
Definition preserves {W A} (P : W → Prop) (m : M W A) : Prop := ∀ w, P w → P (m w).2.

Lemma preserves_ret {W A} (P : W → Prop) (a : A) : preserves P (mret a).
Proof. by intros w. Qed.
Lemma preserves_gets {W A} (P : W → Prop) (f : W → A) : preserves P (gets f).
Proof. by intros w. Qed.
Lemma preserves_throw {W A} (P : W → Prop) p : preserves P (throw p : M W A).
Proof. by intros w. Qed.
Lemma preserves_lift {W A} (P : W → Prop) r : preserves P (lift_result r : M W A).
Proof. by intros w. Qed.
Lemma preserves_bind {W A B} (P : W → Prop) (m : M W A) (f : A → M W B) :
  preserves P m → (∀ a, preserves P (f a)) → preserves P (m ≫= f).
Proof.
  intros Hm Hf w Hw. specialize (Hm w Hw). unfold mbind, M_bind.
  destruct (m w) as [[a|p|] w']; [by apply Hf|done|done].
Qed.

Create HintDb preserves.
#[export] Hint Resolve preserves_ret preserves_gets preserves_throw preserves_lift : preserves.

(** [keep] proves that a sequence of calls preserves a property, with the hints. *)
Ltac keep :=
  repeat first
    [ by auto with preserves
    | apply preserves_bind; [|intros ?]
    | progress case_match ].

(** A call that ends, by returning or by a panic. *)
Definition ends {W A} (m : M W A) : Prop := ∀ w, (m w).1 ≠ OutOfFuel.

Lemma ends_ret {W A} (a : A) : ends (mret a : M W A).
Proof. done. Qed.
Lemma ends_throw {W A} p : ends (throw p : M W A).
Proof. done. Qed.
Lemma ends_gets {W A} (f : W → A) : ends (gets f).
Proof. done. Qed.
Lemma ends_modify {W} (f : W → W) : ends (modify f).
Proof. done. Qed.
Lemma ends_bind {W A B} (m : M W A) (f : A → M W B) : ends m → (∀ a, ends (f a)) → ends (m ≫= f).
Proof.
  intros Hm Hf w. specialize (Hm w). unfold mbind, M_bind.
  destruct (m w) as [[a|p|] w']; [apply Hf|done|done].
Qed.
Lemma ends_recovered {W} (m : M W ()) : ends m → ends (recovered m).
Proof. intros Hm w. specialize (Hm w). unfold recovered. by destruct (m w) as [[]]. Qed.

Create HintDb ends.
#[export] Hint Resolve ends_ret ends_throw ends_gets ends_modify ends_bind ends_recovered : ends.

(** [mrun] runs the effects at the head of the goal. *)
Ltac mrun := repeat (progress (unfold mbind, M_bind, mret, M_ret, gets, modify, lift_result, throw; cbn)).

(** ** Data *)

Definition SessionTcpClient : Z := 0.
Definition SessionRemote : Z := 1.

Record Session := mkSession { typ : Z; conn : Conn; err : string }.

Definition TcpClientState_Init : Z := 0.
Definition TcpClientState_OK : Z := 1.
Definition TcpClientState_EXIT : Z := 2.

Record TcpClient := mkTcpClient {
  c_conn : Conn;
  c_recvBuf : bytes;
  c_remainLen : Z;
  c_lastActiveTime : Z;
  state : Z;
}.

Record TcpServer := mkTcpServer {
  clients : gmap CONN_ID positive;
  stop : bool;
  lb : LoadBalancer;
  listenAddr : string;  (** [listener.Addr().String()] *)
}.

Definition SERVER_IDENTITY_SERVICE : Z := 0.
Definition SERVER_IDENTITY_SERVICE_GATE : Z := 1.
Definition SERVER_IDENTITY_CLIENT_GATE : Z := 2.

Record DbConfig := mkDbConfig { db_Name : string; db_Type : string; db_Addr : list string }.

Record GlobalConfig := mkGlobalCfg {
  Namespace : string;
  Service : string;
  cfg_Port : Z;
  cfg_LogLevel : string;
  cfg_Etcd : list string;
  cfg_DbCfg : list DbConfig;
}.

(** A configuration of which only the names matter. *)
Definition mkGlobalConfig (namespace service : string) : GlobalConfig :=
  mkGlobalCfg namespace service 0 EmptyString [] [].

(** The gate's record of a routed request. *)
Record C2GRouteCbInfo := mkCbInfo {
  rid : Z;
  connID : CONN_ID;
  nameSpace : string;
  service : string;
  rpcName : string;
  createTime : Z;
}.

(** What [AddCallBack] is given as its only callback value: a route of the gate,
    the channel of a blocked [RpcCall] or a client's callback function. *)
Inductive cbval :=
  | CbRoute (info : C2GRouteCbInfo)
  | CbChan (ch : positive)
  | CbFunc (cb : positive).

(** The timeout closures: they send the timeout error on a channel or call the
    client's callback with it. *)
Inductive timeoutval :=
  | TimeoutChan (ch : positive) (err : string)
  | TimeoutFunc (cb : positive) (err : string).

(** How a callback ends: a reply or the timeout error sent on the channel of an
    [RpcCall], or a client's callback function called. *)
Inductive delivered :=
  | ChanReply (ch : positive) (error : string) (reply : goval)
  | ChanTimeout (ch : positive) (error : string)
  | FuncCalled (cb : positive) (error : string) (reply : goval).

(** The handler types of the framework ([msf_default_rpc_handler.go]), and those
    of the program, [B]. *)
Inductive RpcHandler (B : Type) :=
  | RpcG2SRpcCallHandler
  | RpcG2CRpcRspHandler
  | RpcHeartBeatReqHandler
  | RpcHeartBeatRspHandler
  | Busi (b : B).
Arguments RpcG2SRpcCallHandler {B}.
Arguments RpcG2CRpcRspHandler {B}.
Arguments RpcHeartBeatReqHandler {B}.
Arguments RpcHeartBeatRspHandler {B}.
Arguments Busi {B} b.

Record SimpleRpcMgr (B : Type) := mkSimpleRpcMgr {
  rpcs : gmap string (RpcHandler B);
  clientAccess : gmap string bool;
  stopRegist : bool;
}.
Arguments mkSimpleRpcMgr {B} _ _ _.
Arguments rpcs {B} _.
Arguments clientAccess {B} _.
Arguments stopRegist {B} _.

(** The closure [RpcDecode] hands to the pool: the session, the name it decoded
    and what its decoder has left to read. *)
Record Task := mkTask { t_session : positive; t_name : string; t_rest : bytes }.

Record TaskPool := mkTaskPool { taskCh : list Task; pool_size : Z; separateCh : list Task }.

Section World.
  Context {B A : Type}.

Record World := mkWorld {
  w_cfg : GlobalConfig;
  w_identity : Z;
  w_clock : Z;                            (** milliseconds *)
  w_gid : Z;
  w_rpc : SimpleRpcMgr B;
  w_tcp : TcpServer;
  w_clients : gmap positive TcpClient;
  w_remote : RemoteMgr (L := LoadBalancer);
  w_cb : CbState cbval timeoutval;
  w_pool : TaskPool;
  w_sessions : gmap positive Session;
  w_net : list (Conn * bytes);            (** what was written, in order *)
  w_broken : gset positive;               (** connections on which [Write] fails *)
  w_chans : list delivered;               (** what callbacks received, in order *)
  w_nextch : positive;                    (** the next channel to be made *)
  w_fvc : Z;                              (** sends to the flow counter *)
  w_app : A;
}.

Definition set_gid (v : Z) (w : World) : World :=
  mkWorld (w_cfg w) (w_identity w) (w_clock w) v (w_rpc w) (w_tcp w) (w_clients w) (w_remote w)
    (w_cb w) (w_pool w) (w_sessions w) (w_net w) (w_broken w) (w_chans w) (w_nextch w) (w_fvc w) (w_app w).
Definition set_rpc (v : SimpleRpcMgr B) (w : World) : World :=
  mkWorld (w_cfg w) (w_identity w) (w_clock w) (w_gid w) v (w_tcp w) (w_clients w) (w_remote w)
    (w_cb w) (w_pool w) (w_sessions w) (w_net w) (w_broken w) (w_chans w) (w_nextch w) (w_fvc w) (w_app w).
Definition set_tcp (v : TcpServer) (w : World) : World :=
  mkWorld (w_cfg w) (w_identity w) (w_clock w) (w_gid w) (w_rpc w) v (w_clients w) (w_remote w)
    (w_cb w) (w_pool w) (w_sessions w) (w_net w) (w_broken w) (w_chans w) (w_nextch w) (w_fvc w) (w_app w).
Definition set_clients (v : gmap positive TcpClient) (w : World) : World :=
  mkWorld (w_cfg w) (w_identity w) (w_clock w) (w_gid w) (w_rpc w) (w_tcp w) v (w_remote w)
    (w_cb w) (w_pool w) (w_sessions w) (w_net w) (w_broken w) (w_chans w) (w_nextch w) (w_fvc w) (w_app w).
Definition set_remote (v : RemoteMgr) (w : World) : World :=
  mkWorld (w_cfg w) (w_identity w) (w_clock w) (w_gid w) (w_rpc w) (w_tcp w) (w_clients w) v
    (w_cb w) (w_pool w) (w_sessions w) (w_net w) (w_broken w) (w_chans w) (w_nextch w) (w_fvc w) (w_app w).
Definition set_cb (v : CbState cbval timeoutval) (w : World) : World :=
  mkWorld (w_cfg w) (w_identity w) (w_clock w) (w_gid w) (w_rpc w) (w_tcp w) (w_clients w) (w_remote w)
    v (w_pool w) (w_sessions w) (w_net w) (w_broken w) (w_chans w) (w_nextch w) (w_fvc w) (w_app w).
Definition set_pool (v : TaskPool) (w : World) : World :=
  mkWorld (w_cfg w) (w_identity w) (w_clock w) (w_gid w) (w_rpc w) (w_tcp w) (w_clients w) (w_remote w)
    (w_cb w) v (w_sessions w) (w_net w) (w_broken w) (w_chans w) (w_nextch w) (w_fvc w) (w_app w).
Definition set_sessions (v : gmap positive Session) (w : World) : World :=
  mkWorld (w_cfg w) (w_identity w) (w_clock w) (w_gid w) (w_rpc w) (w_tcp w) (w_clients w) (w_remote w)
    (w_cb w) (w_pool w) v (w_net w) (w_broken w) (w_chans w) (w_nextch w) (w_fvc w) (w_app w).
Definition set_net (v : list (Conn * bytes)) (w : World) : World :=
  mkWorld (w_cfg w) (w_identity w) (w_clock w) (w_gid w) (w_rpc w) (w_tcp w) (w_clients w) (w_remote w)
    (w_cb w) (w_pool w) (w_sessions w) v (w_broken w) (w_chans w) (w_nextch w) (w_fvc w) (w_app w).
Definition set_broken (v : gset positive) (w : World) : World :=
  mkWorld (w_cfg w) (w_identity w) (w_clock w) (w_gid w) (w_rpc w) (w_tcp w) (w_clients w) (w_remote w)
    (w_cb w) (w_pool w) (w_sessions w) (w_net w) v (w_chans w) (w_nextch w) (w_fvc w) (w_app w).
Definition set_chans (v : list delivered) (w : World) : World :=
  mkWorld (w_cfg w) (w_identity w) (w_clock w) (w_gid w) (w_rpc w) (w_tcp w) (w_clients w) (w_remote w)
    (w_cb w) (w_pool w) (w_sessions w) (w_net w) (w_broken w) v (w_nextch w) (w_fvc w) (w_app w).
Definition set_nextch (v : positive) (w : World) : World :=
  mkWorld (w_cfg w) (w_identity w) (w_clock w) (w_gid w) (w_rpc w) (w_tcp w) (w_clients w) (w_remote w)
    (w_cb w) (w_pool w) (w_sessions w) (w_net w) (w_broken w) (w_chans w) v (w_fvc w) (w_app w).
Definition set_fvc (v : Z) (w : World) : World :=
  mkWorld (w_cfg w) (w_identity w) (w_clock w) (w_gid w) (w_rpc w) (w_tcp w) (w_clients w) (w_remote w)
    (w_cb w) (w_pool w) (w_sessions w) (w_net w) (w_broken w) (w_chans w) (w_nextch w) v (w_app w).
Definition set_app (v : A) (w : World) : World :=
  mkWorld (w_cfg w) (w_identity w) (w_clock w) (w_gid w) (w_rpc w) (w_tcp w) (w_clients w) (w_remote w)
    (w_cb w) (w_pool w) (w_sessions w) (w_net w) (w_broken w) (w_chans w) (w_nextch w) (w_fvc w) v.

(** The variables of a process before it serves: after [CreateSimpleRpcMgr] and
    the registrations ([rpc]), [CreateRemoteMgr] and [CreateTcpServer]. *)
Definition init_world (cfg : GlobalConfig) (identity : Z) (listen : string) (rpc : SimpleRpcMgr B) (app : A)
    : World :=
  mkWorld cfg identity 0 0 rpc (mkTcpServer ∅ false bal_new listen) ∅ CreateRemoteMgr init_CbState
    (mkTaskPool [] 0 []) ∅ [] ∅ [] 1 0 app.

(** ** Access to the shared state *)

Definition GetNowTimestampMs (w : World) : Z := w_clock w.
Definition GetNowTimestamp (w : World) : Z := w_clock w / 1000.

(** [GenGid] of [msf_utils.go] on the process's counter. *)
Definition NewGid : M World Z := λ w,
  let '(ret, globalGID) := GenGid (w_gid w) in (Ok ret, set_gid globalGID w).

(** [AddCallBack] and [GetCallBack] as their callers see them: the manager takes
    the node while the caller waits. *)
Definition AddCb (cbid : Z) (cbs : cbval) (waitTime : Z) (timeOutCb : option timeoutval) : M World () := λ w,
  match AddCallBack (GetNowTimestamp w) cbid cbs waitTime timeOutCb (w_cb w) with
  | Ok cb => (Ok (), set_cb cb w)
  | Panic p => (Panic p, w)
  | OutOfFuel => (OutOfFuel, w)
  end.

Definition GetCb (cbid : Z) : M World (option cbval) := λ w,
  match GetCallBack cbid (w_cb w) with
  | Ok (cbs, cb) => (Ok cbs, set_cb cb w)
  | Panic p => (Panic p, w)
  | OutOfFuel => (OutOfFuel, w)
  end.

(** [MessageSend(conn, msg)]; [None] is a nil connection. *)
Definition MessageSend (conn : option Conn) (msg : bytes) : M World bool := λ w,
  match conn with
  | None => (Ok false, w)
  | Some c =>
      if bool_decide (msg = []) then (Ok true, w)
      else if bool_decide (conn_fd c ∈ w_broken w) then (Ok false, w)
      else (Ok true, set_net (w_net w ++ [(c, msg)]) w)
  end.

Definition GetTcpClient (connID : CONN_ID) (w : World) : option positive := clients (w_tcp w) !! connID.

(** Fields through a [*TcpClient]; [None] is nil. *)
Definition deref_client (p : option positive) : M World TcpClient := λ w,
  match p ≫= (w_clients w !!.) with
  | Some c => (Ok c, w)
  | None => (Panic NilDereference, w)
  end.

Definition with_state (st : Z) (c : TcpClient) : TcpClient :=
  mkTcpClient (c_conn c) (c_recvBuf c) (c_remainLen c) (c_lastActiveTime c) st.

Definition SetState (p : positive) (st : Z) : M World () :=
  modify (λ w, set_clients (alter (with_state st) p (w_clients w)) w).

(** [&Session{typ: typ, conn: conn}]. *)
Definition CreateSession (typ : Z) (conn : Conn) : M World positive := λ w,
  let p := fresh (dom (w_sessions w)) in
  (Ok p, set_sessions (<[p := mkSession typ conn EmptyString]> (w_sessions w)) w).

Definition deref_session (p : positive) : M World Session := λ w,
  match w_sessions w !! p with
  | Some s => (Ok s, w)
  | None => (Panic NilDereference, w)
  end.

Definition SetResponseErr (p : positive) (e : string) : M World () :=
  modify (λ w, set_sessions (alter (λ s, mkSession (typ s) (conn s) e) p (w_sessions w)) w).

Definition GetResponseErr (p : positive) : M World string :=
  s ← deref_session p; mret (err s).

Definition RpcFvcCount : M World () := modify (λ w, set_fvc (w_fvc w + 1) w).

(** A send on a channel or a call of a callback. *)
Definition deliver_cb (d : delivered) : M World () := modify (λ w, set_chans (w_chans w ++ [d]) w).

(** The once-a-second case of the callback manager: it runs the closures of the
    callbacks that timed out. *)
Definition timeout_call (t : timeoutval) : delivered :=
  match t with
  | TimeoutChan ch e => ChanTimeout ch e
  | TimeoutFunc cb e => FuncCalled cb e GNil
  end.

Definition CallbackTick : M World () := λ w,
  match recv_Tick (GetNowTimestamp w) (w_cb w) with
  | Ok (cb, fired) =>
      (Ok (), set_chans (w_chans w ++ (timeout_call <$> omap snd fired)) (set_cb cb w))
  | Panic p => (Panic p, w)
  | OutOfFuel => (OutOfFuel, w)
  end.

(** [make(chan []interface{})]. *)
Definition make_chan : M World positive := λ w,
  (Ok (w_nextch w), set_nextch (Pos.succ (w_nextch w)) w).

Definition ChoiceRemoteW (remoteID : REMOTE_ID) (isOrdered : bool) (clientID : CONN_ID)
    : M World (option Remote) := λ w,
  match ChoiceRemote remoteID isOrdered clientID (w_remote w) with
  | Ok (r, rm) => (Ok r, set_remote rm w)
  | Panic p => (Panic p, w)
  | OutOfFuel => (OutOfFuel, w)
  end.

Definition ProduceTask (t : Task) : M World () :=
  modify (λ w, set_pool (mkTaskPool (taskCh (w_pool w) ++ [t]) (i32 (pool_size (w_pool w) + 1))
                           (separateCh (w_pool w))) w).

Definition ProduceTaskSeparate (t : Task) : M World () :=
  modify (λ w, set_pool (mkTaskPool (taskCh (w_pool w)) (i32 (pool_size (w_pool w) + 1))
                           (separateCh (w_pool w) ++ [t])) w).

Lemma MessageSend_ok c msg w :
  msg ≠ [] → conn_fd c ∉ w_broken w →
  MessageSend (Some c) msg w = (Ok true, set_net (w_net w ++ [(c, msg)]) w).
Proof.
  intros Hm Hb. unfold MessageSend. by rewrite !bool_decide_eq_false_2.
Qed.

Lemma deref_session_ok p s w : w_sessions w !! p = Some s → deref_session p w = (Ok s, w).
Proof. intros E. unfold deref_session. by rewrite E. Qed.

(** The callback manager's state is one it can reach. *)
Definition cb_ok (w : World) : Prop := ∃ ps, cb_inv (w_cb w) ps.

Lemma AddCb_ok cbid cbs waitTime timeOutCb w :
  cb_ok w → ∃ cb p, AddCb cbid cbs waitTime timeOutCb w = (Ok (), set_cb cb w) ∧ cb_ok (set_cb cb w) ∧
    gCbMap cb = <[cbid := (cbs, p)]> (gCbMap (w_cb w)).
Proof.
  intros [ps Hinv]. unfold AddCb.
  destruct (AddCallBack_spec (GetNowTimestamp w) cbid cbs waitTime timeOutCb _ _ Hinv)
    as (cb & p & -> & Hinv' & _ & _ & Hm & _).
  exists cb, p. split; [done|]. split; [by eexists|done].
Qed.

Lemma GetCb_ok cbid w :
  cb_ok w → ∃ cb, GetCb cbid w = (Ok (fst <$> gCbMap (w_cb w) !! cbid), set_cb cb w) ∧
    cb_ok (set_cb cb w) ∧ gCbMap cb = delete cbid (gCbMap (w_cb w)).
Proof.
  intros [ps Hinv]. unfold GetCb.
  destruct (GetCallBack_spec cbid _ _ Hinv) as (cb & ps' & -> & Hinv' & Hm).
  exists cb. split; [done|]. split; [by exists ps'|done].
Qed.

(** The server's balancer holds exactly the connected clients. *)
Record tcp_ok (w : World) : Prop := {
  tcp_lb_wf : bal_wf (lb (w_tcp w));
  tcp_members : bal_members (lb (w_tcp w)) = dom (clients (w_tcp w));
  tcp_live : ∀ id p, clients (w_tcp w) !! id = Some p →
    ∃ c, w_clients w !! p = Some c ∧ GetConnID (c_conn c) = id;
  tcp_noname : clients (w_tcp w) !! EmptyString = None;
}.

Lemma init_world_ok cfg identity listen rpc app :
  tcp_ok (init_world cfg identity listen rpc app) ∧ cb_ok (init_world cfg identity listen rpc app).
Proof.
  split; [|exists []; apply init_inv]. destruct (bal_new_spec (L := LoadBalancer)) as [Hwf Hm].
  split; [done| |by intros ? ? ?|done].
  cbn [w_tcp init_world lb clients]. by rewrite Hm, dom_empty_L.
Qed.

Lemma tcp_ok_ext w w' :
  tcp_ok w → w_tcp w' = w_tcp w → w_clients w' = w_clients w → tcp_ok w'.
Proof. intros [? ? ? ?] E1 E2. split; by rewrite ?E1, ?E2. Qed.

Lemma ends_MessageSend c msg : ends (MessageSend c msg).
Proof. intros w. unfold MessageSend. destruct c; [|done]. by repeat case_bool_decide. Qed.
Lemma ends_deref_session p : ends (deref_session p).
Proof. intros w. unfold deref_session. by destruct (w_sessions w !! p). Qed.
Lemma ends_deref_client p : ends (deref_client p).
Proof. intros w. unfold deref_client. by destruct (p ≫= _). Qed.
Lemma ends_GetCb cbid : ends (GetCb cbid).
Proof.
  intros w. unfold GetCb, GetCallBack. destruct (GetCallBack_map cbid (w_cb w)) as [[cbs|] cb]; [|done].
  unfold recv_QueueDel. destruct (chQueueDel cb !! _); [|done]. unfold queueDel, load.
  by destruct (heap cb !! _).
Qed.
Lemma ends_encode (p : bytes) : ends (lift_result (MessageEncode p) : M World bytes).
Proof.
  intros w. cbn. unfold MessageEncode. destruct (_ <? _); [done|].
  unfold WritePacketLen, WriteUint16, go_store, go_slice.
  repeat (case_match || (progress cbn)); try done.
Qed.

End World.
#[export] Hint Resolve ends_MessageSend ends_deref_session ends_deref_client ends_GetCb ends_encode : ends.
Arguments World : clear implicits.
Arguments MessageSend : simpl never.
Arguments deref_session : simpl never.
Arguments deref_client : simpl never.
Arguments AddCb : simpl never.
Arguments GetCb : simpl never.
Arguments ChoiceRemoteW : simpl never.
Arguments NewGid : simpl never.
Arguments MessageEncode : simpl never.
Arguments RpcEncode : simpl never.
