(* ===== verification/SimpleRpc.v ===== *)
(** * Dispatching and calling rpcs

    The rpc table, [RpcDecode] and [RpcCall] of
    [src/ms_framework/msf_simple_rpc.go], the default handlers of
    [src/ms_framework/msf_default_rpc_handler.go] and the task pool of
    [src/ms_framework/msf_task_pool_new.go].

    The handlers of a program are described by [Business]: the fields of their
    requests and responses, whether clients may call them, and [Process]. *)

From S2P Require Import Prelude Utils Wire Msgpack LoadBalancer CallbackMgr RemoteMgr World.

Local Open Scope Z_scope.

Definition MSG_C2G_RPC_ROUTE : string := "a".
Definition MSG_G2S_RPC_CALL : string := "b".
Definition MSG_S2G_RPC_RSP : string := "c".
Definition MSG_G2C_RPC_RSP : string := "d".
Definition MSG_G2S_RPC_CALL_ORDERED : string := "t".
Definition MSG_HEART_BEAT_REQ : string := "e".
Definition MSG_HEART_BEAT_RSP : string := "f".
Definition MSG_C2G_VERTIFY : string := "g".
Definition MSG_GATE_LOGIN : string := "h".
Definition MSG_GATE_LOGOFF : string := "i".
Definition MSG_P2G_REQ_LISTENADDR : string := "j".
Definition MSG_G2P_RSP_LISTENADDR : string := "k".
Definition MSG_S2P_PUSH : string := "l".
Definition MSG_P2G_PUSH : string := "m".
Definition MSG_G2C_PUSH : string := "n".
Definition MSG_PUSH_REPLY : string := "o".
Definition MSG_PUSH_RESTORE : string := "p".
Definition MSG_S2G_RPC_ACCESS_REPORT : string := "r".

(** The requests and responses of the handlers of a program, and whether clients
    may call them.  [busi_rsp] gives the names and the zero values of the fields. *)
Class HandlerSig (B : Type) := {
  busi_req : B → option (list (string * gotype));
  busi_rsp : B → option (list (string * goval));
  busi_access : B → bool;
}.

(** [handler.Process(session)] for the handlers of a table, on the decoded fields:
    it works on the fields of the response next to the state of the process. *)
Abbreviation Dispatcher B A := (RpcHandler B → positive → list goval → M (list goval * World B A) ()).

(** The handlers of a program.  A handler may itself look up another one and run
    it: it is given the [Dispatcher] to do so. *)
Class Business (B A : Type) `{HandlerSig B} := {
  busi_process : Dispatcher B A → B → positive → list goval → M (list goval * World B A) ();
  busi_accept : option positive → M (World B A) ();
}.

(** An effect on the process beside the response. *)
Definition liftW {R W A} (m : M W A) : M (R * W) A := λ '(r, w),
  let '(x, w) := m w in (x, (r, w)).

(** [%v] of the type of a pointer to a field. *)
Definition ptr_type_name (ty : gotype) : string :=
  match ty with
  | TBool => "*bool"
  | TUint32 => "*uint32"
  | TInt32 => "*int32"
  | TFloat32 => "*float32"
  | TInt32s => "*[]int32"
  | TString => "*string"
  | TBytes => "*[]uint8"
  | TMapBool => "*map[string]bool"
  | TMapAny => "*map[string]interface {}"
  end.

Record RpcG2SRpcCallReq := mkRpcG2SRpcCallReq { GRid : Z; InnerRpc : bytes }.
Record RpcG2CRpcRspReq := mkRpcG2CRpcRspReq { Rid : Z; Error : string; Reply : goval }.

(** The fields of the request of [RpcG2SRpcCallHandler]. *)
Definition call_fields : list (string * gotype) := [("GRid", TUint32); ("InnerRpc", TBytes)].

Section SimpleRpc.
  Context {MP : Msgpack} {B A : Type} {HS : HandlerSig B} {BU : Business B A}.

Implicit Types w : World B A.

(** ** The rpc table *)

Definition GetReqPtr (h : RpcHandler B) : option (list (string * gotype)) :=
  match h with
  | RpcG2SRpcCallHandler => Some call_fields
  | RpcG2CRpcRspHandler => Some [("Rid", TUint32); ("Error", TString); ("Reply", TMapAny)]
  | RpcHeartBeatReqHandler | RpcHeartBeatRspHandler => None
  | Busi b => busi_req b
  end.

Definition GetRspPtr (h : RpcHandler B) : option (list (string * goval)) :=
  match h with
  | Busi b => busi_rsp b
  | _ => None
  end.

(** [access, ok := handler.(RpcClientPermission)], then [ok && access.ClientAccess()]. *)
Definition ClientAccess (h : RpcHandler B) : bool :=
  match h with
  | Busi b => busi_access b
  | _ => false
  end.

Definition GenClientAccess (name : string) (gen : RpcHandler B) (rmgr : SimpleRpcMgr B) : SimpleRpcMgr B :=
  mkSimpleRpcMgr (rpcs rmgr) (<[name := ClientAccess gen]> (clientAccess rmgr)) (stopRegist rmgr).

Definition RegistRpcHandlerForce (name : string) (gen : RpcHandler B) (rmgr : SimpleRpcMgr B)
    : result (SimpleRpcMgr B) :=
  if stopRegist rmgr then Panic (PanicMsg "can not retist rpc handler now")
  else Ok (GenClientAccess name gen
             (mkSimpleRpcMgr (<[name := gen]> (rpcs rmgr)) (clientAccess rmgr) (stopRegist rmgr))).

Definition RegistRpcHandler (name : string) (gen : RpcHandler B) (rmgr : SimpleRpcMgr B)
    : result (SimpleRpcMgr B) :=
  if stopRegist rmgr then Panic (PanicMsg "can not retist rpc handler now")
  else match rpcs rmgr !! name with
       | Some _ => Panic (PanicMsg ("RegistRpcHandler " +:+ name +:+ " repeat !!!"))
       | None =>
           Ok (GenClientAccess name gen
                 (mkSimpleRpcMgr (<[name := gen]> (rpcs rmgr)) (clientAccess rmgr) (stopRegist rmgr)))
       end.

(** A program registers its handlers one after the other. *)
Definition regist_all (l : list (string * RpcHandler B)) (rmgr : SimpleRpcMgr B) : result (SimpleRpcMgr B) :=
  foldM (λ rmgr '(name, gen), RegistRpcHandler name gen rmgr) l rmgr.

Definition default_handlers : list (string * RpcHandler B) :=
  [(MSG_G2S_RPC_CALL, RpcG2SRpcCallHandler); (MSG_G2S_RPC_CALL_ORDERED, RpcG2SRpcCallHandler);
   (MSG_G2C_RPC_RSP, RpcG2CRpcRspHandler); (MSG_HEART_BEAT_REQ, RpcHeartBeatReqHandler);
   (MSG_HEART_BEAT_RSP, RpcHeartBeatRspHandler)].

Definition CreateSimpleRpcMgr : result (SimpleRpcMgr B) :=
  regist_all default_handlers (mkSimpleRpcMgr ∅ ∅ false).

Definition StopRcpHandlerRegist (rmgr : SimpleRpcMgr B) : SimpleRpcMgr B :=
  mkSimpleRpcMgr (rpcs rmgr) (clientAccess rmgr) true.

Definition GetRpcHanderGenerator (rpcName : string) w : option (RpcHandler B) := rpcs (w_rpc w) !! rpcName.

(** The fields of the request of [h], or the first that does not decode. *)
Definition decode_req (h : RpcHandler B) (rest : bytes) : (string * gotype * string) + list goval :=
  match GetReqPtr h with
  | None => inr []
  | Some fields => decode_fields fields rest []
  end.

(** The response fields of [handlerGen()]. *)
Definition zero_rsp (h : RpcHandler B) : list goval :=
  match GetRspPtr h with Some fields => fields.*2 | None => [] end.

(** ** The default handlers *)

(** The encoding and sending of a message, as every handler does it. *)
Definition send_rpc (c : option Conn) (name : string) (args : list goval) : M (World B A) bool :=
  msg ← lift_result (MessageEncode (RpcEncode name args)); MessageSend c msg.

(** The message does not exceed the packet limit. *)
Definition fits (name : string) (args : list goval) : Prop := go_len (RpcEncode name args) ≤ MAX_PACKET_SIZE.

Lemma send_rpc_ok c name args (w : World B A) :
  fits name args → conn_fd c ∉ w_broken w →
  send_rpc (Some c) name args w = (Ok true, set_net (w_net w ++ [(c, frame (RpcEncode name args))]) w).
Proof.
  intros Hf Hb. unfold send_rpc.
  rewrite (M_bind_ok _ _ _ (frame (RpcEncode name args)) w) by (unfold lift_result; by rewrite MessageEncode_spec).
  by apply MessageSend_ok.
Qed.

Definition RpcHeartBeatReq_Process (session : positive) : M (World B A) () :=
  msg ← lift_result (MessageEncode (RpcEncode MSG_HEART_BEAT_RSP []));
  s ← deref_session session;
  _ ← MessageSend (Some (conn s)) msg;
  mret ().

Definition RpcG2CRpcRsp_Process (req : RpcG2CRpcRspReq) (session : positive) : M (World B A) () :=
  cbs ← GetCb (Rid req);
  match cbs with
  | None => mret ()
  | Some (CbChan ch) => deliver_cb (ChanReply ch (Error req) (Reply req))
  | Some _ => throw TypeAssertion
  end.

Section G2SRpcCall.
  (** [Process] of the handlers an inner rpc can name. *)
  Context (proc : Dispatcher B A).

(** The response fields after the handler ran; a panic in it is recovered. *)
Definition doProcessWithPanicProtect (h : RpcHandler B) (session : positive) (args : list goval)
    : M (World B A) (list goval) := λ w,
  match recovered (proc h session args) (zero_rsp h, w) with
  | (Ok _, (rsp, w)) => (Ok rsp, w)
  | (Panic p, (_, w)) => (Panic p, w)
  | (OutOfFuel, (_, w)) => (OutOfFuel, w)
  end.

Definition rpcHandle (req : RpcG2SRpcCallReq) (session : positive) : M (World B A) (string * goval) :=
  let '(rpcName, rest) := decode_name (InnerRpc req) in
  handlerGen ← gets (GetRpcHanderGenerator rpcName);
  match handlerGen with
  | None => mret ("rpc " +:+ rpcName +:+ " not exist", GNil)
  | Some handler =>
      match decode_req handler rest with
      | inl (fname, ty, e) =>
          mret ("rpc " +:+ rpcName +:+ " arg " +:+ fname +:+ "(" +:+ ptr_type_name ty +:+
                ") decode error: " +:+ e, GNil)
      | inr args =>
          rsp ← doProcessWithPanicProtect handler session args;
          if GRid req =? 0 then mret (EmptyString, GNil)
          else
            match GetRspPtr handler with
            | None => mret ("rpc " +:+ rpcName +:+ " need response but get nil", GNil)
            | Some fields =>
                e ← GetResponseErr session;
                mret (e, GMapAny (zip fields.*1 rsp))
            end
      end
  end.

Definition RpcG2SRpcCall_Process (req : RpcG2SRpcCallReq) (session : positive) : M (World B A) () :=
  _ ← RpcFvcCount;
  '(error, reply) ← rpcHandle req session;
  if GRid req =? 0 then mret ()
  else
    msg ← lift_result (MessageEncode (RpcEncode MSG_S2G_RPC_RSP [GUint32 (GRid req); GStr error; reply]));
    s ← deref_session session;
    _ ← MessageSend (Some (conn s)) msg;
    mret ().

End G2SRpcCall.

(** [handler.Process(session)] with the decoded fields.  An inner rpc can name
    the rpc-call handler again: [fuel] bounds the nesting. *)
Fixpoint Process (fuel : nat) (h : RpcHandler B) (session : positive) (args : list goval)
    : M (list goval * World B A) () :=
  match h, args with
  | Busi b, _ =>
      busi_process (λ h session args,
        match fuel with
        | O => lift_result OutOfFuel
        | S fuel => Process fuel h session args
        end) b session args
  | RpcHeartBeatReqHandler, _ => liftW (RpcHeartBeatReq_Process session)
  | RpcHeartBeatRspHandler, _ => mret ()
  | RpcG2CRpcRspHandler, [GUint32 rid; GStr error; reply] =>
      liftW (RpcG2CRpcRsp_Process (mkRpcG2CRpcRspReq rid error reply) session)
  | RpcG2SRpcCallHandler, [GUint32 grid; GBytes inner] =>
      match fuel with
      | O => lift_result OutOfFuel
      | S fuel => liftW (RpcG2SRpcCall_Process (Process fuel) (mkRpcG2SRpcCallReq grid inner) session)
      end
  | _, _ => throw TypeAssertion
  end.

(** ** Decoding and dispatching *)

(** A fresh handler processes a request; nobody looks at its response. *)
Definition run_handler (fuel : nat) (h : RpcHandler B) (session : positive) (args : list goval)
    : M (World B A) () := λ w,
  let '(r, (_, w)) := Process fuel h session args (zero_rsp h, w) in (r, w).

(** The closure [task] of [RpcDecode]. *)
Definition run_task (t : Task) : M (World B A) () :=
  handlerGen ← gets (GetRpcHanderGenerator (t_name t));
  match handlerGen with
  | None => mret ()
  | Some handler =>
      match decode_req handler (t_rest t) with
      | inl _ => mret ()
      | inr args => run_handler (S (length (t_rest t))) handler (t_session t) args
      end
  end.

Definition PreCheck (session : positive) (rpcName : string) : M (World B A) bool :=
  if bool_decide (rpcName = MSG_C2G_VERTIFY) then mret true
  else
    s ← deref_session session;
    if negb (typ s =? SessionTcpClient) then mret true
    else
      tcpClient ← gets (GetTcpClient (GetConnID (conn s)));
      c ← deref_client tcpClient;
      if negb (state c =? TcpClientState_OK) then
        match tcpClient with
        | Some p => _ ← SetState p TcpClientState_EXIT; mret false
        | None => throw NilDereference
        end
      else mret true.

Definition IsSync (rpcName : string) : bool :=
  bool_decide (rpcName = MSG_C2G_VERTIFY ∨ rpcName = MSG_GATE_LOGIN ∨ rpcName = MSG_G2S_RPC_CALL_ORDERED).

Definition RpcDecode (session : positive) (buf : bytes) : M (World B A) () :=
  let '(rpcName, rest) := decode_name buf in
  let task := mkTask session rpcName rest in
  ok ← PreCheck session rpcName;
  if negb ok then mret ()
  else if bool_decide (rpcName = MSG_C2G_VERTIFY ∨ rpcName = MSG_GATE_LOGIN) then run_task task
  else if bool_decide (rpcName = MSG_G2S_RPC_CALL_ORDERED) then ProduceTaskSeparate task
  else ProduceTask task.

(** ** The pool's goroutines

    One of the 500 workers runs a pending task: they run side by side, so any
    of the tasks in the channel can be the next to finish.  The separate
    goroutine runs the tasks of its channel one by one. *)
Definition pool_done (w : World B A) : World B A :=
  set_pool (mkTaskPool (taskCh (w_pool w)) (i32 (pool_size (w_pool w) - 1)) (separateCh (w_pool w))) w.

Definition worker_step (i : nat) : M (World B A) () := λ w,
  match taskCh (w_pool w) !! i with
  | None => (Ok (), w)
  | Some t =>
      (_ ← run_task t; modify pool_done)
        (set_pool (mkTaskPool (delete i (taskCh (w_pool w))) (pool_size (w_pool w)) (separateCh (w_pool w))) w)
  end.

Definition separate_step : M (World B A) () := λ w,
  match separateCh (w_pool w) with
  | [] => (Ok (), w)
  | t :: ts =>
      (_ ← run_task t; modify pool_done)
        (set_pool (mkTaskPool (taskCh (w_pool w)) (pool_size (w_pool w)) ts) w)
  end.

(** [tcpServer.lb.LoadBalance()]. *)
Definition balance_client : M (World B A) CONN_ID := λ w,
  match bal_pick (lb (w_tcp w)) with
  | Ok (e, l) =>
      (Ok e, set_tcp (mkTcpServer (clients (w_tcp w)) (stop (w_tcp w)) l (listenAddr (w_tcp w))) w)
  | Panic p => (Panic p, w)
  | OutOfFuel => (OutOfFuel, w)
  end.

(** ** Calling another service

    [answers] is what arrives on the channels of the successive attempts: the
    response of the service, or [None] for a timeout; [None] as the result means
    that the call still waits. *)
Fixpoint RpcCall (serviceName rpcName : string) (rid : Z) (reSendCnt : nat) (args : list goval)
    (answers : list (option (string * goval))) : M (World B A) (option (string * goval)) :=
  cfg ← gets w_cfg;
  let innerRpc := RpcEncode rpcName args in
  let rpc := RpcEncode MSG_C2G_RPC_ROUTE
    [GStr (Namespace cfg); GStr serviceName; GUint32 rid; GBool false; GBytes innerRpc] in
  msg ← lift_result (MessageEncode rpc);
  connID ← balance_client;
  client ← gets (GetTcpClient connID);
  match client with
  | None => mret (Some (EmptyString, GNil))
  | Some _ =>
      ch ← make_chan;
      let timeout := "s2s rpc call [" +:+ Namespace cfg +:+ ":" +:+ serviceName +:+ ":" +:+ rpcName +:+
                     "] time out" in
      _ ← (if rid =? 0 then mret () else AddCb rid (CbChan ch) 33 (Some (TimeoutChan ch timeout)));
      c ← deref_client client;
      sent ← MessageSend (Some (c_conn c)) msg;
      if negb sent then mret (Some (EmptyString, GNil))
      else if rid =? 0 then mret (Some (EmptyString, GNil))
      else
        match answers with
        | [] => mret None
        | Some (e, reply) :: _ => mret (Some (e, reply))
        | None :: answers =>
            match reSendCnt with
            | O => mret (Some (timeout, GNil))
            | S reSendCnt =>
                rid ← NewGid;
                RpcCall serviceName rpcName rid reSendCnt args answers
            end
        end
  end.

Definition RpcCallSync (serviceName rpcName : string) (args : list goval)
    (answers : list (option (string * goval))) : M (World B A) (option (string * goval)) :=
  rid ← NewGid; RpcCall serviceName rpcName rid 3 args answers.

Definition RpcCallAsync (serviceName rpcName : string) (args : list goval) : M (World B A) () :=
  _ ← RpcCall serviceName rpcName 0 0 args []; mret ().

Definition PushUnsafe (clientID tpe rpcName : string) (args : list goval) : M (World B A) () :=
  let innerRpc := RpcEncode rpcName args in
  RpcCallAsync "PushService" MSG_S2P_PUSH [GStr clientID; GStr tpe; GBool false; GBytes innerRpc].

Definition PushSafe (clientID tpe rpcName : string) (args : list goval) : M (World B A) () :=
  let innerRpc := RpcEncode rpcName args in
  RpcCallAsync "PushService" MSG_S2P_PUSH [GStr clientID; GStr tpe; GBool true; GBytes innerRpc].

Definition PushServerUnsafe (clientID rpcName : string) (args : list goval) : M (World B A) () :=
  PushUnsafe clientID "server" rpcName args.
Definition PushClientUnsafe (clientID rpcName : string) (args : list goval) : M (World B A) () :=
  PushUnsafe clientID "client" rpcName args.
Definition PushServerSafe (clientID rpcName : string) (args : list goval) : M (World B A) () :=
  PushSafe clientID "server" rpcName args.
Definition PushClientSafe (clientID rpcName : string) (args : list goval) : M (World B A) () :=
  PushSafe clientID "client" rpcName args.

(** ** Properties of the table *)

(** The access table lists exactly the registered rpcs, each with the
    permission of its handler. *)
Definition access_exact (rmgr : SimpleRpcMgr B) : Prop :=
  ∀ name, clientAccess rmgr !! name = ClientAccess <$> rpcs rmgr !! name.

Lemma GenClientAccess_exact name h rmgr :
  access_exact rmgr →
  access_exact (GenClientAccess name h
    (mkSimpleRpcMgr (<[name := h]> (rpcs rmgr)) (clientAccess rmgr) (stopRegist rmgr))).
Proof.
  intros H n. cbn. rewrite !lookup_insert. case_decide; [done|]. apply H.
Qed.

(** A registration, forced or not. *)
Definition regist (forced : bool) : string → RpcHandler B → SimpleRpcMgr B → result (SimpleRpcMgr B) :=
  if forced then RegistRpcHandlerForce else RegistRpcHandler.

Lemma regist_spec forced name h rmgr rmgr' :
  regist forced name h rmgr = Ok rmgr' ↔
  stopRegist rmgr = false ∧ (forced = true ∨ rpcs rmgr !! name = None) ∧
  rmgr' = GenClientAccess name h
    (mkSimpleRpcMgr (<[name := h]> (rpcs rmgr)) (clientAccess rmgr) (stopRegist rmgr)).
Proof.
  unfold regist, RegistRpcHandlerForce, RegistRpcHandler.
  destruct forced, (stopRegist rmgr), (rpcs rmgr !! name); split; naive_solver.
Qed.

(** The rpc table.  Registering handlers in any order, plainly or by force,
    until registration is closed, either panics, which happens exactly when
    registration is closed or a plain registration repeats a name, or leaves a
    table that maps every name to the handler registered last and that lists
    for clients exactly the registered names, with their permissions. *)
Theorem registration_exact (l : list (bool * string * RpcHandler B)) (rmgr rmgr' : SimpleRpcMgr B) :
  access_exact rmgr → foldM (λ r '(f, n, h), regist f n h r) l rmgr = Ok rmgr' →
  access_exact rmgr' ∧ (l ≠ [] → stopRegist rmgr = false) ∧
  (∀ name, rpcs rmgr' !! name =
     match last (filter (λ x, x.1.2 = name) l) with Some x => Some x.2 | None => rpcs rmgr !! name end) ∧
  (∀ name h, is_ok (regist false name h (StopRcpHandlerRegist rmgr')) → False) ∧
  (∀ name h h', rpcs rmgr' !! name = Some h → regist false name h' rmgr' =
     Panic (PanicMsg (if stopRegist rmgr' then "can not retist rpc handler now"
                      else "RegistRpcHandler " +:+ name +:+ " repeat !!!"))).
Proof.
  intros Hex Hf.
  assert (access_exact rmgr' ∧ (l ≠ [] → stopRegist rmgr = false) ∧
    (∀ name, rpcs rmgr' !! name =
     match last (filter (λ x, x.1.2 = name) l) with Some x => Some x.2 | None => rpcs rmgr !! name end))
    as (H1 & H2 & H3).
  { revert rmgr rmgr' Hex Hf. induction l as [|[[f n] h] l IH] using rev_ind; intros rmgr rmgr' Hex Hf.
    { injection Hf as <-. done. }
    rewrite foldM_app in Hf. apply bind_ok_inv in Hf as (r1 & Hr1 & Hf).
    destruct (IH _ _ Hex Hr1) as (H1 & H2 & H3). cbn in Hf.
    apply bind_ok_inv in Hf as (r2 & Hr2 & [= <-]). apply regist_spec in Hr2 as (Hs & _ & ->).
    assert (∀ l r r', foldM (λ r '(f, n, h), regist f n h r) l r = Ok r' → stopRegist r' = stopRegist r) as Hst.
    { clear. induction l as [|[[f n] h] l IH]; intros r r'; [by intros [= <-]|].
      intros (r1 & (_ & _ & ->)%regist_spec & H)%bind_ok_inv. by rewrite (IH _ _ H). }
    split; [by apply GenClientAccess_exact|]. split; [by rewrite <- (Hst _ _ _ Hr1)|].
    intros name. cbn. rewrite filter_app, filter_cons, filter_nil. cbn. rewrite lookup_insert.
    case_decide; [by rewrite last_snoc|]. by rewrite app_nil_r, H3. }
  do 3 (split; [done|]). split.
  - intros name h [r E%regist_spec]. by destruct E.
  - intros name h h' E. unfold regist, RegistRpcHandler. by destruct (stopRegist rmgr'); [|rewrite E].
Qed.

(** ** Dispatch *)

(** The session may send the rpc: it is a verification, or comes from a remote,
    or from a verified client. *)
Definition admitted (session : positive) (name : string) (w : World B A) : Prop :=
  name = MSG_C2G_VERTIFY ∨
  ∃ s, w_sessions w !! session = Some s ∧
    (typ s ≠ SessionTcpClient ∨
     ∃ p c, GetTcpClient (GetConnID (conn s)) w = Some p ∧ w_clients w !! p = Some c ∧
       state c = TcpClientState_OK).

Lemma PreCheck_admitted session name w :
  admitted session name w → PreCheck session name w = (Ok true, w).
Proof.
  intros H. unfold PreCheck. case_bool_decide as Hn; [done|].
  destruct H as [?|(s & Hs & H)]; [done|]. mrun. unfold deref_session. rewrite Hs.
  destruct H as [H|(p & c & Hp & Hc & Hst)].
  - by rewrite (proj2 (Z.eqb_neq _ _) H).
  - destruct (typ s =? SessionTcpClient); [|done]. cbn. unfold deref_client. rewrite Hp. cbn.
    by rewrite Hc, Hst.
Qed.

(** The task of a payload, and the pool after it was produced. *)
Definition task_of (session : positive) (buf : bytes) : Task :=
  let '(name, rest) := decode_name buf in mkTask session name rest.

Definition is_ordered (t : Task) : Prop := t_name t = MSG_G2S_RPC_CALL_ORDERED.

#[export] Instance is_ordered_dec t : Decision (is_ordered t).
Proof. unfold is_ordered. apply _. Defined.

Definition enqueue (t : Task) (p : TaskPool) : TaskPool :=
  if decide (is_ordered t) then mkTaskPool (taskCh p) (i32 (pool_size p + 1)) (separateCh p ++ [t])
  else mkTaskPool (taskCh p ++ [t]) (i32 (pool_size p + 1)) (separateCh p).

Definition runs_at_once (name : string) : Prop := name = MSG_C2G_VERTIFY ∨ name = MSG_GATE_LOGIN.

Lemma RpcDecode_admitted session buf w :
  admitted session (t_name (task_of session buf)) w →
  RpcDecode session buf w =
    if bool_decide (runs_at_once (t_name (task_of session buf)))
    then run_task (task_of session buf) w
    else (Ok (), set_pool (enqueue (task_of session buf) (w_pool w)) w).
Proof.
  unfold task_of. destruct (decode_name buf) as [name rest] eqn:E. cbn [t_name]. intros H.
  unfold RpcDecode. rewrite E. rewrite (M_bind_ok _ _ _ _ _ (PreCheck_admitted _ _ _ H)). cbn [negb].
  unfold runs_at_once. case_bool_decide as Hs; [done|].
  unfold enqueue, is_ordered. cbn [t_name]. case_bool_decide as Ho; destruct (decide _); try done.
Qed.

Lemma run_task_enc session name args w h fields vals :
  short_string name = true →
  GetRpcHanderGenerator name w = Some h → GetReqPtr h = Some fields → args_fit fields args vals →
  ∃ fuel, run_task (task_of session (RpcEncode name args)) w = run_handler (S fuel) h session vals w.
Proof.
  intros Hn Hh Hf Hfit. destruct (RpcEncode_decode name fields args vals Hn Hfit) as (rest & Hd & Hfs).
  exists (length rest). unfold task_of. rewrite Hd. unfold run_task. cbn [t_name t_rest t_session]. mrun.
  unfold decode_req. by rewrite Hh, Hf, Hfs.
Qed.

Lemma task_of_name session name args :
  short_string name = true → t_name (task_of session (RpcEncode name args)) = name.
Proof.
  intros H. unfold task_of. pose proof (inner_name_enc name args H) as E. unfold inner_name in E.
  by destruct (decode_name _).
Qed.

(** C25 Dispatch.  A message written by [RpcEncode] whose arguments fit the
    request of the handler registered for its name reaches that handler, with
    exactly those arguments: at once for a verification or a login, otherwise as
    the newest task of the separate channel (ordered calls) or of the pool (all
    others), which does so whenever it is run. *)
Theorem dispatch_roundtrip (session : positive) (name : string) (args vals : list goval)
    (fields : list (string * gotype)) (h : RpcHandler B) (w : World B A) :
  short_string name = true → args_fit fields args vals →
  rpcs (w_rpc w) !! name = Some h → GetReqPtr h = Some fields → admitted session name w →
  let buf := RpcEncode name args in
  if bool_decide (name = MSG_C2G_VERTIFY ∨ name = MSG_GATE_LOGIN) then
    ∃ fuel, RpcDecode session buf w = run_handler (S fuel) h session vals w
  else
    ∃ t, RpcDecode session buf w = (Ok (), set_pool (enqueue t (w_pool w)) w) ∧
      (is_ordered t ↔ name = MSG_G2S_RPC_CALL_ORDERED) ∧
      ∀ w', rpcs (w_rpc w') !! name = Some h →
        ∃ fuel, run_task t w' = run_handler (S fuel) h session vals w'.
Proof.
  intros Hn Hfit Hh Hf Hadm buf. pose proof (task_of_name session name args Hn) as En.
  pose proof (RpcDecode_admitted session buf w) as E. fold buf in En. rewrite En in E. specialize (E Hadm).
  unfold runs_at_once in E. case_bool_decide; rewrite E.
  - by eapply run_task_enc.
  - exists (task_of session buf). split; [done|]. split; [unfold is_ordered; by rewrite En|].
    intros w' Hw'. by eapply run_task_enc.
Qed.

(** ** Order *)

Lemma admitted_pool session name w p : admitted session name (set_pool p w) ↔ admitted session name w.
Proof. done. Qed.

Lemma RpcDecodes_enqueue session ps : ∀ w,
  (∀ p, p ∈ ps → admitted session (t_name (task_of session p)) w ∧ ¬ runs_at_once (t_name (task_of session p))) →
  foldM (λ w p, final (RpcDecode session p w)) ps w
  = Ok (set_pool (foldl (λ q p, enqueue (task_of session p) q) (w_pool w) ps) w).
Proof.
  induction ps as [|p ps IH]; intros w H; cbn; [by destruct w|].
  destruct (H p) as [Ha Hr]; [by left|]. rewrite RpcDecode_admitted by done.
  rewrite bool_decide_eq_false_2 by done. cbn. rewrite IH; [done|].
  intros q Hq. apply H. by right.
Qed.

Lemma enqueues_spec ts : ∀ q,
  foldl (λ q t, enqueue t q) q ts =
  mkTaskPool (taskCh q ++ filter (λ t, ¬ is_ordered t) ts)
    (match ts with [] => pool_size q | _ => i32 (pool_size q + go_len ts) end)
    (separateCh q ++ filter is_ordered ts).
Proof.
  induction ts as [|t ts IH]; intros q; cbn [foldl].
  - rewrite !filter_nil, !app_nil_r. by destruct q.
  - rewrite IH. unfold enqueue. rewrite !filter_cons. unfold is_ordered in *.
    destruct (decide (t_name t = _)); cbn;
      (destruct (decide (¬ _)); [|try done]); try done.
    + f_equal; [|by rewrite <- app_assoc].
      destruct ts; [by rewrite go_len_cons|]. rewrite i32_add. f_equal. rewrite !go_len_cons. lia.
    + f_equal; [by rewrite <- app_assoc|].
      destruct ts; [by rewrite go_len_cons|]. rewrite i32_add. f_equal. rewrite !go_len_cons. lia.
Qed.

(** C26 Ordered calls keep their order.  When a session's messages are decoded
    one after the other, the ordered calls among them are appended to the
    separate channel in exactly the order in which they arrived, the others to
    the pool, and nothing else changes; the goroutine behind the separate
    channel runs the oldest task first and never another before it. *)
Theorem ordered_calls_fifo (session : positive) (ps : list bytes) (w : World B A) :
  (∀ p, p ∈ ps → admitted session (t_name (task_of session p)) w ∧
                 ¬ runs_at_once (t_name (task_of session p))) →
  ∃ w', foldM (λ w p, final (RpcDecode session p w)) ps w = Ok w' ∧
    separateCh (w_pool w') = separateCh (w_pool w) ++ filter is_ordered (map (task_of session) ps) ∧
    taskCh (w_pool w') = taskCh (w_pool w) ++ filter (λ t, ¬ is_ordered t) (map (task_of session) ps) ∧
    set_pool (w_pool w) w' = w ∧
    ∀ t ts, separateCh (w_pool w') = t :: ts →
      separate_step w' =
        (_ ← run_task t; modify pool_done)
          (set_pool (mkTaskPool (taskCh (w_pool w')) (pool_size (w_pool w')) ts) w').
Proof.
  intros H. rewrite RpcDecodes_enqueue by done. eexists. split; [done|].
  assert (foldl (λ q p, enqueue (task_of session p) q) (w_pool w) ps
          = foldl (λ q t, enqueue t q) (w_pool w) (map (task_of session) ps)) as ->.
  { generalize (w_pool w). clear. induction ps; intros q; cbn; auto. }
  rewrite enqueues_spec. do 2 (split; [done|]). split; [by destruct w|].
  intros t ts E. unfold separate_step. by rewrite E.
Qed.

(** The goroutine of its channel runs the task that was produced last. *)
Lemma run_newest t w :
  (is_ordered t → separateCh (w_pool w) = []) →
  (if decide (is_ordered t) then separate_step else worker_step (length (taskCh (w_pool w))))
    (set_pool (enqueue t (w_pool w)) w) =
  (_ ← run_task t; modify pool_done)
    (set_pool (mkTaskPool (taskCh (w_pool w)) (i32 (pool_size (w_pool w) + 1)) (separateCh (w_pool w))) w).
Proof.
  intros Hs. unfold enqueue. destruct (decide (is_ordered t)) as [Ho|Ho].
  - unfold separate_step. cbn. by rewrite (Hs Ho).
  - unfold worker_step. cbn [w_pool set_pool taskCh]. rewrite lookup_app_r, Nat.sub_diag by done. cbn [lookup list_lookup].
    by rewrite delete_middle, app_nil_r.
Qed.

(** C36 Unverified clients.  A message other than a verification from a client
    that is not in state OK is not dispatched: the client is marked for
    disconnection and nothing else in the process changes. *)
Theorem unverified_rejected (session : positive) (buf : bytes) (w : World B A) (s : Session)
    (p : positive) (c : TcpClient) :
  w_sessions w !! session = Some s → typ s = SessionTcpClient →
  GetTcpClient (GetConnID (conn s)) w = Some p → w_clients w !! p = Some c →
  state c ≠ TcpClientState_OK → inner_name buf ≠ MSG_C2G_VERTIFY →
  RpcDecode session buf w =
    (Ok (), set_clients (<[p := with_state TcpClientState_EXIT c]> (w_clients w)) w).
Proof.
  intros Hs Ht Hp Hc Hst Hn. unfold RpcDecode. unfold inner_name in Hn.
  destruct (decode_name buf) as [name rest]. cbn in Hn. unfold PreCheck.
  rewrite (bool_decide_eq_false_2 (name = MSG_C2G_VERTIFY)) by done.
  mrun. unfold deref_session. rewrite Hs, Ht. cbn.
  unfold deref_client. rewrite Hp. cbn. rewrite Hc, (proj2 (Z.eqb_neq _ _) Hst). cbn.
  unfold SetState. mrun. do 2 f_equal. apply map_eq. intros i.
  rewrite lookup_alter, lookup_insert. case_decide; [subst; by rewrite Hc|done].
Qed.

(** ** Termination *)

Lemma ends_liftW {R X} (m : M (World B A) X) : ends m → ends (liftW (R := R) m).
Proof. intros Hm [r w]. specialize (Hm w). cbn. by destruct (m w). Qed.

Lemma ends_rpcHandle proc req session :
  (∀ h args, (∀ b, GBytes b ∈ args → (length b < length (InnerRpc req))%nat) → ends (proc h session args)) →
  ends (rpcHandle proc req session).
Proof.
  intros Hp. unfold rpcHandle. pose proof (decode_name_shrinks (InnerRpc req)) as Hs.
  destruct (decode_name (InnerRpc req)) as [name rest]. cbn in Hs.
  apply ends_bind; [auto with ends|]. intros [h|]; [|auto with ends].
  destruct (decode_req h rest) as [[[fname ty] e]|args] eqn:Ed; [auto with ends|].
  apply ends_bind.
  - intros w. unfold doProcessWithPanicProtect.
    assert (ends (recovered (proc h session args))) as He.
    { apply ends_recovered, Hp. intros b Hb. unfold decode_req in Ed.
      destruct (GetReqPtr h) as [fields|]; [|injection Ed as <-; by apply not_elem_of_nil in Hb].
      destruct (decode_fields_shrinks _ _ _ _ _ Ed Hb) as [?%not_elem_of_nil|?]; [done|lia]. }
    specialize (He (zero_rsp h, w)).
    by destruct (recovered (proc h session args) (zero_rsp h, w)) as [[] [? ?]].
  - intros rsp. destruct (GRid req =? 0); [auto with ends|].
    destruct (GetRspPtr h); [|auto with ends]. unfold GetResponseErr. auto 10 with ends.
Qed.

(** The handlers of the program end if those they run end; the bytes they pass on
    are part of their own request. *)
Definition busi_ends : Prop := ∀ (proc : Dispatcher B A) b session args,
  (∀ h args' y, GBytes y ∈ args → (∀ x, GBytes x ∈ args' → (length x < length y)%nat) →
     ends (proc h session args')) →
  ends (busi_process proc b session args).

Lemma ends_Process fuel : ∀ h session args,
  busi_ends →
  (∀ b, GBytes b ∈ args → (length b < fuel)%nat) → ends (Process fuel h session args).
Proof.
  induction fuel as [|fuel IH]; intros h session args Hb Hlen.
  all: destruct h; cbn [Process]; repeat case_match; subst; auto with ends.
  all: try (apply Hb; intros h args' y Hy Hx;
    first [ exfalso; eapply Nat.nlt_0_r, Hlen, Hy
          | apply IH; [done|]; intros x Hin%Hx; specialize (Hlen _ Hy); lia ]).
  all: try (apply ends_liftW; unfold RpcHeartBeatReq_Process, RpcG2CRpcRsp_Process;
    repeat (apply ends_bind; [by auto with ends|intros ?]); repeat case_match; unfold deliver_cb;
    by auto with ends).
  - exfalso. edestruct Nat.nlt_0_r. eapply Hlen. right. left.
  - apply ends_liftW. unfold RpcG2SRpcCall_Process, RpcFvcCount. apply ends_bind; [auto with ends|]. intros _.
    apply ends_bind.
    + apply ends_rpcHandle. cbn. intros h args Hl. apply IH; [done|]. intros b Hin%Hl.
      eapply Nat.lt_le_trans; [exact Hin|]. apply Nat.lt_succ_r, Hlen. right. left.
    + intros [error reply]. destruct (_ =? 0); [auto with ends|].
      repeat (apply ends_bind; [by auto with ends|intros ?]). auto with ends.
Qed.

(** If the program's own handlers return or panic whenever the handlers they run
    themselves do, so does every task: rpcs inside of rpcs nest at most as deep as
    the message is long. *)
Lemma run_task_ends (t : Task) : busi_ends → ends (run_task t).
Proof.
  intros Hb w. unfold run_task. mrun. destruct (GetRpcHanderGenerator _ w) as [h|]; [|done].
  destruct (decode_req h (t_rest t)) as [?|args] eqn:E; [done|]. unfold run_handler.
  assert (ends (Process (S (length (t_rest t))) h (t_session t) args)) as He.
  { apply ends_Process; [done|]. intros b Hin. unfold decode_req in E.
    destruct (GetReqPtr h) as [fields|]; [|injection E as <-; by apply not_elem_of_nil in Hin].
    destruct (decode_fields_shrinks _ _ _ _ _ E Hin) as [?%not_elem_of_nil|?]; [done|lia]. }
  specialize (He (zero_rsp h, w)). by destruct (Process _ h _ args (zero_rsp h, w)) as [? [? ?]].
Qed.

(** ** Answers *)

(** What a handler does to the process it runs in: it ends, sessions keep their
    connection, connections do not fail, and what it sends is appended. *)
Definition behaves (proc : Dispatcher B A) : Prop :=
  ∀ h session args rsp w, let '(r, (_, w')) := proc h session args (rsp, w) in
    r ≠ OutOfFuel ∧ w_broken w' = w_broken w ∧ (∃ own, w_net w' = w_net w ++ own) ∧
    ∀ p s, w_sessions w !! p = Some s → ∃ s', w_sessions w' !! p = Some s' ∧ conn s' = conn s.

Lemma rpcHandle_behaves proc req session w s :
  behaves proc → w_sessions w !! session = Some s →
  ∃ error reply w' own s', rpcHandle proc req session w = (Ok (error, reply), w') ∧
    w_broken w' = w_broken w ∧ w_net w' = w_net w ++ own ∧
    w_sessions w' !! session = Some s' ∧ conn s' = conn s ∧
    (rpcs (w_rpc w) !! inner_name (InnerRpc req) = None →
     own = [] ∧ error = "rpc " +:+ inner_name (InnerRpc req) +:+ " not exist").
Proof.
  intros Hp Hs. unfold rpcHandle, inner_name.
  destruct (decode_name (InnerRpc req)) as [name rest]. cbn [fst].
  mrun. unfold GetRpcHanderGenerator. destruct (rpcs (w_rpc w) !! name) as [h|] eqn:Hh.
  2: { eexists _, _, w, [], s. rewrite app_nil_r. by split_and!. }
  destruct (decode_req h rest) as [[[fname ty] e]|args].
  { eexists _, _, w, [], s. rewrite app_nil_r. by split_and!. }
  mrun. unfold doProcessWithPanicProtect, recovered. pose proof (Hp h session args (zero_rsp h) w) as Hb.
  destruct (proc h session args (zero_rsp h, w)) as [r [rsp w']].
  destruct Hb as (Hr & Hbr & [own Hnet] & Hss). destruct (Hss _ _ Hs) as (s' & Hs' & Hc).
  destruct r; [| |done].
  all: destruct (GRid req =? 0); [by exists EmptyString, GNil, w', own, s'; split_and!|].
  all: destruct (GetRspPtr h); [|eexists _, _, w', own, s'; by split_and!].
  all: unfold GetResponseErr; mrun; unfold deref_session; rewrite Hs'; cbn;
    eexists _, _, w', own, s'; by split_and!.
Qed.


Lemma rpcHandle_answer (proc : Dispatcher B A)
    (req : RpcG2SRpcCallReq) (session : positive) (w w1 : World B A) (s : Session) (h : RpcHandler B)
    (fields : list (string * goval)) (args rsp : list goval) (r : result ()) (name : string) (rest : bytes) :
  decode_name (InnerRpc req) = (name, rest) →
  rpcs (w_rpc w) !! name = Some h → decode_req h rest = inr args → GetRspPtr h = Some fields →
  GRid req ≠ 0 → proc h session args (fields.*2, w) = (r, (rsp, w1)) → r ≠ OutOfFuel →
  w_sessions w1 !! session = Some s →
  rpcHandle proc req session w = (Ok (err s, GMapAny (zip fields.*1 rsp)), w1).
Proof.
  intros En Hh Hd Hf Hg Hp Hr Hs.
  unfold rpcHandle. rewrite En. mrun. unfold GetRpcHanderGenerator. rewrite Hh, Hd.
  unfold doProcessWithPanicProtect, recovered. mrun. unfold zero_rsp. rewrite Hf, Hp.
  destruct r; [| |done].
  all: rewrite (proj2 (Z.eqb_neq _ _) Hg); unfold GetResponseErr; mrun; unfold deref_session; by rewrite Hs.
Qed.

(** The error of an answer is the session's.  The answer to a call carries
    the error stored in the session and the response fields as the handler left
    them, whether the handler returned or panicked: a panic is answered like a
    success, and an error that an earlier request stored in the same session is
    answered again. *)
Theorem answer_is_session_error (proc : Dispatcher B A)
    (req : RpcG2SRpcCallReq) (session : positive) (w w1 : World B A) (s : Session) (h : RpcHandler B)
    (fields : list (string * goval)) (args rsp : list goval) (r : result ()) (name : string) (rest : bytes) :
  decode_name (InnerRpc req) = (name, rest) →
  rpcs (w_rpc w) !! name = Some h → decode_req h rest = inr args → GetRspPtr h = Some fields →
  GRid req ≠ 0 → proc h session args (fields.*2, w) = (r, (rsp, w1)) → r ≠ OutOfFuel →
  w_sessions w1 !! session = Some s →
  rpcHandle proc req session w = (Ok (err s, GMapAny (zip fields.*1 rsp)), w1).
Proof. apply rpcHandle_answer. Qed.

(** ** Calls between services *)

(** The message of an attempt. *)
Definition route_rpc (w : World B A) (serviceName rpcName : string) (args : list goval) (rid : Z) : bytes :=
  RpcEncode MSG_C2G_RPC_ROUTE
    [GStr (Namespace (w_cfg w)); GStr serviceName; GUint32 rid; GBool false; GBytes (RpcEncode rpcName args)].

Definition timeout_text (w : World B A) (serviceName rpcName : string) : string :=
  "s2s rpc call [" +:+ Namespace (w_cfg w) +:+ ":" +:+ serviceName +:+ ":" +:+ rpcName +:+ "] time out".

(** A gate is connected and no connection is broken. *)
Record ready (w : World B A) : Prop := {
  ready_tcp : tcp_ok w;
  ready_cb : cb_ok w;
  ready_gate : clients (w_tcp w) ≠ ∅;
  ready_conns : w_broken w = ∅;
}.

(** The connection of a gate. *)
Definition gate_conn (w : World B A) (c : Conn) : Prop :=
  ∃ p cl, clients (w_tcp w) !! GetConnID c = Some p ∧ w_clients w !! p = Some cl ∧ c_conn cl = c.

(** What an attempt leaves unchanged. *)
Definition same_gates (w w' : World B A) : Prop :=
  w_cfg w' = w_cfg w ∧ w_gid w' = w_gid w ∧ clients (w_tcp w') = clients (w_tcp w) ∧
  w_clients w' = w_clients w.

Lemma balance_client_ok w :
  tcp_ok w → clients (w_tcp w) ≠ ∅ →
  ∃ id p c l, balance_client w =
      (Ok id, set_tcp (mkTcpServer (clients (w_tcp w)) (stop (w_tcp w)) l (listenAddr (w_tcp w))) w) ∧
    bal_wf l ∧ bal_members l = dom (clients (w_tcp w)) ∧
    clients (w_tcp w) !! id = Some p ∧ w_clients w !! p = Some c ∧ GetConnID (c_conn c) = id.
Proof.
  intros [Hwf Hm Hl Hn] Hne. destruct (bal_pick_spec (lb (w_tcp w)) Hwf) as (e & l & E & Hin & Hm' & Hwf').
  { rewrite Hm. by intros ?%dom_empty_inv_L. }
  rewrite Hm in Hin. apply elem_of_dom in Hin as [p Hp]. destruct (Hl _ _ Hp) as (c & Hc & Hid).
  exists e, p, c, l. unfold balance_client. rewrite E. split_and!; try done. by rewrite Hm'.
Qed.

Lemma RpcCall_attempt svc rpc rid n args answers w :
  ready w → rid ≠ 0 → go_len (route_rpc w svc rpc args rid) ≤ MAX_PACKET_SIZE →
  ∃ w' c, ready w' ∧ same_gates w w' ∧ gate_conn w c ∧
    w_net w' = w_net w ++ [(c, frame (route_rpc w svc rpc args rid))] ∧
    RpcCall svc rpc rid n args answers w =
      match answers with
      | [] => (Ok None, w')
      | Some (e, reply) :: _ => (Ok (Some (e, reply)), w')
      | None :: answers =>
          match n with
          | O => (Ok (Some (timeout_text w svc rpc, GNil)), w')
          | S n => (rid ← NewGid; RpcCall svc rpc rid n args answers) w'
          end
      end.
Proof.
  intros [Htcp Hcb Hne Hbr] Hrid Hlen.
  destruct (balance_client_ok w Htcp Hne) as (id & p & c & l & Eb & Hwf & Hm & Hp & Hc & Hid).
  set (w1 := set_tcp _ w) in Eb. set (w2 := set_nextch (Pos.succ (w_nextch w1)) w1).
  destruct (AddCb_ok rid (CbChan (w_nextch w1)) 33
    (Some (TimeoutChan (w_nextch w1) (timeout_text w svc rpc))) w2) as (cb & q & Ea & Hcb' & _); [exact Hcb|].
  set (w3 := set_cb cb w2) in *.
  exists (set_net (w_net w ++ [(c_conn c, frame (route_rpc w svc rpc args rid))]) w3), (c_conn c).
  split_and!; [|done|exists p, c; by rewrite Hid|done|].
  { split; [destruct Htcp as [? ? Hl ?]; by split|destruct Hcb' as [ps Hps]; by exists ps|exact Hne|exact Hbr]. }
  assert (MessageSend (Some (c_conn c)) (frame (route_rpc w svc rpc args rid)) w3
    = (Ok true, set_net (w_net w ++ [(c_conn c, frame (route_rpc w svc rpc args rid))]) w3)) as Es.
  { rewrite MessageSend_ok; [done|done|]. cbn. rewrite Hbr. set_solver. }
  unfold timeout_text in *. destruct n; cbn [RpcCall]; (rewrite (M_bind_ok _ _ _ (w_cfg w) w) by done);
    fold (route_rpc w svc rpc args rid).
  all: rewrite (M_bind_ok _ _ _ (frame (route_rpc w svc rpc args rid)) w)
      by (unfold lift_result; by rewrite MessageEncode_spec).
  all: rewrite (M_bind_ok _ _ _ _ _ Eb), (M_bind_ok _ _ _ (Some p) w1) by (unfold gets, GetTcpClient; cbn; by rewrite Hp).
  all: rewrite (M_bind_ok _ _ _ (w_nextch w1) w2) by done.
  all: rewrite (proj2 (Z.eqb_neq _ _) Hrid), (M_bind_ok _ _ _ _ _ Ea).
  all: rewrite (M_bind_ok _ _ _ c w3) by (unfold deref_client; cbn; by rewrite Hc).
  all: rewrite (M_bind_ok _ _ _ _ _ Es); cbn [negb].
  all: destruct answers as [|[[e reply]|] answers]; try done.
Qed.

(** What the caller gets, and after how many attempts. *)
Fixpoint call_outcome (timeout : string) (n : nat) (answers : list (option (string * goval)))
    : nat * option (string * goval) :=
  match answers with
  | [] => (1%nat, None)
  | Some x :: _ => (1%nat, Some x)
  | None :: answers =>
      match n with
      | O => (1%nat, Some (timeout, GNil))
      | S n => let '(a, o) := call_outcome timeout n answers in (S a, o)
      end
  end.

Lemma RpcCall_outcome svc rpc args n : ∀ answers rid w,
  ready w → 0 < rid → rid = w_gid w → rid + Z.of_nat n < 2 ^ 32 →
  (∀ rid, go_len (route_rpc w svc rpc args rid) ≤ MAX_PACKET_SIZE) →
  ∃ w' sent, RpcCall svc rpc rid n args answers w =
      (Ok (call_outcome (timeout_text w svc rpc) n answers).2, w') ∧
    w_net w' = w_net w ++ sent ∧
    Forall2 (λ i x, gate_conn w x.1 ∧ x.2 = frame (route_rpc w svc rpc args (rid + Z.of_nat i)))
      (seq 0 (call_outcome (timeout_text w svc rpc) n answers).1) sent.
Proof.
  induction n as [|n IH]; intros answers rid w Hr Hrid Hg Hlt Hlen;
    (match goal with |- context [RpcCall svc rpc rid ?m] =>
       destruct (RpcCall_attempt svc rpc rid m args answers w)
         as (w1 & c & Hr1 & (Hcfg & Hgid & Hcl & Hcls) & Hc & Hnet & ->) end; [done|lia|done|]).
  all: destruct answers as [|[[e reply]|] answers];
    [exists w1; eexists; split; [done|]; split; [exact Hnet|];
     repeat constructor; [done|by rewrite Z.add_0_r]..|].
  - exists w1. eexists. split; [done|]. split; [exact Hnet|]. repeat constructor; [done|by rewrite Z.add_0_r].
  - rewrite (M_bind_ok _ _ _ (u32 (w_gid w1 + 1)) (set_gid (u32 (w_gid w1 + 1)) w1)) by done.
    assert (u32 (w_gid w1 + 1) = rid + 1) as -> by (rewrite Hgid, u32_small; lia).
    destruct (IH answers (rid + 1) (set_gid (rid + 1) w1)) as (w2 & sent & E & Hn & HF).
    { destruct Hr1 as [Ht Hb ? ?]. split; [by eapply tcp_ok_ext|exact Hb|done|done]. }
    { lia. } { done. } { lia. }
    { unfold route_rpc. cbn. rewrite Hcfg. apply Hlen. }
    assert (timeout_text (set_gid (rid + 1) w1) svc rpc = timeout_text w svc rpc) as Et
      by (unfold timeout_text; cbn; by rewrite Hcfg).
    rewrite Et in E, HF. exists w2, ((c, frame (route_rpc w svc rpc args rid)) :: sent).
    cbn [call_outcome]. destruct (call_outcome _ n answers) as [a o]. cbn [fst snd] in *.
    split; [done|]. split; [rewrite Hn; cbn; by rewrite Hnet, <- app_assoc|].
    cbn [seq]. constructor; [split; [done|by rewrite Z.add_0_r]|].
    rewrite <- fmap_S_seq. apply Forall2_fmap_l. eapply Forall2_impl; [exact HF|].
    intros i x [(p & cl & H1 & H2 & H3) Hx]. cbn in H1, H2. split.
    + exists p, cl. by rewrite <- Hcl, <- Hcls.
    + rewrite Hx. unfold route_rpc. cbn [w_cfg set_gid]. rewrite Hcfg.
      by replace (rid + 1 + Z.of_nat i) with (rid + Z.of_nat (S i)) by lia.
Qed.

(** C35 Synchronous calls.  With a gate connected and no broken connection,
    [RpcCallSync] returns the first response that arrives within at most four
    attempts, or the timeout error when all four time out; each attempt sends
    exactly one route request to a connected gate, with a new identifier. *)
Theorem rpc_call_sync (serviceName rpcName : string) (args : list goval)
    (answers : list (option (string * goval))) (w : World B A) :
  ready w → 0 ≤ w_gid w → w_gid w + 4 < 2 ^ 32 →
  (∀ rid, go_len (route_rpc w serviceName rpcName args rid) ≤ MAX_PACKET_SIZE) →
  ∃ attempts outcome sent w',
    (attempts, outcome) = call_outcome (timeout_text w serviceName rpcName) 3 answers ∧
    (attempts ≤ 4)%nat ∧
    RpcCallSync serviceName rpcName args answers w = (Ok outcome, w') ∧
    w_net w' = w_net w ++ sent ∧
    Forall2 (λ i x, gate_conn w x.1 ∧
               x.2 = frame (route_rpc w serviceName rpcName args (w_gid w + 1 + Z.of_nat i)))
      (seq 0 attempts) sent.
Proof.
  intros Hr Hg Hlt Hlen. unfold RpcCallSync.
  assert (u32 (w_gid w + 1) = w_gid w + 1) as Eg by (apply u32_small; lia).
  rewrite (M_bind_ok _ _ _ (w_gid w + 1) (set_gid (w_gid w + 1) w))
    by (unfold NewGid, GenGid; by rewrite Eg).
  destruct (RpcCall_outcome serviceName rpcName args 3 answers (w_gid w + 1) (set_gid (w_gid w + 1) w))
    as (w' & sent & E & Hn & HF); [|lia|done|cbn; lia|done|].
  { destruct Hr as [Ht Hb ? ?]. split; [by eapply tcp_ok_ext|exact Hb|done|done]. }
  change (timeout_text (set_gid (w_gid w + 1) w) serviceName rpcName)
    with (timeout_text w serviceName rpcName) in *.
  assert (∀ t n l, (call_outcome t n l).1 ≤ S n)%nat as Hb.
  { clear. intros t n. induction n as [|n IH]; intros [|[x|] l]; cbn; try lia.
    specialize (IH l). destruct (call_outcome t n l). cbn in *. lia. }
  specialize (Hb (timeout_text w serviceName rpcName) 3%nat answers).
  destruct (call_outcome _ 3 answers) as [a o]. exists a, o, sent, w'. by split_and!.
Qed.

(** Without a gate nothing is sent, and the caller gets an empty error. *)
Lemma rpc_call_without_gate (serviceName rpcName : string) (args : list goval)
    (answers : list (option (string * goval))) (w : World B A) :
  tcp_ok w → clients (w_tcp w) = ∅ →
  (∀ rid, go_len (route_rpc w serviceName rpcName args rid) ≤ MAX_PACKET_SIZE) →
  RpcCallSync serviceName rpcName args answers w =
    (Ok (Some (EmptyString, GNil)), set_gid (u32 (w_gid w + 1)) w).
Proof.
  intros [Hwf Hm _ _] Hne Hlen. unfold RpcCallSync.
  set (w0 := set_gid (u32 (w_gid w + 1)) w).
  rewrite (M_bind_ok _ _ _ (u32 (w_gid w + 1)) w0) by done. cbn [RpcCall].
  rewrite (M_bind_ok _ _ _ (w_cfg w) w0) by done. fold (route_rpc w serviceName rpcName args (u32 (w_gid w + 1))).
  rewrite (M_bind_ok _ _ _ (frame (route_rpc w serviceName rpcName args (u32 (w_gid w + 1)))) w0)
    by (unfold lift_result; by rewrite MessageEncode_spec).
  assert (balance_client w0 = (Ok EmptyString, w0)) as Eb.
  { unfold balance_client. change (w_tcp w0) with (w_tcp w).
    rewrite (bal_pick_empty _ Hwf) by (by rewrite Hm, Hne, dom_empty_L). by destruct w as [? ? ? ? ? [] ?]. }
  rewrite (M_bind_ok _ _ _ _ _ Eb), (M_bind_ok _ _ _ None w0); [done|].
  unfold gets, GetTcpClient. cbn. by rewrite Hne.
Qed.

End SimpleRpc.

(** ** Service B

    The service of [src/service_b]: one rpc that reports the number it was
    given. *)
Module ServiceB.

Inductive handlers := RpcBHandler.

Definition RpcBHandler_Process (args : list goval) : M (list goval * World handlers ()) () := λ '(rsp, w),
  match args with
  | [GUint32 i] => (Ok (), ([GBool true; GUint32 i], w))
  | _ => (Panic TypeAssertion, (rsp, w))
  end.

#[export] Instance service_b_sig : HandlerSig handlers := {|
  busi_req h := match h with RpcBHandler => Some [("I", TUint32)] end;
  busi_rsp h := match h with RpcBHandler => Some [("Success", GBool false); ("Req", GUint32 0)] end;
  busi_access h := match h with RpcBHandler => false end;
|}.

#[export] Instance service_b : Business handlers () := {|
  busi_process _ h _ args := match h with RpcBHandler => RpcBHandler_Process args end;
  busi_accept _ := mret ();
|}.

Definition regist_handlers : result (SimpleRpcMgr handlers) :=
  rmgr ← CreateSimpleRpcMgr; regist_all [("rpc_b", Busi RpcBHandler)] rmgr.

(** The service with the gate at [10.0.0.9:5000] connected, and a session of
    that connection. *)
Definition demo_gate : Conn := mkConn 1 "10.0.0.9:5000".

Definition demo_world (st : Z) : World handlers () :=
  let w := init_world (mkGlobalConfig "ns" "ServiceB") SERVER_IDENTITY_SERVICE "10.0.0.1:8001"
             (StopRcpHandlerRegist (from_ok (mkSimpleRpcMgr ∅ ∅ false) regist_handlers)) () in
  set_sessions {[1%positive := mkSession SessionTcpClient demo_gate EmptyString]}
    (set_tcp (mkTcpServer {[GetConnID demo_gate := 1%positive]} false
                (bal_add bal_new (GetConnID demo_gate)).2 "10.0.0.1:8001")
       (set_clients {[1%positive := mkTcpClient demo_gate [] 0 0 st]} w)).

#[local] Existing Instance ref_msgpack.

Lemma demo_admitted name : admitted 1 name (demo_world TcpClientState_OK).
Proof.
  right. eexists. split; [reflexivity|]. right. eexists _, _. by split_and!.
Qed.

Lemma demo_ready : ready (demo_world TcpClientState_OK).
Proof.
  split; [|exists []; apply init_inv|discriminate|done]. split; cbn.
  - split; [done|reflexivity].
  - set_solver.
  - intros id p [<- <-]%lookup_singleton_Some. eexists. by rewrite lookup_singleton_eq.
  - reflexivity.
Qed.

Lemma registration_exact_witness :
  access_exact (mkSimpleRpcMgr (B := handlers) ∅ ∅ false) ∧
  ∃ rmgr', foldM (λ r '(f, n, h), regist f n h r) [(false, "rpc_b", Busi RpcBHandler)] (mkSimpleRpcMgr ∅ ∅ false)
           = Ok rmgr' ∧ access_exact rmgr'.
Proof.
  assert (access_exact (mkSimpleRpcMgr (B := handlers) ∅ ∅ false)) as H by (intros n; reflexivity).
  split; [exact H|]. eexists. split; [reflexivity|].
  eapply (registration_exact [(false, "rpc_b", Busi RpcBHandler)]); [exact H|reflexivity].
Defined.

Lemma dispatch_roundtrip_witness :
  ∃ t, RpcDecode 1 (RpcEncode "rpc_b" [GUint32 7]) (demo_world TcpClientState_OK)
       = (Ok (), set_pool (enqueue t (w_pool (demo_world TcpClientState_OK))) (demo_world TcpClientState_OK)).
Proof.
  destruct (dispatch_roundtrip 1 "rpc_b" [GUint32 7] [GUint32 7] [("I", TUint32)] (Busi RpcBHandler)
    (demo_world TcpClientState_OK)) as (t & H & _);
    [reflexivity|repeat constructor|reflexivity|reflexivity|apply demo_admitted|].
  exists t. exact H.
Defined.

Definition demo_calls : list bytes :=
  [RpcEncode MSG_G2S_RPC_CALL_ORDERED [GUint32 1; GBytes (RpcEncode "rpc_b" [GUint32 7])];
   RpcEncode MSG_HEART_BEAT_REQ [];
   RpcEncode MSG_G2S_RPC_CALL_ORDERED [GUint32 2; GBytes (RpcEncode "rpc_b" [GUint32 8])]].

Lemma ordered_calls_fifo_witness :
  ∃ w', foldM (λ w p, final (RpcDecode 1 p w)) demo_calls (demo_world TcpClientState_OK) = Ok w' ∧
    length (separateCh (w_pool w')) = 2%nat.
Proof.
  destruct (ordered_calls_fifo 1 demo_calls (demo_world TcpClientState_OK)) as (w' & E & Hs & _).
  - intros p Hp. split; [apply demo_admitted|]. revert Hp. unfold demo_calls.
    rewrite !elem_of_cons. intros [->|[->|[->|?%not_elem_of_nil]]]; [| | |done].
    all: unfold runs_at_once; vm_compute; by intros [[=]|[=]].
  - exists w'. split; [exact E|]. rewrite Hs. vm_compute. reflexivity.
Defined.

Lemma unverified_rejected_witness :
  ∃ w', RpcDecode 1 (RpcEncode MSG_HEART_BEAT_REQ []) (demo_world TcpClientState_Init) = (Ok (), w') ∧
    (state <$> w_clients w' !! 1%positive) = Some TcpClientState_EXIT.
Proof.
  eexists. split.
  - eapply (unverified_rejected 1 _ (demo_world TcpClientState_Init));
      [reflexivity..|discriminate|vm_compute; discriminate].
  - reflexivity.
Defined.

Lemma service_b_ends : busi_ends (B := handlers) (A := ()).
Proof. intros proc [] session args _ [rsp w]. cbn. by destruct args as [|[] [|]]. Qed.

Lemma service_b_behaves fuel : behaves (λ h session args, match h with Busi _ => Process fuel h session args | _ => mret () end).
Proof.
  intros h session args rsp w. assert (∃ own, w_net w = w_net w ++ own) by (exists []; by rewrite app_nil_r).
  destruct h as [| | | |[]]; cbn; [by split_and!; eauto..|].
  destruct fuel, args as [|[] [|]]; cbn; by split_and!; eauto.
Qed.

Definition demo_proc : Dispatcher handlers () :=
  λ h session args, match h with Busi _ => Process 1 h session args | _ => mret () end.


Lemma answer_is_session_error_witness :
  rpcHandle (Process 1) (mkRpcG2SRpcCallReq 5 (RpcEncode "rpc_b" [GUint32 7])) 1
    (demo_world TcpClientState_OK)
  = (Ok (EmptyString, GMapAny [("Success", GBool true); ("Req", GUint32 7)]), demo_world TcpClientState_OK).
Proof.
  apply (answer_is_session_error (Process 1) (mkRpcG2SRpcCallReq 5 (RpcEncode "rpc_b" [GUint32 7])) 1
    (demo_world TcpClientState_OK) (demo_world TcpClientState_OK)
    (mkSession SessionTcpClient demo_gate EmptyString) (Busi RpcBHandler)
    [("Success", GBool false); ("Req", GUint32 0)] [GUint32 7] [GBool true; GUint32 7] (Ok ()) "rpc_b" (enc (GUint32 7)));
    reflexivity || discriminate.
Defined.

Lemma demo_route_fits (w : World handlers ()) rid :
  Namespace (w_cfg w) = "ns" → go_len (route_rpc w "ServiceA" "rpc_b" [GUint32 7] rid) ≤ MAX_PACKET_SIZE.
Proof. unfold route_rpc. intros ->. vm_compute. discriminate. Qed.

Lemma rpc_call_sync_witness :
  ∃ sent w', RpcCallSync "ServiceA" "rpc_b" [GUint32 7] [None; Some ("oops", GNil)] (demo_world TcpClientState_OK)
    = (Ok (Some ("oops", GNil)), w') ∧ w_net w' = sent ∧ length sent = 2%nat.
Proof.
  destruct (rpc_call_sync "ServiceA" "rpc_b" [GUint32 7] [None; Some ("oops", GNil)]
    (demo_world TcpClientState_OK)) as (a & o & sent & w' & Eo & Ha & E & Hn & HF).
  - apply demo_ready.
  - done.
  - done.
  - intros rid. by apply demo_route_fits.
  - injection Eo as -> ->. exists sent, w'. split_and!; [exact E|exact Hn|].
    by rewrite <- (Forall2_length _ _ _ HF).
Defined.

End ServiceB.
