(* ===== verification/Blocking.v ===== *)
(** * Goroutines that wait for each other

    A synchronous call ([RpcCall] of [msf_simple_rpc.go]) blocks its goroutine
    on a channel until the handler of the response or the callback manager sends
    on it; both block until the caller receives, since the channel is not
    buffered; and callers and handlers block on the manager, which takes nodes
    only while it is not busy with a tick.  Here these goroutines run side by
    side, with every point at which one can block as a state of its own: what is
    one step in [SimpleRpc] and [World] is cut at its channel operations.

    The result is what keeps such a process alive, and what does not: as long as
    no write fails, whoever sends on a call's channel has exactly one receiver,
    no wake-up is lost and the manager always returns to its [select]; after one
    failed write it stops for ever once that call times out. *)

From S2P Require Import Prelude Utils Wire Msgpack LoadBalancer CallbackMgr RemoteMgr World SimpleRpc.

Local Open Scope Z_scope.

Section Blocking.
  Context {MP : Msgpack} {B A : Type}.

Implicit Types w : World B A.

(** ** The states of the goroutines *)

(** The arguments of an [RpcCall]. *)
Record Call := mkCall {
  k_service : string;
  k_rpc : string;
  k_rid : Z;
  k_reSendCnt : nat;
  k_args : list goval;
}.

(** Where a goroutine of the pool is: between tasks; in [RpcCall] before its
    callback is registered, at the send on [chQueueAdd], before [MessageSend], at
    [<- ch], and after its end; in [RpcG2CRpcRspHandler.Process] at its start, at
    the send on [chQueueDel], and at the send on the channel of the call. *)
Inductive goroutine :=
  | Idle
  | Calling (k : Call)
  | Adding (k : Call) (ch : positive) (node : ptr) (client : positive) (msg : bytes)
  | Sending (k : Call) (ch : positive) (client : positive) (msg : bytes)
  | Waiting (k : Call) (ch : positive)
  | Returned (error : string) (reply : goval)
  | Responding (req : RpcG2CRpcRspReq)
  | Deleting (req : RpcG2CRpcRspReq) (cbs : cbval) (node : ptr)
  | Replying (req : RpcG2CRpcRspReq) (ch : positive).

(** Where the callback manager is: at its [select]; in [priorityQueueTick] at the
    start of an iteration; in a timeout closure, for the node [cur]. *)
Inductive manager :=
  | Select
  | Ticking (now : Z) (cur : option ptr)
  | InTimeOut (now : Z) (cur : ptr) (prv : option ptr) (t : timeoutval).

(** ** What they do between two channel operations *)

Definition call_msg (cfg : GlobalConfig) (k : Call) : bytes :=
  RpcEncode MSG_C2G_RPC_ROUTE
    [GStr (Namespace cfg); GStr (k_service k); GUint32 (k_rid k); GBool false; GBytes (RpcEncode (k_rpc k) (k_args k))].

Definition call_timeout (cfg : GlobalConfig) (k : Call) : string :=
  "s2s rpc call [" +:+ Namespace cfg +:+ ":" +:+ k_service k +:+ ":" +:+ k_rpc k +:+ "] time out".

(** [AddCallBack] up to its send on [chQueueAdd]: the node it sends. *)
Definition AddCb_map (cbid : Z) (cbs : cbval) (waitTime : Z) (timeOutCb : option timeoutval)
    : M (World B A) ptr := λ w,
  (Ok (fresh (dom (heap (w_cb w)))),
   set_cb (AddCallBack_map (GetNowTimestamp w) cbid cbs waitTime timeOutCb (w_cb w)) w).

Definition RpcCall_begin (k : Call) : M (World B A) goroutine :=
  cfg ← gets w_cfg;
  msg ← lift_result (MessageEncode (call_msg cfg k));
  connID ← balance_client;
  client ← gets (GetTcpClient connID);
  match client with
  | None => mret (Returned EmptyString GNil)
  | Some c =>
      ch ← make_chan;
      if k_rid k =? 0 then mret (Sending k ch c msg)
      else
        node ← AddCb_map (k_rid k) (CbChan ch) 33 (Some (TimeoutChan ch (call_timeout cfg k)));
        mret (Adding k ch node c msg)
  end.

Definition RpcCall_send (k : Call) (ch client : positive) (msg : bytes) : M (World B A) goroutine :=
  c ← deref_client (Some client);
  sent ← MessageSend (Some (c_conn c)) msg;
  if negb sent then mret (Returned EmptyString GNil)
  else if k_rid k =? 0 then mret (Returned EmptyString GNil)
  else mret (Waiting k ch).

(** What a caller that received a timeout does. *)
Definition RpcCall_timeout (k : Call) (error : string) : M (World B A) goroutine :=
  match k_reSendCnt k with
  | O => mret (Returned error GNil)
  | S reSendCnt =>
      rid ← NewGid;
      mret (Calling (mkCall (k_service k) (k_rpc k) rid reSendCnt (k_args k)))
  end.

Definition RpcCallSync_begin (serviceName rpcName : string) (args : list goval) : M (World B A) goroutine :=
  rid ← NewGid; mret (Calling (mkCall serviceName rpcName rid 3 args)).

(** [GetCallBack] up to its send on [chQueueDel]. *)
Definition RpcRsp_begin (req : RpcG2CRpcRspReq) : M (World B A) goroutine := λ w,
  let w' := set_cb (GetCallBack_map (Rid req) (w_cb w)).2 w in
  match gCbMap (w_cb w) !! Rid req with
  | None => (Ok Idle, w')
  | Some (cbs, node) => (Ok (Deleting req cbs node), w')
  end.

(** A goroutine may go on: nobody has to take what it sends. *)
Definition runs (st : goroutine) w : bool :=
  match st with
  | Calling _ | Sending _ _ _ _ | Returned _ _ | Responding _ => true
  | Adding _ _ node _ _ => bool_decide (node ∉ chQueueAdd (w_cb w))
  | Deleting _ (CbChan _) node => bool_decide (node ∉ chQueueDel (w_cb w))
  | _ => false
  end.

Definition go_on (st : goroutine) : M (World B A) goroutine :=
  match st with
  | Calling k => RpcCall_begin k
  | Adding k ch _ c msg => mret (Sending k ch c msg)
  | Sending k ch c msg => RpcCall_send k ch c msg
  | Responding req => RpcRsp_begin req
  | Deleting req (CbChan ch) _ => mret (Replying req ch)
  | _ => mret Idle
  end.

(** ** The process *)

Record Sys := mkSys {
  s_world : World B A;
  s_mgr : manager;
  s_gos : gmap positive goroutine;
}.

(** [priorityQueueTick] for one node, up to its timeout closure. *)
Definition scan (now : Z) (cur : option ptr) (st : CbState cbval timeoutval)
    : result (manager * CbState cbval timeoutval) :=
  match cur with
  | None => Ok (Select, st)
  | Some c =>
      n ← load (heap st) c;
      if endTime n <=? now then
        let ok := bool_decide (is_Some (gCbMap st !! cbid n)) in
        let m := delete (cbid n) (gCbMap st) in
        match ok, timeOutCb n with
        | true, Some t =>
            Ok (InTimeOut now c (prev n) t, mkCbState (heap st) (queue st) m (chQueueAdd st) (chQueueDel st))
        | _, _ =>
            '(h, q) ← queueDel c (heap st) (queue st);
            Ok (Ticking now (prev n), mkCbState h q m (chQueueAdd st) (chQueueDel st))
        end
      else Ok (Select, st)
  end.

(** The rest of the iteration, after the closure. *)
Definition timed_out (c : ptr) (st : CbState cbval timeoutval) : result (CbState cbval timeoutval) :=
  '(h, q) ← queueDel c (heap st) (queue st);
  Ok (mkCbState h q (gCbMap st) (chQueueAdd st) (chQueueDel st)).

Inductive label :=
  | LStart (g : positive) (service rpc : string) (args : list goval)  (** a handler calls [RpcCallSync] *)
  | LRespond (g : positive) (req : RpcG2CRpcRspReq)                   (** a response is taken from the pool *)
  | LGo (g : positive)
  | LAdd (i : nat)                                                    (** the manager's three cases *)
  | LDel (i : nat)
  | LTick
  | LScan
  | LTimeOut (g : positive)                                           (** a timeout is received *)
  | LReply (g g' : positive)                                          (** a response is received *)
  | LOther (clock : Z) (tcp : TcpServer) (clients : gmap positive TcpClient) (broken : gset positive).

(** What else happens in the process: time passes, connections come and go. *)
Definition others (clock : Z) (tcp : TcpServer) (clients : gmap positive TcpClient) (broken : gset positive) w
    : World B A :=
  mkWorld (w_cfg w) (w_identity w) clock (w_gid w) (w_rpc w) tcp clients (w_remote w) (w_cb w) (w_pool w)
    (w_sessions w) (w_net w) broken (w_chans w) (w_nextch w) (w_fvc w) (w_app w).

(** A goroutine that panicked: the panic of a handler is recovered. *)
Definition after (r : result goroutine) : goroutine := match r with Ok st => st | _ => Idle end.

Definition resume (g : positive) (m : M (World B A) goroutine) (s : Sys) : Sys :=
  let '(r, w) := m (s_world s) in mkSys w (s_mgr s) (<[g := after r]> (s_gos s)).

Definition with_cb (r : result (CbState cbval timeoutval)) (s : Sys) : option Sys :=
  match r with Ok cb => Some (mkSys (set_cb cb (s_world s)) (s_mgr s) (s_gos s)) | _ => None end.

Definition with_mgr (m : manager) (s : Sys) : Sys := mkSys (s_world s) m (s_gos s).

(** One step; [None] if it is not possible. *)
Definition exec (l : label) (s : Sys) : option Sys :=
  match l with
  | LStart g service rpc args =>
      match s_gos s !! g with
      | Some Idle => Some (resume g (RpcCallSync_begin service rpc args) s)
      | _ => None
      end
  | LRespond g req =>
      match s_gos s !! g with
      | Some Idle => Some (resume g (mret (Responding req)) s)
      | _ => None
      end
  | LGo g =>
      match s_gos s !! g with
      | Some st => if runs st (s_world s) then Some (resume g (go_on st) s) else None
      | None => None
      end
  | LAdd i =>
      match s_mgr s with
      | Select => with_cb (recv_QueueAdd i (w_cb (s_world s))) s
      | _ => None
      end
  | LDel i =>
      match s_mgr s with
      | Select => with_cb (recv_QueueDel i (w_cb (s_world s))) s
      | _ => None
      end
  | LTick =>
      match s_mgr s with
      | Select => Some (with_mgr (Ticking (GetNowTimestamp (s_world s)) (lastNode (queue (w_cb (s_world s))))) s)
      | _ => None
      end
  | LScan =>
      match s_mgr s with
      | Ticking now cur =>
          match scan now cur (w_cb (s_world s)) with
          | Ok (m, cb) => with_cb (Ok cb) (with_mgr m s)
          | _ => None
          end
      | _ => None
      end
  | LTimeOut g =>
      match s_mgr s, s_gos s !! g with
      | InTimeOut now c prv (TimeoutChan ch e), Some (Waiting k ch') =>
          if bool_decide (ch = ch')
          then with_cb (timed_out c (w_cb (s_world s)))
                 (with_mgr (Ticking now prv) (resume g (RpcCall_timeout k e) s))
          else None
      | _, _ => None
      end
  | LReply g g' =>
      match s_gos s !! g, s_gos s !! g' with
      | Some (Replying req ch), Some (Waiting k ch') =>
          if bool_decide (ch = ch')
          then Some (mkSys (s_world s) (s_mgr s)
                      (<[g' := Returned (Error req) (Reply req)]> (<[g := Idle]> (s_gos s))))
          else None
      | _, _ => None
      end
  | LOther clock tcp clients broken =>
      Some (mkSys (others clock tcp clients broken (s_world s)) (s_mgr s) (s_gos s))
  end.

Fixpoint execs (ls : list label) (s : Sys) : option Sys :=
  match ls with
  | [] => Some s
  | l :: ls => exec l s ≫= execs ls
  end.

(** ** Who receives and who sends on a channel *)

(** The call of a goroutine that is to receive on a channel: its id and the channel. *)
Definition owns (st : goroutine) : option (Z * positive) :=
  match st with
  | Adding k ch _ _ _ | Waiting k ch => Some (k_rid k, ch)
  | Sending k ch _ _ => if k_rid k =? 0 then None else Some (k_rid k, ch)
  | _ => None
  end.

(** The response of a handler that is to send on a channel. *)
Definition sends_on (st : goroutine) : option (Z * positive) :=
  match st with
  | Deleting req (CbChan ch) _ | Replying req ch => Some (Rid req, ch)
  | _ => None
  end.

Definition owner (gos : gmap positive goroutine) (g : positive) (rid : Z) (ch : positive) : Prop :=
  ∃ st, gos !! g = Some st ∧ owns st = Some (rid, ch).

(** The node [p] is the one of the call [rid] on the channel [ch]. *)
Definition node_for (h : gmap ptr (Node timeoutval)) (rid : Z) (ch : positive) (p : ptr) : Prop :=
  ∃ n e, h !! p = Some n ∧ cbid n = rid ∧ timeOutCb n = Some (TimeoutChan ch e).

(** Who sends: [None] is the manager. *)
Definition sender (h : gmap ptr (Node timeoutval)) (m : manager) (gos : gmap positive goroutine)
    (x : option positive) (rid : Z) (ch : positive) : Prop :=
  match x with
  | None => ∃ now c prv e, m = InTimeOut now c prv (TimeoutChan ch e) ∧ node_for h rid ch c
  | Some g => ∃ st, gos !! g = Some st ∧ sends_on st = Some (rid, ch)
  end.

(** ** The invariant *)

Definition mgr_ok (h : gmap ptr (Node timeoutval)) (m : manager) (ps : list ptr) : Prop :=
  match m with
  | Select => True
  | Ticking _ cur => cur = last ps
  | InTimeOut _ c prv t => ∃ l rid ch e, ps = l ++ [c] ∧ prv = last l ∧ t = TimeoutChan ch e ∧ node_for h rid ch c
  end.

(** The ids of calls that are not registered yet. *)
Definition calling (st : goroutine) : option Z := match st with Calling k => Some (k_rid k) | _ => None end.

Record calls_inv (cb : CbState cbval timeoutval) (gid : Z) (nextch : positive) (m : manager)
    (gos : gmap positive goroutine) (ps : list ptr) : Prop := {
  ci_cb : cb_inv cb ps;
  ci_mgr : mgr_ok (heap cb) m ps;
  ci_gid : 0 ≤ gid;
  ci_nodes p n : heap cb !! p = Some n →
    0 < cbid n ≤ gid ∧ ∃ ch e, timeOutCb n = Some (TimeoutChan ch e) ∧ (ch < nextch)%positive;
  ci_node_rid rid ch ch' p p' : node_for (heap cb) rid ch p → node_for (heap cb) rid ch' p' → p = p';
  ci_node_ch rid rid' ch p p' : node_for (heap cb) rid ch p → node_for (heap cb) rid' ch p' → p = p';
  ci_calling g st rid : gos !! g = Some st → calling st = Some rid →
    0 < rid ≤ gid ∧ (∀ ch p, ¬ node_for (heap cb) rid ch p) ∧
    (∀ g' st', gos !! g' = Some st' → calling st' = Some rid → g' = g);
  ci_entry rid cbs p : gCbMap cb !! rid = Some (cbs, p) →
    ∃ ch g, cbs = CbChan ch ∧ node_for (heap cb) rid ch p ∧ owner gos g rid ch;
  ci_owner g rid ch : owner gos g rid ch → ∃ p, node_for (heap cb) rid ch p ∧
    (gCbMap cb !! rid = Some (CbChan ch, p) ∧ (p ∈ chQueueAdd cb ∨ p ∈ ps) ∨
     gCbMap cb !! rid = None ∧ ∃ x, sender (heap cb) m gos x rid ch);
  ci_owner_inj g g' rid ch ch' : owner gos g rid ch → owner gos g' rid ch' → g = g';
  ci_adding g k ch p c msg : gos !! g = Some (Adding k ch p c msg) → node_for (heap cb) (k_rid k) ch p;
  ci_add p : p ∈ chQueueAdd cb → ∃ g k ch c msg, gos !! g = Some (Adding k ch p c msg);
  ci_del p : p ∈ chQueueDel cb → ∃ rid ch, node_for (heap cb) rid ch p ∧ gCbMap cb !! rid = None;
  ci_sender x rid ch : sender (heap cb) m gos x rid ch → gCbMap cb !! rid = None ∧ ∃ g, owner gos g rid ch;
  ci_sender_inj x y rid ch ch' :
    sender (heap cb) m gos x rid ch → sender (heap cb) m gos y rid ch' → x = y;
}.

Definition sys_inv (s : Sys) : Prop :=
  ∃ ps, calls_inv (w_cb (s_world s)) (w_gid (s_world s)) (w_nextch (s_world s)) (s_mgr s) (s_gos s) ps.

Lemma node_for_same_data h h' rid ch p : same_data h h' → node_for h rid ch p ↔ node_for h' rid ch p.
Proof.
  intros Hd. specialize (Hd p). unfold node_for, data in *.
  destruct (h' !! p) as [n'|], (h !! p) as [n|]; try discriminate Hd; [|naive_solver].
  injection Hd as H1 H2 H3. split; intros (? & e & [= <-] & ? & ?); eexists _, e; split_and!; (done || congruence).
Qed.

Lemma node_for_rid h rid ch rid' ch' p : node_for h rid ch p → node_for h rid' ch' p → rid = rid' ∧ ch = ch'.
Proof. intros (n & e & Hn & ? & ?) (n' & e' & Hn' & ? & ?). naive_solver. Qed.

(** A goroutine changes without touching the manager's state: it keeps what it is to receive and to send. *)
Lemma inv_go cb gid nextch m gos ps g st st' :
  calls_inv cb gid nextch m gos ps → gos !! g = Some st → owns st' = owns st → sends_on st' = sends_on st →
  calling st' = None → (∀ k ch p c msg, st' ≠ Adding k ch p c msg) →
  (∀ k ch p c msg, st = Adding k ch p c msg → p ∉ chQueueAdd cb) →
  calls_inv cb gid nextch m (<[g := st']> gos) ps.
Proof.
  intros Hi Hg Ho Hs Hc Ha Hq.
  assert (∀ g' rid ch, owner (<[g := st']> gos) g' rid ch ↔ owner gos g' rid ch) as Hown.
  { intros g' rid ch. unfold owner. rewrite lookup_insert. case_decide; [subst g'|done]. rewrite Hg. naive_solver congruence. }
  assert (∀ h x rid ch, sender h m (<[g := st']> gos) x rid ch ↔ sender h m gos x rid ch) as Hsnd.
  { intros h [g'|] rid ch; [|done]. cbn. rewrite lookup_insert. case_decide; [subst g'|done]. rewrite Hg. naive_solver congruence. }
  destruct Hi. split; try assumption.
  - intros g' st1 rid. rewrite lookup_insert. case_decide; [intros [= <-]; congruence|].
    intros Hg' Hcl. destruct (ci_calling0 g' st1 rid Hg' Hcl) as (H1 & H2 & H3). split_and!; [apply H1..|done|].
    intros g2 st2. rewrite lookup_insert. case_decide; [intros [= <-]; congruence|apply H3].
  - intros rid cbs p H. destruct (ci_entry0 rid cbs p H) as (ch & g' & ? & ? & ?). exists ch, g'. by rewrite Hown.
  - intros g' rid ch H%Hown. destruct (ci_owner0 g' rid ch H) as (p & Hp & [?|[? [x Hx]]]); exists p; split; [done| |done|].
    + by left.
    + right. split; [done|]. exists x. by apply Hsnd.
  - intros g1 g2 rid ch ch' H1%Hown H2%Hown. by eapply ci_owner_inj0.
  - intros g' k ch p c msg. rewrite lookup_insert. case_decide; [|apply ci_adding0]. intros [= E]. by destruct (Ha k ch p c msg).
  - intros p Hp. destruct (ci_add0 p Hp) as (g' & k & ch & c & msg & Hg'). exists g', k, ch, c, msg.
    rewrite lookup_insert_ne; [done|]. intros <-. rewrite Hg in Hg'. injection Hg' as ->. by eapply Hq.
  - intros x rid ch H%Hsnd. destruct (ci_sender0 x rid ch H) as [? [g' ?]]. split; [done|]. exists g'. by apply Hown.
  - intros x y rid ch ch' H1%Hsnd H2%Hsnd. by eapply ci_sender_inj0.
Qed.

(** The manager changes the queue: it keeps the nodes of the calls that have an entry. *)
Lemma inv_cb cb cb' gid nextch m m' gos ps ps' :
  calls_inv cb gid nextch m gos ps → cb_inv cb' ps' → mgr_ok (heap cb') m' ps' →
  same_data (heap cb) (heap cb') → gCbMap cb' = gCbMap cb →
  (∀ p, p ∈ chQueueAdd cb' → p ∈ chQueueAdd cb) → (∀ p, p ∈ chQueueDel cb' → p ∈ chQueueDel cb) →
  (∀ rid ch p, node_for (heap cb) rid ch p → is_Some (gCbMap cb !! rid) →
     p ∈ chQueueAdd cb ∨ p ∈ ps → p ∈ chQueueAdd cb' ∨ p ∈ ps') →
  (∀ rid ch, sender (heap cb) m' gos None rid ch ↔ sender (heap cb) m gos None rid ch) →
  calls_inv cb' gid nextch m' gos ps'.
Proof.
  intros Hi Hcb Hm Hd Hmap Hadd Hdel Hq Hs.
  assert (∀ rid ch p, node_for (heap cb') rid ch p ↔ node_for (heap cb) rid ch p) as Hn.
  { intros. symmetry. by apply node_for_same_data. }
  assert (∀ x rid ch, sender (heap cb') m' gos x rid ch ↔ sender (heap cb) m gos x rid ch) as Hsnd.
  { intros [g|] rid ch; [done|]. rewrite <- Hs. cbn. split; intros (now & c & prv & e & ? & ?%Hn); naive_solver. }
  destruct Hi. split; try assumption.
  - intros p n Hp. specialize (Hd p). rewrite Hp in Hd. destruct (heap cb !! p) as [n'|] eqn:E; [|discriminate Hd].
    injection Hd as E1 _ E3. rewrite E1, E3. by apply (ci_nodes0 p).
  - intros rid ch ch' p p' H1%Hn H2%Hn. by eapply ci_node_rid0.
  - intros rid rid' ch p p' H1%Hn H2%Hn. by eapply ci_node_ch0.
  - intros g st rid Hg Hc. destruct (ci_calling0 g st rid Hg Hc) as (H1 & H2 & H3).
    split; [exact H1|]. split; [|exact H3]. intros ch p ?%Hn. by eapply H2.
  - intros rid cbs p. rewrite Hmap. intros H. destruct (ci_entry0 rid cbs p H) as (ch & g & ? & ? & ?).
    exists ch, g. by rewrite Hn.
  - intros g rid ch H. rewrite Hmap. destruct (ci_owner0 g rid ch H) as (p & Hp & [[E Hin]|[E [x Hx]]]); exists p.
    + rewrite Hn. split; [done|]. left. split; [done|]. by eapply Hq.
    + rewrite Hn. split; [done|]. right. split; [done|]. exists x. by apply Hsnd.
  - intros g k ch p c msg H. apply Hn. by eapply ci_adding0.
  - intros p Hp. by apply ci_add0, Hadd.
  - intros p Hp. rewrite Hmap. destruct (ci_del0 p (Hdel p Hp)) as (rid & ch & ? & ?). exists rid, ch. by rewrite Hn.
  - intros x rid ch H%Hsnd. rewrite Hmap. by apply (ci_sender0 x).
  - intros x y rid ch ch' H1%Hsnd H2%Hsnd. by eapply ci_sender_inj0.
Qed.

(** A value is delivered: the receiver and the sender [x] go on. *)
Lemma inv_delivered cb gid nextch m m' gos gos' ps x g rid ch :
  calls_inv cb gid nextch m gos ps → sender (heap cb) m gos x rid ch →
  (∃ k, gos !! g = Some (Waiting k ch) ∧ k_rid k = rid) → mgr_ok (heap cb) m' ps →
  (∀ g', g' ≠ g → Some g' ≠ x → gos' !! g' = gos !! g') →
  (∀ g' st, g' = g ∨ Some g' = x → gos' !! g' = Some st → owns st = None ∧ sends_on st = None ∧ calling st = None) →
  (∀ rid' ch', sender (heap cb) m' gos' None rid' ch' ↔ sender (heap cb) m gos None rid' ch' ∧ x ≠ None) →
  calls_inv cb gid nextch m' gos' ps.
Proof.
  intros Hi Hx (k & Hg & Hk) Hm Hne Heq Hnone.
  assert (owner gos g rid ch) as Hog by (exists (Waiting k ch); split; [done|]; cbn; by rewrite Hk).
  assert (∀ g', Some g' = x → ∃ st, gos !! g' = Some st ∧ sends_on st = Some (rid, ch)) as Hxs.
  { intros g' <-. exact Hx. }
  assert (∀ g' rid' ch', owner gos' g' rid' ch' → g' ≠ g ∧ owner gos g' rid' ch') as Hown.
  { intros g' rid' ch' (st & Hst & Ho).
    assert (g' ≠ g ∧ Some g' ≠ x) as [? ?] by (split; intros E; destruct (Heq g' st) as [? _]; [tauto|done|congruence|tauto|done|congruence]).
    split; [done|]. exists st. by rewrite <- Hne. }
  assert (∀ g' rid' ch', g' ≠ g → owner gos g' rid' ch' → owner gos' g' rid' ch') as Hown'.
  { intros g' rid' ch' Hgg (st & Hst & Ho). exists st. split; [|done]. rewrite Hne; [done..|].
    intros (st2 & Hst2 & Hs2)%Hxs. rewrite Hst in Hst2. injection Hst2 as <-. by destruct st as [| | | | | | |? [] ?|]. }
  assert (∀ y rid' ch', sender (heap cb) m' gos' y rid' ch' ↔ sender (heap cb) m gos y rid' ch' ∧ y ≠ x) as Hsnd.
  { intros [g'|] rid' ch'; [|rewrite Hnone; naive_solver]. cbn. split.
    - intros (st & Hst & Ho).
      assert (g' ≠ g ∧ Some g' ≠ x) as [? ?] by (split; intros E; destruct (Heq g' st) as (_ & ? & _); [tauto|done|congruence|tauto|done|congruence]).
      split; [|done]. exists st. by rewrite <- Hne.
    - intros [(st & Hst & Ho) Hgx]. exists st. rewrite Hne; [done| |done]. intros ->. rewrite Hg in Hst. by injection Hst as <-. }
  pose proof (ci_sender _ _ _ _ _ _ Hi x rid ch Hx) as [Hmn _].
  destruct Hi. split; try assumption.
  - intros g' st rid' Hg' Hc.
    assert (∀ g' st, gos' !! g' = Some st → is_Some (calling st) → gos !! g' = Some st) as Hold.
    { clear g' st Hg' Hc. intros g' st Hg' [? Hc]. rewrite <- Hne; [done|..]; intros E; destruct (Heq g' st) as (_ & _ & ?); (tauto || congruence). }
    destruct (ci_calling0 g' st rid') as (H1 & H2 & H3); [apply Hold; [done|by eexists]|done|].
    split; [exact H1|]. split; [exact H2|]. intros g2 st2 Hg2 Hc2. apply (H3 g2 st2); [|done]. apply Hold; [done|by eexists].
  - intros rid' cbs p H. destruct (ci_entry0 rid' cbs p H) as (ch' & g' & -> & Hn & Ho). exists ch', g'. split_and!; [done..|].
    apply Hown'; [|done]. intros ->. assert (rid = rid') as <-; [|congruence].
    destruct Hog as (st1 & H1 & H1'), Ho as (st2 & H2 & H2'). naive_solver congruence.
  - intros g' rid' ch' (Hgg & Ho)%Hown. destruct (ci_owner0 g' rid' ch' Ho) as (p & Hp & [?|[E [y Hy]]]); exists p; split; [done| |done|].
    + by left.
    + right. split; [done|]. exists y. apply Hsnd. split; [done|]. intros ->. apply Hgg.
      destruct (decide (rid' = rid)) as [->|Hr]; [by eapply ci_owner_inj0|].
      destruct x as [gx|].
      * destruct Hx as (s1 & ? & ?), Hy as (s2 & ? & ?). naive_solver congruence.
      * destruct Hx as (n1 & c1 & p1 & e1 & ? & ?), Hy as (n2 & c2 & p2 & e2 & ? & ?). simplify_eq.
        destruct (node_for_rid _ _ _ _ _ _ H0 H2). congruence.
  - intros g1 g2 rid' ch1 ch2 [_ H1]%Hown [_ H2]%Hown. by eapply ci_owner_inj0.
  - intros g' k' ch' p c msg Hg'. apply (ci_adding0 g' k' ch' p c msg). rewrite <- Hne; [done|..].
    + intros ->. by destruct (Heq g (Adding k' ch' p c msg)) as [? _]; [by left|done|].
    + intros E. by destruct (Heq g' (Adding k' ch' p c msg)) as [? _]; [by right|done|].
  - intros p Hp. destruct (ci_add0 p Hp) as (g' & k' & ch' & c & msg & Hg'). exists g', k', ch', c, msg.
    rewrite Hne; [done|congruence|]. intros (st & Hst & Hs)%Hxs. rewrite Hg' in Hst. by injection Hst as <-.
  - intros y rid' ch' [Hy Hyx]%Hsnd. destruct (ci_sender0 y rid' ch' Hy) as [? [g' Ho]]. split; [done|].
    exists g'. apply Hown'; [|done]. intros ->. apply Hyx.
    assert (rid = rid') as <-; [|by eapply ci_sender_inj0].
    destruct Hog as (st1 & H1 & H1'), Ho as (st2 & H2 & H2'). naive_solver congruence.
  - intros y z rid' ch1 ch2 [H1 _]%Hsnd [H2 _]%Hsnd. by eapply ci_sender_inj0.
Qed.

(** The entry of a call is taken out of the map by [x], which is to send then. *)
Lemma inv_taken cb gid nextch m m' gos gos' ps rid ch p x dels :
  calls_inv cb gid nextch m gos ps → gCbMap cb !! rid = Some (CbChan ch, p) →
  let cb' := mkCbState (heap cb) (queue cb) (delete rid (gCbMap cb)) (chQueueAdd cb) dels in
  cb_inv cb' ps → mgr_ok (heap cb) m' ps → (∀ q, q ∈ dels → q ∈ chQueueDel cb ∨ q = p) →
  (∀ g r c, owner gos' g r c ↔ owner gos g r c) →
  (∀ y r c, sender (heap cb) m' gos' y r c ↔ sender (heap cb) m gos y r c ∨ y = x ∧ r = rid ∧ c = ch) →
  (∀ g st, is_Some (calling st) → gos' !! g = Some st → gos !! g = Some st) →
  (∀ g k c q d msg, gos' !! g = Some (Adding k c q d msg) ↔ gos !! g = Some (Adding k c q d msg)) →
  calls_inv cb' gid nextch m' gos' ps.
Proof.
  intros Hi He cb' Hcb Hm Hdels Hown Hsnd Hcl Hadd.
  destruct (ci_entry _ _ _ _ _ _ Hi rid _ p He) as (? & g0 & [= <-] & Hnode & Hog).
  assert (∀ y r c, sender (heap cb) m gos y r c → r ≠ rid) as Hold.
  { intros y r c H ->. destruct (ci_sender _ _ _ _ _ _ Hi y rid c H). congruence. }
  destruct Hi. unfold cb' in *. split; cbn; try assumption.
  - intros g st r Hg Hc. destruct (ci_calling0 g st r) as (H1 & H2 & H3); [apply Hcl; [by eexists|done]|done|].
    split; [exact H1|]. split; [exact H2|]. intros g' st' Hg' Hc'. apply (H3 g' st'); [apply Hcl; [by eexists|done]|done].
  - intros r cbs q [Hr H]%lookup_delete_Some. destruct (ci_entry0 r cbs q H) as (c & g & -> & Hn & Ho).
    exists c, g. by rewrite Hown.
  - intros g r c Ho%Hown. destruct (ci_owner0 g r c Ho) as (q & Hq & Hcase). exists q. split; [done|].
    destruct (decide (r = rid)) as [->|Hr].
    + right. rewrite lookup_delete_eq. split; [done|]. exists x. apply Hsnd. right. split_and!; [done..|].
      pose proof (ci_node_rid0 _ _ _ _ _ Hq Hnode) as ->. by destruct (node_for_rid _ _ _ _ _ _ Hq Hnode).
    + rewrite lookup_delete_ne by done. destruct Hcase as [?|[? [y Hy]]]; [by left|]. right. split; [done|].
      exists y. apply Hsnd. by left.
  - intros g g' r c c' H1%Hown H2%Hown. by eapply ci_owner_inj0.
  - intros g k c q d msg Hg%Hadd. by eapply ci_adding0.
  - intros q Hq. destruct (ci_add0 q Hq) as (g & k & c & d & msg & Hg). exists g, k, c, d, msg. by apply Hadd.
  - intros q [Hq| ->]%Hdels.
    + destruct (ci_del0 q Hq) as (r & c & ? & ?). exists r, c. split; [done|]. by apply lookup_delete_None; right.
    + exists rid, ch. by rewrite lookup_delete_eq.
  - intros y r c [H|(-> & -> & ->)]%Hsnd.
    + destruct (ci_sender0 y r c H) as [? [g Ho]]. split; [by apply lookup_delete_None; right|]. exists g. by apply Hown.
    + rewrite lookup_delete_eq. split; [done|]. exists g0. by apply Hown.
  - intros y z r c c' [H1|(-> & -> & ->)]%Hsnd [H2|(-> & ? & ->)]%Hsnd; try done.
    + by eapply ci_sender_inj0.
    + by apply Hold in H1.
    + by apply Hold in H2.
Qed.

Lemma gid_next gid : 0 ≤ gid < 2 ^ 32 - 1 → u32 (gid + 1) = gid + 1.
Proof. intros. apply u32_small. lia. Qed.

(** A new call takes the next id. *)
Lemma inv_start cb gid nextch m gos ps g st k :
  calls_inv cb gid nextch m gos ps → gid < 2 ^ 32 - 1 → gos !! g = Some st → owns st = None → sends_on st = None →
  k_rid k = u32 (gid + 1) →
  calls_inv cb (u32 (gid + 1)) nextch m (<[g := Calling k]> gos) ps.
Proof.
  intros Hi Hlt Hg Ho Hs Hk. rewrite gid_next in * by (pose proof (ci_gid _ _ _ _ _ _ Hi); lia).
  apply (inv_go _ _ _ _ _ _ g st Idle) in Hi; [|done|done|done|done|done|intros * ->; discriminate Ho].
  assert (∀ g' r c, owner (<[g := Calling k]> gos) g' r c ↔ owner (<[g := Idle]> gos) g' r c) as Hown.
  { intros g' r c. unfold owner. rewrite !lookup_insert. case_decide; [|done]. naive_solver. }
  assert (∀ h x r c, sender h m (<[g := Calling k]> gos) x r c ↔ sender h m (<[g := Idle]> gos) x r c) as Hsnd.
  { intros h [g'|] r c; [|done]. cbn. rewrite !lookup_insert. case_decide; [|done]. naive_solver. }
  destruct Hi. split; try assumption.
  - lia.
  - intros p n Hp. destruct (ci_nodes0 p n Hp) as [? ?]. split; [lia|done].
  - assert (∀ p c, ¬ node_for (heap cb) (gid + 1) c p) as Hfresh.
    { intros p c (n & e & Hn & Hc & _). destruct (ci_nodes0 p n Hn) as [? _]. lia. }
    intros g' st' r. rewrite lookup_insert. case_decide as E; [subst g'|].
    + intros [= <-] [= <-]. rewrite Hk. split; [lia|]. split; [done|].
      intros g2 st2. rewrite lookup_insert. case_decide; [done|]. intros H2 Hc2.
      destruct (ci_calling0 g2 st2 (gid + 1)) as [? _]; [by rewrite lookup_insert_ne|done|lia].
    + intros Hg' Hc'. destruct (ci_calling0 g' st' r) as (H1 & H2 & H3); [by rewrite lookup_insert_ne|done|].
      split; [lia|]. split; [done|]. intros g2 st2. rewrite lookup_insert. case_decide as E2.
      * intros [= <-] [= Hr]. lia.
      * intros Hg2 Hc2. apply (H3 g2 st2); [by rewrite lookup_insert_ne|done].
  - intros r cbs p H. destruct (ci_entry0 r cbs p H) as (ch & g' & ? & ? & ?). exists ch, g'. by rewrite Hown.
  - intros g' r c H%Hown. destruct (ci_owner0 g' r c H) as (p & Hp & [?|[? [x Hx]]]); exists p; split; [done| |done|].
    + by left.
    + right. split; [done|]. exists x. by apply Hsnd.
  - intros g1 g2 r c c' H1%Hown H2%Hown. by eapply ci_owner_inj0.
  - intros g' k' c p d msg. rewrite lookup_insert. case_decide as E; [done|]. intros H. apply (ci_adding0 g' k' c p d msg).
    by rewrite lookup_insert_ne.
  - intros p Hp. destruct (ci_add0 p Hp) as (g' & k' & c & d & msg & Hg'). exists g', k', c, d, msg.
    rewrite lookup_insert in Hg'. rewrite lookup_insert. by case_decide.
  - intros x r c H%Hsnd. destruct (ci_sender0 x r c H) as [? [g' ?]]. split; [done|]. exists g'. by apply Hown.
  - intros x y r c c' H1%Hsnd H2%Hsnd. by eapply ci_sender_inj0.
Qed.

(** A call registers its callback. *)
(** A call registers its callback: one new node, and its goroutine owns it. *)
Section Begin.
  Context (cb : CbState cbval timeoutval) (gid : Z) (nextch : positive) (m : manager)
    (gos : gmap positive goroutine) (ps : list ptr) (g : positive) (k : Call) (c : positive) (msg : bytes).
  Context (Hi : calls_inv cb gid nextch m gos ps) (Hg : gos !! g = Some (Calling k)).
  Context (n0 : Node timeoutval) (Hid : cbid n0 = k_rid k) (e : string) (Htm : timeOutCb n0 = Some (TimeoutChan nextch e)).
Let p0 := fresh (dom (heap cb)).

Lemma begin_fresh : heap cb !! p0 = None.
Proof using All - (MP B A). apply not_elem_of_dom, is_fresh. Qed.

Lemma begin_node r ch q :
  node_for (<[p0 := n0]> (heap cb)) r ch q ↔ q = p0 ∧ r = k_rid k ∧ ch = nextch ∨ node_for (heap cb) r ch q.
Proof using All - (MP B A).
  pose proof begin_fresh. unfold node_for. rewrite lookup_insert. case_decide as E; [subst q|naive_solver]. split.
  - intros (n & e' & [= <-] & <- & Ht). rewrite Htm in Ht. injection Ht as <- _. by left.
  - intros [(_ & -> & ->)|(n & e' & ? & _)]; [|congruence]. by exists n0, e.
Qed.

Lemma begin_old r ch q : node_for (heap cb) r ch q → r ≠ k_rid k ∧ (ch < nextch)%positive.
Proof using All - (MP B A).
  intros Hq. split; [intros ->; destruct (ci_calling _ _ _ _ _ _ Hi g _ _ Hg eq_refl) as (_ & Hf & _); by eapply Hf|].
  destruct Hq as (n & e' & H1 & _ & H2). destruct (ci_nodes _ _ _ _ _ _ Hi q n H1) as [_ (ch' & e2 & H3 & ?)].
  rewrite H2 in H3. by injection H3 as <-.
Qed.

Lemma begin_owner g' r ch :
  owner (<[g := Adding k nextch p0 c msg]> gos) g' r ch ↔ g' = g ∧ r = k_rid k ∧ ch = nextch ∨ owner gos g' r ch.
Proof using All - (MP B A). unfold owner. rewrite lookup_insert. case_decide as E; [subst g'; rewrite Hg|]; naive_solver. Qed.

Lemma begin_owner_old g' r ch : owner gos g' r ch → r ≠ k_rid k.
Proof using All - (MP B A). intros Ho. destruct (ci_owner _ _ _ _ _ _ Hi g' r ch Ho) as (q & Hq & _). by eapply begin_old. Qed.

Lemma begin_sender x r ch :
  sender (<[p0 := n0]> (heap cb)) m (<[g := Adding k nextch p0 c msg]> gos) x r ch ↔ sender (heap cb) m gos x r ch.
Proof using All - (MP B A).
  pose proof begin_fresh. pose proof begin_node as Hn. destruct x as [g'|]; cbn.
  - rewrite lookup_insert. case_decide as E; [subst g'; rewrite Hg; naive_solver|done].
  - split; intros (now' & q & prv & e' & -> & Hq); exists now', q, prv, e'; (split; [done|]); [|by apply Hn; right].
    apply Hn in Hq as [(-> & _)|Hq]; [|done]. destruct (ci_mgr _ _ _ _ _ _ Hi) as (l & r' & ch' & e2 & _ & _ & _ & Hq).
    destruct Hq as (? & ? & ? & _). congruence.
Qed.

Lemma begin_mgr : mgr_ok (<[p0 := n0]> (heap cb)) m ps.
Proof using All - (MP B A).
  pose proof begin_node as Hn. pose proof (ci_mgr _ _ _ _ _ _ Hi) as Hm. clear Hi. destruct m as [| |t p prv tv]; cbn in *; try done.
  destruct Hm as (l & r & ch & e' & ? & ? & ? & ?). exists l, r, ch, e'. split_and!; [done..|]. apply Hn. by right.
Qed.

Lemma begin_nodes p n :
  <[p0 := n0]> (heap cb) !! p = Some n →
  0 < cbid n ≤ gid ∧ ∃ ch e, timeOutCb n = Some (TimeoutChan ch e) ∧ (ch < Pos.succ nextch)%positive.
Proof using All - (MP B A).
  destruct (ci_calling _ _ _ _ _ _ Hi g _ _ Hg eq_refl) as (Hk & _). rewrite lookup_insert. case_decide.
  - intros [= <-]. rewrite Hid. split; [done|]. eexists _, _. split; [exact Htm|]. lia.
  - intros Hp. destruct (ci_nodes _ _ _ _ _ _ Hi p n Hp) as (? & ch & e' & ? & ?). split; [done|]. exists ch, e'. split; [done|]. lia.
Qed.

Lemma begin_calling g' st r :
  <[g := Adding k nextch p0 c msg]> gos !! g' = Some st → calling st = Some r →
  0 < r ≤ gid ∧ (∀ ch p, ¬ node_for (<[p0 := n0]> (heap cb)) r ch p) ∧
  (∀ g2 st', <[g := Adding k nextch p0 c msg]> gos !! g2 = Some st' → calling st' = Some r → g2 = g').
Proof using All - (MP B A).
  rewrite lookup_insert. case_decide; [intros [= <-]; done|]. intros Hg' Hc.
  destruct (ci_calling _ _ _ _ _ _ Hi g' st r Hg' Hc) as (H1 & H2 & H3). split; [done|]. split.
  - intros ch q [(-> & -> & ->)|Hq]%begin_node; [|by eapply H2]. assert (g = g') by by eapply H3. done.
  - intros g2 st2. rewrite lookup_insert. case_decide; [intros [= <-]; done|apply H3].
Qed.

End Begin.

Lemma inv_begin cb gid nextch m gos ps g k now e c msg :
  calls_inv cb gid nextch m gos ps → gos !! g = Some (Calling k) →
  calls_inv (AddCallBack_map now (k_rid k) (CbChan nextch) 33 (Some (TimeoutChan nextch e)) cb) gid (Pos.succ nextch) m
    (<[g := Adding k nextch (fresh (dom (heap cb))) c msg]> gos) ps.
Proof.
  intros Hi Hg. pose proof (AddCallBack_map_inv now (k_rid k) (CbChan nextch) 33 (Some (TimeoutChan nextch e)) _ _
    (ci_cb _ _ _ _ _ _ Hi)) as Hcb'.
  unfold AddCallBack_map in *. set (n0 := mkNode _ _ _ _ _) in *.
  pose proof (begin_node _ _ _ _ _ _ _ _ c msg Hi Hg n0 eq_refl e eq_refl) as Hn.
  pose proof (begin_old _ _ _ _ _ _ _ _ c msg Hi Hg n0 eq_refl e eq_refl) as Hold.
  pose proof (begin_owner _ _ _ _ _ _ _ _ c msg Hi Hg n0 eq_refl e eq_refl) as Hown.
  pose proof (begin_owner_old _ _ _ _ _ _ _ _ c msg Hi Hg n0 eq_refl e eq_refl) as Hor.
  pose proof (begin_sender _ _ _ _ _ _ _ _ c msg Hi Hg n0 eq_refl e eq_refl) as Hsnd.
  pose proof (begin_mgr _ _ _ _ _ _ _ _ c msg Hi Hg n0 eq_refl e eq_refl) as Hmgr.
  pose proof (begin_nodes _ _ _ _ _ _ _ _ c msg Hi Hg n0 eq_refl e eq_refl) as Hnodes.
  pose proof (begin_calling _ _ _ _ _ _ _ _ c msg Hi Hg n0 eq_refl e eq_refl) as Hcalling.
  set (p0 := fresh (dom (heap cb))) in *. destruct Hi. split; cbn; try done.
  - intros r ch ch' q q' [(-> & -> & ->)|H1]%Hn [(-> & ? & ->)|H2]%Hn; [done| | |by eapply ci_node_rid0].
    + by destruct (Hold _ _ _ H2).
    + by destruct (Hold _ _ _ H1).
  - intros r r' ch q q' [(-> & -> & ->)|H1]%Hn [(-> & -> & ?)|H2]%Hn; [done| | |by eapply ci_node_ch0].
    + destruct (Hold _ _ _ H2). lia.
    + destruct (Hold _ _ _ H1). lia.
  - intros r cbs q. rewrite lookup_insert. case_decide as E.
    + intros [= <- <-]. exists nextch, g. split; [done|]. split; [apply Hn; by left|apply Hown; by left].
    + intros H. destruct (ci_entry0 r cbs q H) as (ch & g' & ? & ? & ?). exists ch, g'.
      split; [done|]. split; [apply Hn; by right|apply Hown; by right].
  - intros g' r ch [(-> & -> & ->)|Ho]%Hown.
    + exists p0. split; [apply Hn; by left|]. left. rewrite lookup_insert_eq. split; [done|]. left. set_solver.
    + pose proof (Hor _ _ _ Ho). destruct (ci_owner0 g' r ch Ho) as (q & Hq & Hcase). exists q. rewrite lookup_insert_ne by done.
      split; [apply Hn; by right|]. destruct Hcase as [[? Hin]|[? [x Hx]]].
      * left. split; [done|]. set_solver.
      * right. split; [done|]. exists x. by apply Hsnd.
  - intros g1 g2 r ch ch' [(-> & -> & ->)|H1]%Hown [(-> & ? & ->)|H2]%Hown; [done| | |by eapply ci_owner_inj0].
    + by apply Hor in H2.
    + by apply Hor in H1.
  - intros g' k' ch q d msg'. rewrite lookup_insert. case_decide.
    + intros [= <- <- <- _ _]. apply Hn. by left.
    + intros Hg'. apply Hn. right. by eapply ci_adding0.
  - intros q [Hq| ->%list_elem_of_singleton]%elem_of_app.
    + destruct (ci_add0 q Hq) as (g' & k' & ch & d & msg' & Hg'). exists g', k', ch, d, msg'.
      rewrite lookup_insert_ne; [done|congruence].
    + exists g, k, nextch, c, msg. apply lookup_insert_eq.
  - intros q Hq. destruct (ci_del0 q Hq) as (r & ch & H1 & H2). exists r, ch. split; [apply Hn; by right|].
    rewrite lookup_insert_ne; [done|]. by apply Hold in H1 as [? _].
  - intros x r ch H%Hsnd. destruct (ci_sender0 x r ch H) as [? [g' Ho]]. split.
    + rewrite lookup_insert_ne; [done|]. by apply Hor in Ho.
    + exists g'. apply Hown. by right.
  - intros x y r ch ch' H1%Hsnd H2%Hsnd. by eapply ci_sender_inj0.
Qed.

(** What the local steps do to the manager's state. *)

Definition cb_frame w w' : Prop := w_cb w' = w_cb w ∧ w_gid w' = w_gid w ∧ w_nextch w' = w_nextch w.

Lemma RpcCall_begin_cases k w :
  let '(r, w') := RpcCall_begin k w in
  cb_frame w w' ∧ (after r = Idle ∨ after r = Returned EmptyString GNil) ∨
  (∃ now e c msg, after r = Adding k (w_nextch w) (fresh (dom (heap (w_cb w)))) c msg ∧
     w_cb w' = AddCallBack_map now (k_rid k) (CbChan (w_nextch w)) 33 (Some (TimeoutChan (w_nextch w) e)) (w_cb w) ∧
     w_gid w' = w_gid w ∧ w_nextch w' = Pos.succ (w_nextch w)) ∨
  k_rid k = 0.
Proof.
  unfold RpcCall_begin, mbind, M_bind, gets, lift_result, balance_client, make_chan, AddCb_map, mret, M_ret.
  destruct (MessageEncode _) as [msg| |]; [|by left; split; [|left]..].
  destruct (bal_pick _) as [[e l]| |]; [|by left; split; [|left]..].
  destruct (GetTcpClient e _) as [c|]; [|by left; split; [|right]].
  destruct (Z.eqb_spec (k_rid k) 0); [by right; right|]. right. left. eexists _, _, c, msg. by split_and!.
Qed.

Lemma RpcCall_send_frame k ch c msg w : cb_frame w (RpcCall_send k ch c msg w).2.
Proof.
  unfold RpcCall_send, mbind, M_bind, deref_client, MessageSend, mret, M_ret. cbn.
  destruct (w_clients w !! c); [|done]. repeat case_bool_decide; cbn; by destruct (k_rid k =? 0).
Qed.

(** The send of a call did not fail. *)
Definition sends_ok (s : Sys) (l : label) : Prop :=
  ∀ g k ch c msg, l = LGo g → s_gos s !! g = Some (Sending k ch c msg) → k_rid k ≠ 0 →
    (RpcCall_send k ch c msg (s_world s)).1 = Ok (Waiting k ch).

Lemma inv_frame cb gid nextch m gos ps w :
  calls_inv cb gid nextch m gos ps → w_cb w = cb → w_gid w = gid → w_nextch w = nextch → sys_inv (mkSys w m gos).
Proof. intros H <- <- <-. by exists ps. Qed.

Lemma go_inv g st s :
  sys_inv s → s_gos s !! g = Some st → runs st (s_world s) = true → sends_ok s (LGo g) →
  sys_inv (resume g (go_on st) s).
Proof.
  destruct s as [w m gos]. intros [ps Hi] Hg Hr Hs. cbn [s_world s_mgr s_gos] in *. unfold resume. cbn [s_world s_mgr s_gos].
  destruct st as [|k|k ch p c msg|k ch c msg|k ch|e rp|req|req [|ch|] p|req ch]; cbn [go_on runs] in *; try discriminate Hr.
  - pose proof (RpcCall_begin_cases k w) as Hc. destruct (RpcCall_begin k w) as [r w'].
    destruct Hc as [[(Hcb & Hgd & Hnx) Hst]|[(now & e & c & msg & -> & Hcb & Hgd & Hnx)|H0]].
    + apply (inv_frame (w_cb w) (w_gid w) (w_nextch w) m _ ps); [|done..].
      destruct Hst as [-> | ->]; apply (inv_go _ _ _ _ _ _ g (Calling k)); done.
    + eapply (inv_frame _ (w_gid w) _ m _ ps); [|exact Hcb|done|exact Hnx]. by apply inv_begin.
    + destruct (ci_calling _ _ _ _ _ _ Hi g _ _ Hg eq_refl) as [? _]. lia.
  - apply bool_decide_eq_true in Hr. exists ps. apply (inv_go _ _ _ _ _ _ g (Adding k ch p c msg)); try done.
    + cbn. destruct (Z.eqb_spec (k_rid k) 0) as [E|]; [|done].
      pose proof (ci_adding _ _ _ _ _ _ Hi g _ _ _ _ _ Hg) as (n & e & Hn & Hc & _).
      destruct (ci_nodes _ _ _ _ _ _ Hi p n Hn) as [? _]. lia.
    + intros * [= -> -> -> -> ->]. done.
  - pose proof (RpcCall_send_frame k ch c msg w) as (Hcb & Hgd & Hnx).
    specialize (Hs g k ch c msg eq_refl Hg). cbn [s_world] in Hs.
    destruct (RpcCall_send k ch c msg w) as [r w'] eqn:E. cbn [fst snd] in *.
    apply (inv_frame (w_cb w) (w_gid w) (w_nextch w) m _ ps); [|done..].
    destruct (Z.eqb_spec (k_rid k) 0) as [E0|E0].
    + assert (after r = Returned EmptyString GNil ∨ after r = Idle) as Hst.
      { unfold RpcCall_send, mbind, M_bind in E. destruct (deref_client _ w) as [[c0| |] w1]; [|injection E as <- _; by right..].
        destruct (MessageSend _ _ w1) as [[b| |] w2]; [|injection E as <- _; by right..].
        destruct b; cbn in E; [rewrite E0 in E|]; injection E as <- _; by left. }
      destruct Hst as [-> | ->]; apply (inv_go _ _ _ _ _ _ g (Sending k ch c msg)); try done; cbn; by rewrite E0.
    + rewrite (Hs E0). apply (inv_go _ _ _ _ _ _ g (Sending k ch c msg)); try done.
      cbn. by rewrite (proj2 (Z.eqb_neq _ _) E0).
  - exists ps. by apply (inv_go _ _ _ _ _ _ g (Returned e rp)).
  - unfold RpcRsp_begin, GetCallBack_map. destruct (gCbMap (w_cb w) !! Rid req) as [[cbs p]|] eqn:E; cbn [after snd].
    + destruct (ci_entry _ _ _ _ _ _ Hi _ _ _ E) as (ch & _ & -> & _).
      exists ps. cbn [s_world s_mgr s_gos w_cb w_gid w_nextch set_cb].
      pose proof (GetCallBack_map_inv (Rid req) _ _ (ci_cb _ _ _ _ _ _ Hi)) as Hcb. unfold GetCallBack_map in Hcb. rewrite E in Hcb.
      apply (inv_taken _ _ _ m m gos _ ps (Rid req) ch p (Some g) _ Hi E Hcb).
      * apply Hi.
      * set_solver.
      * intros g' r c. unfold owner. rewrite lookup_insert. case_decide; [subst g'; rewrite Hg; naive_solver|done].
      * intros [g'|] r c; cbn; [|naive_solver]. rewrite lookup_insert. case_decide; [subst g'; rewrite Hg; naive_solver|]. naive_solver.
      * intros g' st [? Hc]. rewrite lookup_insert. case_decide; [intros [= <-]; done|done].
      * intros g' k c q d msg. rewrite lookup_insert. case_decide; [subst g'; rewrite Hg; naive_solver|done].
    + eapply (inv_frame (w_cb w) (w_gid w) (w_nextch w) m _ ps); [by apply (inv_go _ _ _ _ _ _ g (Responding req))| |done..].
      cbn. rewrite delete_id by done. by destruct (w_cb w).
  - exists ps. by apply (inv_go _ _ _ _ _ _ g (Deleting req (CbChan ch) p)).
Qed.

Lemma add_inv i s s' : sys_inv s → exec (LAdd i) s = Some s' → sys_inv s'.
Proof.
  destruct s as [w m gos]. intros [ps Hi] H. cbn in Hi, H. destruct m; [|done..].
  destruct (recv_QueueAdd_inv i (w_cb w) ps (ci_cb _ _ _ _ _ _ Hi)) as (cb' & ps' & E & Hcb & Hm & Hps & Hd & Hdel & Hadd).
  rewrite E in H. injection H as <-. exists ps'. cbn.
  assert (∀ p, p ∈ ps' ↔ p ∈ ps ∨ chQueueAdd (w_cb w) !! i = Some p) as Hin.
  { intros p. subst ps'. destruct (chQueueAdd (w_cb w) !! i) as [q|]; [|naive_solver].
    rewrite spec_add_perm, elem_of_cons. naive_solver. }
  assert (∀ p, p ∈ chQueueAdd (w_cb w) → p ∈ chQueueAdd cb' ∨ p ∈ ps') as Hq.
  { intros p Hp. rewrite Hin, Hadd. destruct (chQueueAdd (w_cb w) !! i) as [q|] eqn:Eq; [|by left].
    rewrite (delete_Permutation _ _ _ Eq), elem_of_cons in Hp. destruct Hp as [->|?]; [right; by right|by left]. }
  apply (inv_cb (w_cb w) cb' _ _ Select Select gos ps ps'); try done.
  - intros p. rewrite Hadd. destruct (chQueueAdd (w_cb w) !! i) as [q|] eqn:Eq; [|done].
    intros Hp. rewrite (delete_Permutation _ _ _ Eq). by right.
  - by rewrite Hdel.
  - intros rid ch p _ _ [Hp|Hp]; [by apply Hq|]. right. apply Hin. by left.
Qed.

Lemma del_inv i s s' : sys_inv s → exec (LDel i) s = Some s' → sys_inv s'.
Proof.
  destruct s as [w m gos]. intros [ps Hi] H. cbn in Hi, H. destruct m; [|done..].
  destruct (recv_QueueDel_inv i (w_cb w) ps (ci_cb _ _ _ _ _ _ Hi)) as (cb' & ps' & E & Hcb & Hm & _ & Hd & Hadd & Hdel & Hps).
  rewrite E in H. injection H as <-. exists ps'. cbn.
  apply (inv_cb (w_cb w) cb' _ _ Select Select gos ps ps'); try done.
  - by rewrite Hadd.
  - intros p. rewrite Hdel. destruct (chQueueDel (w_cb w) !! i) as [q|] eqn:Eq; [|done].
    intros Hp. rewrite (delete_Permutation _ _ _ Eq). by right.
  - intros rid ch p Hn [x Hx]. rewrite Hadd. intros [Hp|Hp]; [by left|]. right. apply Hps; [done|]. intros Ei.
    destruct (ci_del _ _ _ _ _ _ Hi p) as (rid' & ch' & Hn' & Hmap); [by eapply list_elem_of_lookup_2|].
    destruct (node_for_rid _ _ _ _ _ _ Hn Hn') as [-> _]. congruence.
Qed.

(** The node the manager looks at. *)
Lemma last_node cb gid nextch m gos ps c :
  calls_inv cb gid nextch m gos ps → last ps = Some c →
  ∃ l n ch e, ps = l ++ [c] ∧ heap cb !! c = Some n ∧ prev n = last l ∧ timeOutCb n = Some (TimeoutChan ch e) ∧
    node_for (heap cb) (cbid n) ch c ∧ c ∈ dom (heap cb).
Proof.
  intros Hi [l ->]%last_Some. pose proof (rep_seg _ _ _ (inv_rep _ _ (ci_cb _ _ _ _ _ _ Hi))) as Hs.
  apply seg_app in Hs as [_ (n & Hn & Hp & _)]. rewrite last_or_None in Hp.
  destruct (ci_nodes _ _ _ _ _ _ Hi c n Hn) as [_ (ch & e & Ht & _)]. exists l, n, ch, e. split_and!; try done.
  - by exists n, e.
  - apply elem_of_dom. by exists n.
Qed.

(** The node [c] leaves the queue; its call has no entry any more. *)
Lemma unlink_inv cb gid nextch m m' gos l c n ch h q :
  calls_inv cb gid nextch m gos (l ++ [c]) → heap cb !! c = Some n → node_for (heap cb) (cbid n) ch c →
  gCbMap cb !! cbid n = None → queueDel c (heap cb) (queue cb) = Ok (h, q) →
  (∀ rid ch, ¬ sender (heap cb) m gos None rid ch) → m' = Select ∨ (∃ now, m' = Ticking now (last l)) →
  calls_inv (mkCbState h q (gCbMap cb) (chQueueAdd cb) (chQueueDel cb)) gid nextch m' gos l.
Proof.
  intros Hi Hn Hc Hmap E Hs Hm.
  destruct (queueDel_inv c cb (l ++ [c]) (ci_cb _ _ _ _ _ _ Hi)) as (h' & q' & ps' & E' & Hd & Hcb & _ & Hel & Hl).
  { apply elem_of_dom. by exists n. }
  rewrite E in E'. injection E' as <- <-. specialize (Hl l eq_refl) as ->.
  apply (inv_cb cb _ _ _ m m' gos (l ++ [c]) l); try done.
  - by apply Hcb.
  - destruct Hm as [-> |[now ->]]; done.
  - intros rid ch' p Hp [x Hx] [Hin|Hin]; [by left|right]. cbn in *. apply Hel. split; [done|]. intros ->.
    destruct (node_for_rid _ _ _ _ _ _ Hp Hc) as [-> _]. congruence.
  - intros rid ch'. split; [|by intros ?%Hs]. intros (? & ? & ? & ? & ? & _). destruct Hm as [-> |[? ->]]; done.
Qed.

(** The manager moves on without being in a closure. *)
Lemma inv_mgr cb gid nextch m m' gos ps :
  calls_inv cb gid nextch m gos ps → mgr_ok (heap cb) m' ps →
  (∀ now c prv t, m ≠ InTimeOut now c prv t) → (∀ now c prv t, m' ≠ InTimeOut now c prv t) →
  calls_inv cb gid nextch m' gos ps.
Proof.
  intros Hi Hok H1 H2. apply (inv_cb cb cb _ _ m m' gos ps ps); try done; [apply Hi|].
  intros rid ch. split; intros (? & ? & ? & ? & E & _); [by apply H2 in E|by apply H1 in E].
Qed.

(** What the steps of the manager and of the goroutine it waits for leave as it is. *)
Definition quiet (st : goroutine) : Prop := match st with Adding _ _ _ _ _ | Sending _ _ _ _ => False | _ => True end.

Definition mgr_frame (s s' : Sys) : Prop :=
  w_clients (s_world s') = w_clients (s_world s) ∧ w_broken (s_world s') = w_broken (s_world s) ∧
  ∀ g st, s_gos s' !! g = Some st → s_gos s !! g = Some st ∨ quiet st.

Lemma scan_step w now cur gos ps :
  let s := mkSys w (Ticking now cur) gos in
  calls_inv (w_cb w) (w_gid w) (w_nextch w) (s_mgr s) gos ps →
  ∃ s' ps', exec LScan s = Some s' ∧ mgr_frame s s' ∧ w_gid (s_world s') = w_gid w ∧
    calls_inv (w_cb (s_world s')) (w_gid (s_world s')) (w_nextch (s_world s')) (s_mgr s') (s_gos s') ps' ∧
    match s_mgr s' with Ticking _ _ => (length ps' < length ps)%nat | _ => ps' = ps end.
Proof.
  intros s Hi. cbn in Hi. pose proof (ci_mgr _ _ _ _ _ _ Hi) as Hm. cbn in Hm.
  assert (∀ cb m, mgr_frame s (mkSys (set_cb cb w) m gos)) as Hf by (intros; split_and!; [done..|by left]).
  cbn. destruct cur as [c|]; cbn.
  - destruct (last_node _ _ _ _ _ _ c Hi (eq_sym Hm)) as (l & n & ch & e & -> & Hn & Hp & Ht & Hnode & Hdom).
    unfold load. rewrite Hn. cbn. destruct (endTime n <=? now).
    + rewrite Ht. case_bool_decide as Hok.
      * destruct Hok as [[cbs p] Ee].
        eexists _, (l ++ [c]). split; [done|]. split; [apply Hf|]. split; [done|]. split; [|done]. cbn.
        destruct (ci_entry _ _ _ _ _ _ Hi _ _ _ Ee) as (ch' & g & -> & Hn' & Ho).
        pose proof (ci_node_rid _ _ _ _ _ _ Hi _ _ _ _ _ Hnode Hn') as <-.
        destruct (node_for_rid _ _ _ _ _ _ Hnode Hn') as [_ <-].
        eapply (inv_taken _ _ _ _ _ gos gos (l ++ [c]) (cbid n) ch c None _ Hi Ee); try done.
        -- destruct (ci_cb _ _ _ _ _ _ Hi). split; cbn; try done. intros id cbs q [_ Hq]%lookup_delete_Some. by eapply inv_map.
        -- exists l, (cbid n), ch, e. by rewrite Hp.
        -- naive_solver.
        -- intros [g'|] r c'; cbn; [naive_solver|]. split.
           ++ intros (? & ? & ? & ? & [= <- <- <- <- <-] & Hr). right. split; [done|]. by destruct (node_for_rid _ _ _ _ _ _ Hr Hnode).
           ++ intros [(? & ? & ? & ? & ? & _)|(_ & -> & ->)]; [done|]. by eexists _, _, _, _.
      * destruct (queueDel_inv c _ _ (ci_cb _ _ _ _ _ _ Hi) Hdom) as (h & q & _ & E & _). rewrite E. cbn.
        assert (gCbMap (w_cb w) !! cbid n = None) as Hnone by (destruct (gCbMap (w_cb w) !! cbid n); [by destruct Hok|done]).
        eexists _, l. split; [done|]. split; [apply Hf|]. split; [done|]. split; [|cbn; rewrite length_app; cbn; lia].
        cbn. rewrite delete_id by done. eapply (unlink_inv _ _ _ _ _ _ l c n ch h q Hi); try done.
        -- by intros ? ? (? & ? & ? & ? & ? & _).
        -- right. exists now. by rewrite Hp.
    + eexists _, (l ++ [c]). split; [done|]. split; [apply Hf|]. split; [done|]. split; [|done].
      by apply (inv_mgr _ _ _ (Ticking now (Some c))).
  - eexists _, ps. split; [done|]. split; [apply Hf|]. split; [done|]. split; [|done]. by apply (inv_mgr _ _ _ (Ticking now None)).
Qed.

Lemma scan_inv s s' : sys_inv s → exec LScan s = Some s' → sys_inv s'.
Proof.
  destruct s as [w m gos]. intros [ps Hi] H. cbn [s_world s_mgr s_gos] in Hi.
  destruct m as [|now cur|]; [done| |done].
  destruct (scan_step w now cur gos ps Hi) as (s1 & ps' & E & _ & _ & H1 & _). rewrite H in E. injection E as <-. by exists ps'.
Qed.

Lemma timeout_step g w now c prv ch e k gos ps :
  let s := mkSys w (InTimeOut now c prv (TimeoutChan ch e)) gos in
  calls_inv (w_cb w) (w_gid w) (w_nextch w) (s_mgr s) gos ps → w_gid w < 2 ^ 32 - 1 → gos !! g = Some (Waiting k ch) →
  ∃ s' l, ps = l ++ [c] ∧ exec (LTimeOut g) s = Some s' ∧ s_mgr s' = Ticking now (last l) ∧ mgr_frame s s' ∧
    w_gid (s_world s') ≤ w_gid w + 1 ∧
    calls_inv (w_cb (s_world s')) (w_gid (s_world s')) (w_nextch (s_world s')) (s_mgr s') (s_gos s') l.
Proof.
  intros s Hi Hlt Hg. cbn in Hi.
  destruct (ci_mgr _ _ _ _ _ _ Hi) as (l & rid & ? & ? & -> & -> & [= <- <-] & Hnode).
  assert (sender (heap (w_cb w)) (s_mgr s) gos None rid ch) as Hx by (by eexists _, _, _, _).
  destruct (ci_sender _ _ _ _ _ _ Hi None rid ch Hx) as [Hmap [g' Ho]].
  assert (k_rid k = rid) as Hk.
  { destruct (ci_owner _ _ _ _ _ _ Hi g (k_rid k) ch) as (p & Hp & _); [by exists (Waiting k ch)|].
    pose proof (ci_node_ch _ _ _ _ _ _ Hi _ _ _ _ _ Hp Hnode) as ->. by destruct (node_for_rid _ _ _ _ _ _ Hp Hnode). }
  pose proof Hnode as (n & e0 & Hn & Hcid & _).
  (* the receiver has its value, the manager goes on *)
  assert (calls_inv (w_cb w) (w_gid w) (w_nextch w) Select (<[g := Idle]> gos) (l ++ [c])) as H1.
  { apply (inv_delivered _ _ _ _ Select gos _ _ None g rid ch Hi Hx); try done.
    - by exists k.
    - intros g1 Hg1 _. by rewrite lookup_insert_ne.
    - intros g1 st [-> |?]; [|done]. rewrite lookup_insert_eq. by intros [= <-].
    - intros r' c'. cbn. split; [by intros (? & ? & ? & ? & ? & _)|naive_solver]. }
  destruct (queueDel_inv c _ _ (ci_cb _ _ _ _ _ _ Hi)) as (h & q & _ & Eq & _); [apply elem_of_dom; by eexists|].
  assert (calls_inv (mkCbState h q (gCbMap (w_cb w)) (chQueueAdd (w_cb w)) (chQueueDel (w_cb w))) (w_gid w) (w_nextch w)
    (Ticking now (last l)) (<[g := Idle]> gos) l) as H2.
  { apply (unlink_inv _ _ _ Select _ _ l c n ch h q H1); try (by rewrite ?Hcid).
    - by intros ? ? (? & ? & ? & ? & ? & _).
    - right. by exists now. }
  assert (∀ st g' st', quiet st → <[g := st]> gos !! g' = Some st' → gos !! g' = Some st' ∨ quiet st') as Hq.
  { intros st g1 st' Hst. rewrite lookup_insert. case_decide; [intros [= <-]; by right|by left]. }
  cbn. rewrite Hg, bool_decide_eq_true_2 by done.
  unfold resume, RpcCall_timeout, timed_out. cbn [s_world s_mgr s_gos]. destruct (k_reSendCnt k) as [|cnt]; cbn; rewrite Eq; cbn.
  - eexists _, l. split; [done|]. split; [done|]. cbn. split; [done|]. split; [split_and!; [done..|intros g1 st1; by apply Hq]|]. split; [lia|].
    apply (inv_go _ _ _ _ _ _ g Idle (Returned e GNil)) in H2; [|by rewrite ?lookup_insert_eq|done..].
    by rewrite insert_insert_eq in H2.
  - eexists _, l. split; [done|]. split; [done|]. cbn. split; [done|]. split; [split_and!; [done..|intros g1 st1; by apply Hq]|].
    split; [change (u32 (w_gid w + 1) ≤ w_gid w + 1); rewrite gid_next by (pose proof (ci_gid _ _ _ _ _ _ Hi); lia); lia|].
    eapply (inv_start _ _ _ _ _ _ g Idle (mkCall (k_service k) (k_rpc k) (u32 (w_gid w + 1)) cnt (k_args k))) in H2;
      [|done|by rewrite lookup_insert_eq|done|done|done].
    by rewrite insert_insert_eq in H2.
Qed.

Lemma timeout_inv g s s' :
  sys_inv s → w_gid (s_world s) < 2 ^ 32 - 1 → exec (LTimeOut g) s = Some s' → sys_inv s'.
Proof.
  destruct s as [w m gos]. intros [ps Hi] Hlt H. pose proof H as H'. cbn [exec s_world s_mgr s_gos] in Hi, Hlt, H.
  destruct m as [|now cur|now c prv [ch e|]]; try discriminate H.
  destruct (gos !! g) as [[| | | |k ch'| | | |]|] eqn:Hg; try discriminate H.
  case_bool_decide as Ech; [subst ch'|discriminate H].
  destruct (timeout_step g w now c prv ch e k gos ps Hi Hlt Hg) as (s1 & l & _ & E & _ & _ & _ & H1).
  rewrite H' in E. injection E as <-. by exists l.
Qed.

Lemma reply_inv g g' s s' : sys_inv s → exec (LReply g g') s = Some s' → sys_inv s'.
Proof.
  destruct s as [w m gos]. intros [ps Hi] H. cbn [exec s_world s_mgr s_gos] in *.
  destruct (gos !! g) as [[| | | | | | | |req ch]|] eqn:Hg; try discriminate H.
  destruct (gos !! g') as [[| | | |k ch'| | | |]|] eqn:Hg'; try discriminate H.
  case_bool_decide as Ech; [subst ch'|discriminate H]. injection H as <-. exists ps. cbn.
  assert (sender (heap (w_cb w)) m gos (Some g) (Rid req) ch) as Hx by (by eexists).
  destruct (ci_sender _ _ _ _ _ _ Hi _ _ _ Hx) as [Hmap [g1 Ho]].
  assert (k_rid k = Rid req) as Hk.
  { destruct (ci_owner _ _ _ _ _ _ Hi g1 _ _ Ho) as (p1 & Hp1 & _).
    destruct (ci_owner _ _ _ _ _ _ Hi g' (k_rid k) ch) as (p & Hp & _); [by exists (Waiting k ch)|].
    pose proof (ci_node_ch _ _ _ _ _ _ Hi _ _ _ _ _ Hp Hp1) as ->. by destruct (node_for_rid _ _ _ _ _ _ Hp Hp1). }
  apply (inv_delivered _ _ _ m m gos _ _ (Some g) g' (Rid req) ch Hi Hx).
  - by exists k.
  - apply Hi.
  - intros g2 H1 H2. rewrite !lookup_insert_ne by congruence. done.
  - intros g2 st [-> |[= ->]].
    + rewrite lookup_insert_eq. by intros [= <-].
    + rewrite lookup_insert. case_decide; [by intros [= <-]|]. rewrite lookup_insert_eq. by intros [= <-].
  - intros r c. cbn. naive_solver.
Qed.

Lemma exec_inv l s s' :
  sys_inv s → w_gid (s_world s) < 2 ^ 32 - 1 → sends_ok s l → exec l s = Some s' → sys_inv s'.
Proof.
  intros Hi Hlt Hs H. destruct l as [g svc rpc args|g req|g|i|i| | |g|g g'|clock tcp cls broken].
  - destruct s as [w m gos], Hi as [ps Hi]. cbn in *. destruct (gos !! g) as [[]|] eqn:Hg; try done. injection H as <-.
    exists ps. by eapply (inv_start _ _ _ _ _ _ g Idle).
  - destruct s as [w m gos], Hi as [ps Hi]. cbn in *. destruct (gos !! g) as [[]|] eqn:Hg; try done. injection H as <-.
    exists ps. by eapply (inv_go _ _ _ _ _ _ g Idle).
  - cbn in H. destruct (s_gos s !! g) as [st|] eqn:Hg; [|done]. destruct (runs st (s_world s)) eqn:Hr; [|done].
    injection H as <-. by apply go_inv.
  - by eapply add_inv.
  - by eapply del_inv.
  - destruct s as [w m gos], Hi as [ps Hi]. cbn in *. destruct m; try done. injection H as <-. exists ps. cbn.
    apply (inv_mgr _ _ _ Select); [done| |done|done]. cbn. apply (rep_last _ _ _ (inv_rep _ _ (ci_cb _ _ _ _ _ _ Hi))).
  - by eapply scan_inv.
  - by eapply timeout_inv.
  - by eapply reply_inv.
  - injection H as <-. destruct Hi as [ps Hi]. by exists ps.
Qed.

(** ** Runs *)

(** A process before its first call. *)
Definition initial (s : Sys) : Prop :=
  w_cb (s_world s) = init_CbState ∧ 0 ≤ w_gid (s_world s) ∧ s_mgr s = Select ∧ ∀ g st, s_gos s !! g = Some st → st = Idle.

(** The states that are reached by the steps [ok], before identifiers wrap around
    and without a send of a call that failed. *)
Inductive reach (ok : label → Prop) (s0 : Sys) : Sys → Prop :=
  | reach_refl : reach ok s0 s0
  | reach_step s l s' :
      reach ok s0 s → ok l → w_gid (s_world s) < 2 ^ 32 - 1 → sends_ok s l → exec l s = Some s' → reach ok s0 s'.

Definition any (l : label) : Prop := True.

(** The steps of the manager, of the goroutines it waits for and of those that
    wait for it: nothing arrives, no time passes, no connection changes. *)
Definition internal (l : label) : Prop :=
  match l with LGo _ | LAdd _ | LDel _ | LScan | LTimeOut _ => True | _ => False end.

Lemma reach_one (ok : label → Prop) s l s' :
  ok l → w_gid (s_world s) < 2 ^ 32 - 1 → sends_ok s l → exec l s = Some s' → reach ok s s'.
Proof. intros. eapply reach_step; [apply reach_refl|done..]. Qed.

Lemma reach_trans (ok ok' : label → Prop) s1 s2 s3 :
  (∀ l, ok' l → ok l) → reach ok s1 s2 → reach ok' s2 s3 → reach ok s1 s3.
Proof. intros Hsub H12. induction 1; [done|]. eapply reach_step; eauto. Qed.

Lemma initial_inv s : initial s → sys_inv s.
Proof.
  intros (Hcb & Hgid & Hm & Hg). exists []. rewrite Hcb, Hm.
  assert (∀ g st, s_gos s !! g = Some st → owns st = None ∧ sends_on st = None ∧ calling st = None) as Hg'.
  { by intros g st ->%Hg. }
  assert (∀ g r c, ¬ owner (s_gos s) g r c) as Hno by (intros g r c (st & [? _]%Hg' & ?); congruence).
  assert (∀ h x r c, ¬ sender h Select (s_gos s) x r c) as Hns.
  { intros h [g|] r c; cbn; [intros (st & (_ & ? & _)%Hg' & ?); congruence|naive_solver]. }
  split.
  - apply init_inv.
  - done.
  - done.
  - by intros p n.
  - by intros ? ? ? ? ? (? & ? & ? & _).
  - by intros ? ? ? ? ? (? & ? & ? & _).
  - intros g st rid (_ & _ & ?)%Hg'. congruence.
  - by intros rid cbs p.
  - by intros ? ? ? ?%Hno.
  - by intros ? ? ? ? ? ?%Hno.
  - by intros g k ch p c msg Hk%Hg.
  - by intros p ?%elem_of_nil.
  - by intros p ?%elem_of_nil.
  - by intros ? ? ? ?%Hns.
  - by intros ? ? ? ? ? ?%Hns.
Qed.

Lemma reach_inv ok s0 s : sys_inv s0 → reach ok s0 s → sys_inv s.
Proof. intros H0. induction 1; [done|by eapply exec_inv]. Qed.

(** C12 Blocked goroutines are not forgotten.  In every state of a process in which
    no send of a call has failed, however its callers, the handlers of responses,
    the callback manager and the rest of the process were interleaved: when the
    manager waits in a timeout closure for the receiver of a channel, or a handler
    waits to pass on a response, then exactly one goroutine is to receive on that
    channel, and it is the caller whose id the response carries; the manager never
    waits for a caller that waits for the manager; no channel has two senders; and
    a caller that waits for its answer has either a sender or an entry whose node
    is in the queue of timeouts. *)
Theorem waiting_calls (s0 s : Sys) :
  initial s0 → reach any s0 s →
  let cb := w_cb (s_world s) in
  (∀ now c prv ch e, s_mgr s = InTimeOut now c prv (TimeoutChan ch e) →
    ∃ g rid, owner (s_gos s) g rid ch ∧ (∀ g' rid', owner (s_gos s) g' rid' ch → g' = g) ∧
      ∀ k p cl msg, s_gos s !! g = Some (Adding k ch p cl msg) → p ∉ chQueueAdd cb) ∧
  (∀ g req ch, s_gos s !! g = Some (Replying req ch) →
    ∃ g', owner (s_gos s) g' (Rid req) ch ∧ ∀ g2 rid', owner (s_gos s) g2 rid' ch → g2 = g') ∧
  (∀ x y rid rid' ch, sender (heap cb) (s_mgr s) (s_gos s) x rid ch → sender (heap cb) (s_mgr s) (s_gos s) y rid' ch → x = y) ∧
  (∀ g k ch, s_gos s !! g = Some (Waiting k ch) →
    (∃ x, sender (heap cb) (s_mgr s) (s_gos s) x (k_rid k) ch) ∨
    ∃ p ps, gCbMap cb !! k_rid k = Some (CbChan ch, p) ∧ rep (heap cb) (queue cb) ps ∧ p ∈ ps).
Proof.
  intros H0 Hr cb. destruct (reach_inv any s0 s (initial_inv s0 H0) Hr) as [ps Hi].
  assert (∀ g g' rid rid' ch, owner (s_gos s) g rid ch → owner (s_gos s) g' rid' ch → g' = g ∧ rid' = rid) as Huniq.
  { intros g g' rid rid' ch H1 H2.
    destruct (ci_owner _ _ _ _ _ _ Hi _ _ _ H1) as (p1 & Hp1 & _), (ci_owner _ _ _ _ _ _ Hi _ _ _ H2) as (p2 & Hp2 & _).
    pose proof (ci_node_ch _ _ _ _ _ _ Hi _ _ _ _ _ Hp1 Hp2) as ->.
    destruct (node_for_rid _ _ _ _ _ _ Hp1 Hp2) as [-> _]. split; [|done]. by eapply (ci_owner_inj _ _ _ _ _ _ Hi). }
  assert (∀ x rid ch, sender (heap cb) (s_mgr s) (s_gos s) x rid ch →
    ∃ g, owner (s_gos s) g rid ch ∧ ∀ g' rid', owner (s_gos s) g' rid' ch → g' = g) as Hsnd.
  { intros x rid ch Hx. destruct (ci_sender _ _ _ _ _ _ Hi x rid ch Hx) as [_ [g Ho]]. exists g. split; [done|].
    intros g' rid' Ho'. by destruct (Huniq _ _ _ _ _ Ho Ho'). }
  split_and!.
  - intros now c prv ch e Hm. pose proof (ci_mgr _ _ _ _ _ _ Hi) as Hok. rewrite Hm in Hok.
    destruct Hok as (l & rid & ? & ? & -> & _ & [= <- <-] & Hn).
    destruct (Hsnd None rid ch) as (g & Ho & Hu); [by eexists _, _, _, _|]. exists g, rid. split_and!; [done..|].
    intros k p cl msg Hg Hin. pose proof (ci_adding _ _ _ _ _ _ Hi g _ _ _ _ _ Hg) as Hp.
    pose proof (ci_node_ch _ _ _ _ _ _ Hi _ _ _ _ _ Hp Hn) as ->.
    destruct (inv_add _ _ (ci_cb _ _ _ _ _ _ Hi) c Hin) as [_ []]. set_solver.
  - intros g req ch Hg. apply (Hsnd (Some g)). by eexists.
  - intros x y rid rid' ch Hx Hy. destruct (Hsnd _ _ _ Hx) as (g & Ho & _), (Hsnd _ _ _ Hy) as (g' & Ho' & _).
    destruct (Huniq _ _ _ _ _ Ho Ho') as [_ ->]. by eapply (ci_sender_inj _ _ _ _ _ _ Hi).
  - intros g k ch Hg. destruct (ci_owner _ _ _ _ _ _ Hi g (k_rid k) ch) as (p & Hp & [[Hm Hin]|[_ ?]]);
      [by exists (Waiting k ch)| |by left]. right. exists p, ps. split_and!; [done|apply Hi|].
    destruct Hin as [Hin|?]; [|done]. destruct (ci_add _ _ _ _ _ _ Hi p Hin) as (g' & k' & ch' & cl & msg & Hg').
    pose proof (ci_adding _ _ _ _ _ _ Hi g' _ _ _ _ _ Hg') as Hp'. destruct (node_for_rid _ _ _ _ _ _ Hp Hp') as [Hr1 <-].
    assert (g' = g); [|congruence]. destruct (Huniq g g' (k_rid k) (k_rid k') ch); [by exists (Waiting k ch)|by eexists|done].
Qed.

(** ** The manager returns to its [select] *)

(** The calls that are about to be sent can be written. *)
Definition writes_ok (s : Sys) : Prop :=
  ∀ g st k ch c msg, s_gos s !! g = Some st → (∃ p, st = Adding k ch p c msg) ∨ st = Sending k ch c msg → k_rid k ≠ 0 →
    (RpcCall_send k ch c msg (s_world s)).1 = Ok (Waiting k ch).

Lemma RpcCall_send_ext k ch c msg w w' :
  w_clients w' = w_clients w → w_broken w' = w_broken w →
  (RpcCall_send k ch c msg w').1 = (RpcCall_send k ch c msg w).1.
Proof.
  intros Hc Hb. unfold RpcCall_send, mbind, M_bind, deref_client, MessageSend, mret, M_ret. cbn. rewrite Hc.
  destruct (w_clients w !! c); [|done]. rewrite ?Hb. repeat case_bool_decide; cbn; by destruct (k_rid k =? 0).
Qed.

Lemma writes_frame s s' : mgr_frame s s' → writes_ok s → writes_ok s'.
Proof.
  intros (Hc & Hb & Hg) Hw g st k ch c msg Hst Hcase Hk. rewrite (RpcCall_send_ext _ _ _ _ (s_world s)) by done.
  destruct (Hg g st Hst) as [Hst'|Hq]; [by eapply Hw|]. destruct Hcase as [[p ->]| ->]; done.
Qed.

Lemma writes_sends s l : writes_ok s → sends_ok s l.
Proof. intros Hw g k ch c msg _ Hg Hk. eapply (Hw g); [done|by right|done]. Qed.

(** What stays as it is when a goroutine alone goes on. *)
Record go_frame (s s' : Sys) : Prop := {
  gf_mgr : s_mgr s' = s_mgr s;
  gf_cb : w_cb (s_world s') = w_cb (s_world s);
  gf_gid : w_gid (s_world s') = w_gid (s_world s);
}.

(** The goroutine that is to receive gets there on its own. *)
Lemma sending_ready s g k ch c msg :
  sys_inv s → writes_ok s → w_gid (s_world s) < 2 ^ 32 - 1 → s_gos s !! g = Some (Sending k ch c msg) → k_rid k ≠ 0 →
  ∃ s', reach internal s s' ∧ go_frame s s' ∧ writes_ok s' ∧ s_gos s' !! g = Some (Waiting k ch).
Proof.
  intros Hi Hw Hlt Hg Hk. pose proof (Hw g _ k ch c msg Hg (or_intror eq_refl) Hk) as Hsend.
  exists (resume g (RpcCall_send k ch c msg) s). split.
  { apply (reach_one _ _ (LGo g)); [done..|by apply writes_sends|]. cbn. by rewrite Hg. }
  unfold resume. pose proof (RpcCall_send_frame k ch c msg (s_world s)) as (Hcb & Hgd & _).
  assert (w_clients (RpcCall_send k ch c msg (s_world s)).2 = w_clients (s_world s) ∧
    w_broken (RpcCall_send k ch c msg (s_world s)).2 = w_broken (s_world s)) as [Hcl Hbr].
  { unfold RpcCall_send, mbind, M_bind, deref_client, MessageSend, mret, M_ret. cbn.
    destruct (w_clients (s_world s) !! c); [|done]. repeat case_bool_decide; cbn; by destruct (k_rid k =? 0). }
  destruct (RpcCall_send k ch c msg (s_world s)) as [r w']. cbn in *. rewrite Hsend. cbn. split; [done|].
  split; [|by rewrite lookup_insert_eq]. apply (writes_frame s); [|done]. split_and!; [done..|]. cbn.
  intros g' st. rewrite lookup_insert. case_decide; [intros [= <-]; by right|by left].
Qed.

Lemma receiver_ready s ps g rid ch now c prv e :
  calls_inv (w_cb (s_world s)) (w_gid (s_world s)) (w_nextch (s_world s)) (s_mgr s) (s_gos s) ps →
  s_mgr s = InTimeOut now c prv (TimeoutChan ch e) →
  writes_ok s → w_gid (s_world s) < 2 ^ 32 - 1 → owner (s_gos s) g rid ch →
  ∃ s' k, reach internal s s' ∧ go_frame s s' ∧ writes_ok s' ∧ s_gos s' !! g = Some (Waiting k ch).
Proof.
  intros Hi Hm Hw Hlt (st & Hg & Ho). assert (sys_inv s) as Hsys by by exists ps.
  destruct st as [|k|k ch' p cl msg|k ch' cl msg|k ch'|er rp|req|req cbs p|req ch']; try discriminate Ho.
  - injection Ho as Hr <-.
    pose proof (ci_adding _ _ _ _ _ _ Hi g _ _ _ _ _ Hg) as Hp.
    assert (k_rid k ≠ 0) as Hk.
    { destruct Hp as (n & e0 & Hn & <- & _). destruct (ci_nodes _ _ _ _ _ _ Hi p n Hn). lia. }
    pose proof (ci_mgr _ _ _ _ _ _ Hi) as Hok. rewrite Hm in Hok.
    destruct Hok as (l & r & ? & ? & -> & _ & [= <- <-] & Hn).
    pose proof (ci_node_ch _ _ _ _ _ _ Hi _ _ _ _ _ Hp Hn) as ->.
    assert (c ∉ chQueueAdd (w_cb (s_world s))) as Hni.
    { intros Hin. destruct (inv_add _ _ (ci_cb _ _ _ _ _ _ Hi) c Hin) as [_ []]. set_solver. }
    set (s1 := mkSys (s_world s) (s_mgr s) (<[g := Sending k ch' cl msg]> (s_gos s))).
    assert (reach internal s s1) as H1.
    { apply (reach_one _ _ (LGo g)); [done..|by apply writes_sends|]. cbn. rewrite Hg. cbn. by rewrite bool_decide_eq_true_2. }
    assert (writes_ok s1) as Hw1.
    { intros g' st k' ch1 c' msg' Hst Hcase Hk'. cbn in *. rewrite lookup_insert in Hst. case_decide; [subst g'|by eapply Hw].
      injection Hst as <-. destruct Hcase as [[p' ?]|[= <- <- <- <-]]; [done|]. eapply (Hw g); [done|left; by eexists|done]. }
    destruct (sending_ready s1 g k ch' cl msg) as (s2 & H2 & Hf & Hw2 & Hg2); try done.
    { by eapply reach_inv. }
    { cbn. by rewrite lookup_insert_eq. }
    exists s2, k. split; [by eapply (reach_trans internal internal)|]. split; [by destruct Hf; split|done].
  - cbn in Ho. destruct (Z.eqb_spec (k_rid k) 0); [done|]. injection Ho as <- <-.
    destruct (sending_ready s g k ch' cl msg) as (s2 & H2 & Hf & Hw2 & Hg2); try done. by exists s2, k.
  - injection Ho as <- <-. exists s, k. split; [apply reach_refl|]. split; [by split|done].
Qed.

(** Every call has an id of its own, so the queue is not longer than the ids given. *)
Lemma queue_short cb gid nextch m gos ps :
  calls_inv cb gid nextch m gos ps → Z.of_nat (length ps) ≤ gid.
Proof.
  intros Hi. set (id p := match heap cb !! p with Some n => cbid n | None => 0 end).
  assert (∀ p, p ∈ ps → ∃ n, heap cb !! p = Some n) as Hn.
  { intros p Hp. by eapply seg_lookup; [apply (rep_seg _ _ _ (inv_rep _ _ (ci_cb _ _ _ _ _ _ Hi)))|]. }
  rewrite <- (length_fmap id ps). assert (id <$> ps ⊆+ seqZ 1 gid) as Hsub.
  { apply NoDup_submseteq.
    - apply NoDup_fmap_2_strong; [|apply (rep_nodup _ _ _ (inv_rep _ _ (ci_cb _ _ _ _ _ _ Hi)))].
      intros p q [n Hp]%Hn [n' Hq]%Hn. unfold id. rewrite Hp, Hq. intros E.
      destruct (ci_nodes _ _ _ _ _ _ Hi p n Hp) as [_ (ch & e & Ht & _)], (ci_nodes _ _ _ _ _ _ Hi q n' Hq) as [_ (ch' & e' & Ht' & _)].
      apply (ci_node_rid _ _ _ _ _ _ Hi (cbid n) ch ch'); [by exists n, e|by exists n', e'].
    - intros r (p & -> & Hp)%list_elem_of_fmap. destruct (Hn p Hp) as [n Hpn]. unfold id. rewrite Hpn.
      destruct (ci_nodes _ _ _ _ _ _ Hi p n Hpn) as [? _]. apply elem_of_seqZ. lia. }
  apply submseteq_length in Hsub. rewrite length_seqZ in Hsub. pose proof (ci_gid _ _ _ _ _ _ Hi). lia.
Qed.

Definition mgr_measure (m : manager) (ps : list ptr) : nat :=
  2 * length ps + match m with Ticking _ _ => 1 | _ => 0 end.

Lemma manager_back n : ∀ s ps,
  calls_inv (w_cb (s_world s)) (w_gid (s_world s)) (w_nextch (s_world s)) (s_mgr s) (s_gos s) ps →
  (mgr_measure (s_mgr s) ps ≤ n)%nat → writes_ok s → w_gid (s_world s) + Z.of_nat (length ps) < 2 ^ 32 - 1 →
  ∃ s', reach internal s s' ∧ s_mgr s' = Select ∧ sys_inv s' ∧ w_gid (s_world s') < 2 ^ 32 - 1.
Proof.
  induction n as [n IH] using lt_wf_ind. intros s ps Hi Hn Hw Hlt. assert (sys_inv s) as Hsys by by exists ps.
  destruct (s_mgr s) as [|now cur|now c prv t] eqn:Hm.
  - exists s. split_and!; [apply reach_refl|done|done|lia].
  - destruct s as [w m gos]. cbn in Hm. subst m. cbn [s_world s_mgr s_gos] in *.
    destruct (scan_step w now cur gos ps Hi) as (s1 & ps1 & E & Hf & Hg & Hi1 & Hms).
    assert (reach internal (mkSys w (Ticking now cur) gos) s1) as H1.
    { apply (reach_one _ _ LScan); [done|cbn; lia|by apply writes_sends|done]. }
    assert (length ps1 ≤ length ps)%nat as Hle by (destruct (s_mgr s1); [by subst|lia|by subst]).
    destruct (IH (mgr_measure (s_mgr s1) ps1)) with (s := s1) (ps := ps1) as (s2 & H2 & ?); try done.
    + unfold mgr_measure in *. destruct (s_mgr s1); subst; lia.
    + by eapply writes_frame.
    + rewrite Hg. lia.
    + exists s2. split; [by eapply (reach_trans internal internal)|done].
  - pose proof (ci_mgr _ _ _ _ _ _ Hi) as (l & rid & ch & e & -> & -> & -> & Hnode).
    destruct (ci_sender _ _ _ _ _ _ Hi None rid ch) as [_ [g Ho]]; [by eexists _, _, _, _|].
    destruct (receiver_ready s (l ++ [c]) g rid ch now c (last l) e) as (s1 & k & H1 & [Fm Fc Fg] & Hw1 & Hg1);
      [by rewrite Hm|done|done|lia|done|].
    destruct (reach_inv internal s s1 Hsys H1) as [ps1 Hi1].
    assert (ps1 = l ++ [c]) as ->.
    { eapply rep_unique; [apply Hi1|]. rewrite Fc. apply Hi. }
    destruct s1 as [w1 m1 gos1]. cbn [s_world s_mgr s_gos] in *. rewrite Hm in Fm. subst m1.
    destruct (timeout_step g w1 now c (last l) ch e k gos1 (l ++ [c]) Hi1) as (s2 & l2 & El & E & Hm2 & Hf2 & Hg2 & Hi2);
      [lia|done|]. apply app_inj_tail in El as [<- _]. rewrite length_app in *. cbn in *.
    assert (reach internal s s2) as H2.
    { eapply (reach_step _ _ _ (LTimeOut g)); [exact H1|done|cbn; lia|by apply writes_sends|exact E]. }
    destruct (IH (mgr_measure (s_mgr s2) l)) with (s := s2) (ps := l) as (s3 & H3 & ?); try done.
    + rewrite Hm2. unfold mgr_measure in *. rewrite length_app in Hn. cbn in *. lia.
    + by eapply writes_frame.
    + lia.
    + exists s3. split; [by eapply (reach_trans internal internal)|done].
Qed.

Lemma drain_adds n : ∀ s, sys_inv s → s_mgr s = Select → w_gid (s_world s) < 2 ^ 32 - 1 →
  length (chQueueAdd (w_cb (s_world s))) = n →
  ∃ s', reach internal s s' ∧ s_mgr s' = Select ∧ sys_inv s' ∧ w_gid (s_world s') = w_gid (s_world s) ∧
    chQueueAdd (w_cb (s_world s')) = [].
Proof.
  induction n as [|n IH]; intros s Hi Hm Hlt Hn.
  { exists s. apply length_zero_iff_nil in Hn. split_and!; [apply reach_refl|done..]. }
  pose proof Hi as [ps Hi']. destruct (recv_QueueAdd_inv 0 _ _ (ci_cb _ _ _ _ _ _ Hi')) as (cb & _ & E & _ & _ & _ & _ & _ & Ha).
  set (s1 := mkSys (set_cb cb (s_world s)) Select (s_gos s)).
  assert (exec (LAdd 0) s = Some s1) as Ex by (cbn; rewrite Hm, E; cbn; by rewrite Hm).
  assert (reach internal s s1) as H1 by (by apply (reach_one _ _ (LAdd 0))).
  destruct (chQueueAdd (w_cb (s_world s))) as [|p l] eqn:El; [done|]. cbn in Ha, Hn.
  destruct (IH s1) as (s2 & H2 & ?); [by eapply reach_inv|done|done|cbn; rewrite Ha; lia|].
  exists s2. split; [by eapply (reach_trans internal internal)|done].
Qed.

Lemma drain_dels n : ∀ s, sys_inv s → s_mgr s = Select → w_gid (s_world s) < 2 ^ 32 - 1 →
  length (chQueueDel (w_cb (s_world s))) = n → chQueueAdd (w_cb (s_world s)) = [] →
  ∃ s', reach internal s s' ∧ s_mgr s' = Select ∧
    chQueueAdd (w_cb (s_world s')) = [] ∧ chQueueDel (w_cb (s_world s')) = [].
Proof.
  induction n as [|n IH]; intros s Hi Hm Hlt Hn Hadd.
  { exists s. apply length_zero_iff_nil in Hn. split_and!; [apply reach_refl|done..]. }
  pose proof Hi as [ps Hi'].
  destruct (recv_QueueDel_inv 0 _ _ (ci_cb _ _ _ _ _ _ Hi')) as (cb & _ & E & _ & _ & _ & _ & Ha & Hd & _).
  set (s1 := mkSys (set_cb cb (s_world s)) Select (s_gos s)).
  assert (exec (LDel 0) s = Some s1) as Ex by (cbn; rewrite Hm, E; cbn; by rewrite Hm).
  assert (reach internal s s1) as H1 by (by apply (reach_one _ _ (LDel 0))).
  destruct (chQueueDel (w_cb (s_world s))) as [|p l] eqn:El; [done|]. cbn in Hd, Hn.
  destruct (IH s1) as (s2 & H2 & ?); [by eapply reach_inv|done|done|cbn; rewrite Hd; lia|cbn; by rewrite Ha|].
  exists s2. split; [by eapply (reach_trans internal internal)|done].
Qed.

(** C13 The callback manager does not get stuck.  In every state of a process in
    which no send of a call has failed, and the calls that are about to be sent
    can be written, the manager, the goroutines it waits for and those that wait
    for it can go on by themselves (no message arrives, no time passes) until the
    manager is back at its [select] and no goroutine waits for it any more. *)
Theorem manager_never_stuck (s0 s : Sys) :
  initial s0 → reach any s0 s → writes_ok s → w_gid (s_world s) < 2 ^ 31 →
  ∃ s', reach internal s s' ∧ s_mgr s' = Select ∧
    chQueueAdd (w_cb (s_world s')) = [] ∧ chQueueDel (w_cb (s_world s')) = [].
Proof.
  intros H0 Hr Hw Hlt. destruct (reach_inv any s0 s (initial_inv s0 H0) Hr) as [ps Hi].
  pose proof (queue_short _ _ _ _ _ _ Hi) as Hq.
  destruct (manager_back (mgr_measure (s_mgr s) ps) s ps Hi) as (s1 & H1 & Hm1 & Hi1 & Hg1); [done|done|lia|].
  destruct (drain_adds _ s1 Hi1 Hm1 Hg1 eq_refl) as (s2 & H2 & Hm2 & Hi2 & Hg2 & Ha2).
  destruct (drain_dels _ s2 Hi2 Hm2 ltac:(by rewrite Hg2) eq_refl Ha2) as (s3 & H3 & ?).
  exists s3. split; [|done]. eapply (reach_trans internal internal), H3; [done|].
  by eapply (reach_trans internal internal).
Qed.

(** ** A send that fails *)

(** The goroutine waits for the manager. *)
Definition blocked (st : goroutine) (cb : CbState cbval timeoutval) : Prop :=
  match st with
  | Adding _ _ p _ _ => p ∈ chQueueAdd cb
  | Deleting _ _ p => p ∈ chQueueDel cb
  | _ => False
  end.

(** Nobody owns [ch] in the future either: channels are made once. *)
Definition abandoned (ch : positive) (s : Sys) : Prop :=
  (∀ g rid, ¬ owner (s_gos s) g rid ch) ∧ (ch < w_nextch (s_world s))%positive.

Lemma after_owns_go ch st w r w' :
  go_on st w = (r, w') → (ch < w_nextch w)%positive → (∀ rid, owns st ≠ Some (rid, ch)) →
  (w_nextch w ≤ w_nextch w')%positive ∧ ∀ rid, owns (after r) ≠ Some (rid, ch).
Proof.
  destruct st as [|k|k ch' p c msg|k ch' c msg|k ch'|e rp|req|req cbs p|req ch']; cbn [go_on]; intros E Hlt Ho.
  - injection E as <- <-. done.
  - unfold RpcCall_begin, mbind, M_bind, gets, lift_result, balance_client, make_chan, AddCb_map, mret, M_ret in E.
    destruct (MessageEncode _) as [msg| |]; [|injection E as <- <-; done..].
    destruct (bal_pick _) as [[e l]| |]; [|injection E as <- <-; done..].
    destruct (GetTcpClient e _) as [c|]; [|injection E as <- <-; done].
    destruct (k_rid k =? 0) eqn:E0; injection E as <- <-; cbn; rewrite ?E0; (split; [lia|]); [done|]. intros rid [= _ Hc]. cbn in *. lia.
  - injection E as <- <-. split; [done|]. intros rid. cbn in *. destruct (k_rid k =? 0); [done|]. apply Ho.
  - pose proof (RpcCall_send_frame k ch' c msg w) as (_ & _ & Hnx). rewrite E in Hnx. cbn in Hnx. rewrite Hnx. split; [done|].
    unfold RpcCall_send, mbind, M_bind in E. destruct (deref_client _ w) as [[c0| |] w1]; [|injection E as <- _; done..].
    destruct (MessageSend _ _ w1) as [[b| |] w2]; [|injection E as <- _; done..].
    cbn in Ho. destruct b; cbn in E; [|injection E as <- _; done]. destruct (k_rid k =? 0); injection E as <- _; [done|apply Ho].
  - injection E as <- <-. done.
  - injection E as <- <-. done.
  - unfold RpcRsp_begin in E. destruct (gCbMap (w_cb w) !! Rid req) as [[cbs p]|]; by injection E as <- <-.
  - destruct cbs; injection E as <- <-; done.
  - injection E as <- <-. done.
Qed.

Lemma owner_insert gos g st ch :
  (∀ g rid, ¬ owner gos g rid ch) → (∀ rid, owns st ≠ Some (rid, ch)) → ∀ g' rid, ¬ owner (<[g := st]> gos) g' rid ch.
Proof.
  intros Hno Hst g' rid (st' & Hg & Ho). rewrite lookup_insert in Hg. case_decide; [|by apply (Hno g' rid); exists st'].
  injection Hg as <-. by apply (Hst rid).
Qed.

Lemma abandoned_step ch l s s' : abandoned ch s → exec l s = Some s' → abandoned ch s'.
Proof.
  destruct s as [w m gos]. intros [Hno Hlt]. destruct l as [g svc rpc args|g req|g|i|i| | |g|g g'|clock tcp cls broken];
    cbn -[go_on RpcCall_timeout] in *.
  - destruct (gos !! g) as [[]|]; intros [= <-]. split; [by apply owner_insert|done].
  - destruct (gos !! g) as [[]|]; intros [= <-]. split; [by apply owner_insert|done].
  - destruct (gos !! g) as [st|] eqn:Hg; [|done]. destruct (runs st w); intros [= <-]. unfold resume. cbn -[go_on].
    destruct (go_on st w) as [r w'] eqn:E. destruct (after_owns_go ch st w r w' E Hlt) as [Hle Hr].
    { intros rid Ho. apply (Hno g rid). by exists st. }
    split; [by apply owner_insert|cbn; lia].
  - destruct m; try done. unfold with_cb. destruct (recv_QueueAdd _ _); intros [= <-]. done.
  - destruct m; try done. unfold with_cb. destruct (recv_QueueDel _ _); intros [= <-]. done.
  - destruct m; intros [= <-]. done.
  - destruct m as [|now cur|]; try done. destruct (scan now cur (w_cb w)) as [[m' cb']| |]; intros [= <-]. done.
  - destruct m as [| |now c prv [ch' e|]]; try done. destruct (gos !! g) as [[| | | |k ch2| | | |]|]; try done.
    case_bool_decide; [|done]. unfold with_cb, resume, RpcCall_timeout. cbn. destruct (timed_out _ _); [|done..].
    destruct (k_reSendCnt k); intros [= <-]; (split; [by apply owner_insert|done]).
  - destruct (gos !! g) as [[]|]; try done. destruct (gos !! g') as [[]|]; try done.
    case_bool_decide; intros [= <-]. split; [|done]. apply owner_insert; [by apply owner_insert|done].
  - intros [= <-]. done.
Qed.

(** What a step does to the senders on [chQueueAdd] and [chQueueDel] when the
    manager takes none. *)
Lemma go_on_queues st w :
  chQueueAdd (w_cb w) `prefix_of` chQueueAdd (w_cb (go_on st w).2) ∧
  chQueueDel (w_cb w) `prefix_of` chQueueDel (w_cb (go_on st w).2).
Proof.
  destruct st as [|k|k ch' p c msg|k ch' c msg|k ch'|e rp|req|req cbs p|req ch']; cbn [go_on]; try done.
  - pose proof (RpcCall_begin_cases k w) as Hc.
    unfold RpcCall_begin, mbind, M_bind, gets, lift_result, balance_client, make_chan, AddCb_map, mret, M_ret.
    destruct (MessageEncode _) as [msg| |]; [|done..]. destruct (bal_pick _) as [[e l]| |]; [|done..].
    destruct (GetTcpClient e _) as [c|]; [|done]. destruct (k_rid k =? 0); [done|]. cbn. split; [by eexists|done].
  - by destruct (RpcCall_send_frame k ch' c msg w) as (-> & _ & _).
  - unfold RpcRsp_begin, GetCallBack_map. destruct (gCbMap (w_cb w) !! Rid req) as [[cbs p]|]; cbn; [|done].
    split; [done|by eexists].
  - by destruct cbs.
Qed.

Lemma stall_step ch now c prv e l s s' :
  abandoned ch s → s_mgr s = InTimeOut now c prv (TimeoutChan ch e) → exec l s = Some s' →
  s_mgr s' = s_mgr s ∧ chQueueAdd (w_cb (s_world s)) `prefix_of` chQueueAdd (w_cb (s_world s')) ∧
  chQueueDel (w_cb (s_world s)) `prefix_of` chQueueDel (w_cb (s_world s')) ∧
  ∀ g st, s_gos s !! g = Some st → blocked st (w_cb (s_world s)) → s_gos s' !! g = Some st.
Proof.
  destruct s as [w m gos]. intros [Hno _] Hm. cbn in Hm. subst m.
  assert (∀ g st st', gos !! g = Some st → ¬ blocked st (w_cb w) → ∀ g' st2, gos !! g' = Some st2 → blocked st2 (w_cb w) →
    <[g := st']> gos !! g' = Some st2) as Hins.
  { intros g st st' Hg Hnb g' st2 Hg' Hb. rewrite lookup_insert_ne; [done|]. congruence. }
  destruct l as [g svc rpc args|g req|g|i|i| | |g|g g'|clock tcp cls broken]; cbn -[go_on] in *; try done.
  - destruct (gos !! g) as [[]|] eqn:Hg; intros [= <-]. split_and!; [done..|]. exact (Hins g Idle _ Hg (λ f, f)).
  - destruct (gos !! g) as [[]|] eqn:Hg; intros [= <-]. split_and!; [done..|]. exact (Hins g Idle _ Hg (λ f, f)).
  - destruct (gos !! g) as [st|] eqn:Hg; [|done]. destruct (runs st w) eqn:Hr; intros [= <-]. unfold resume. cbn -[go_on].
    pose proof (go_on_queues st w) as [H1 H2]. destruct (go_on st w) as [r w']. split_and!; [done..|].
    refine (Hins g st _ Hg _). intros Hb.
    destruct st as [| |k ch' p cl msg| | | | |req cbs p|]; cbn in Hb, Hr; try done.
    + by apply bool_decide_eq_true in Hr.
    + destruct cbs; try done. by apply bool_decide_eq_true in Hr.
  - destruct (gos !! g) as [[| | | |k ch2| | | |]|] eqn:Hg; try done. case_bool_decide as E; [subst ch2|done].
    destruct (Hno g (k_rid k)). by exists (Waiting k ch).
  - destruct (gos !! g) as [[| | | | | | | |req ch1]|] eqn:Hg; try done.
    destruct (gos !! g') as [[| | | |k ch2| | | |]|] eqn:Hg'; try done.
    case_bool_decide; intros [= <-]. split_and!; [done..|]. intros g2 st2 H2 Hb. cbn.
    destruct (decide (g' = g2)) as [->|]; [rewrite Hg' in H2; by injection H2 as <-|]. rewrite lookup_insert_ne by done.
    exact (Hins g (Replying req ch1) _ Hg (λ f, f) g2 st2 H2 Hb).
  - intros [= <-]. done.
Qed.

Lemma execs_stalled ch now c prv e ls : ∀ s s',
  abandoned ch s → s_mgr s = InTimeOut now c prv (TimeoutChan ch e) → execs ls s = Some s' →
  s_mgr s' = s_mgr s ∧
  ∀ g st, s_gos s !! g = Some st → blocked st (w_cb (s_world s)) →
    s_gos s' !! g = Some st ∧ blocked st (w_cb (s_world s')).
Proof.
  induction ls as [|l ls IH]; intros s s' Ha Hm; cbn; [by intros [= <-]|].
  intros (s1 & H1 & H2)%bind_Some. destruct (stall_step ch now c prv e l s s1 Ha Hm H1) as (Hm1 & Hadd & Hdel & Hg1).
  destruct (IH s1 s') as [Hm2 Hg2]; [by eapply abandoned_step|by rewrite Hm1|done|].
  split; [congruence|]. intros g st Hg Hb. apply Hg2; [by apply Hg1|].
  destruct st; cbn in *; try done; by eapply elem_of_prefix.
Qed.

Lemma execs_abandoned ch ls : ∀ s s', abandoned ch s → execs ls s = Some s' → abandoned ch s'.
Proof.
  induction ls as [|l ls IH]; intros s s' Ha; cbn; [by intros [= <-]|].
  intros (s1 & H1 & H2)%bind_Some. eapply IH; [|done]. by eapply abandoned_step.
Qed.

(** C14 A failed send blocks the process.  When the send of a call fails, [RpcCall]
    returns but leaves its callback registered.  Nobody will receive on its
    channel any more: from the moment on at which the manager runs the timeout
    closure of this call, it waits in it for ever, whatever else happens, and
    every goroutine that is then, or gets later, into [AddCallBack] or
    [GetCallBack] waits for ever too. *)
Theorem failed_send_stalls (s0 s s1 s2 s3 : Sys) (g : positive) (k : Call) (ch cl : positive) (msg : bytes)
    (ls ls' : list label) (now : Z) (c : ptr) (prv : option ptr) (e : string) :
  initial s0 → reach any s0 s → s_gos s !! g = Some (Sending k ch cl msg) → k_rid k ≠ 0 →
  exec (LGo g) s = Some s1 → s_gos s1 !! g ≠ Some (Waiting k ch) →
  execs ls s1 = Some s2 → s_mgr s2 = InTimeOut now c prv (TimeoutChan ch e) →
  execs ls' s2 = Some s3 →
  s_mgr s3 = s_mgr s2 ∧
  ∀ g' st, s_gos s2 !! g' = Some st → blocked st (w_cb (s_world s2)) →
    s_gos s3 !! g' = Some st ∧ blocked st (w_cb (s_world s3)).
Proof.
  intros H0 Hr Hg Hk E1 Hf E2 Hm E3. destruct (reach_inv any s0 s (initial_inv s0 H0) Hr) as [ps Hi].
  apply (execs_stalled ch now c prv e ls'); [|done|done]. apply (execs_abandoned ch ls s1); [|done].
  assert (owner (s_gos s) g (k_rid k) ch) as Ho.
  { eexists. split; [done|]. cbn. by rewrite (proj2 (Z.eqb_neq _ _) Hk). }
  destruct (ci_owner _ _ _ _ _ _ Hi g _ _ Ho) as (p & Hp & _).
  cbn -[go_on] in E1. rewrite Hg in E1. cbn [runs] in E1. injection E1 as <-.
  pose proof (RpcCall_send_frame k ch cl msg (s_world s)) as (_ & _ & Hnx).
  unfold resume in *. cbn [go_on] in *. destruct (RpcCall_send k ch cl msg (s_world s)) as [r w'] eqn:Es. cbn in *.
  split; cbn.
  - intros g' rid (st & Hst & Hst'). rewrite lookup_insert in Hst, Hf. rewrite decide_True in Hf by done.
    case_decide as Hgg.
    + injection Hst as <-. unfold RpcCall_send, mbind, M_bind in Es.
      destruct (deref_client _ (s_world s)) as [[c0| |] w1]; [|injection Es as <- _; done..].
      destruct (MessageSend _ _ w1) as [[b| |] w2]; [|injection Es as <- _; done..].
      destruct b; cbn in Es; [|injection Es as <- _; done]. rewrite (proj2 (Z.eqb_neq _ _) Hk) in Es. by injection Es as <- _.
    + apply Hgg. assert (owner (s_gos s) g' rid ch) as Ho' by by exists st.
      destruct (ci_owner _ _ _ _ _ _ Hi g' _ _ Ho') as (p' & Hp' & _).
      pose proof (ci_node_ch _ _ _ _ _ _ Hi _ _ _ _ _ Hp Hp') as <-. destruct (node_for_rid _ _ _ _ _ _ Hp Hp') as [<- _].
      by eapply (ci_owner_inj _ _ _ _ _ _ Hi).
  - rewrite Hnx. destruct Hp as (n & e' & Hn & _ & Ht). destruct (ci_nodes _ _ _ _ _ _ Hi p n Hn) as [_ (ch2 & e2 & Ht2 & ?)].
    rewrite Ht in Ht2. by injection Ht2 as <- _.
Qed.

(** ** All goroutines wait *)


(** ** The calls of [SimpleRpc] in these steps *)

(** The manager takes the node that was sent last. *)
Definition take_added : M (World B A) () := λ w,
  match recv_QueueAdd (pred (length (chQueueAdd (w_cb w)))) (w_cb w) with
  | Ok cb => (Ok (), set_cb cb w)
  | Panic p => (Panic p, w)
  | OutOfFuel => (OutOfFuel, w)
  end.

(** A caller whose node the manager takes at once, with what it receives. *)
Fixpoint call_alone (serviceName rpcName : string) (rid : Z) (reSendCnt : nat) (args : list goval)
    (answers : list (option (string * goval))) : M (World B A) (option (string * goval)) :=
  let k := mkCall serviceName rpcName rid reSendCnt args in
  cfg ← gets w_cfg;
  st ← RpcCall_begin k;
  st ← (match st with Adding _ _ _ _ _ => _ ← take_added; go_on st | _ => mret st end);
  st ← (match st with Sending _ _ _ _ => go_on st | _ => mret st end);
  match st with
  | Waiting k ch =>
      match answers with
      | [] => mret None
      | Some (e, reply) :: _ => mret (Some (e, reply))
      | None :: answers =>
          st ← RpcCall_timeout k (call_timeout cfg k);
          match reSendCnt, st with
          | S reSendCnt, Calling k => call_alone serviceName rpcName (k_rid k) reSendCnt args answers
          | _, Returned e reply => mret (Some (e, reply))
          | _, _ => mret None
          end
      end
  | Returned e reply => mret (Some (e, reply))
  | _ => mret None
  end.

Lemma add_taken cbid cbs waitTime t w :
  cb_ok w → ∃ cb, AddCb cbid cbs waitTime t w = (Ok (), set_cb cb w) ∧ cb_ok (set_cb cb w) ∧
    take_added (set_cb (AddCallBack_map (GetNowTimestamp w) cbid cbs waitTime t (w_cb w)) w) = (Ok (), set_cb cb w).
Proof.
  intros Hok. destruct (AddCb_ok cbid cbs waitTime t w Hok) as (cb & p & E & Hok' & _). exists cb. split_and!; [done..|].
  unfold AddCb, AddCallBack in E. unfold take_added. cbn [w_cb set_cb].
  replace (pred _) with (length (chQueueAdd (w_cb w))) by (cbn; rewrite length_app; cbn; lia).
  destruct (recv_QueueAdd _ _); [|discriminate E..]. apply (f_equal (w_cb ∘ snd)) in E. cbn in E. by subst.
Qed.

Lemma send_cb c msg w : w_cb (MessageSend c msg w).2 = w_cb w.
Proof. unfold MessageSend. destruct c; [|done]. by repeat case_bool_decide. Qed.

(** The caller's steps are [RpcCall]: when nothing happens in between, they have
    its result and its effects. *)
Lemma call_alone_RpcCall service rpc n args : ∀ rid answers w, cb_ok w →
  call_alone service rpc rid n args answers w = RpcCall service rpc rid n args answers w.
Proof.
  induction n as [|n IH]; intros rid answers w Hok.
  all: cbn [call_alone RpcCall].
  all: unfold RpcCall_begin, mbind, M_bind, gets, lift_result, make_chan, AddCb_map, mret, M_ret, call_msg, call_timeout.
  all: cbn [k_service k_rpc k_rid k_args k_reSendCnt].
  all: destruct (MessageEncode _) as [msg| |]; [|done..].
  all: unfold balance_client; destruct (bal_pick _) as [[e l]| |]; [|done..].
  all: set (w1 := set_tcp _ w); destruct (GetTcpClient e w1) as [c|]; [|done].
  all: set (w2 := set_nextch _ w1); assert (cb_ok w2) as Hok2 by exact Hok.
  all: destruct (rid =? 0) eqn:E0; cbn [go_on]; unfold RpcCall_send, mbind, M_bind, mret, M_ret; cbn [k_rid].
  1,3: unfold deref_client; cbn; destruct (w_clients w !! c); [|done];
    destruct (MessageSend _ _ _) as [[[]| |] w3]; cbn; rewrite ?E0; done.
  all: set (t := Some (TimeoutChan _ _)); destruct (add_taken rid (CbChan (w_nextch w1)) 33 t w2 Hok2) as (cb & Ea & Hok3 & Et).
  all: rewrite Ea, Et; cbn; unfold RpcCall_send, RpcCall_timeout, mbind, M_bind, mret, M_ret, deref_client; cbn;
    destruct (w_clients w !! c) as [tc|]; [|done].
  all: pose proof (send_cb (Some (c_conn tc)) msg (set_cb cb w2)) as Hs;
    destruct (MessageSend _ _ _) as [[[]| |] w3]; cbn; rewrite ?E0; try done.
  all: destruct answers as [|[[er rp]|] answers]; try done.
  unfold NewGid. cbn. apply IH. unfold cb_ok in *. cbn in *. by rewrite Hs.
Qed.

(** ** Checked runs *)

(** The send of a call fails in this step. *)
Definition send_fails (s : Sys) (l : label) : bool :=
  match l with
  | LGo g =>
      match s_gos s !! g with
      | Some (Sending k ch c msg) =>
          match (RpcCall_send k ch c msg (s_world s)).1 with
          | Ok (Waiting _ _) => false
          | _ => negb (k_rid k =? 0)
          end
      | _ => false
      end
  | _ => false
  end.

Lemma send_fails_ok s l : send_fails s l = false → sends_ok s l.
Proof.
  intros H g k ch c msg -> Hg Hk. cbn in H. rewrite Hg in H. rewrite (proj2 (Z.eqb_neq _ _) Hk) in H.
  unfold RpcCall_send, mbind, M_bind in *. destruct (deref_client _ _) as [[c0| |] w1]; [|done..].
  destruct (MessageSend _ _ w1) as [[b| |] w2]; [|done..]. destruct b; [|done]. cbn in *.
  by rewrite (proj2 (Z.eqb_neq _ _) Hk).
Qed.

Fixpoint checked (ls : list label) (s : Sys) : bool :=
  match ls with
  | [] => true
  | l :: ls =>
      (w_gid (s_world s) <? 2 ^ 32 - 1) && negb (send_fails s l) &&
      match exec l s with Some s' => checked ls s' | None => false end
  end.

Definition run_to (ls : list label) (s : Sys) : Sys := default s (execs ls s).

Lemma checked_reach ls : ∀ s, checked ls s = true → reach any s (run_to ls s) ∧ execs ls s = Some (run_to ls s).
Proof.
  induction ls as [|l ls IH]; intros s; [split; [apply reach_refl|done]|]. cbn.
  intros [[Hg%Z.ltb_lt Hs%negb_true_iff]%andb_prop H]%andb_prop. unfold run_to. cbn.
  destruct (exec l s) as [s1|] eqn:E; [|done]. cbn. destruct (IH s1 H) as [H1 H2].
  unfold run_to in H1, H2. destruct (execs ls s1) as [s2|]; [|done]. cbn in *. split; [|done].
  eapply (reach_trans any any); [done| |exact H1]. apply (reach_one any s l); [done|done|by apply send_fails_ok|done].
Qed.

End Blocking.

(** ** Witnesses: service B with one gate and two goroutines *)
Module BlockingDemo.
Import ServiceB.

#[local] Existing Instance ref_msgpack.

Abbreviation BSys := (Sys (B := handlers) (A := ())).

Definition demo_sys : BSys := mkSys (demo_world TcpClientState_OK) Select (<[1%positive := Idle]> {[2%positive := Idle]}).

(** Time passes; the connection to the gate breaks. *)
Definition pass (ms : Z) : label :=
  LOther ms (w_tcp (s_world demo_sys)) (w_clients (s_world demo_sys)) ∅.
Definition break : label :=
  LOther 0 (w_tcp (s_world demo_sys)) (w_clients (s_world demo_sys)) {[1%positive]}.

Definition start (g : positive) : label := LStart g "ServiceA" "rpc_b" [GUint32 7].

(** A call that waits, and a tick after its deadline. *)
Definition call_waits : list label := [start 1; LGo 1; LAdd 0; LGo 1; LGo 1].
Definition times_out : list label := [pass 34000; LTick; LScan].

Lemma demo_initial : initial demo_sys.
Proof.
  split_and!; [done|done|done|]. intros g st. cbn. rewrite lookup_insert, lookup_singleton.
  repeat case_decide; by intros [= <-].
Qed.

Lemma waiting_calls_witness :
  ∃ g rid ch, owner (s_gos (run_to (call_waits ++ times_out) demo_sys)) g rid ch.
Proof.
  destruct (checked_reach (call_waits ++ times_out) demo_sys) as [Hr _]; [vm_compute; reflexivity|].
  destruct (waiting_calls demo_sys _ demo_initial Hr) as (H & _).
  assert (∃ now c prv ch e, s_mgr (run_to (call_waits ++ times_out) demo_sys) = InTimeOut now c prv (TimeoutChan ch e))
    as (now & c & prv & ch & e & Hm) by (do 5 eexists; vm_compute; reflexivity).
  destruct (H _ _ _ _ _ Hm) as (g & rid & Ho & _). by exists g, rid, ch.
Defined.

Lemma manager_never_stuck_witness :
  ∃ s' : BSys, reach internal (run_to (call_waits ++ times_out) demo_sys) s' ∧ s_mgr s' = Select.
Proof.
  destruct (checked_reach (call_waits ++ times_out) demo_sys) as [Hr _]; [vm_compute; reflexivity|].
  destruct (manager_never_stuck demo_sys _ demo_initial Hr) as (s' & H1 & H2 & _).
  - intros g st k ch c msg Hg.
    assert (map_Forall (λ _, quiet) (s_gos (run_to (call_waits ++ times_out) demo_sys))) as Hq
      by (apply map_Forall_to_list; vm_compute; repeat constructor).
    apply Hq in Hg. by intros [[p ->]| ->].
  - vm_compute. reflexivity.
  - by exists s'.
Defined.

(** The connection breaks between the registration of the callback and the send. *)
Definition before_send : BSys := run_to [start 1; LGo 1; LAdd 0; LGo 1; break] demo_sys.
Definition not_sent : BSys := run_to [LGo 1] before_send.
Definition stuck_run : list label := times_out ++ [start 2; LGo 2].
Definition stuck : BSys := run_to stuck_run not_sent.
Definition later : BSys := run_to [pass 99000; LGo 1] stuck.

Lemma run_to_ok ls (s : BSys) : bool_decide (is_Some (execs ls s)) = true → execs ls s = Some (run_to ls s).
Proof. unfold run_to. intros [s' ->]%bool_decide_eq_true. done. Qed.

(** Goroutine 2 is in [AddCallBack]. *)
Definition in_add (s : BSys) : option (goroutine * bool) :=
  match s_gos s !! 2%positive with
  | Some (Adding k ch p c msg) => Some (Adding k ch p c msg, bool_decide (p ∈ chQueueAdd (w_cb (s_world s))))
  | _ => None
  end.

Lemma in_add_blocked s st : in_add s = Some (st, true) →
  s_gos s !! 2%positive = Some st ∧ blocked st (w_cb (s_world s)).
Proof.
  unfold in_add. destruct (s_gos s !! 2%positive) as [[]|]; try done. intros [= <- H]. by apply bool_decide_eq_true in H.
Qed.

Lemma failed_send_stalls_witness :
  s_mgr later ≠ Select ∧ ∃ st, s_gos later !! 2%positive = Some st ∧ blocked st (w_cb (s_world later)).
Proof.
  destruct (checked_reach [start 1; LGo 1; LAdd 0; LGo 1; break] demo_sys) as [Hr _]; [vm_compute; reflexivity|].
  assert (∃ k cl msg, s_gos before_send !! 1%positive = Some (Sending k 1 cl msg) ∧ k_rid k = 1)
    as (k & cl & msg & Hg & Hk) by (do 3 eexists; split; vm_compute; reflexivity).
  assert (∃ now c prv e, s_mgr stuck = InTimeOut now c prv (TimeoutChan 1 e)) as (now & c & prv & e & Hm)
    by (do 4 eexists; vm_compute; reflexivity).
  assert (∃ st, in_add stuck = Some (st, true)) as (st & [Hg2 Hb]%in_add_blocked) by (eexists; vm_compute; reflexivity).
  destruct (failed_send_stalls demo_sys before_send not_sent stuck later 1 k 1 cl msg stuck_run [pass 99000; LGo 1] now c prv e
    demo_initial Hr Hg) as [H1 H2].
  - by rewrite Hk.
  - pose proof (run_to_ok [LGo 1] before_send) as H. cbn [execs] in H.
    destruct (exec (LGo 1) before_send) as [s1|] eqn:E; [exact (H eq_refl)|vm_compute in E; discriminate E].
  - assert (s_gos not_sent !! 1%positive = Some (Returned EmptyString GNil)) as E by (vm_compute; reflexivity).
    rewrite E. discriminate.
  - apply run_to_ok. vm_compute. reflexivity.
  - exact Hm.
  - apply run_to_ok. vm_compute. reflexivity.
  - split; [congruence|]. exists st. by apply H2.
Defined.

Definition one_waits : BSys :=
  let s := run_to call_waits demo_sys in mkSys (s_world s) (s_mgr s) (delete 2%positive (s_gos s)).


End BlockingDemo.
