(* ===== verification/TcpServer.v ===== *)
(** * The tcp server and the read loops ([src/ms_framework/msf_tcp_server.go])

    Accepting, reading from and closing client connections, and the read loop
    of a connection to a service ([src/ms_framework/msf_remote_mgr.go]).  A read
    loop is a state machine: one step per return of [conn.Read]. *)

From S2P Require Import Prelude Utils Wire Msgpack LoadBalancer CallbackMgr RemoteMgr World SimpleRpc.

Local Open Scope Z_scope.

(** How a [Read] with its deadline returns: the deadline passed, another error
    than end of file, or data (none when the peer closed the connection). *)
Inductive read_event := ReadTimeout | ReadError | ReadOK (data : bytes).

Definition with_read (now : Z) (buf : bytes) (rem : Z) (c : TcpClient) : TcpClient :=
  mkTcpClient (c_conn c) buf rem now (state c).
Definition with_buf (buf : bytes) (rem : Z) (c : TcpClient) : TcpClient :=
  mkTcpClient (c_conn c) buf rem (c_lastActiveTime c) (state c).
Definition remote_with (now : Z) (buf : bytes) (rem : Z) (r : Remote) : Remote :=
  mkRemote (id r) (rconn r) buf rem now.

Section TcpServer.
  Context {MP : Msgpack} {B A : Type} {HS : HandlerSig B} {BU : Business B A}.
  (** The package variable [RECV_BUF_MAX_LEN]. *)
  Context (RECV_BUF_MAX_LEN : Z).

Implicit Types w : World B A.

Definition CreateTcpServer (listen : string) : TcpServer := mkTcpServer ∅ false bal_new listen.

Definition set_server (clients : gmap CONN_ID positive) (l : LoadBalancer) w : World B A :=
  set_tcp (mkTcpServer clients (stop (w_tcp w)) l (listenAddr (w_tcp w))) w.

(** ** Messages to a client *)

Definition HeartBeat (p : positive) : M (World B A) bool :=
  msg ← lift_result (MessageEncode (RpcEncode MSG_HEART_BEAT_REQ []));
  c ← deref_client (Some p);
  MessageSend (Some (c_conn c)) msg.

Definition RpcPermissionReport (p : option positive) : M (World B A) () :=
  cfg ← gets w_cfg;
  access ← gets (λ w, clientAccess (w_rpc w));
  msg ← lift_result (MessageEncode (RpcEncode MSG_S2G_RPC_ACCESS_REPORT
           [GStr (Namespace cfg +:+ ":" +:+ Service cfg); GMapBool (map_to_list access)]));
  c ← deref_client p;
  _ ← MessageSend (Some (c_conn c)) msg;
  mret ().

(** ** Accepting and closing *)

(** The body of the accept loop for an accepted connection, up to the start of
    its read loop; the result is [None] when the server stops. *)
Definition accept_register (conn : Conn) : M (World B A) (option positive) := λ w,
  if stop (w_tcp w) then (Ok None, w)
  else
    let state := if w_identity w =? SERVER_IDENTITY_CLIENT_GATE then TcpClientState_Init
                 else TcpClientState_OK in
    let p := fresh (dom (w_clients w)) in
    let c := mkTcpClient conn (replicate (Z.to_nat RECV_BUF_MAX_LEN) 0) 0 (GetNowTimestampMs w) state in
    let w := set_clients (<[p := c]> (w_clients w)) w in
    (Ok (Some p), set_server (<[GetConnID conn := p]> (clients (w_tcp w)))
                    (bal_add (lb (w_tcp w)) (GetConnID conn)).2 w).

(** What the accept loop does once the read loop of the connection runs; it looks
    the client up again each time. *)
Definition accept_rest (connID : CONN_ID) : M (World B A) () :=
  identity ← gets w_identity;
  _ ← (if identity =? SERVER_IDENTITY_SERVICE then p ← gets (GetTcpClient connID); RpcPermissionReport p else mret ());
  p ← gets (GetTcpClient connID);
  busi_accept p.

Definition accept (conn : Conn) : M (World B A) (option positive) :=
  op ← accept_register conn;
  match op with
  | None => mret None
  | Some p => _ ← accept_rest (GetConnID conn); mret (Some p)
  end.

Definition onClientClose (connID : CONN_ID) w : World B A :=
  let w := set_server (delete connID (clients (w_tcp w))) (bal_del (lb (w_tcp w)) connID).2 w in
  set_remote (DelRemoteOrderCache connID (w_remote w)) w.

(** [c.Close()]: nothing can be written to the connection afterwards. *)
Definition Close (p : positive) : M (World B A) () :=
  c ← deref_client (Some p);
  _ ← modify (λ w, set_broken ({[conn_fd (c_conn c)]} ∪ w_broken w) w);
  modify (onClientClose (GetConnID (c_conn c))).

(** [Stop] up to its wait: every client is told to exit, and no further one is
    accepted.  It returns when [Stop_waits] is false. *)
Definition Stop (w : World B A) : World B A :=
  if stop (w_tcp w) then w
  else
    let exits := map_fold (λ _ p m, alter (with_state TcpClientState_EXIT) p m) (w_clients w) (clients (w_tcp w)) in
    set_tcp (mkTcpServer (clients (w_tcp w)) true (lb (w_tcp w)) (listenAddr (w_tcp w)))
      (set_clients exits w).

Definition Stop_waits (w : World B A) : bool := bool_decide (clients (w_tcp w) ≠ ∅).

(** The accept loop: what one [Accept] returns, the rest of its iteration, and the
    loop with its deferred [Stop]. *)
Inductive accept_event := AcceptError | Accepted (conn : Conn).

Definition accept_iter (ev : accept_event) : M (World B A) bool :=
  match ev with
  | AcceptError => stopped ← gets (λ w, stop (w_tcp w)); mret (negb stopped)
  | Accepted conn => op ← accept conn; mret (bool_decide (is_Some op))
  end.

Fixpoint accept_loop (evs : list accept_event) : M (World B A) () :=
  match evs with
  | [] => mret ()
  | ev :: evs =>
      stopped ← gets (λ w, stop (w_tcp w));
      if stopped : bool then modify Stop
      else
        continue ← accept_iter ev;
        if continue : bool then accept_loop evs else modify Stop
  end.

(** ** The read loop of a client

    One iteration; [true] when the loop goes on. *)

Definition decode_buffer (session : positive) (buf : bytes) (rem : Z) : M (World B A) (bytes * Z) := λ w,
  match decode_shift (λ w p, final (RpcDecode session p w)) w buf rem with
  | Ok (w, buf, rem) => (Ok (buf, rem), w)
  | Panic p => (Panic p, w)
  | OutOfFuel => (OutOfFuel, w)
  end.

Definition update_client (p : positive) (f : TcpClient → TcpClient) : M (World B A) () :=
  modify (λ w, set_clients (alter f p (w_clients w)) w).

(** The body of the loop, from the [Read] on. *)
Definition HandleRead_body (p : positive) (ev : read_event) : M (World B A) bool :=
  c ← deref_client (Some p);
  now ← gets GetNowTimestampMs;
  match ev with
  | ReadTimeout =>
      if 10 * 1000 <? now - c_lastActiveTime c then
        if 20 * 1000 <? now - c_lastActiveTime c then mret false else HeartBeat p
      else mret true
  | ReadError => mret false
  | ReadOK data =>
      buf ← lift_result (recv_into (c_recvBuf c) (c_remainLen c) data);
      if go_len data =? 0 then mret false
      else
        let rem := u32 (c_remainLen c + go_len data) in
        _ ← update_client p (with_read now buf rem);
        if RECV_BUF_MAX_LEN <? rem then mret false
        else
          session ← CreateSession SessionTcpClient (c_conn c);
          '(buf, rem) ← decode_buffer session buf rem;
          _ ← update_client p (with_buf buf rem);
          mret true
  end.

Definition HandleRead_iter (p : positive) (ev : read_event) : M (World B A) bool :=
  c ← deref_client (Some p);
  if state c =? TcpClientState_EXIT then mret false else HandleRead_body p ev.

(** The loop over the successive reads, with the deferred close. *)
Fixpoint HandleRead (p : positive) (evs : list read_event) : M (World B A) () :=
  match evs with
  | [] => mret ()
  | ev :: evs =>
      continue ← HandleRead_iter p ev;
      if continue : bool then HandleRead p evs else Close p
  end.

(** A loop in steps: it reads the state of its client before each [Read] and does
    the rest of the iteration when the [Read] returns. *)
Inductive loop := AtCheck | InRead | Ended.

Definition loop_step (p : positive) (ev : read_event) (l : loop) : M (World B A) loop :=
  match l with
  | AtCheck =>
      c ← deref_client (Some p);
      if state c =? TcpClientState_EXIT then _ ← Close p; mret Ended else mret InRead
  | InRead =>
      continue ← HandleRead_body p ev;
      if continue : bool then mret AtCheck else _ ← Close p; mret Ended
  | Ended => mret Ended
  end.

(** A step of the loop of [p], whose [Read], if it is in one, returns [ev]. *)
Definition loops_step (st : World B A * gmap positive loop) (s : positive * read_event)
    : result (World B A * gmap positive loop) :=
  let '(w, ls) := st in
  match ls !! s.1 with
  | None => Ok st
  | Some l =>
      match loop_step s.1 s.2 l w with
      | (Ok l', w') => Ok (w', <[s.1 := l']> ls)
      | (Panic x, _) => Panic x
      | (OutOfFuel, _) => OutOfFuel
      end
  end.

(** ** The read loop of a remote

    The loop owns its buffer: [r] is its state.  The overflow test comes after
    the test for half the capacity. *)

Definition Remote_HeartBeat (r : Remote) : M (World B A) bool :=
  send_rpc (Some (rconn r)) MSG_HEART_BEAT_REQ [].

Definition Remote_HandleRead_iter (r : Remote) (ev : read_event) : M (World B A) (bool * Remote) :=
  now ← gets GetNowTimestampMs;
  match ev with
  | ReadTimeout =>
      if 10 * 1000 <? now - lastActiveTime r then
        if 20 * 1000 <? now - lastActiveTime r then mret (false, r)
        else ok ← Remote_HeartBeat r; mret (ok, r)
      else mret (true, r)
  | ReadError => mret (false, r)
  | ReadOK data =>
      buf ← lift_result (recv_into (recvBuf r) (remainLen r) data);
      if go_len data =? 0 then mret (false, r)
      else
        let rem := u32 (remainLen r + go_len data) in
        let r := remote_with now buf rem r in
        if negb (RECV_BUF_MAX_LEN / 2 <? rem) && (RECV_BUF_MAX_LEN <? rem) then mret (false, r)
        else
          session ← CreateSession SessionRemote (rconn r);
          '(buf, rem) ← decode_buffer session buf rem;
          mret (true, remote_with (lastActiveTime r) buf rem r)
  end.

(** Its deferred function. *)
Definition Remote_onExit (r : Remote) : M (World B A) () := λ w,
  match OnRemoteDisappear (id r) (GetConnID (rconn r)) (w_remote w) with
  | Ok rm => (Ok (), set_broken ({[conn_fd (rconn r)]} ∪ w_broken w) (set_remote rm w))
  | Panic p => (Panic p, w)
  | OutOfFuel => (OutOfFuel, w)
  end.

(** [GetTcpListenIP] with the address found by [GetLocalIP]. *)
Definition GetTcpListenIP (localIP : string) (w : World B A) : string :=
  if w_identity w =? SERVER_IDENTITY_CLIENT_GATE then "0.0.0.0"
  else if Z.of_nat (String.length localIP) =? 0 then "0.0.0.0" else localIP.

(** ** Reading *)

(** The client's buffer starts with the bytes that were received but not yet
    decoded. *)
Record buf_ok (c : TcpClient) (pending : bytes) : Prop := {
  buf_prefix : ∃ junk, c_recvBuf c = pending ++ junk;
  buf_rem : c_remainLen c = go_len pending;
  buf_cap : go_len (c_recvBuf c) = RECV_BUF_MAX_LEN;
  buf_bytes : Forall is_byte pending;
}.

Lemma deref_client_ok p c w : w_clients w !! p = Some c → deref_client (Some p) w = (Ok c, w).
Proof. intros E. unfold deref_client. cbn. by rewrite E. Qed.

(** What one read that returns data does. *)
Lemma HandleRead_body_data (p : positive) (c : TcpClient) (pending data rem : bytes) (fs : list bytes)
    (w : World B A) :
  RECV_BUF_MAX_LEN < 2 ^ 32 →
  w_clients w !! p = Some c → buf_ok c pending →
  data ≠ [] → Forall is_byte data → go_len pending + go_len data ≤ RECV_BUF_MAX_LEN →
  Frames (pending ++ data) fs rem →
  let session := fresh (dom (w_sessions w)) in
  ∃ c1 buf',
    let w1 := set_sessions (<[session := mkSession SessionTcpClient (c_conn c) EmptyString]> (w_sessions w))
                (set_clients (<[p := c1]> (w_clients w)) w) in
    c_conn c1 = c_conn c ∧ state c1 = state c ∧ c_lastActiveTime c1 = w_clock w ∧
    buf_ok (with_buf buf' (go_len rem) c1) rem ∧
    ∀ w2, foldM (deliver (λ w f, final (RpcDecode session f w))) fs w1 = Ok w2 →
      HandleRead_body p (ReadOK data) w
      = (Ok true, set_clients (alter (with_buf buf' (go_len rem)) p (w_clients w2)) w2).
Proof.
  intros Hmax Hc [[junk Hbuf] Hrem Hcap Hb] Hne Hdb Hfit HF session.
  assert (Forall is_byte (pending ++ data)) as Hpb by by apply Forall_app.
  assert (go_len data ≤ go_len junk) as Hj by (rewrite Hbuf in Hcap; len_lia).
  set (buf := pending ++ data ++ drop (length data) junk).
  assert (go_len buf = RECV_BUF_MAX_LEN) as Hlen.
  { rewrite <- Hcap, Hbuf. unfold buf, go_len in *. rewrite !length_app, length_drop. lia. }
  set (c1 := with_read (w_clock w) buf (go_len (pending ++ data)) c).
  destruct (decode_shift_spec (λ w f, final (RpcDecode session f w))
    (set_sessions (<[session := mkSession SessionTcpClient (c_conn c) EmptyString]> (w_sessions w))
                (set_clients (<[p := c1]> (w_clients w)) w))
    (pending ++ data) (drop (length data) junk) fs rem) as (junk' & Hl & E); [done|done|len_lia|].
  exists c1, (rem ++ junk'). do 3 (split; [done|]). split.
  { split; cbn; [by exists junk'|done| |by eapply Frames_rem_bytes].
    rewrite <- Hlen. unfold go_len, buf. by rewrite Hl, <- app_assoc. }
  intros w2 Hdec. rewrite Hdec, bind_ok in E. unfold HandleRead_body.
  rewrite (M_bind_ok _ _ _ _ _ (deref_client_ok _ _ _ Hc)).
  rewrite (M_bind_ok _ _ _ (w_clock w) w) by done. rewrite Hbuf, Hrem.
  rewrite (M_bind_ok _ _ _ buf w) by (unfold lift_result; by rewrite recv_into_spec).
  destruct (Z.eqb_spec (go_len data) 0) as [H0|_].
  { destruct data; [done|]. rewrite go_len_cons in H0. len_lia. }
  assert (u32 (go_len pending + go_len data) = go_len (pending ++ data)) as ->
    by (rewrite u32_small; len_lia).
  rewrite (M_bind_ok _ _ _ () (set_clients (<[p := c1]> (w_clients w)) w)).
  2: { unfold update_client, modify. do 2 f_equal. apply map_eq. intros i.
       rewrite lookup_alter, lookup_insert. case_decide; [subst; by rewrite Hc|done]. }
  rewrite (proj2 (Z.ltb_ge _ _)) by len_lia.
  rewrite (M_bind_ok _ _ _ session (set_sessions (<[session := mkSession SessionTcpClient (c_conn c) EmptyString]> (w_sessions w))
                (set_clients (<[p := c1]> (w_clients w)) w))) by done.
  rewrite (M_bind_ok _ _ _ (rem ++ junk', go_len rem) w2).
  2: { unfold decode_buffer, buf. rewrite app_assoc. by rewrite E. }
  done.
Qed.

Lemma HandleRead_iter_alive p c ev w :
  w_clients w !! p = Some c → state c ≠ TcpClientState_EXIT → HandleRead_iter p ev w = HandleRead_body p ev w.
Proof.
  intros Hc Hst. unfold HandleRead_iter.
  by rewrite (M_bind_ok _ _ _ _ _ (deref_client_ok _ _ _ Hc)), (proj2 (Z.eqb_neq _ _) Hst).
Qed.

(** One read, one session.  When a read returns data, every complete frame
    of what was pending and what was read is decoded, in order, and all of them
    in one and the same new session; the undecoded rest becomes the new pending
    bytes and the loop goes on: the buffer never overflows. *)
Theorem read_step_decodes (p : positive) (c : TcpClient) (pending data rem : bytes) (fs : list bytes)
    (w : World B A) :
  RECV_BUF_MAX_LEN < 2 ^ 32 →
  w_clients w !! p = Some c → state c ≠ TcpClientState_EXIT → buf_ok c pending →
  data ≠ [] → Forall is_byte data → go_len pending + go_len data ≤ RECV_BUF_MAX_LEN →
  Frames (pending ++ data) fs rem →
  let session := fresh (dom (w_sessions w)) in
  ∃ c1 buf',
    let w1 := set_sessions (<[session := mkSession SessionTcpClient (c_conn c) EmptyString]> (w_sessions w))
                (set_clients (<[p := c1]> (w_clients w)) w) in
    c_conn c1 = c_conn c ∧ state c1 = state c ∧ c_lastActiveTime c1 = w_clock w ∧
    buf_ok (with_buf buf' (go_len rem) c1) rem ∧
    ∀ w2, foldM (deliver (λ w f, final (RpcDecode session f w))) fs w1 = Ok w2 →
      HandleRead_iter p (ReadOK data) w
      = (Ok true, set_clients (alter (with_buf buf' (go_len rem)) p (w_clients w2)) w2).
Proof.
  intros ? Hc Hst **. rewrite (HandleRead_iter_alive p c) by done. by eapply HandleRead_body_data.
Qed.

(** ** One frame in a read

    The common case, on which the theorems about several processes build: a read
    returns exactly one frame, and its payload becomes a task. *)

Lemma decode_buffer_frame session payload junk w :
  Forall is_byte payload → go_len payload ≤ MAX_PACKET_SIZE → go_len (frame payload ++ junk) < 2 ^ 32 →
  admitted session (t_name (task_of session payload)) w → ¬ runs_at_once (t_name (task_of session payload)) →
  ∃ junk', length junk' = length (frame payload ++ junk) ∧
    decode_buffer session (frame payload ++ junk) (go_len (frame payload)) w
    = (Ok (junk', 0), set_pool (enqueue (task_of session payload) (w_pool w)) w).
Proof.
  intros Hb Hmax Hlen Hadm Hrun.
  destruct (decode_shift_spec (λ w f, final (RpcDecode session f w)) w (frame payload) junk [payload] [])
    as (junk' & Hl & E).
  - rewrite <- (app_nil_r (frame payload)). apply frame_Frames; [unfold MAX_PACKET_SIZE in Hmax; lia|].
    by apply Frames_stop.
  - by apply frame_bytes.
  - len_lia.
  - exists junk'. split; [exact Hl|]. unfold decode_buffer. rewrite E. cbn [foldM].
    rewrite deliver_small by done. rewrite RpcDecode_admitted by done.
    by rewrite bool_decide_eq_false_2.
Qed.

(** A client's read loop between two frames. *)
Definition idle_buf (c : TcpClient) : Prop := c_remainLen c = 0 ∧ go_len (c_recvBuf c) = RECV_BUF_MAX_LEN.

Lemma read_frame p c payload w :
  RECV_BUF_MAX_LEN < 2 ^ 32 → w_clients w !! p = Some c → state c = TcpClientState_OK →
  GetTcpClient (GetConnID (c_conn c)) w = Some p → idle_buf c → Forall is_byte payload →
  go_len payload ≤ MAX_PACKET_SIZE → go_len (frame payload) ≤ RECV_BUF_MAX_LEN →
  let session := fresh (dom (w_sessions w)) in
  ¬ runs_at_once (t_name (task_of session payload)) →
  ∃ c', c_conn c' = c_conn c ∧ state c' = state c ∧ idle_buf c' ∧
    HandleRead p [ReadOK (frame payload)] w =
      (Ok (), set_clients (<[p := c']> (w_clients w))
        (set_pool (enqueue (task_of session payload) (w_pool w))
          (set_sessions (<[session := mkSession SessionTcpClient (c_conn c) EmptyString]> (w_sessions w)) w))).
Proof.
  intros Hmax Hc Hst Hp [Hrem Hcap] Hb Hpk Hfit session Hrun.
  destruct (HandleRead_body_data p c [] (frame payload) [] [payload] w) as (c1 & buf' & Hcn & Hs1 & _ & Hbuf & H).
  - done.
  - done.
  - split; [by exists (c_recvBuf c)|by rewrite Hrem|done|constructor].
  - done.
  - by apply frame_bytes.
  - len_lia.
  - rewrite <- (app_nil_r ([] ++ _)). apply frame_Frames; [unfold MAX_PACKET_SIZE in Hpk; lia|]. by apply Frames_stop.
  - fold session in H. cbn zeta in H.
    set (w1 := set_sessions _ _) in H.
    assert (admitted session (t_name (task_of session payload)) w1) as Hadm.
    { right. eexists. split; [apply lookup_insert_eq|]. right. exists p, c1.
      split; [exact Hp|]. split; [apply lookup_insert_eq|]. by rewrite Hs1. }
    exists (with_buf buf' (go_len (@nil Z)) c1). split; [exact Hcn|]. split; [exact Hs1|]. split.
    { split; [done|]. by destruct Hbuf. }
    cbn [HandleRead]. assert (state c ≠ TcpClientState_EXIT) as Hne by by rewrite Hst.
    rewrite (M_bind_ok _ _ _ _ _ (eq_trans (HandleRead_iter_alive p c _ w Hc Hne) (H (set_pool (enqueue (task_of session payload) (w_pool w1)) w1) ltac:(
      cbn [foldM]; rewrite deliver_small by done; rewrite RpcDecode_admitted by done;
      by rewrite bool_decide_eq_false_2)))).
    apply (f_equal (pair (Ok ()))). unfold w1, set_clients, set_pool, set_sessions. cbn. f_equal.
    apply map_eq. intros i. rewrite lookup_alter, !lookup_insert. by repeat case_decide.
Qed.

(** The same for the read loop of a remote. *)
Lemma remote_read_frame r payload w :
  RECV_BUF_MAX_LEN < 2 ^ 32 → remainLen r = 0 → go_len (recvBuf r) = RECV_BUF_MAX_LEN → Forall is_byte payload →
  go_len payload ≤ MAX_PACKET_SIZE → go_len (frame payload) ≤ RECV_BUF_MAX_LEN →
  let session := fresh (dom (w_sessions w)) in
  ¬ runs_at_once (t_name (task_of session payload)) →
  ∃ r', Remote_HandleRead_iter r (ReadOK (frame payload)) w =
      (Ok (true, r'), set_pool (enqueue (task_of session payload) (w_pool w))
        (set_sessions (<[session := mkSession SessionRemote (rconn r) EmptyString]> (w_sessions w)) w)).
Proof.
  intros Hmax Hrem Hcap Hb Hpk Hfit session Hrun. unfold Remote_HandleRead_iter.
  set (w1 := set_sessions (<[session := mkSession SessionRemote (rconn r) EmptyString]> (w_sessions w)) w).
  rewrite (M_bind_ok _ _ _ (w_clock w) w) by done.
  pose proof (recv_into_spec [] (recvBuf r) (frame payload)) as E. cbn [app] in E. rewrite go_len_nil in E.
  rewrite Hrem. rewrite (M_bind_ok _ _ _ _ _ (f_equal (λ r, (r, w)) (E ltac:(len_lia)))).
  rewrite (proj2 (Z.eqb_neq _ _)) by apply frame_len_pos.
  rewrite Z.add_0_l, u32_small by len_lia.
  rewrite (proj2 (Z.ltb_ge RECV_BUF_MAX_LEN _)), andb_false_r by len_lia.
  rewrite (M_bind_ok _ _ _ session w1) by done.
  destruct (decode_buffer_frame session payload (drop (length (frame payload)) (recvBuf r)) w1) as (junk' & _ & Ed).
  - done.
  - done.
  - unfold go_len in *. rewrite length_app, length_drop. lia.
  - right. eexists. split; [apply lookup_insert_eq|]. by left.
  - done.
  - cbn [app]. rewrite (M_bind_ok _ _ _ _ _ Ed). by eexists.
Qed.

(** Idle connections.  After a read timeout a client that was active within
    the last ten seconds is left alone, one that was silent for up to twenty
    seconds is sent a heart beat and is dropped only if that cannot be written,
    and one that was silent for longer is dropped. *)
Theorem heartbeat_window (p : positive) (c : TcpClient) (w : World B A) :
  w_clients w !! p = Some c → state c ≠ TcpClientState_EXIT →
  go_len (RpcEncode MSG_HEART_BEAT_REQ []) ≤ MAX_PACKET_SIZE →
  let idle := w_clock w - c_lastActiveTime c in
  HandleRead_iter p ReadTimeout w =
    if decide (idle ≤ 10000) then (Ok true, w)
    else if decide (idle ≤ 20000) then
      if decide (conn_fd (c_conn c) ∈ w_broken w) then (Ok false, w)
      else (Ok true, set_net (w_net w ++ [(c_conn c, frame (RpcEncode MSG_HEART_BEAT_REQ []))]) w)
    else (Ok false, w).
Proof.
  intros Hc Hst Hlen idle. unfold HandleRead_iter.
  rewrite (M_bind_ok _ _ _ _ _ (deref_client_ok _ _ _ Hc)), (proj2 (Z.eqb_neq _ _) Hst).
  unfold HandleRead_body. rewrite (M_bind_ok _ _ _ _ _ (deref_client_ok _ _ _ Hc)).
  rewrite (M_bind_ok _ _ _ (w_clock w) w) by done. fold idle.
  destruct (decide (idle ≤ 10000)) as [H1|H1]; [by rewrite (proj2 (Z.ltb_ge _ _)) by lia|].
  rewrite (proj2 (Z.ltb_lt (10 * 1000) _)) by lia.
  destruct (decide (idle ≤ 20000)) as [H2|H2]; [|by rewrite (proj2 (Z.ltb_lt _ _)) by lia].
  rewrite (proj2 (Z.ltb_ge (20 * 1000) _)) by lia. unfold HeartBeat.
  rewrite (M_bind_ok _ _ _ (frame (RpcEncode MSG_HEART_BEAT_REQ [])) w)
    by (unfold lift_result; by rewrite MessageEncode_spec).
  rewrite (M_bind_ok _ _ _ _ _ (deref_client_ok _ _ _ Hc)). unfold MessageSend.
  rewrite bool_decide_eq_false_2 by done. destruct (decide (conn_fd (c_conn c) ∈ w_broken w)).
  - by rewrite bool_decide_eq_true_2.
  - by rewrite bool_decide_eq_false_2.
Qed.

(** ** Accepting *)

Definition access_report w : bytes :=
  RpcEncode MSG_S2G_RPC_ACCESS_REPORT
    [GStr (Namespace (w_cfg w) +:+ ":" +:+ Service (w_cfg w)); GMapBool (map_to_list (clientAccess (w_rpc w)))].

Lemma Close_ok p c w :
  w_clients w !! p = Some c →
  Close p w = (Ok (), onClientClose (GetConnID (c_conn c)) (set_broken ({[conn_fd (c_conn c)]} ∪ w_broken w) w)).
Proof. intros Hc. unfold Close. by rewrite (M_bind_ok _ _ _ _ _ (deref_client_ok _ _ _ Hc)). Qed.

(** A service reports its permissions to a gate that connects.  When nothing
    happens in between, exactly one report is written to the new connection, to
    whose client the program's hook is then applied.  But the read loop already
    runs: when the gate closes the connection at once, it may have removed the
    client when the accept loop looks it up again, and the process panics with a
    nil pointer. *)
Theorem accept_reports conn w p w1 :
  w_identity w = SERVER_IDENTITY_SERVICE → go_len (access_report w) ≤ MAX_PACKET_SIZE →
  accept_register conn w = (Ok (Some p), w1) →
  (conn_fd conn ∉ w_broken w →
   accept conn w = (_ ← busi_accept (Some p); mret (Some p)) (set_net (w_net w ++ [(conn, frame (access_report w))]) w1)) ∧
  ∃ w2, HandleRead p [ReadOK []] w1 = (Ok (), w2) ∧ accept_rest (GetConnID conn) w2 = (Panic NilDereference, w2).
Proof.
  intros Hid Hlen Hreg. pose proof Hreg as H1. unfold accept_register in H1. destruct (stop (w_tcp w)); [done|].
  injection H1 as Hp Hw1. set (c := mkTcpClient conn _ 0 _ _) in Hw1.
  assert (w_clients w1 !! p = Some c) as Hc by (rewrite <- Hw1, <- Hp; apply lookup_insert_eq).
  assert (GetTcpClient (GetConnID conn) w1 = Some p) as Ht by (rewrite <- Hw1, <- Hp; apply lookup_insert_eq).
  assert (w_identity w1 = SERVER_IDENTITY_SERVICE ∧ access_report w1 = access_report w ∧ w_net w1 = w_net w ∧ w_broken w1 = w_broken w)
    as (Hid1 & Hrep & Hnet & Hbr) by by rewrite <- Hw1.
  split.
  - intros Hb. unfold accept. rewrite (M_bind_ok _ _ _ _ _ Hreg). unfold mbind at 1. unfold M_bind at 1. unfold accept_rest.
    rewrite (M_bind_ok _ _ _ SERVER_IDENTITY_SERVICE w1) by (unfold gets; by rewrite Hid1). rewrite Z.eqb_refl.
    set (w2 := set_net _ w1). rewrite (M_bind_ok _ _ _ () w2).
    2: { rewrite (M_bind_ok _ _ _ (Some p) w1) by (unfold gets; by rewrite Ht). unfold RpcPermissionReport.
         do 2 rewrite (M_bind_ok _ _ _ _ w1) by reflexivity. fold (access_report w1). rewrite Hrep.
         rewrite (M_bind_ok _ _ _ (frame (access_report w)) w1) by (unfold lift_result; by rewrite MessageEncode_spec).
         rewrite (M_bind_ok _ _ _ _ _ (deref_client_ok _ _ _ Hc)). rewrite (M_bind_ok _ _ _ true w2); [done|].
         unfold MessageSend. rewrite bool_decide_eq_false_2.
         - cbn [c_conn c]. by rewrite bool_decide_eq_false_2, Hnet by by rewrite Hbr.
         - intros E. by apply (f_equal length) in E. }
    rewrite (M_bind_ok _ _ _ (Some p) w2); [done|]. exact (f_equal (λ x, (Ok x, w2)) Ht).
  - eexists. split.
    + cbn [HandleRead]. rewrite (M_bind_ok _ _ _ false w1).
      { by rewrite (Close_ok p c w1 Hc). }
      rewrite (HandleRead_iter_alive p c); [|done|].
      * unfold HandleRead_body. rewrite (M_bind_ok _ _ _ _ _ (deref_client_ok _ _ _ Hc)).
        rewrite (M_bind_ok _ _ _ (w_clock w1) w1) by done.
        pose proof (recv_into_spec [] (c_recvBuf c) [] ltac:(cbn; len_lia)) as E. cbn [app go_len length Z.of_nat] in E.
        by rewrite (M_bind_ok _ _ _ _ _ (f_equal (λ r, (r, w1)) E)).
      * cbn. by rewrite Hid.
    + set (w2 := onClientClose _ _). unfold accept_rest.
      rewrite (M_bind_ok _ _ _ SERVER_IDENTITY_SERVICE w2) by (unfold gets; by rewrite <- Hid1). rewrite Z.eqb_refl.
      apply M_bind_panic. rewrite (M_bind_ok _ _ _ None w2) by (unfold gets, GetTcpClient; do 2 f_equal; apply lookup_delete_eq).
      unfold RpcPermissionReport. do 2 rewrite (M_bind_ok _ _ _ _ w2) by reflexivity. fold (access_report w2).
      rewrite (M_bind_ok _ _ _ (frame (access_report w)) w2); [done|].
      change (access_report w2) with (access_report w1). rewrite Hrep. unfold lift_result. by rewrite MessageEncode_spec.
Qed.

(** ** Stopping *)

Lemma HandleRead_exit p ev evs c w :
  w_clients w !! p = Some c → state c = TcpClientState_EXIT → HandleRead p (ev :: evs) w = Close p w.
Proof.
  intros Hc Hst. cbn. rewrite (M_bind_ok _ _ _ false w); [done|]. unfold HandleRead_iter.
  rewrite (M_bind_ok _ _ _ _ _ (deref_client_ok _ _ _ Hc)). by rewrite Hst.
Qed.

Lemma onClientClose_tcp_ok id w : tcp_ok w → tcp_ok (onClientClose id w).
Proof.
  intros [Hwf Hm Hl Hn]. destruct (bal_del_spec (lb (w_tcp w)) id Hwf) as (_ & Hm' & Hwf').
  split; cbn [w_tcp onClientClose set_remote set_server set_tcp lb clients w_clients].
  - done.
  - by rewrite Hm', Hm, dom_delete_L.
  - intros i p [_ H]%lookup_delete_Some. by apply Hl.
  - rewrite lookup_delete_None. by right.
Qed.

Lemma Stop_exits_lookup (ids : gmap CONN_ID positive) (m : gmap positive TcpClient) p id :
  ids !! id = Some p →
  map_fold (λ _ p m, alter (with_state TcpClientState_EXIT) p m) m ids !! p =
  with_state TcpClientState_EXIT <$> m !! p.
Proof.
  set (f := λ (_ : CONN_ID) p m, alter (with_state TcpClientState_EXIT) p m).
  assert (map_fold f m ids !! p = with_state TcpClientState_EXIT <$> m !! p ∨
    map_fold f m ids !! p = m !! p ∧ ∀ id, ids !! id ≠ Some p) as [H|[_ H]]; [|done|by intros ?%H].
  induction ids as [|i q ids Hi Hfold IH] using map_first_key_ind.
  - right. rewrite map_fold_empty. split; [done|]. intros j. by rewrite lookup_empty.
  - rewrite map_fold_insert_first_key by done. unfold f at 1 3. rewrite !lookup_alter.
    destruct (decide (q = p)) as [->|Hne].
    + left.
      destruct IH as [->|[-> _]]; [by destruct (m !! p)|done].
    + destruct IH as [->|[-> Hno]]; [by left|right]. split; [done|].
      intros j. rewrite lookup_insert. case_decide; [congruence|apply Hno].
Qed.

(** What the [Read] of a client may return while the server stops: an error, the
    end of the connection, or bytes that fit behind the pending ones and complete
    no verification message. *)
Definition read_ok w (p : positive) (ev : read_event) : Prop :=
  match ev with
  | ReadOK data =>
      ∃ c pending fs rem, w_clients w !! p = Some c ∧ buf_ok c pending ∧ Forall is_byte data ∧
        go_len pending + go_len data ≤ RECV_BUF_MAX_LEN ∧ Frames (pending ++ data) fs rem ∧
        Forall (λ f, (decode_name f).1 ≠ MSG_C2G_VERTIFY) fs
  | _ => True
  end.

(** A frame of a client that is told to exit is dropped. *)
Lemma RpcDecode_exit session s p c f w :
  w_sessions w !! session = Some s → typ s = SessionTcpClient → GetTcpClient (GetConnID (conn s)) w = Some p →
  w_clients w !! p = Some c → state c = TcpClientState_EXIT → (decode_name f).1 ≠ MSG_C2G_VERTIFY →
  RpcDecode session f w = (Ok (), w).
Proof.
  intros Hs Ht Hp Hc Hst Hf. unfold RpcDecode. destruct (decode_name f) as [name rest]. cbn in Hf.
  rewrite (M_bind_ok _ _ _ false w); [done|]. unfold PreCheck. rewrite bool_decide_eq_false_2 by done.
  rewrite (M_bind_ok _ _ _ s w) by (unfold deref_session; by rewrite Hs). rewrite Ht, Z.eqb_refl. cbn [negb].
  rewrite (M_bind_ok _ _ _ (Some p) w) by (unfold gets; by rewrite Hp).
  rewrite (M_bind_ok _ _ _ _ _ (deref_client_ok _ _ _ Hc)), Hst. cbn.
  unfold SetState, mbind, M_bind, modify. cbn. apply (f_equal (pair (Ok false))).
  rewrite (alter_id _ (w_clients w) p); [by destruct w|]. intros c' Hc'. cbn in Hc'. simplify_eq. destruct c; cbn in *. by subst.
Qed.

(** A read that was in progress when its client was told to exit. *)
Lemma body_exit p c ev w :
  RECV_BUF_MAX_LEN < 2 ^ 32 → go_len (RpcEncode MSG_HEART_BEAT_REQ []) ≤ MAX_PACKET_SIZE →
  w_clients w !! p = Some c → state c = TcpClientState_EXIT → GetTcpClient (GetConnID (c_conn c)) w = Some p →
  read_ok w p ev →
  ∃ b c' w', HandleRead_body p ev w = (Ok b, w') ∧ w_tcp w' = w_tcp w ∧
    w_clients w' = <[p := c']> (w_clients w) ∧ c_conn c' = c_conn c ∧ state c' = TcpClientState_EXIT.
Proof.
  intros Hmax Hhb Hc Hst Hp Hr.
  assert (∀ b w', HandleRead_body p ev w = (Ok b, w') → w_tcp w' = w_tcp w → w_clients w' = w_clients w →
    ∃ b c' w', HandleRead_body p ev w = (Ok b, w') ∧ w_tcp w' = w_tcp w ∧
    w_clients w' = <[p := c']> (w_clients w) ∧ c_conn c' = c_conn c ∧ state c' = TcpClientState_EXIT) as Hsame.
  { intros b w' E Et Ec. exists b, c, w'. split_and!; [done|done| |done|done]. by rewrite Ec, insert_id. }
  destruct ev as [| |data].
  - unfold HandleRead_body in *. rewrite (M_bind_ok _ _ _ _ _ (deref_client_ok _ _ _ Hc)) in *.
    rewrite (M_bind_ok _ _ _ (w_clock w) w) in * by done.
    destruct (10 * 1000 <? _); [|by eapply Hsame]. destruct (20 * 1000 <? _); [by eapply Hsame|].
    unfold HeartBeat in *.
    rewrite (M_bind_ok _ _ _ (frame (RpcEncode MSG_HEART_BEAT_REQ [])) w) in *
      by (unfold lift_result; by rewrite MessageEncode_spec).
    rewrite (M_bind_ok _ _ _ _ _ (deref_client_ok _ _ _ Hc)) in *. unfold MessageSend in *.
    repeat case_bool_decide; by eapply Hsame.
  - unfold HandleRead_body in *. rewrite (M_bind_ok _ _ _ _ _ (deref_client_ok _ _ _ Hc)) in *. by eapply Hsame.
  - destruct Hr as (c0 & pending & fs & rem & Hc0 & Hb & Hdb & Hfit & HF & Hfs).
    rewrite Hc in Hc0. injection Hc0 as <-.
    destruct (decide (data = [])) as [->|Hne].
    { destruct Hb as [[junk Hbuf] Hrem Hcap Hb].
      unfold HandleRead_body in *. rewrite (M_bind_ok _ _ _ _ _ (deref_client_ok _ _ _ Hc)) in *.
      rewrite (M_bind_ok _ _ _ (w_clock w) w) in * by done. rewrite Hbuf, Hrem in *.
      rewrite (M_bind_ok _ _ _ (pending ++ [] ++ drop 0 junk) w) in *
        by (unfold lift_result; rewrite recv_into_spec; [done|cbn; len_lia]).
      by eapply Hsame. }
    destruct (HandleRead_body_data p c pending data rem fs w Hmax Hc Hb Hne Hdb Hfit HF)
      as (c1 & buf' & Hcn & Hs1 & _ & _ & H). cbn zeta in H. set (w1 := set_sessions _ _) in H.
    set (session := fresh (dom (w_sessions w))) in *.
    assert (foldM (deliver (λ w f, final (RpcDecode session f w))) fs w1 = Ok w1) as E.
    { clear -Hfs Hcn Hs1 Hst Hp. induction Hfs as [|f fs Hf _ IH]; [done|]. cbn [foldM].
      destruct (decide (go_len f ≤ MAX_PACKET_SIZE)); [rewrite deliver_small by done|rewrite deliver_large by lia; exact IH].
      erewrite RpcDecode_exit; [exact IH|apply lookup_insert_eq|done|exact Hp| | |done].
      - apply lookup_insert_eq.
      - by rewrite Hs1. }
    exists true, (with_buf buf' (go_len rem) c1). eexists. split_and!; [by apply H|done| |done|by rewrite <- Hst].
    cbn. apply map_eq. intros i. rewrite lookup_alter, !lookup_insert. by repeat case_decide.
Qed.

Definition level (l : loop) : nat := match l with Ended => 0 | AtCheck => 1 | InRead => 2 end.

(** The server while it stops: the loops of the clients in the table run, their
    clients are told to exit, and their reads return what [sched] says. *)
Record stopping (sched : list (positive * read_event)) (st : World B A * gmap positive loop) : Prop := {
  sp_tcp : tcp_ok st.1;
  sp_stop : stop (w_tcp st.1) = true;
  sp_live p l : st.2 !! p = Some l → l ≠ Ended → ∃ c, w_clients st.1 !! p = Some c ∧
    state c = TcpClientState_EXIT ∧ GetTcpClient (GetConnID (c_conn c)) st.1 = Some p;
  sp_read p ev : st.2 !! p = Some InRead → (p, ev) ∈ sched → read_ok st.1 p ev;
  sp_table id p : clients (w_tcp st.1) !! id = Some p → ∃ l, st.2 !! p = Some l ∧ l ≠ Ended;
}.

Lemma read_ok_client w w' p ev : w_clients w' !! p = w_clients w !! p → read_ok w p ev → read_ok w' p ev.
Proof. intros E. destruct ev; cbn; [done..|]. by rewrite E. Qed.

Lemma stopping_close sched p l w ls :
  stopping sched (w, ls) → ls !! p = Some l → l ≠ Ended →
  ∃ w', Close p w = (Ok (), w') ∧ stopping sched (w', <[p := Ended]> ls).
Proof.
  intros [Ht Hs Hl Hr Htab] Hp Hne. destruct (Hl p l Hp Hne) as (c & Hc & Hst & Hid).
  rewrite (Close_ok p c w Hc). eexists. split; [reflexivity|]. cbn [fst snd] in *.
  assert (∀ q l', <[p := Ended]> ls !! q = Some l' → l' ≠ Ended → q ≠ p ∧ ls !! q = Some l') as Hq.
  { intros q l'. rewrite lookup_insert. case_decide; [congruence|]. by intros. }
  split; cbn [fst snd].
  - apply onClientClose_tcp_ok. by eapply tcp_ok_ext.
  - done.
  - intros q l' Hl' Hne'. destruct (Hq q l' Hl' Hne') as [Hqp Hlq]. destruct (Hl q l' Hlq Hne') as (c' & Hc' & Hst' & Hid').
    exists c'. split; [exact Hc'|]. split; [exact Hst'|]. unfold GetTcpClient in *. cbn.
    rewrite lookup_delete_ne; [done|]. intros E. rewrite <- E in Hid'. congruence.
  - intros q ev Hl'. destruct (Hq q InRead Hl') as [_ Hlq]; [done|]. by apply Hr.
  - cbn. intros id q [Hne' Hq']%lookup_delete_Some. destruct (Htab id q Hq') as (l' & Hl' & Hend). exists l'. split; [|done].
    rewrite lookup_insert_ne; [done|]. intros <-. destruct (tcp_live _ Ht id p Hq') as (c' & Hc' & <-). cbn in Hc'. congruence.
Qed.

Lemma stopping_read sched p c c' w w' ls :
  stopping sched (w, ls) → w_clients w !! p = Some c → is_Some (ls !! p) → w_tcp w' = w_tcp w →
  w_clients w' = <[p := c']> (w_clients w) → c_conn c' = c_conn c → state c' = TcpClientState_EXIT →
  GetTcpClient (GetConnID (c_conn c)) w = Some p → stopping sched (w', <[p := AtCheck]> ls).
Proof.
  intros [Ht Hs Hl Hr Htab] Hc Hp Et Ec Hcn Hst Hid. unfold GetTcpClient in *. cbn [fst snd] in *. split; cbn [fst snd].
  - destruct Ht as [Hwf Hm Hlv Hn]. split; rewrite ?Et; [done|done| |done]. intros id q Hq.
    destruct (Hlv id q Hq) as (c0 & Hc0 & Hid0). cbn in Hc0. rewrite Ec, lookup_insert. case_decide; [subst|by exists c0].
    exists c'. split; [done|]. rewrite Hcn. congruence.
  - by rewrite Et.
  - intros q l. unfold GetTcpClient. rewrite Ec, Et, !lookup_insert. case_decide; [|by eauto]. intros _ _. subst q. exists c'. by rewrite Hcn.
  - intros q ev. rewrite lookup_insert. case_decide; [done|]. intros Hq Hin.
    apply (read_ok_client w); [by rewrite Ec, lookup_insert_ne|by apply Hr].
  - intros id q. rewrite Et. intros (l & Hq & Hne)%Htab. rewrite lookup_insert. case_decide; [by exists AtCheck|by exists l].
Qed.

Lemma stopping_step sched p ev st :
  RECV_BUF_MAX_LEN < 2 ^ 32 → go_len (RpcEncode MSG_HEART_BEAT_REQ []) ≤ MAX_PACKET_SIZE →
  stopping sched st → (p, ev) ∈ sched →
  ∃ st', loops_step st (p, ev) = Ok st' ∧ stopping sched st' ∧
    ∀ q l, st'.2 !! q = Some l → ∃ l0, st.2 !! q = Some l0 ∧
      (level l ≤ level l0)%nat ∧ (q = p → level l ≤ level l0 - 1)%nat.
Proof.
  destruct st as [w ls]. intros Hmax Hhb HJ Hin.
  assert (∀ l l', ls !! p = Some l → (level l' ≤ level l - 1)%nat → ∀ q l1, <[p := l']> ls !! q = Some l1 →
    ∃ l0, ls !! q = Some l0 ∧ (level l1 ≤ level l0)%nat ∧ (q = p → level l1 ≤ level l0 - 1)%nat) as Hlev.
  { intros l l' Hl Hle q l1. rewrite lookup_insert. case_decide as Hqp.
    - subst q. intros [= <-]. exists l. split_and!; [done|lia|done].
    - intros Hq. exists l1. by split_and!. }
  unfold loops_step. cbn [fst snd]. destruct (ls !! p) as [l|] eqn:El.
  2: { exists (w, ls). split_and!; [done|done|]. intros q l Hq. exists l. split_and!; [done|done|]. intros ->. cbn in Hq. congruence. }
  destruct l; cbn [loop_step].
  - destruct (sp_live _ _ HJ p _ El) as (c & Hc & Hst & _); [done|]. cbn [fst] in Hc.
    rewrite (M_bind_ok _ _ _ _ _ (deref_client_ok _ _ _ Hc)), Hst. cbn [Z.eqb].
    destruct (stopping_close sched p _ w ls HJ El) as (w' & E & HJ'); [done|]. change (TcpClientState_EXIT =? TcpClientState_EXIT) with true. cbn match.
    rewrite (M_bind_ok _ _ _ _ _ E). eexists. split; [reflexivity|]. split; [exact HJ'|]. by apply (Hlev AtCheck Ended).
  - destruct (sp_live _ _ HJ p _ El) as (c & Hc & Hst & Hid); [done|]. cbn [fst] in Hc, Hid.
    destruct (body_exit p c ev w Hmax Hhb Hc Hst Hid (sp_read _ _ HJ p ev El Hin)) as (b & c' & w' & E & Et & Ec & Hcn & Hst').
    rewrite (M_bind_ok _ _ _ _ _ E).
    pose proof (stopping_read sched p c c' w w' ls HJ Hc ltac:(by eexists) Et Ec Hcn Hst' Hid) as HJ'. destruct b.
    + eexists. split; [reflexivity|]. split; [exact HJ'|]. by apply (Hlev InRead AtCheck).
    + destruct (stopping_close sched p AtCheck w' _ HJ') as (w2 & E2 & HJ2); [apply lookup_insert_eq|done|].
      rewrite (M_bind_ok _ _ _ _ _ E2). eexists. split; [reflexivity|]. rewrite insert_insert_eq in HJ2.
      split; [exact HJ2|]. apply (Hlev InRead Ended); [done|]. cbn. lia.
  - eexists. split; [reflexivity|]. rewrite insert_id by done. split; [done|]. intros q l Hq. exists l. split_and!; [done|done|].
    intros ->. cbn in Hq. rewrite El in Hq. by injection Hq as <-.
Qed.

(** The steps of [p] in a schedule. *)
Definition steps_of (p : positive) (sched : list (positive * read_event)) : nat := length (filter (λ s, s.1 = p) sched).

Lemma stopping_steps sched rs : ∀ st,
  RECV_BUF_MAX_LEN < 2 ^ 32 → go_len (RpcEncode MSG_HEART_BEAT_REQ []) ≤ MAX_PACKET_SIZE →
  stopping sched st → (∀ x, x ∈ rs → x ∈ sched) →
  ∃ st', foldM loops_step rs st = Ok st' ∧ stopping sched st' ∧
    ∀ q l, st'.2 !! q = Some l → ∃ l0, st.2 !! q = Some l0 ∧ (level l ≤ level l0 - steps_of q rs)%nat.
Proof.
  induction rs as [|[p ev] rs IH]; intros st Hmax Hhb HJ Hsub.
  { exists st. split_and!; [done|done|]. intros q l Hq. exists l. split; [done|]. cbn. lia. }
  destruct (stopping_step sched p ev st Hmax Hhb HJ) as (st1 & E1 & HJ1 & Hl1); [apply Hsub; by left|].
  destruct (IH st1 Hmax Hhb HJ1) as (st2 & E2 & HJ2 & Hl2); [intros x Hx; apply Hsub; by right|].
  exists st2. cbn [foldM]. rewrite E1, bind_ok. split_and!; [done|done|].
  intros q l Hq. destruct (Hl2 q l Hq) as (l1 & Hq1 & Hle). destruct (Hl1 q l1 Hq1) as (l0 & Hq0 & Ha & Hb).
  exists l0. split; [done|]. unfold steps_of in *. rewrite filter_cons. case_decide as Hqp; cbn in Hqp |- *; [|lia].
  specialize (Hb ltac:(done)). lia.
Qed.

Lemma Stop_stopping sched w ls :
  tcp_ok w → stop (w_tcp w) = false →
  (∀ id p, clients (w_tcp w) !! id = Some p → ∃ l, ls !! p = Some l ∧ l ≠ Ended) →
  (∀ p l, ls !! p = Some l → l ≠ Ended → ∃ id, clients (w_tcp w) !! id = Some p) →
  (∀ p ev, ls !! p = Some InRead → (p, ev) ∈ sched → read_ok w p ev) →
  stopping sched (Stop w, ls).
Proof.
  intros [Hwf Hm Hl Hn] Hstop Hall Hruns Hread. unfold Stop. rewrite Hstop.
  assert (∀ id p, clients (w_tcp w) !! id = Some p → ∃ c, w_clients w !! p = Some c ∧ GetConnID (c_conn c) = id ∧
    map_fold (λ _ p m, alter (with_state TcpClientState_EXIT) p m) (w_clients w) (clients (w_tcp w)) !! p
    = Some (with_state TcpClientState_EXIT c)) as Hx.
  { intros id p Hp. destruct (Hl _ _ Hp) as (c & Hc & Hid). exists c. split_and!; [done|done|].
    by rewrite (Stop_exits_lookup _ _ _ _ Hp), Hc. }
  split; cbn.
  - split; cbn; [done|done| |done]. intros id p Hp. destruct (Hx id p Hp) as (c & _ & Hid & ->). eexists. by split.
  - done.
  - intros p l Hp Hne. destruct (Hruns p l Hp Hne) as [id Hid]. destruct (Hx id p Hid) as (c & _ & <- & ->).
    eexists. by split_and!.
  - intros p ev Hp Hin. specialize (Hread p ev Hp Hin). destruct ev as [| |data]; [done..|].
    destruct Hread as (c & pending & fs & rem & Hc & Hb & ? & ? & ? & ?). destruct (Hruns p _ Hp) as [id Hid]; [done|].
    destruct (Hx id p Hid) as (c0 & Hc0 & _ & E). rewrite Hc in Hc0. injection Hc0 as <-.
    exists (with_state TcpClientState_EXIT c), pending, fs, rem. split_and!; try done. by destruct Hb.
  - intros id p Hp. by apply (Hall id).
Qed.

Lemma Stop_drained (w : World B A) (ls : gmap positive loop) (sched : list (positive * read_event)) :
  RECV_BUF_MAX_LEN < 2 ^ 32 → go_len (RpcEncode MSG_HEART_BEAT_REQ []) ≤ MAX_PACKET_SIZE →
  tcp_ok w → stop (w_tcp w) = false →
  (∀ id p, clients (w_tcp w) !! id = Some p → ∃ l, ls !! p = Some l ∧ l ≠ Ended) →
  (∀ p l, ls !! p = Some l → l ≠ Ended → ∃ id, clients (w_tcp w) !! id = Some p) →
  (∀ p ev, ls !! p = Some InRead → (p, ev) ∈ sched → read_ok w p ev) →
  (∀ p, is_Some (ls !! p) → 2 ≤ steps_of p sched)%nat →
  ∃ w' ls', foldM loops_step sched (Stop w, ls) = Ok (w', ls') ∧ (∀ p l, ls' !! p = Some l → l = Ended) ∧
    Stop_waits w' = false ∧ tcp_ok w' ∧ ∀ ev, accept_iter ev w' = (Ok false, w').
Proof.
  intros Hmax Hhb Hok Hstop Hall Hruns Hread Hcnt.
  destruct (stopping_steps sched sched (Stop w, ls) Hmax Hhb (Stop_stopping sched w ls Hok Hstop Hall Hruns Hread))
    as ([w' ls'] & E & [Ht Hs _ _ Htab] & Hlev); [done|]. exists w', ls'. cbn [fst snd] in *.
  assert (∀ p l, ls' !! p = Some l → l = Ended) as Hend.
  { intros p l Hp. destruct (Hlev p l Hp) as (l0 & Hl0 & Hle). specialize (Hcnt p ltac:(by eexists)).
    destruct l0, l; cbn in Hle; done || lia. }
  split_and!; [done|done| |done|].
  - unfold Stop_waits. apply bool_decide_eq_false_2. intros Hne. apply Hne. apply map_empty. intros id.
    apply eq_None_not_Some. intros [p Hp]. destruct (Htab id p Hp) as (l & Hl & Hn). by apply Hn, (Hend p).
  - intros [|conn]; cbn [accept_iter].
    + rewrite (M_bind_ok _ _ _ true w'); [done|]. unfold gets. by rewrite Hs.
    + rewrite (M_bind_ok _ _ _ None w'); [done|]. unfold accept. rewrite (M_bind_ok _ _ _ None w'); [done|].
      unfold accept_register. by rewrite Hs.
Qed.


End TcpServer.

(** ** Witnesses *)
Module TcpServerDemo.
Import ServiceB.

#[local] Existing Instance ref_msgpack.

Definition demo_client : TcpClient := mkTcpClient demo_gate (replicate 16 0) 0 0 TcpClientState_OK.

(** Service B fifteen seconds after it last heard from its gate. *)
Definition demo_idle : World handlers () :=
  let w := set_clients {[1%positive := demo_client]} (demo_world TcpClientState_OK) in
  mkWorld (w_cfg w) (w_identity w) 15000 (w_gid w) (w_rpc w) (w_tcp w) (w_clients w) (w_remote w)
    (w_cb w) (w_pool w) (w_sessions w) (w_net w) (w_broken w) (w_chans w) (w_nextch w) (w_fvc w) (w_app w).

Lemma demo_idle_tcp_ok : tcp_ok demo_idle.
Proof.
  destruct (ready_tcp _ demo_ready) as [? ? Hl ?]. split; [done|done| |done].
  intros id p Hp. change (({[GetConnID demo_gate := 1%positive]} : gmap CONN_ID positive) !! id = Some p) in Hp.
  apply lookup_singleton_Some in Hp as [<- <-]. exists demo_client. by split.
Qed.

Lemma read_step_decodes_witness :
  ∃ w', HandleRead_iter 16 1 (ReadOK (frame (RpcEncode MSG_HEART_BEAT_REQ []))) demo_idle = (Ok true, w') ∧
    length (taskCh (w_pool w')) = 1%nat.
Proof.
  destruct (read_step_decodes 16 1 demo_client [] (frame (RpcEncode MSG_HEART_BEAT_REQ [])) []
    [RpcEncode MSG_HEART_BEAT_REQ []] demo_idle) as (c1 & buf' & Hcn & Hst & _ & _ & H).
  - reflexivity.
  - reflexivity.
  - discriminate.
  - split; [by exists (replicate 16 0)|reflexivity|reflexivity|constructor].
  - discriminate.
  - apply frame_bytes, RpcEncode_bytes.
  - vm_compute. discriminate.
  - rewrite <- (app_nil_r ([] ++ _)). apply frame_Frames; [reflexivity|]. by apply Frames_stop.
  - eexists. split; [apply H|].
    + cbn [foldM]. rewrite deliver_small by (vm_compute; discriminate). rewrite RpcDecode_admitted.
      * cbn. reflexivity.
      * right. eexists. split; [apply lookup_insert_eq|]. right. exists 1%positive, c1.
        split; [reflexivity|]. split; [apply lookup_insert_eq|]. by rewrite Hst.
    + reflexivity.
Defined.

Lemma heartbeat_window_witness :
  HandleRead_iter 16 1 ReadTimeout demo_idle
  = (Ok true, set_net [(demo_gate, frame (RpcEncode MSG_HEART_BEAT_REQ []))] demo_idle).
Proof.
  rewrite (heartbeat_window 16 1 demo_client demo_idle); [reflexivity|reflexivity|discriminate|].
  vm_compute. discriminate.
Defined.


End TcpServerDemo.
