(* ===== verification/Gate.v ===== *)
(** * The gate ([src/ms_gate/src])

    The handlers of the gate: routing requests to services and responses back,
    the permissions services report, verification, login and logoff, and
    pushes.  Redis, where logins are recorded, is a parameter: the class [Redis]
    says what a successful command does. *)

From S2P Require Import Prelude Utils Wire Msgpack LoadBalancer CallbackMgr RemoteMgr World SimpleRpc.

Local Open Scope Z_scope.

(** A redis cluster client: a command that returns no error took effect. *)
Class Redis (R : Type) := {
  redis_get : R → string → option string;
  redis_set : R → string → string → bool * R;
  redis_del : R → string → bool * R;
  redis_set_ok r k v r' : redis_set r k v = (true, r') →
    ∀ k', redis_get r' k' = if decide (k = k') then Some v else redis_get r k';
  redis_del_ok r k r' : redis_del r k = (true, r') →
    ∀ k', redis_get r' k' = if decide (k = k') then None else redis_get r k';
}.

Definition VERTIFY_SECRET_KEY : string := "a58a8b450770a3f42515e08d7125d76b".

Inductive GateHandler :=
  | RpcC2GRpcRouteHandler
  | RpcS2GRpcRspHandler
  | RpcGateLoginHandler
  | RpcGateLogoffHandler
  | RpcReqListenAddrHandler
  | RpcP2GPushHandler
  | RpcC2GVertifyHandler
  | RpcS2GRpcAccessReportHandler.

Record RpcC2GRpcRouteReq := mkRouteReq {
  q_NameSpace : string;
  q_Service : string;
  q_Rid : Z;
  q_IsOrdered : bool;
  q_InnerRpc : bytes;
}.

Record RpcS2GRpcRsp := mkS2GRsp { p_GRid : Z; p_Error : string; p_Reply : goval }.

Record RpcP2GPushReq := mkPushReq { u_ConnID : string; u_Pid : bytes; u_Namespace : string; u_InnerRpc : bytes }.

(** The variables of the program: the permissions and the redis cluster
    [myRedis2], if it was configured. *)
Record GateApp (R : Type) := mkGateApp {
  gClientAccess : gmap string (gmap string bool);
  myRedis2 : option R;
}.
Arguments mkGateApp {R} _ _.
Arguments gClientAccess {R} _.
Arguments myRedis2 {R} _.

Section Gate.
  Context {MP : Msgpack} {R : Type} {RE : Redis R}.

Abbreviation W := (World GateHandler (GateApp R)).
Implicit Types w : W.

(** ** Routing a request *)

(** The permission check; the empty string when the call is allowed. *)
Definition access_error (req : RpcC2GRpcRouteReq) w : string :=
  match gClientAccess (w_app w) !! (q_NameSpace req +:+ ":" +:+ q_Service req) with
  | None => "service " +:+ q_NameSpace req +:+ ":" +:+ q_Service req +:+ " not exist"
  | Some rpcPermissions =>
      let rpcName := inner_name (q_InnerRpc req) in
      match rpcPermissions !! rpcName with
      | Some true => EmptyString
      | _ => "rpc " +:+ q_NameSpace req +:+ ":" +:+ q_Service req +:+ ":" +:+ rpcName +:+ " not allow"
      end
  end.

(** An error is only answered when the client waits for a response. *)
Definition error_response (req : RpcC2GRpcRouteReq) (c : Conn) (err : string) : M W () :=
  if q_Rid req =? 0 then mret ()
  else _ ← send_rpc (Some c) MSG_G2C_RPC_RSP [GUint32 (q_Rid req); GStr err; GNil]; mret ().

(** The gate id of a request and the callback for its response. *)
Definition register_route (req : RpcC2GRpcRouteReq) (clientID : CONN_ID) : M W Z :=
  if q_Rid req =? 0 then mret 0
  else
    grid ← NewGid;
    now ← gets GetNowTimestampMs;
    let cbInfo := mkCbInfo (q_Rid req) clientID (q_NameSpace req) (q_Service req)
                    (inner_name (q_InnerRpc req)) now in
    _ ← AddCb grid (CbRoute cbInfo) 101 None;
    mret grid.

(** The request is forwarded to the chosen instance, if there is one. *)
Definition route_to (req : RpcC2GRpcRouteReq) (c : Conn) (remote : option Remote) : M W () :=
  match remote with
  | Some remote =>
      grid ← register_route req (GetConnID c);
      let name := if q_IsOrdered req then MSG_G2S_RPC_CALL_ORDERED else MSG_G2S_RPC_CALL in
      _ ← send_rpc (Some (rconn remote)) name [GUint32 grid; GBytes (q_InnerRpc req)];
      mret ()
  | None =>
      error_response req c
        ("service " +:+ q_NameSpace req +:+ ":" +:+ q_Service req +:+ " not exist")
  end.

Definition RpcC2GRpcRoute_Process (req : RpcC2GRpcRouteReq) (session : positive) : M W () :=
  _ ← RpcFvcCount;
  identity ← gets w_identity;
  s ← deref_session session;
  err ← gets (λ w, if (identity =? SERVER_IDENTITY_CLIENT_GATE) && (typ s =? SessionTcpClient)
                   then access_error req w else EmptyString);
  if negb (bool_decide (err = EmptyString)) then error_response req (conn s) err
  else
    let clientID := GetConnID (conn s) in
    let remoteID := GetRemoteID (q_NameSpace req) (q_Service req) in
    remote ← ChoiceRemoteW remoteID (q_IsOrdered req) clientID;
    route_to req (conn s) remote.

(** ** Routing a response *)

(** The connection behind an id: a client's, else a remote's. *)
Definition response_conn (connID : CONN_ID) : M W (option Conn) :=
  client ← gets (GetTcpClient connID);
  match client with
  | Some p => c ← deref_client (Some p); mret (Some (c_conn c))
  | None => remote ← gets (λ w, GetRemote connID (w_remote w)); mret (rconn <$> remote)
  end.

Definition RpcS2GRpcRsp_Process (req : RpcS2GRpcRsp) (session : positive) : M W () :=
  cbs ← GetCb (p_GRid req);
  match cbs with
  | None => mret ()
  | Some (CbRoute cbInfo) =>
      conn ← response_conn (connID cbInfo);
      match conn with
      | None => mret ()
      | Some c =>
          _ ← send_rpc (Some c) MSG_G2C_RPC_RSP [GUint32 (rid cbInfo); GStr (p_Error req); p_Reply req];
          mret ()
      end
  | Some _ => throw TypeAssertion
  end.

(** ** Login and logoff *)

(** The key of a client, by the kind of gate. *)
Definition login_key (clientID : string) w : option string :=
  if bool_decide (Service (w_cfg w) = "ServiceGate") then Some ("s_" +:+ clientID)
  else if bool_decide (Service (w_cfg w) = "ClientGate") then Some ("c_" +:+ clientID)
  else None.

(** A command on the cluster; [false] when it returned an error. *)
Definition redis_command (cmd : R → bool * R) : M W bool := λ w,
  match myRedis2 (w_app w) with
  | None => (Panic NilDereference, w)
  | Some r => let '(ok, r) := cmd r in (Ok ok, set_app (mkGateApp (gClientAccess (w_app w)) (Some r)) w)
  end.

(** The handlers with a response work on its only field, [Success] or [Addr]. *)
Definition set_Success (b : bool) : M (list goval * W) () := modify (λ '(_, w), ([GBool b], w)).

Definition RpcGateLogin_Process (clientID : string) (session : positive) : M (list goval * W) () :=
  _ ← set_Success true;
  key ← liftW (gets (login_key clientID));
  match key with
  | None => mret ()
  | Some key =>
      s ← liftW (deref_session session);
      listen ← liftW (gets (λ w, listenAddr (w_tcp w)));
      let value := listen +:+ "/" +:+ GetConnID (conn s) in
      ok ← liftW (redis_command (λ r, redis_set r key value));
      if ok : bool then mret () else set_Success false
  end.

Definition RpcGateLogoff_Process (clientID : string) (session : positive) : M (list goval * W) () :=
  _ ← set_Success true;
  key ← liftW (gets (login_key clientID));
  match key with
  | None => mret ()
  | Some key =>
      s ← liftW (deref_session session);
      ok ← liftW (redis_command (λ r, redis_del r key));
      if ok : bool then mret () else set_Success false
  end.

(** ** Push, verification and permissions *)

Definition RpcReqListenAddr_Process (session : positive) : M W () :=
  listen ← gets (λ w, listenAddr (w_tcp w));
  msg ← lift_result (MessageEncode (RpcEncode MSG_G2P_RSP_LISTENADDR [GStr listen]));
  s ← deref_session session;
  _ ← MessageSend (Some (conn s)) msg;
  mret ().

Definition RpcP2GPush_Process (req : RpcP2GPushReq) : M W () :=
  client ← gets (GetTcpClient (u_ConnID req));
  match client with
  | None => mret ()
  | Some p =>
      msg ← lift_result (MessageEncode (RpcEncode MSG_G2C_PUSH
               [GBytes (u_Pid req); GStr (u_Namespace req); GBytes (u_InnerRpc req)]));
      c ← deref_client (Some p);
      _ ← MessageSend (Some (c_conn c)) msg;
      mret ()
  end.

Definition RpcC2GVertify_Process (secretKey : string) (session : positive) : M W () :=
  if negb (bool_decide (secretKey = VERTIFY_SECRET_KEY)) then mret ()
  else
    s ← deref_session session;
    client ← gets (GetTcpClient (GetConnID (conn s)));
    match client with
    | None => mret ()
    | Some p => SetState p TcpClientState_OK
    end.

Definition RpcS2GRpcAccessReport_Process (serviceKey : string) (access : gmap string bool) : M W () :=
  modify (λ w, set_app (mkGateApp (<[serviceKey := access]> (gClientAccess (w_app w))) (myRedis2 (w_app w))) w).

(** ** The program *)

Definition gate_process (h : GateHandler) (session : positive) (args : list goval) : M (list goval * W) () :=
  match h, args with
  | RpcC2GRpcRouteHandler, [GStr ns; GStr svc; GUint32 rid; GBool ordered; GBytes inner] =>
      liftW (RpcC2GRpcRoute_Process (mkRouteReq ns svc rid ordered inner) session)
  | RpcS2GRpcRspHandler, [GUint32 grid; GStr error; reply] =>
      liftW (RpcS2GRpcRsp_Process (mkS2GRsp grid error reply) session)
  | RpcGateLoginHandler, [GStr clientID] => RpcGateLogin_Process clientID session
  | RpcGateLogoffHandler, [GStr clientID] => RpcGateLogoff_Process clientID session
  | RpcReqListenAddrHandler, [] => liftW (RpcReqListenAddr_Process session)
  | RpcP2GPushHandler, [GStr connID; GBytes pid; GStr ns; GBytes inner] =>
      liftW (RpcP2GPush_Process (mkPushReq connID pid ns inner))
  | RpcC2GVertifyHandler, [GStr key] => liftW (RpcC2GVertify_Process key session)
  | RpcS2GRpcAccessReportHandler, [GStr key; GMapBool access] =>
      liftW (RpcS2GRpcAccessReport_Process key (list_to_map access))
  | RpcS2GRpcAccessReportHandler, [GStr key; GNil] => liftW (RpcS2GRpcAccessReport_Process key ∅)
  | _, _ => throw TypeAssertion
  end.

#[export] Instance gate_sig : HandlerSig GateHandler := {|
  busi_req h :=
    match h with
    | RpcC2GRpcRouteHandler =>
        Some [("NameSpace", TString); ("Service", TString); ("Rid", TUint32); ("IsOrdered", TBool);
              ("InnerRpc", TBytes)]
    | RpcS2GRpcRspHandler => Some [("GRid", TUint32); ("Error", TString); ("Reply", TMapAny)]
    | RpcGateLoginHandler | RpcGateLogoffHandler => Some [("ClientID", TString)]
    | RpcReqListenAddrHandler => None
    | RpcP2GPushHandler =>
        Some [("ConnID", TString); ("Pid", TBytes); ("Namespace", TString); ("InnerRpc", TBytes)]
    | RpcC2GVertifyHandler => Some [("SecretKey", TString)]
    | RpcS2GRpcAccessReportHandler => Some [("ServiceKey", TString); ("Access", TMapBool)]
    end;
  busi_rsp h :=
    match h with
    | RpcGateLoginHandler | RpcGateLogoffHandler => Some [("Success", GBool false)]
    | RpcReqListenAddrHandler => Some [("Addr", GStr EmptyString)]
    | _ => None
    end;
  busi_access _ := false;
|}.

#[export] Instance gate : Business GateHandler (GateApp R) := {|
  busi_process _ := gate_process;
  busi_accept _ := mret ();
|}.

Definition gate_handlers : list (string * RpcHandler GateHandler) :=
  [(MSG_C2G_RPC_ROUTE, Busi RpcC2GRpcRouteHandler); (MSG_S2G_RPC_RSP, Busi RpcS2GRpcRspHandler);
   (MSG_GATE_LOGIN, Busi RpcGateLoginHandler); (MSG_GATE_LOGOFF, Busi RpcGateLogoffHandler);
   (MSG_P2G_REQ_LISTENADDR, Busi RpcReqListenAddrHandler); (MSG_P2G_PUSH, Busi RpcP2GPushHandler);
   (MSG_C2G_VERTIFY, Busi RpcC2GVertifyHandler);
   (MSG_S2G_RPC_ACCESS_REPORT, Busi RpcS2GRpcAccessReportHandler)].

(** [main], up to [Start]. *)
Definition gate_identity (svc : string) : result Z :=
  if bool_decide (svc = "ServiceGate") then Ok SERVER_IDENTITY_SERVICE_GATE
  else if bool_decide (svc = "ClientGate") then Ok SERVER_IDENTITY_CLIENT_GATE
  else Panic (PanicMsg ("error service cfg " +:+ svc)).

Definition main (cfg : GlobalConfig) (listen : string) (redis : option R) : result W :=
  identity ← gate_identity (Service cfg);
  rmgr ← CreateSimpleRpcMgr;
  rmgr ← regist_all gate_handlers rmgr;
  Ok (init_world cfg identity listen (StopRcpHandlerRegist rmgr) (mkGateApp ∅ redis)).

(** ** Routing *)

(** The service reported that clients may call the rpc. *)
Definition granted (req : RpcC2GRpcRouteReq) w : Prop :=
  ∃ perms, gClientAccess (w_app w) !! (q_NameSpace req +:+ ":" +:+ q_Service req) = Some perms ∧
    perms !! inner_name (q_InnerRpc req) = Some true.

Lemma access_error_granted req w : access_error req w = EmptyString ↔ granted req w.
Proof.
  unfold access_error, granted. destruct (gClientAccess (w_app w) !! _) as [perms|]; [|split; [done|naive_solver]].
  split.
  - destruct (perms !! _) as [[]|] eqn:E; [eauto|done..].
  - intros (perms' & [= <-] & ->). done.
Qed.

Lemma error_response_ok req c err w :
  (q_Rid req ≠ 0 → fits MSG_G2C_RPC_RSP [GUint32 (q_Rid req); GStr err; GNil] ∧ conn_fd c ∉ w_broken w) →
  error_response req c err w =
    (Ok (), if decide (q_Rid req = 0) then w
            else set_net (w_net w ++ [(c, frame (RpcEncode MSG_G2C_RPC_RSP [GUint32 (q_Rid req); GStr err; GNil]))]) w).
Proof.
  intros H. unfold error_response. destruct (Z.eqb_spec (q_Rid req) 0) as [E|E].
  - by rewrite decide_True.
  - rewrite decide_False by done. destruct (H E) as [Hf Hb]. by rewrite (M_bind_ok _ _ _ _ _ (send_rpc_ok _ _ _ _ Hf Hb)).
Qed.

(** C8 Access control.  On a client gate, a request of a client for an rpc that
    the service did not open to clients goes nowhere: no service is contacted,
    no callback registered, no gate id used; the client gets an error response
    if it waits for one. *)
Theorem access_denied (req : RpcC2GRpcRouteReq) (session : positive) (s : Session) w :
  w_identity w = SERVER_IDENTITY_CLIENT_GATE → w_sessions w !! session = Some s →
  typ s = SessionTcpClient → ¬ granted req w →
  (q_Rid req ≠ 0 →
   fits MSG_G2C_RPC_RSP [GUint32 (q_Rid req); GStr (access_error req w); GNil] ∧ conn_fd (conn s) ∉ w_broken w) →
  access_error req w ≠ EmptyString ∧
  RpcC2GRpcRoute_Process req session w =
    (Ok (), set_fvc (w_fvc w + 1)
       (if decide (q_Rid req = 0) then w
        else set_net (w_net w ++ [(conn s, frame (RpcEncode MSG_G2C_RPC_RSP
                                     [GUint32 (q_Rid req); GStr (access_error req w); GNil]))]) w)).
Proof.
  intros Hi Hs Ht Hg Hr. assert (access_error req w ≠ EmptyString) as Hne by by intros ?%access_error_granted.
  split; [done|]. unfold RpcC2GRpcRoute_Process, RpcFvcCount.
  set (w1 := set_fvc (w_fvc w + 1) w). rewrite (M_bind_ok _ _ _ () w1) by done.
  rewrite (M_bind_ok _ _ _ (w_identity w) w1) by done.
  rewrite (M_bind_ok _ _ _ _ _ (deref_session_ok session s w1 Hs)).
  rewrite (M_bind_ok _ _ _ (access_error req w) w1) by (by rewrite Hi, Ht).
  rewrite bool_decide_eq_false_2 by done. cbn [negb]. rewrite error_response_ok by exact Hr.
  by destruct (decide (q_Rid req = 0)).
Qed.

(** The session may use the rpc. *)
Definition allowed (req : RpcC2GRpcRouteReq) (s : Session) w : Prop :=
  w_identity w ≠ SERVER_IDENTITY_CLIENT_GATE ∨ typ s ≠ SessionTcpClient ∨ granted req w.

(** An allowed request is routed. *)
Lemma RpcC2GRpcRoute_allowed req session s w :
  w_sessions w !! session = Some s → allowed req s w →
  RpcC2GRpcRoute_Process req session w =
    (ChoiceRemoteW (GetRemoteID (q_NameSpace req) (q_Service req)) (q_IsOrdered req) (GetConnID (conn s))
       ≫= route_to req (conn s)) (set_fvc (w_fvc w + 1) w).
Proof.
  intros Hs Hal. unfold RpcC2GRpcRoute_Process, RpcFvcCount.
  set (w1 := set_fvc (w_fvc w + 1) w). rewrite (M_bind_ok _ _ _ () w1) by done.
  rewrite (M_bind_ok _ _ _ (w_identity w) w1) by done.
  rewrite (M_bind_ok _ _ _ _ _ (deref_session_ok session s w1 Hs)).
  rewrite (M_bind_ok _ _ _ EmptyString w1); [by rewrite bool_decide_eq_true_2|].
  unfold gets. destruct (Z.eqb_spec (w_identity w) SERVER_IDENTITY_CLIENT_GATE) as [E1|]; [|done].
  destruct (Z.eqb_spec (typ s) SessionTcpClient) as [E2|]; [|done]. cbn [andb].
  destruct Hal as [?|[?|Hg]]; [done|done|]. by rewrite (proj2 (access_error_granted req w1)) by exact Hg.
Qed.

Definition route_name (req : RpcC2GRpcRouteReq) : string :=
  if q_IsOrdered req then MSG_G2S_RPC_CALL_ORDERED else MSG_G2S_RPC_CALL.

(** What a routed request leaves unchanged. *)
Definition same_conns w w' : Prop :=
  w_tcp w' = w_tcp w ∧ w_clients w' = w_clients w ∧ w_broken w' = w_broken w ∧
  w_sessions w' = w_sessions w ∧ remotes (w_remote w') = remotes (w_remote w) ∧ w_rpc w' = w_rpc w.

Lemma register_route_ok req clientID w :
  cb_ok w →
  ∃ grid w', register_route req clientID w = (Ok grid, w') ∧ cb_ok w' ∧ same_conns w w' ∧
    w_net w' = w_net w ∧
    (q_Rid req = 0 → grid = 0 ∧ gCbMap (w_cb w') = gCbMap (w_cb w)) ∧
    (q_Rid req ≠ 0 → grid = u32 (w_gid w + 1) ∧ ∃ p,
      gCbMap (w_cb w') = <[grid := (CbRoute (mkCbInfo (q_Rid req) clientID (q_NameSpace req) (q_Service req)
        (inner_name (q_InnerRpc req)) (w_clock w)), p)]> (gCbMap (w_cb w))).
Proof.
  intros Hcb. unfold register_route. destruct (Z.eqb_spec (q_Rid req) 0) as [E|E].
  - exists 0, w. by split_and!.
  - set (w1 := set_gid (u32 (w_gid w + 1)) w). rewrite (M_bind_ok _ _ _ (u32 (w_gid w + 1)) w1) by done.
    rewrite (M_bind_ok _ _ _ (w_clock w) w1) by done.
    destruct (AddCb_ok (u32 (w_gid w + 1)) (CbRoute (mkCbInfo (q_Rid req) clientID (q_NameSpace req)
      (q_Service req) (inner_name (q_InnerRpc req)) (w_clock w))) 101 None w1 Hcb) as (cb & p & Ea & Hcb' & Hm).
    rewrite (M_bind_ok _ _ _ _ _ Ea). eexists _, _. split; [done|]. split_and!; try done. eauto.
Qed.

Lemma route_forwards svc_of req session s w :
  cb_ok w → rm_deployed svc_of (w_remote w) → w_sessions w !! session = Some s → allowed req s w →
  (∃ c r, remotes (w_remote w) !! c = Some r ∧ id r = GetRemoteID (q_NameSpace req) (q_Service req)) →
  (∀ c r, remotes (w_remote w) !! c = Some r → conn_fd (rconn r) ∉ w_broken w) →
  (∀ grid, fits (route_name req) [GUint32 grid; GBytes (q_InnerRpc req)]) →
  ∃ c r grid w', remotes (w_remote w) !! c = Some r ∧
    id r = GetRemoteID (q_NameSpace req) (q_Service req) ∧
    RpcC2GRpcRoute_Process req session w = (Ok (), w') ∧
    w_net w' = w_net w ++ [(rconn r, frame (RpcEncode (route_name req) [GUint32 grid; GBytes (q_InnerRpc req)]))] ∧
    cb_ok w' ∧ same_conns w w' ∧
    (q_Rid req = 0 → grid = 0 ∧ gCbMap (w_cb w') = gCbMap (w_cb w)) ∧
    (q_Rid req ≠ 0 → grid = u32 (w_gid w + 1) ∧ ∃ p info,
      gCbMap (w_cb w') = <[grid := (CbRoute info, p)]> (gCbMap (w_cb w)) ∧
      rid info = q_Rid req ∧ connID info = GetConnID (conn s)).
Proof.
  intros Hcb Hrm Hs Hal (c0 & r0 & Hc0 & Hid0) Hbr Hfit. rewrite (RpcC2GRpcRoute_allowed req session s w Hs Hal).
  set (w1 := set_fvc (w_fvc w + 1) w). destruct (ChoiceRemote_spec svc_of (w_remote w) (GetRemoteID (q_NameSpace req) (q_Service req))
    (q_IsOrdered req) (GetConnID (conn s)) Hrm) as (o & rm' & Ech & Hrm' & Hsame & Hrt).
  rewrite (M_bind_ok _ _ _ o (set_remote rm' w1)) by (unfold ChoiceRemoteW; cbn; by rewrite Ech).
  destruct o as [r|].
  2: { exfalso. cbn in Hrt. assert (instances (GetRemoteID (q_NameSpace req) (q_Service req)) (w_remote w) !! c0 = Some r0)
         as E by by apply instances_Some. by rewrite Hrt in E. }
  destruct Hrt as [c [Hc Hid]%instances_Some].
  destruct (register_route_ok req (GetConnID (conn s)) (set_remote rm' w1) Hcb)
    as (grid & w2 & Er & Hcb2 & (H1 & H2 & H3 & H4 & H5 & H6) & Hnet & Hz & Hnz).
  cbn [route_to]. rewrite (M_bind_ok _ _ _ _ _ Er). fold (route_name req).
  rewrite (M_bind_ok _ _ _ _ _ (send_rpc_ok (rconn r) (route_name req) _ w2 (Hfit grid)
    ltac:(rewrite H3; by eapply Hbr))).
  exists c, r, grid. eexists. do 2 (split; [done|]). split; [done|]. split; [cbn; by rewrite Hnet|].
  split; [exact Hcb2|]. split; [split_and!; try done; by rewrite <- Hsame|].
  split; [exact Hz|]. intros [Hg [p Hm]]%Hnz. split; [done|]. by eexists p, _.
Qed.

(** ** Responses *)

Lemma response_delivers req session info p q c w :
  cb_ok w → gCbMap (w_cb w) !! p_GRid req = Some (CbRoute info, p) →
  GetTcpClient (connID info) w = Some q → w_clients w !! q = Some c → conn_fd (c_conn c) ∉ w_broken w →
  fits MSG_G2C_RPC_RSP [GUint32 (rid info); GStr (p_Error req); p_Reply req] →
  ∃ w', RpcS2GRpcRsp_Process req session w = (Ok (), w') ∧ cb_ok w' ∧
    w_net w' = w_net w ++ [(c_conn c, frame (RpcEncode MSG_G2C_RPC_RSP
      [GUint32 (rid info); GStr (p_Error req); p_Reply req]))] ∧
    gCbMap (w_cb w') = delete (p_GRid req) (gCbMap (w_cb w)).
Proof.
  intros Hcb Hm Hq Hc Hb Hf. unfold RpcS2GRpcRsp_Process.
  destruct (GetCb_ok (p_GRid req) w Hcb) as (cb & Eg & Hcb' & Hm'). rewrite Hm in Eg.
  rewrite (M_bind_ok _ _ _ _ _ Eg). cbn [fst fmap option_fmap option_map].
  rewrite (M_bind_ok _ _ _ (Some (c_conn c)) (set_cb cb w)).
  2: { unfold response_conn. rewrite (M_bind_ok _ _ _ (Some q) (set_cb cb w)) by (unfold gets; by rewrite <- Hq).
       rewrite (M_bind_ok _ _ _ c (set_cb cb w)); [done|]. unfold deref_client. cbn. by rewrite Hc. }
  rewrite (M_bind_ok _ _ _ _ _ (send_rpc_ok (c_conn c) _ _ (set_cb cb w) Hf Hb)).
  eexists. split; [done|]. by split_and!.
Qed.

Lemma response_unknown req session w :
  cb_ok w → gCbMap (w_cb w) !! p_GRid req = None →
  ∃ w', RpcS2GRpcRsp_Process req session w = (Ok (), w') ∧ w_net w' = w_net w.
Proof.
  intros Hcb Hm. unfold RpcS2GRpcRsp_Process.
  destruct (GetCb_ok (p_GRid req) w Hcb) as (cb & Eg & _). rewrite Hm in Eg.
  rewrite (M_bind_ok _ _ _ _ _ Eg). by eexists.
Qed.

(** C4 Request and response.  A request with response id [rid] that a client may
    make, for a service with a connected instance, is forwarded exactly once, to
    an instance of that service, with its inner message unchanged and a gate id;
    the first response that carries this gate id is returned to that client,
    exactly once, with the client's own [rid] and with error and reply
    unchanged; any further response with the same gate id is dropped. *)
Theorem route_roundtrip svc_of (req : RpcC2GRpcRouteReq) (session : positive) (s : Session)
    (q : positive) (cl : TcpClient) w :
  cb_ok w → rm_deployed svc_of (w_remote w) → w_sessions w !! session = Some s → allowed req s w →
  (∃ c r, remotes (w_remote w) !! c = Some r ∧ id r = GetRemoteID (q_NameSpace req) (q_Service req)) →
  (∀ c r, remotes (w_remote w) !! c = Some r → conn_fd (rconn r) ∉ w_broken w) →
  (∀ grid, fits (route_name req) [GUint32 grid; GBytes (q_InnerRpc req)]) →
  q_Rid req ≠ 0 → GetTcpClient (GetConnID (conn s)) w = Some q → w_clients w !! q = Some cl →
  c_conn cl = conn s → conn_fd (conn s) ∉ w_broken w →
  ∃ c r grid w1, remotes (w_remote w) !! c = Some r ∧
    id r = GetRemoteID (q_NameSpace req) (q_Service req) ∧
    RpcC2GRpcRoute_Process req session w = (Ok (), w1) ∧
    w_net w1 = w_net w ++ [(rconn r, frame (RpcEncode (route_name req) [GUint32 grid; GBytes (q_InnerRpc req)]))] ∧
    ∀ error reply session', fits MSG_G2C_RPC_RSP [GUint32 (q_Rid req); GStr error; reply] →
      ∃ w2, RpcS2GRpcRsp_Process (mkS2GRsp grid error reply) session' w1 = (Ok (), w2) ∧
        w_net w2 = w_net w1 ++ [(conn s, frame (RpcEncode MSG_G2C_RPC_RSP
                                  [GUint32 (q_Rid req); GStr error; reply]))] ∧
        ∀ error' reply' session'', ∃ w3,
          RpcS2GRpcRsp_Process (mkS2GRsp grid error' reply') session'' w2 = (Ok (), w3) ∧ w_net w3 = w_net w2.
Proof.
  intros Hcb Hrm Hs Hal Hinst Hbr Hfit Hrid Hq Hcl Hcn Hcb0.
  destruct (route_forwards svc_of req session s w Hcb Hrm Hs Hal Hinst Hbr Hfit)
    as (c & r & grid & w1 & Hc & Hid & E1 & Hn1 & Hcb1 & (H1 & H2 & H3 & H4 & _) & _ & Hnz).
  destruct (Hnz Hrid) as (_ & p & info & Hm & Hri & Hci).
  exists c, r, grid, w1. do 4 (split; [done|]). intros error reply session' Hf.
  destruct (response_delivers (mkS2GRsp grid error reply) session' info p q cl w1)
    as (w2 & E2 & Hcb2 & Hn2 & Hm2).
  - done.
  - cbn. rewrite Hm. apply lookup_insert_eq.
  - unfold GetTcpClient. by rewrite H1, Hci.
  - by rewrite H2.
  - by rewrite H3, Hcn.
  - by rewrite Hri.
  - exists w2. split; [done|]. split; [by rewrite Hn2, Hcn, Hri|].
    intros error' reply' session''. apply response_unknown; [done|]. cbn. rewrite Hm2. apply lookup_delete_eq.
Qed.

(** No instance.  A request that is allowed but whose service has no
    connected instance is not forwarded and registers no callback: the client
    gets the error that the service does not exist, if it waits for a response. *)
Theorem route_unavailable svc_of (req : RpcC2GRpcRouteReq) (session : positive) (s : Session) w :
  rm_deployed svc_of (w_remote w) → w_sessions w !! session = Some s → allowed req s w →
  (∀ c r, remotes (w_remote w) !! c = Some r → id r ≠ GetRemoteID (q_NameSpace req) (q_Service req)) →
  let error := "service " +:+ q_NameSpace req +:+ ":" +:+ q_Service req +:+ " not exist" in
  (q_Rid req ≠ 0 →
   fits MSG_G2C_RPC_RSP [GUint32 (q_Rid req); GStr error; GNil] ∧ conn_fd (conn s) ∉ w_broken w) →
  ∃ w', RpcC2GRpcRoute_Process req session w = (Ok (), w') ∧ w_cb w' = w_cb w ∧ w_gid w' = w_gid w ∧
    w_net w' = w_net w ++
      (if decide (q_Rid req = 0) then []
       else [(conn s, frame (RpcEncode MSG_G2C_RPC_RSP [GUint32 (q_Rid req); GStr error; GNil]))]).
Proof.
  intros Hrm Hs Hal Hno error Hr. rewrite (RpcC2GRpcRoute_allowed req session s w Hs Hal).
  set (w1 := set_fvc (w_fvc w + 1) w). destruct (ChoiceRemote_spec svc_of (w_remote w) (GetRemoteID (q_NameSpace req) (q_Service req))
    (q_IsOrdered req) (GetConnID (conn s)) Hrm) as (o & rm' & Ech & _ & _ & Hrt).
  rewrite (M_bind_ok _ _ _ o (set_remote rm' w1)) by (unfold ChoiceRemoteW; cbn; by rewrite Ech).
  destruct o as [r|]; [destruct Hrt as [c [Hc Hid]%instances_Some]; by destruct (Hno _ _ Hc)|].
  cbn [route_to]. rewrite error_response_ok by exact Hr. destruct (decide (q_Rid req = 0)).
  - eexists. split; [done|]. by rewrite app_nil_r.
  - by eexists.
Qed.

(** ** Verification *)

Lemma RpcDecode_vertify session s key w :
  w_sessions w !! session = Some s → short_string key = true →
  rpcs (w_rpc w) !! MSG_C2G_VERTIFY = Some (Busi RpcC2GVertifyHandler) →
  RpcDecode session (RpcEncode MSG_C2G_VERTIFY [GStr key]) w = RpcC2GVertify_Process key session w.
Proof.
  intros Hs Hk Hr. pose proof (task_of_name session MSG_C2G_VERTIFY [GStr key] eq_refl) as En.
  rewrite RpcDecode_admitted by (left; exact En).
  rewrite bool_decide_eq_true_2 by (left; exact En).
  destruct (run_task_enc session MSG_C2G_VERTIFY [GStr key] w (Busi RpcC2GVertifyHandler)
    [("SecretKey", TString)] [GStr key]) as [fuel ->]; [done|done|done| |].
  { repeat constructor. cbn. by rewrite Hk. }
  unfold run_handler. cbn [Process busi_process gate gate_process liftW].
  by destruct (RpcC2GVertify_Process key session w).
Qed.

Lemma RpcDecode_verifies (session : positive) (s : Session) (key : string) (q : positive) (cl : TcpClient) w :
  w_sessions w !! session = Some s → short_string key = true →
  rpcs (w_rpc w) !! MSG_C2G_VERTIFY = Some (Busi RpcC2GVertifyHandler) →
  GetTcpClient (GetConnID (conn s)) w = Some q → w_clients w !! q = Some cl →
  RpcDecode session (RpcEncode MSG_C2G_VERTIFY [GStr key]) w =
    (Ok (), if decide (key = VERTIFY_SECRET_KEY)
            then set_clients (<[q := with_state TcpClientState_OK cl]> (w_clients w)) w else w).
Proof.
  intros Hs Hk Hr Hq Hcl. rewrite (RpcDecode_vertify session s key w Hs Hk Hr). unfold RpcC2GVertify_Process.
  destruct (decide (key = VERTIFY_SECRET_KEY)) as [E|E].
  - rewrite bool_decide_eq_true_2 by done. cbn [negb].
    rewrite (M_bind_ok _ _ _ _ _ (deref_session_ok session s w Hs)).
    rewrite (M_bind_ok _ _ _ (Some q) w) by (unfold gets; by rewrite Hq).
    unfold SetState, modify. do 2 f_equal. apply map_eq. intros i.
    rewrite lookup_alter, lookup_insert. case_decide; [subst; by rewrite Hcl|done].
  - by rewrite bool_decide_eq_false_2.
Qed.

(** Verification.  The message that verifies a client is processed at once,
    whatever state the client is in: with the secret key it puts exactly that
    client into state OK, with any other key it changes nothing. *)
Theorem verification (session : positive) (s : Session) (key : string) (q : positive) (cl : TcpClient) w :
  w_sessions w !! session = Some s → short_string key = true →
  rpcs (w_rpc w) !! MSG_C2G_VERTIFY = Some (Busi RpcC2GVertifyHandler) →
  GetTcpClient (GetConnID (conn s)) w = Some q → w_clients w !! q = Some cl →
  RpcDecode session (RpcEncode MSG_C2G_VERTIFY [GStr key]) w =
    (Ok (), if decide (key = VERTIFY_SECRET_KEY)
            then set_clients (<[q := with_state TcpClientState_OK cl]> (w_clients w)) w else w).
Proof. apply RpcDecode_verifies. Qed.

(** ** Login *)

(** Login and logoff.  A login that reports success has stored, under the
    key of the client for this kind of gate, the address of the gate and the
    connection of the client, and changed no other key; a logoff that reports
    success has removed the key; each reports failure exactly when the command
    to redis failed. *)
Theorem login_logoff (clientID : string) (session : positive) (s : Session) (key : string) (r r1 : R)
    (ok : bool) rsp w :
  w_sessions w !! session = Some s → login_key clientID w = Some key → myRedis2 (w_app w) = Some r →
  (redis_set r key (listenAddr (w_tcp w) +:+ "/" +:+ GetConnID (conn s)) = (ok, r1) →
   let w1 := set_app (mkGateApp (gClientAccess (w_app w)) (Some r1)) w in
   RpcGateLogin_Process clientID session (rsp, w) = (Ok (), ([GBool ok], w1)) ∧
   (ok = true → ∀ k, redis_get r1 k = if decide (key = k)
      then Some (listenAddr (w_tcp w) +:+ "/" +:+ GetConnID (conn s)) else redis_get r k)) ∧
  (redis_del r key = (ok, r1) →
   let w1 := set_app (mkGateApp (gClientAccess (w_app w)) (Some r1)) w in
   RpcGateLogoff_Process clientID session (rsp, w) = (Ok (), ([GBool ok], w1)) ∧
   (ok = true → ∀ k, redis_get r1 k = if decide (key = k) then None else redis_get r k)).
Proof.
  intros Hs Hk Hr. split; intros Hcmd w1; (split; [|intros ->; by apply redis_set_ok || by apply redis_del_ok]).
  - unfold RpcGateLogin_Process, set_Success. mrun. rewrite Hk. mrun.
    unfold deref_session. rewrite Hs. cbn. unfold redis_command. rewrite Hr, Hcmd. by destruct ok.
  - unfold RpcGateLogoff_Process, set_Success. mrun. rewrite Hk. mrun.
    unfold deref_session. rewrite Hs. cbn. unfold redis_command. rewrite Hr, Hcmd. by destruct ok.
Qed.

(** ** Trust *)

(** Permissions are taken from anyone.  The permissions of a service are
    replaced by whatever any dispatched message reports, so a client that
    reports them itself is granted every rpc it names. *)
Theorem access_report_unchecked (session : positive) (ns svc : string) (access : list (string * bool))
    (req : RpcC2GRpcRouteReq) rsp w :
  q_NameSpace req = ns → q_Service req = svc → NoDup access.*1 →
  (inner_name (q_InnerRpc req), true) ∈ access →
  let '(r, (_, w')) := gate_process RpcS2GRpcAccessReportHandler session
                         [GStr (ns +:+ ":" +:+ svc); GMapBool access] (rsp, w) in
  r = Ok () ∧ granted req w'.
Proof.
  intros <- <- Hnd Hin. cbn. split; [done|]. exists (list_to_map access). cbn.
  rewrite lookup_insert_eq. split; [done|]. by apply elem_of_list_to_map.
Qed.

(** A response addressed to the gate itself.  The framework registers the
    handler of client responses in every process; on a gate its callbacks are
    routes, so a message of this kind that names a pending gate id panics, with
    the callback already taken. *)
Theorem client_response_panics (session : positive) (info : C2GRouteCbInfo) (p : positive)
    (grid : Z) (error : string) (reply v : goval) w :
  cb_ok w → gCbMap (w_cb w) !! grid = Some (CbRoute info, p) →
  rpcs (w_rpc w) !! MSG_G2C_RPC_RSP = Some RpcG2CRpcRspHandler →
  args_fit [("Rid", TUint32); ("Error", TString); ("Reply", TMapAny)]
    [GUint32 grid; GStr error; v] [GUint32 grid; GStr error; reply] →
  (run_task (task_of session (RpcEncode MSG_G2C_RPC_RSP [GUint32 grid; GStr error; v])) w).1
  = Panic TypeAssertion.
Proof.
  intros Hcb Hm Hr Hfit.
  destruct (run_task_enc session MSG_G2C_RPC_RSP [GUint32 grid; GStr error; v] w RpcG2CRpcRspHandler
    [("Rid", TUint32); ("Error", TString); ("Reply", TMapAny)] [GUint32 grid; GStr error; reply])
    as [fuel ->]; [done|done|done|done|].
  unfold run_handler. cbn [Process liftW].
  unfold RpcG2CRpcRsp_Process. cbn [Rid].
  destruct (GetCb_ok grid w Hcb) as (cb & Eg & _). rewrite Hm in Eg.
  rewrite (M_bind_ok _ _ _ _ _ Eg). done.
Qed.

End Gate.

(** ** Witnesses

    A client gate with one client and one instance of service [a], which opened
    [rpc_a] to clients. *)
Module GateDemo.

#[local] Existing Instance ref_msgpack.

#[export, refine] Instance map_redis : Redis (gmap string string) := {|
  redis_get r k := r !! k;
  redis_set r k v := (true, <[k := v]> r);
  redis_del r k := (true, delete k r);
|}.
Proof.
  - intros r k v r' [= <-] k'. by rewrite lookup_insert.
  - intros r k r' [= <-] k'. by rewrite lookup_delete.
Defined.

Abbreviation GW := (World GateHandler (GateApp (gmap string string))).

Definition demo_client : Conn := mkConn 1 "1.2.3.4:5".
Definition demo_service : Conn := mkConn 2 "10.0.0.1:8001".
Definition demo_ops : list rm_op := [OpDiscover 0 [Some demo_service] "ns" "a" "10.0.0.1" 8001].
Definition demo_routes : RemoteMgr (L := LoadBalancer) := from_ok CreateRemoteMgr (foldM (run_op 4) demo_ops CreateRemoteMgr).
Definition demo_svc (_ : CONN_ID) : REMOTE_ID := "ns:a".
Definition demo_session : Session := mkSession SessionTcpClient demo_client EmptyString.

Definition demo_rpcs : SimpleRpcMgr GateHandler :=
  from_ok (mkSimpleRpcMgr ∅ ∅ false) (rmgr ← CreateSimpleRpcMgr; regist_all gate_handlers rmgr).

Definition demo_started : GW :=
  init_world (mkGlobalConfig "ns" "ClientGate") SERVER_IDENTITY_CLIENT_GATE "10.0.0.9:5000"
    (StopRcpHandlerRegist demo_rpcs) (mkGateApp ∅ (Some ∅)).

Example demo_main : main (mkGlobalConfig "ns" "ClientGate") "10.0.0.9:5000" (Some ∅) = Ok demo_started.
Proof. vm_compute. reflexivity. Qed.

Definition demo_world (st : Z) : GW :=
  set_app (mkGateApp {["ns:a" := {["rpc_a" := true; "secret" := false]}]} (Some ∅))
    (set_sessions {[1%positive := demo_session]}
      (set_remote demo_routes
        (set_clients {[1%positive := mkTcpClient demo_client [] 0 0 st]}
          (set_tcp (mkTcpServer {[GetConnID demo_client := 1%positive]} false
                      (bal_add bal_new (GetConnID demo_client)).2 "10.0.0.9:5000") demo_started)))).

Definition demo_req (rpc : string) (rid : Z) : RpcC2GRpcRouteReq :=
  mkRouteReq "ns" "a" rid false (RpcEncode rpc [GUint32 7]).

Lemma demo_deployed : rm_deployed demo_svc demo_routes.
Proof.
  destruct (run_ops_deployed (L := LoadBalancer) 4 demo_svc demo_ops CreateRemoteMgr) as (rm & E & H).
  - apply CreateRemoteMgr_deployed.
  - by repeat constructor.
  - unfold demo_routes. by rewrite E.
Qed.

Lemma access_denied_witness :
  ∃ w', RpcC2GRpcRoute_Process (demo_req "secret" 9) 1 (demo_world TcpClientState_OK) = (Ok (), w') ∧
    (w_net w').*1 = [demo_client].
Proof.
  eexists. split.
  - apply (access_denied (demo_req "secret" 9) 1 demo_session (demo_world TcpClientState_OK));
      [reflexivity..| |].
    + rewrite <- access_error_granted. vm_compute. discriminate.
    + intros _. split; [vm_compute; discriminate|apply not_elem_of_empty].
  - reflexivity.
Defined.

Lemma demo_allowed : allowed (demo_req "rpc_a" 9) demo_session (demo_world TcpClientState_OK).
Proof. right. right. rewrite <- access_error_granted. reflexivity. Qed.

Lemma demo_instance :
  ∃ c r, remotes demo_routes !! c = Some r ∧ id r = GetRemoteID "ns" "a".
Proof. exists "10.0.0.1:8001". eexists. split; reflexivity. Qed.

Lemma route_roundtrip_witness :
  ∃ w1, RpcC2GRpcRoute_Process (demo_req "rpc_a" 9) 1 (demo_world TcpClientState_OK) = (Ok (), w1).
Proof.
  destruct (route_roundtrip demo_svc (demo_req "rpc_a" 9) 1 demo_session 1
    (mkTcpClient demo_client [] 0 0 TcpClientState_OK) (demo_world TcpClientState_OK))
    as (c & r & grid & w1 & _ & _ & H & _).
  - exists []. apply init_inv.
  - apply demo_deployed.
  - reflexivity.
  - apply demo_allowed.
  - apply demo_instance.
  - intros c r _. apply not_elem_of_empty.
  - intros grid. vm_compute. discriminate.
  - discriminate.
  - reflexivity.
  - reflexivity.
  - reflexivity.
  - apply not_elem_of_empty.
  - exists w1. exact H.
Defined.

Lemma route_unavailable_witness :
  ∃ w', RpcC2GRpcRoute_Process (demo_req "rpc_a" 9) 1 (set_remote CreateRemoteMgr (demo_world TcpClientState_OK))
        = (Ok (), w') ∧ length (w_net w') = 1%nat.
Proof.
  destruct (route_unavailable demo_svc (demo_req "rpc_a" 9) 1 demo_session
    (set_remote CreateRemoteMgr (demo_world TcpClientState_OK))) as (w' & H & _ & _ & Hn).
  - apply CreateRemoteMgr_deployed.
  - reflexivity.
  - apply demo_allowed.
  - by intros c r.
  - intros _. split; [vm_compute; discriminate|apply not_elem_of_empty].
  - exists w'. split; [exact H|]. rewrite Hn. reflexivity.
Defined.

Lemma verification_witness :
  ∃ w', RpcDecode 1 (RpcEncode MSG_C2G_VERTIFY [GStr VERTIFY_SECRET_KEY]) (demo_world TcpClientState_Init) = (Ok (), w') ∧
    (state <$> w_clients w' !! 1%positive) = Some TcpClientState_OK.
Proof.
  eexists. split.
  - apply (verification 1 demo_session VERTIFY_SECRET_KEY 1 (mkTcpClient demo_client [] 0 0 TcpClientState_Init)
      (demo_world TcpClientState_Init)); reflexivity.
  - reflexivity.
Defined.

Lemma login_logoff_witness :
  ∃ w1, RpcGateLogin_Process "joe" 1 ([], demo_world TcpClientState_OK) = (Ok (), ([GBool true], w1)).
Proof.
  destruct (login_logoff "joe" 1 demo_session "c_joe" ∅ {["c_joe" := "10.0.0.9:5000/1.2.3.4:5"]} true []
    (demo_world TcpClientState_OK)) as [H _]; [reflexivity..|].
  eexists. apply H. reflexivity.
Defined.

Lemma access_report_unchecked_witness :
  granted (demo_req "secret" 9)
    (gate_process RpcS2GRpcAccessReportHandler 1 [GStr "ns:a"; GMapBool [("secret", true)]]
       ([], demo_world TcpClientState_OK)).2.2.
Proof.
  apply (access_report_unchecked 1 "ns" "a" [("secret", true)] (demo_req "secret" 9) []
    (demo_world TcpClientState_OK)); [reflexivity..|apply NoDup_singleton|].
  apply list_elem_of_singleton. reflexivity.
Defined.

Lemma client_response_panics_witness :
  ∃ w info p, gCbMap (w_cb w) !! 1 = Some (CbRoute info, p) ∧
  (run_task (B := GateHandler) (A := GateApp (gmap string string))
     (task_of 1 (RpcEncode MSG_G2C_RPC_RSP [GUint32 1; GStr EmptyString; GNil])) w).1 = Panic TypeAssertion.
Proof.
  set (info := mkCbInfo 9 (GetConnID demo_client) "ns" "a" "rpc_a" 0).
  destruct (AddCb_ok 1 (CbRoute info) 101 None (demo_world TcpClientState_OK)) as (cb & p & _ & Hcb & Hm).
  { exists []. apply init_inv. }
  assert (gCbMap cb !! 1 = Some (CbRoute info, p)) as Hm1 by (rewrite Hm; apply lookup_insert_eq).
  exists (set_cb cb (demo_world TcpClientState_OK)), info, p. split; [exact Hm1|].
  apply (client_response_panics 1 info p 1 EmptyString GNil GNil); [exact Hcb|exact Hm1|reflexivity|].
  repeat constructor.
Defined.

End GateDemo.
