(* ===== verification/System.v ===== *)
(** * A process as a whole

    The events a process goes through, each run to its end by the goroutine it
    belongs to: connections that are accepted, read from and closed, tasks the
    pool runs, ticks of the callback manager, changes of the routes.  The
    invariant of all its components together holds after any sequence of them,
    for every program whose own handlers keep it, and the gate's do. *)

From S2P Require Import Prelude Utils Wire Msgpack LoadBalancer CallbackMgr RemoteMgr World SimpleRpc TcpServer Gate.

Local Open Scope Z_scope.

(** ** What a program may change

    The handlers of a program change the framework's state only through its
    calls.  A property of the process that does not depend on the other fields
    and that these calls keep, is kept by every handler of every program. *)

Class Framed {B A : Type} (P : World B A → Prop) : Prop := {
  framed_fields w w' : P w →
    w_cfg w' = w_cfg w → w_rpc w' = w_rpc w → w_tcp w' = w_tcp w → w_clients w' = w_clients w →
    w_remote w' = w_remote w → w_cb w' = w_cb w → w_pool w' = w_pool w → P w';
  framed_AddCb i c wt t : preserves P (AddCb i c wt t);
  framed_GetCb i : preserves P (GetCb i);
  framed_ChoiceRemote i o c : preserves P (ChoiceRemoteW i o c);
  framed_update_client p f : (∀ c, c_conn (f c) = c_conn c) → preserves P (update_client p f);
  framed_balance : preserves P balance_client;
}.

#[export] Hint Resolve framed_AddCb framed_GetCb framed_ChoiceRemote framed_balance : preserves.
#[export] Hint Extern 1 (Framed _) => typeclasses eauto : preserves.

(** A property beside the response of a handler. *)
Definition beside {B A} (P : World B A → Prop) (st : list goval * World B A) : Prop := P st.2.

Class Program (B A : Type) {HS : HandlerSig B} {BU : Business B A} : Prop := {
  program_process P `{!Framed P} (proc : Dispatcher B A) (b : B) session args :
    (∀ h args, preserves (beside P) (proc h session args)) → preserves (beside P) (busi_process proc b session args);
  program_accept P `{!Framed P} p : preserves P (busi_accept (B := B) (A := A) p);
}.

#[local] Set Default Proof Using "Type*".

Section Framed.
  Context {B A : Type} (P : World B A → Prop) {FP : Framed P}.

Lemma keep_MessageSend c msg : preserves P (MessageSend c msg).
Proof.
  intros w Hw. unfold MessageSend. destruct c; [|done]. repeat case_bool_decide; [done..|].
  by eapply framed_fields.
Qed.
Lemma keep_NewGid : preserves P NewGid.
Proof. intros w Hw. by eapply framed_fields. Qed.
Lemma keep_make_chan : preserves P make_chan.
Proof. intros w Hw. by eapply framed_fields. Qed.
Lemma keep_deref_session p : preserves P (deref_session p).
Proof. intros w Hw. unfold deref_session. by destruct (w_sessions w !! p). Qed.
Lemma keep_deref_client p : preserves P (deref_client p).
Proof. intros w Hw. unfold deref_client. by destruct (p ≫= _). Qed.
Lemma keep_CreateSession t c : preserves P (CreateSession t c).
Proof. intros w Hw. by eapply framed_fields. Qed.
Lemma keep_SetResponseErr p e : preserves P (SetResponseErr p e).
Proof. intros w Hw. by eapply framed_fields. Qed.
Lemma keep_RpcFvcCount : preserves P RpcFvcCount.
Proof. intros w Hw. by eapply framed_fields. Qed.
Lemma keep_deliver_cb d : preserves P (deliver_cb d).
Proof. intros w Hw. by eapply framed_fields. Qed.
Lemma keep_SetState p st : preserves P (SetState p st).
Proof. by apply framed_update_client. Qed.
Lemma keep_set_app f : preserves P (modify (λ w, set_app (f w) w)).
Proof. intros w Hw. by eapply framed_fields. Qed.

Lemma keep_liftW {X} (m : M (World B A) X) : preserves P m → preserves (beside P) (liftW m).
Proof. intros Hm [r w] Hw. specialize (Hm w Hw). cbn. by destruct (m w). Qed.

End Framed.

#[export] Hint Resolve keep_MessageSend keep_NewGid keep_make_chan keep_deref_session keep_deref_client
  keep_CreateSession keep_SetResponseErr keep_RpcFvcCount keep_deliver_cb keep_SetState keep_set_app : preserves.

Section Handlers.
  Context {MP : Msgpack} {B A : Type} {HS : HandlerSig B} {BU : Business B A} {PR : Program B A}.
  Context (P : World B A → Prop) {FP : Framed P}.

Lemma keep_send_rpc c name args : preserves P (send_rpc c name args).
Proof. unfold send_rpc. keep. Qed.

Lemma keep_rpcHandle proc req session :
  (∀ h args, preserves (beside P) (proc h session args)) → preserves P (rpcHandle proc req session).
Proof.
  intros Hp. unfold rpcHandle. destruct (decode_name (InnerRpc req)) as [name rest].
  apply preserves_bind; [auto with preserves|]. intros [h|]; [|auto with preserves].
  destruct (decode_req h rest) as [[[fname ty] e]|args]; [auto with preserves|].
  apply preserves_bind.
  - intros w Hw. unfold doProcessWithPanicProtect, recovered.
    specialize (Hp h args (zero_rsp h, w) Hw). destruct (proc h session args (zero_rsp h, w)) as [r [rsp w']].
    by destruct r.
  - intros rsp. destruct (_ =? 0); [auto with preserves|]. destruct (GetRspPtr h); [|auto with preserves].
    unfold GetResponseErr. keep.
Qed.

Lemma keep_RpcCall svc rpc n args : ∀ rid answers, preserves P (RpcCall svc rpc rid n args answers).
Proof. induction n as [|n IH]; intros rid answers; cbn [RpcCall]; keep; apply IH. Qed.

Lemma keep_Process fuel : ∀ h session args, preserves (beside P) (Process fuel h session args).
Proof.
  induction fuel as [|fuel IH]; intros h session args.
  all: destruct h; cbn [Process]; repeat case_match; auto using program_process with preserves.
  all: apply keep_liftW;
    unfold RpcHeartBeatReq_Process, RpcG2CRpcRsp_Process, RpcG2SRpcCall_Process.
  all: repeat (apply preserves_bind; [first [by auto with preserves|apply keep_rpcHandle; by eauto]|intros ?]).
  all: keep.
Qed.

Lemma keep_run_task t : preserves P (run_task t).
Proof.
  unfold run_task. apply preserves_bind; [auto with preserves|]. intros [h|]; [|auto with preserves].
  destruct (decode_req h (t_rest t)) as [?|args]; [auto with preserves|]. intros w Hw. unfold run_handler.
  pose proof (keep_Process (S (length (t_rest t))) h (t_session t) args (zero_rsp h, w) Hw) as H.
  by destruct (Process _ h _ args (zero_rsp h, w)) as [r [rsp w']].
Qed.

End Handlers.

#[export] Hint Resolve keep_send_rpc keep_RpcCall : preserves.

(** ** The events of a process *)

Inductive event :=
  | EvAccept (c : Conn)
  | EvRead (p : positive) (ev : read_event)       (** an iteration of a read loop *)
  | EvLoop (l : loop) (p : positive) (ev : read_event)  (** a step of it *)
  | EvRemoteRead (r : Remote) (ev : read_event)
  | EvRemoteExit (r : Remote)
  | EvWorker (i : nat)
  | EvSeparate
  | EvTick
  | EvRoutes (op : rm_op)
  | EvStop
  | EvClock (now : Z).

Section Events.
  Context {MP : Msgpack} {B A : Type} {HS : HandlerSig B} {BU : Business B A}.
  Context (RECV_BUF_MAX_LEN : Z).

Implicit Types w : World B A.

Definition set_clock (v : Z) w : World B A :=
  mkWorld (w_cfg w) (w_identity w) v (w_gid w) (w_rpc w) (w_tcp w) (w_clients w) (w_remote w)
    (w_cb w) (w_pool w) (w_sessions w) (w_net w) (w_broken w) (w_chans w) (w_nextch w) (w_fvc w) (w_app w).

Definition step w (e : event) : result (World B A) :=
  match e with
  | EvAccept c => final (accept RECV_BUF_MAX_LEN c w)
  | EvRead p ev => final (HandleRead RECV_BUF_MAX_LEN p [ev] w)
  | EvLoop l p ev => final (loop_step RECV_BUF_MAX_LEN p ev l w)
  | EvRemoteRead r ev => final (Remote_HandleRead_iter RECV_BUF_MAX_LEN r ev w)
  | EvRemoteExit r => final (Remote_onExit r w)
  | EvWorker i => final (worker_step i w)
  | EvSeparate => final (separate_step w)
  | EvTick => final (CallbackTick w)
  | EvRoutes op => rm ← run_op RECV_BUF_MAX_LEN (w_remote w) op; Ok (set_remote rm w)
  | EvStop => Ok (Stop w)
  | EvClock now => Ok (set_clock now w)
  end.

(** A property that the framework itself keeps, between the events: besides the
    calls of handlers, the starts of its goroutines' work, for the events [ok].
    While a task of the pool runs, a weaker property may hold. *)
Class ProcessInv (ok : event → Prop) (P : World B A → Prop) : Prop := {
  pinv_framed : Framed P;
  pinv_ProduceTask t : preserves P (ProduceTask t);
  pinv_ProduceTaskSeparate t : preserves P (ProduceTaskSeparate t);
  pinv_register c : ok (EvAccept c) → preserves P (accept_register RECV_BUF_MAX_LEN c);
  pinv_close connID : preserves P (modify (onClientClose connID));
  pinv_exit w r rm : P w → ok (EvRemoteExit r) →
    OnRemoteDisappear (id r) (GetConnID (rconn r)) (w_remote w) = Ok rm → P (set_remote rm w);
  pinv_routes w op rm : P w → ok (EvRoutes op) → run_op RECV_BUF_MAX_LEN (w_remote w) op = Ok rm → P (set_remote rm w);
  pinv_tick : preserves P CallbackTick;
  pinv_stop w : P w → ok EvStop → P (Stop w);
  pinv_worker w i t : P w → taskCh (w_pool w) !! i = Some t → ∃ P', Framed P' ∧
    P' (set_pool (mkTaskPool (delete i (taskCh (w_pool w))) (pool_size (w_pool w)) (separateCh (w_pool w))) w) ∧
    ∀ w', P' w' → P (pool_done w');
  pinv_separate w t ts : P w → separateCh (w_pool w) = t :: ts → ∃ P', Framed P' ∧
    P' (set_pool (mkTaskPool (taskCh (w_pool w)) (pool_size (w_pool w)) ts) w) ∧
    ∀ w', P' w' → P (pool_done w');
}.

Section Kept.
  Context {PR : Program B A} (ok : event → Prop) (P : World B A → Prop) {PI : ProcessInv ok P}.

#[local] Existing Instance pinv_framed.

#[local] Hint Extern 1 (preserves P (ProduceTask _)) => apply (pinv_ProduceTask (ok := ok)) : preserves.
#[local] Hint Extern 1 (preserves P (ProduceTaskSeparate _)) => apply (pinv_ProduceTaskSeparate (ok := ok)) : preserves.
#[local] Hint Extern 1 (preserves P (modify (onClientClose _))) => apply (pinv_close (ok := ok)) : preserves.

Lemma keep_RpcDecode session buf : preserves P (RpcDecode session buf).
Proof.
  unfold RpcDecode. destruct (decode_name buf) as [name rest]. apply preserves_bind.
  - unfold PreCheck. keep.
  - intros passed. destruct passed; cbn [negb]; [|auto with preserves].
    repeat case_bool_decide; auto with preserves. by apply (keep_run_task P).
Qed.

Lemma keep_decode_buffer session buf rem : preserves P (decode_buffer session buf rem).
Proof.
  intros w Hw. unfold decode_buffer.
  destruct (decode_shift _ w buf rem) as [[[w' buf'] rem']| |] eqn:E; [|done..].
  cbn. eapply decode_shift_preserves; [|exact E|exact Hw].
  intros w0 p w1 H H0. cbn beta in H. pose proof (keep_RpcDecode session p w0 H0) as H1.
  destruct (RpcDecode session p w0) as [[] w2]; [|discriminate H..]. by injection H as <-.
Qed.

Lemma keep_broken f : preserves P (modify (λ w, set_broken (f w) w)).
Proof. intros w Hw. by eapply framed_fields. Qed.

Lemma keep_Close p : preserves P (Close p).
Proof. unfold Close. apply preserves_bind; [auto with preserves|]. intros c. pose proof keep_broken. keep. Qed.

Lemma keep_HandleRead_body p ev : preserves P (HandleRead_body RECV_BUF_MAX_LEN p ev).
Proof.
  unfold HandleRead_body, HeartBeat. apply preserves_bind; [auto with preserves|]. intros c.
  apply preserves_bind; [auto with preserves|]. intros now.
  destruct ev as [| |data]; [keep|auto with preserves|].
  apply preserves_bind; [auto with preserves|]. intros buf. destruct (_ =? 0); [auto with preserves|].
  apply preserves_bind; [by apply framed_update_client|]. intros _. destruct (_ <? _); [auto with preserves|].
  apply preserves_bind; [auto with preserves|]. intros session.
  apply preserves_bind; [apply keep_decode_buffer|]. intros [buf' rem'].
  apply preserves_bind; [by apply framed_update_client|]. auto with preserves.
Qed.

Lemma keep_HandleRead_iter p ev : preserves P (HandleRead_iter RECV_BUF_MAX_LEN p ev).
Proof. pose proof (keep_HandleRead_body p ev). unfold HandleRead_iter. keep. Qed.

Lemma keep_loop_step p ev l : preserves P (loop_step RECV_BUF_MAX_LEN p ev l).
Proof. pose proof (keep_HandleRead_body p ev). pose proof (keep_Close p). destruct l; cbn [loop_step]; keep. Qed.

Lemma keep_HandleRead p evs : preserves P (HandleRead RECV_BUF_MAX_LEN p evs).
Proof.
  induction evs as [|ev evs IH]; [apply preserves_ret|]. cbn [HandleRead].
  apply preserves_bind; [apply keep_HandleRead_iter|]. intros []; [done|apply keep_Close].
Qed.

Lemma keep_Remote_iter r ev : preserves P (Remote_HandleRead_iter RECV_BUF_MAX_LEN r ev).
Proof.
  unfold Remote_HandleRead_iter, Remote_HeartBeat.
  apply preserves_bind; [auto with preserves|]. intros now.
  destruct ev as [| |data]; [keep|auto with preserves|].
  apply preserves_bind; [auto with preserves|]. intros buf. destruct (_ =? 0); [auto with preserves|].
  destruct (_ && _); [auto with preserves|]. apply preserves_bind; [auto with preserves|]. intros session.
  apply preserves_bind; [apply keep_decode_buffer|]. intros [buf' rem']. auto with preserves.
Qed.

Lemma keep_accept c : ok (EvAccept c) → preserves P (accept RECV_BUF_MAX_LEN c).
Proof.
  intros Hne. unfold accept. apply preserves_bind; [by apply pinv_register|].
  intros [p|]; [|auto with preserves].
  unfold accept_rest, RpcPermissionReport. pose proof (program_accept P). keep.
Qed.

Lemma final_preserves {X} (Q : World B A → Prop) (m : M (World B A) X) w w' :
  preserves Q m → Q w → final (m w) = Ok w' → Q w'.
Proof.
  intros Hm Hw H. specialize (Hm w Hw). destruct (m w) as [[] w2]; [|discriminate H..]. by injection H as <-.
Qed.

(** A goroutine of the pool runs a task it took. *)
Lemma keep_pool_run t w w' (P' : World B A → Prop) {FP : Framed P'} :
  P' w → (∀ w', P' w' → P (pool_done w')) → final ((_ ← run_task t; modify pool_done) w) = Ok w' → P w'.
Proof.
  intros Hw Hd. pose proof (keep_run_task P' t w Hw) as H. unfold mbind, M_bind.
  destruct (run_task t w) as [[] w2]; [|discriminate 1..]. intros [= <-]. by apply Hd.
Qed.

Lemma keep_step w e w' : P w → ok e → step w e = Ok w' → P w'.
Proof.
  intros Hw He. destruct e as [c|p ev|l p ev|r ev|r|i| | |op| |now]; cbn [step] in *.
  - apply final_preserves; [by apply keep_accept|done].
  - apply final_preserves; [apply keep_HandleRead|done].
  - apply final_preserves; [apply keep_loop_step|done].
  - apply final_preserves; [apply keep_Remote_iter|done].
  - unfold Remote_onExit. intros H.
    destruct (OnRemoteDisappear _ _ _) as [rm| |] eqn:E; [|discriminate H..]. injection H as <-.
    apply (framed_fields (set_remote rm w)); [|done..]. by apply (pinv_exit w r).
  - unfold worker_step. destruct (taskCh (w_pool w) !! i) as [t|] eqn:E; [|by intros [= <-]].
    destruct (pinv_worker w i t Hw E) as (P' & HP' & Hw' & Hd). by apply (keep_pool_run t _ w' P').
  - unfold separate_step. destruct (separateCh (w_pool w)) as [|t ts] eqn:E; [by intros [= <-]|].
    destruct (pinv_separate w t ts Hw E) as (P' & HP' & Hw' & Hd). by apply (keep_pool_run t _ w' P').
  - apply final_preserves; [apply pinv_tick|done].
  - intros (rm & E & [= <-])%bind_ok_inv. by eapply pinv_routes.
  - intros [= <-]. by apply (pinv_stop (ok := ok)).
  - intros [= <-]. by eapply framed_fields.
Qed.

Lemma keep_steps evs : ∀ w w', P w → Forall ok evs → foldM step evs w = Ok w' → P w'.
Proof.
  induction evs as [|e evs IH]; intros w w' Hw Hevs; cbn; [by intros [= <-]|].
  apply Forall_cons in Hevs as [He Hevs]. intros (w1 & H1 & H2)%bind_ok_inv.
  eapply IH; [by eapply keep_step|done|done].
Qed.

(** The read loops alone. *)
Lemma keep_loops sched : ∀ w ls w' ls',
  P w → foldM (loops_step RECV_BUF_MAX_LEN) sched (w, ls) = Ok (w', ls') → P w'.
Proof.
  induction sched as [|[p ev] sched IH]; intros w ls w' ls' Hw; cbn [foldM]; [by intros [= <- _]|].
  intros ([w1 ls1] & H1 & H2)%bind_ok_inv. apply (IH w1 ls1 w' ls'); [|done]. unfold loops_step in H1. cbn in H1.
  destruct (ls !! p) as [l|]; [|by injection H1 as <- _]. pose proof (keep_loop_step p ev l w Hw) as Hk.
  destruct (loop_step _ p ev l w) as [[l'| |] w2]; [|discriminate H1..]. by injection H1 as <- _.
Qed.

End Kept.
End Events.

(** ** The invariant of the components *)

Section System.
  Context {MP : Msgpack} {B A : Type} {HS : HandlerSig B} {BU : Business B A} {PR : Program B A}.
  Context (RECV_BUF_MAX_LEN : Z) (svc_of : CONN_ID → REMOTE_ID).

Implicit Types w : World B A.

(** Accepted connections have an address; route changes name an address with
    its own service. *)
Definition event_ok (e : event) : Prop :=
  match e with
  | EvAccept c => GetConnID c ≠ EmptyString
  | EvRemoteExit r => svc_of (GetConnID (rconn r)) = id r
  | EvRoutes op => op_ok svc_of op
  | _ => True
  end.

(** The server's table and its balancer agree, the callback queue is well
    formed, the routes and their balancers agree. *)
Record world_ok w : Prop := {
  ok_tcp : tcp_ok w;
  ok_cb : cb_ok w;
  ok_remote : rm_deployed svc_of (w_remote w);
}.

Lemma world_ok_ext w w' :
  world_ok w → w_tcp w' = w_tcp w → w_clients w' = w_clients w → w_cb w' = w_cb w → w_remote w' = w_remote w →
  world_ok w'.
Proof.
  intros [Ht Hc Hr] E1 E2 E3 E4. split; [by eapply tcp_ok_ext|unfold cb_ok; by rewrite E3|by rewrite E4].
Qed.

Lemma world_ok_set_cb cb w : world_ok w → cb_ok (set_cb cb w) → world_ok (set_cb cb w).
Proof. intros [Ht _ Hr] Hc. split; [by eapply tcp_ok_ext|done|done]. Qed.

Lemma ok_AddCb i c wt t : preserves world_ok (AddCb i c wt t).
Proof.
  intros w Hw. destruct (AddCb_ok i c wt t w (ok_cb _ Hw)) as (cb & p & -> & Hcb & _).
  by apply world_ok_set_cb.
Qed.
Lemma ok_GetCb i : preserves world_ok (GetCb i).
Proof.
  intros w Hw. destruct (GetCb_ok i w (ok_cb _ Hw)) as (cb & -> & Hcb & _). by apply world_ok_set_cb.
Qed.
Lemma ok_ChoiceRemote i o c : preserves world_ok (ChoiceRemoteW i o c).
Proof.
  intros w [Ht Hc Hr]. unfold ChoiceRemoteW.
  destruct (ChoiceRemote_spec svc_of (w_remote w) i o c Hr) as (r & rm & -> & Hrm & _).
  split; [by eapply tcp_ok_ext|done|done].
Qed.

(** Changing a client without changing its connection. *)
Lemma ok_update_client p f :
  (∀ c, c_conn (f c) = c_conn c) → preserves world_ok (update_client p f).
Proof.
  intros Hf w [[Hwf Hm Hl Hn] Hc Hr]. split; [|done|done]. split; [done|done| |done].
  intros id q Hq. destruct (Hl _ _ Hq) as (c & Hcl & Hid). cbn. rewrite lookup_alter.
  case_decide; subst; rewrite Hcl; cbn; eexists; (split; [done|]); [by rewrite Hf|done].
Qed.

Lemma ok_balance_client : preserves world_ok balance_client.
Proof.
  intros w [Htcp Hc Hr]. unfold balance_client. destruct (decide (clients (w_tcp w) = ∅)) as [E|E].
  - destruct Htcp as [Hwf Hm Hl Hn]. rewrite (bal_pick_empty _ Hwf) by (by rewrite Hm, E, dom_empty_L).
    split; [|done|done]. by split.
  - destruct (bal_pick_spec (lb (w_tcp w)) (tcp_lb_wf _ Htcp)) as (e & l & -> & Hin & Hm' & Hwf').
    { rewrite (tcp_members _ Htcp). by intros ?%dom_empty_inv_L. }
    split; [|done|done]. destruct Htcp as [Hwf Hm Hl Hn]. split; cbn; [done|by rewrite <- Hm|done|done].
Qed.

#[export] Instance world_ok_framed : Framed world_ok := {|
  framed_fields w w' Hw _ _ Ht Hcl Hr Hc _ := world_ok_ext w w' Hw Ht Hcl Hc Hr;
  framed_AddCb := ok_AddCb;
  framed_GetCb := ok_GetCb;
  framed_ChoiceRemote := ok_ChoiceRemote;
  framed_update_client := ok_update_client;
  framed_balance := ok_balance_client;
|}.

Lemma ok_tick : preserves world_ok CallbackTick.
Proof.
  intros w Hw. destruct (ok_cb _ Hw) as [ps Hps]. unfold CallbackTick.
  destruct (recv_Tick_inv (GetNowTimestamp w) _ _ Hps) as (keep & exp & cb & fired & -> & Hinv & _).
  apply (world_ok_ext (set_cb cb w)); [|done..]. apply world_ok_set_cb; [done|by exists keep].
Qed.

Lemma ok_register c : GetConnID c ≠ EmptyString → preserves world_ok (accept_register RECV_BUF_MAX_LEN c).
Proof.
  intros Hne w [[Hwf Hm Hl Hn] Hc Hr]. unfold accept_register. destruct (stop (w_tcp w)); [done|].
  destruct (bal_add_spec (lb (w_tcp w)) (GetConnID c) Hwf) as (_ & Hm' & Hwf').
  split; [|done|done]. split; cbn [w_tcp set_server set_tcp lb clients w_clients set_clients snd].
  - done.
  - by rewrite Hm', Hm, dom_insert_L.
  - intros id p. rewrite lookup_insert. case_decide as Hd.
    + intros [= <-]. eexists. by rewrite lookup_insert_eq.
    + intros Hp. destruct (Hl _ _ Hp) as (c' & Hc' & Hid). exists c'. split; [|done].
      rewrite lookup_insert_ne; [done|]. intros E.
      apply (is_fresh (dom (w_clients w))). rewrite E. by eapply elem_of_dom_2.
  - by rewrite lookup_insert_ne.
Qed.

Lemma ok_close connID : preserves world_ok (modify (onClientClose connID)).
Proof.
  intros w [Ht Hc Hr]. split.
  - by apply onClientClose_tcp_ok.
  - exact Hc.
  - destruct (run_op_deployed 0 svc_of (w_remote w) (OpClientClose connID) Hr I) as (rm & [= <-] & H). exact H.
Qed.

Lemma ok_stop w : world_ok w → world_ok (Stop w).
Proof.
  intros Hw. unfold Stop. destruct (stop (w_tcp w)); [done|].
  destruct Hw as [[Hwf Hm Hl Hn] Hc Hr]. split; [|done|done]. split; [done|done| |done].
  intros id p Hp. cbn in Hp. destruct (Hl _ _ Hp) as (c & Hcl & Hid). cbn.
  rewrite (Stop_exits_lookup _ _ _ _ Hp), Hcl. eexists. by split.
Qed.

Lemma ok_routes w op rm :
  world_ok w → op_ok svc_of op → run_op RECV_BUF_MAX_LEN (w_remote w) op = Ok rm → world_ok (set_remote rm w).
Proof.
  intros [Ht Hc Hr] Hop E.
  destruct (run_op_deployed RECV_BUF_MAX_LEN svc_of _ op Hr Hop) as (rm' & E' & Hrm).
  split; [by eapply tcp_ok_ext|done|]. cbn. congruence.
Qed.

#[export] Instance world_ok_inv : ProcessInv RECV_BUF_MAX_LEN event_ok world_ok.
Proof.
  split.
  - apply _.
  - intros t w Hw. by eapply world_ok_ext.
  - intros t w Hw. by eapply world_ok_ext.
  - apply ok_register.
  - apply ok_close.
  - intros w r rm Hw Hr E. by apply (ok_routes w (OpReadEnd r)).
  - apply ok_routes.
  - apply ok_tick.
  - intros w Hw _. by apply ok_stop.
  - intros w i t Hw _. exists world_ok. split; [apply _|]. split; [by eapply world_ok_ext|].
    intros w' Hw'. by eapply world_ok_ext.
  - intros w t ts Hw _. exists world_ok. split; [apply _|]. split; [by eapply world_ok_ext|].
    intros w' Hw'. by eapply world_ok_ext.
Qed.

(** The configuration of a process does not change, and one that is not told to
    stop ([live]) goes on. *)
Definition serves_as (cfg : GlobalConfig) (live : bool) w : Prop := w_cfg w = cfg ∧ (live = true → stop (w_tcp w) = false).

#[export] Instance serves_as_framed cfg live : Framed (serves_as cfg live).
Proof.
  split; unfold serves_as.
  - by intros w w' [? ?] -> _ -> _ _ _ _.
  - intros i c wt t w Hw. unfold AddCb. by destruct (AddCallBack _ _ _ _ _ _).
  - intros i w Hw. unfold GetCb. by destruct (GetCallBack _ _) as [[]| |].
  - intros i o c w Hw. unfold ChoiceRemoteW. by destruct (ChoiceRemote _ _ _ _) as [[]| |].
  - by intros p f _ w Hw.
  - intros w Hw. unfold balance_client. by destruct (bal_pick _) as [[]| |].
Qed.

#[export] Instance serves_as_inv cfg live : ProcessInv RECV_BUF_MAX_LEN (λ e, live = true → e ≠ EvStop) (serves_as cfg live).
Proof.
  split.
  - apply _.
  - by intros t w Hw.
  - by intros t w Hw.
  - intros c _ w Hw. unfold accept_register. by destruct (stop (w_tcp w)).
  - by intros connID w Hw.
  - by intros w r rm Hw _ _.
  - by intros w op rm Hw _ _.
  - intros w Hw. unfold CallbackTick. by destruct (recv_Tick _ _) as [[]| |].
  - intros w [Hc Hs] He. unfold serves_as, Stop. destruct live; [by destruct He|]. by destruct (stop (w_tcp w)).
  - intros w i t Hw _. exists (serves_as cfg live). split; [apply _|]. by split.
  - intros w t ts Hw _. exists (serves_as cfg live). split; [apply _|]. by split.
Qed.

(** A process without clients gets one only by accepting it. *)
#[export] Instance no_clients_framed : Framed (λ w : World B A, clients (w_tcp w) = ∅).
Proof.
  split.
  - by intros w w' H _ _ -> _ _ _ _.
  - intros i c wt t w Hw. unfold AddCb. by destruct (AddCallBack _ _ _ _ _ _).
  - intros i w Hw. unfold GetCb. by destruct (GetCallBack _ _) as [[]| |].
  - intros i o c w Hw. unfold ChoiceRemoteW. by destruct (ChoiceRemote _ _ _ _) as [[]| |].
  - by intros p f _ w Hw.
  - intros w Hw. unfold balance_client. by destruct (bal_pick _) as [[]| |].
Qed.

#[export] Instance no_clients_inv :
  ProcessInv RECV_BUF_MAX_LEN (λ e, ∀ c, e ≠ EvAccept c) (λ w : World B A, clients (w_tcp w) = ∅).
Proof.
  split.
  - apply _.
  - by intros t w Hw.
  - by intros t w Hw.
  - intros c H. by destruct (H c).
  - intros connID w Hw. cbn. by rewrite Hw, delete_empty.
  - by intros w r rm Hw _ _.
  - by intros w op rm Hw _ _.
  - intros w Hw. unfold CallbackTick. by destruct (recv_Tick _ _) as [[]| |].
  - intros w Hw _. unfold Stop. by destruct (stop (w_tcp w)).
  - intros w i t Hw _. exists (λ w, clients (w_tcp w) = ∅). split; [apply _|]. by split.
  - intros w t ts Hw _. exists (λ w, clients (w_tcp w) = ∅). split; [apply _|]. by split.
Qed.


End System.

(** ** Programs *)

(** [keep_program] goes through the body of a handler. *)
Ltac keep_program :=
  repeat first
    [ by auto with preserves
    | apply preserves_bind; [|intros ?]
    | apply keep_liftW
    | progress case_match ].

Section Gate.
  Context {MP : Msgpack} {R : Type} {RE : Redis R}.

Abbreviation W := (World GateHandler (GateApp R)).

Lemma keep_set_Success (P : W → Prop) b : preserves (beside P) (set_Success b).
Proof. by intros [rsp w] Hw. Qed.

Lemma keep_redis_command (P : W → Prop) {FP : Framed P} cmd : preserves P (redis_command cmd).
Proof.
  intros w Hw. unfold redis_command. destruct (myRedis2 (w_app w)) as [r|]; [|done].
  destruct (cmd r) as [ok r']. by eapply framed_fields.
Qed.

#[local] Hint Resolve keep_set_Success keep_redis_command : preserves.

#[export] Instance gate_program : Program GateHandler (GateApp R).
Proof.
  split; [|intros P FP p; cbn; auto with preserves].
  intros P FP proc h session args _.
  destruct h; cbn [busi_process gate gate_process]; repeat case_match; auto with preserves.
  all: unfold RpcC2GRpcRoute_Process, route_to, register_route, error_response, RpcS2GRpcRsp_Process, response_conn,
    RpcGateLogin_Process, RpcGateLogoff_Process, RpcReqListenAddr_Process, RpcP2GPush_Process,
    RpcC2GVertify_Process, RpcS2GRpcAccessReport_Process; keep_program.
Qed.

(** A client that is verified while the gate stops.  [Stop] tells the clients to
    exit by their state, and a verification sets the same state: when the [Read]
    of a client is in progress at that moment and returns a correct verification,
    the client is in state OK again, its loop goes on, and [Stop] waits for it as
    long as it stays connected. *)
Theorem verified_while_stopping (RECV_BUF_MAX_LEN : Z) (p : positive) (c : TcpClient) (w : W) :
  let msg := RpcEncode MSG_C2G_VERTIFY [GStr VERTIFY_SECRET_KEY] in
  RECV_BUF_MAX_LEN < 2 ^ 32 → go_len msg ≤ MAX_PACKET_SIZE → go_len (frame msg) ≤ RECV_BUF_MAX_LEN →
  stop (w_tcp w) = false → rpcs (w_rpc w) !! MSG_C2G_VERTIFY = Some (Busi RpcC2GVertifyHandler) →
  clients (w_tcp w) !! GetConnID (c_conn c) = Some p → w_clients w !! p = Some c → idle_buf RECV_BUF_MAX_LEN c →
  ∃ w' c', loop_step RECV_BUF_MAX_LEN p (ReadOK (frame msg)) InRead (Stop w) = (Ok AtCheck, w') ∧
    w_clients w' !! p = Some c' ∧ state c' = TcpClientState_OK ∧ Stop_waits w' = true ∧
    loop_step RECV_BUF_MAX_LEN p ReadTimeout AtCheck w' = (Ok InRead, w') ∧
    loop_step RECV_BUF_MAX_LEN p ReadTimeout InRead w' = (Ok AtCheck, w').
Proof.
  intros msg Hmax Hpk Hfit Hstop Hrpc Ht Hc [Hrem Hcap].
  set (c0 := with_state TcpClientState_EXIT c).
  assert (w_clients (Stop w) !! p = Some c0) as Hc0.
  { unfold Stop. rewrite Hstop. cbn. by rewrite (Stop_exits_lookup _ _ _ _ Ht), Hc. }
  assert (clients (w_tcp (Stop w)) = clients (w_tcp w)) as Htab by (unfold Stop; by rewrite Hstop).
  assert (w_rpc (Stop w) = w_rpc w) as Hr by (unfold Stop; by rewrite Hstop).
  destruct (HandleRead_body_data RECV_BUF_MAX_LEN p c0 [] (frame msg) [] [msg] (Stop w)) as (c1 & buf' & Hcn & _ & Hlast & _ & H).
  - done.
  - done.
  - split; [by exists (c_recvBuf c0)|exact Hrem|exact Hcap|constructor].
  - intros E. by apply (f_equal length) in E.
  - apply frame_bytes, RpcEncode_bytes.
  - done.
  - rewrite <- (app_nil_r ([] ++ _)). apply frame_Frames; [unfold MAX_PACKET_SIZE in Hpk; lia|]. by apply Frames_stop.
  - cbn zeta in H. set (session := fresh _) in H. set (w1 := set_sessions _ _) in H.
    pose proof (RpcDecode_verifies session (mkSession SessionTcpClient (c_conn c0) EmptyString) VERTIFY_SECRET_KEY p c1 w1
      (lookup_insert_eq _ _ _) eq_refl ltac:(by rewrite <- Hrpc, <- Hr) ltac:(rewrite <- Ht, <- Htab; done) (lookup_insert_eq _ _ _)) as Hd.
    rewrite decide_True in Hd by done.
    set (w2 := set_clients (<[p := with_state TcpClientState_OK c1]> (w_clients w1)) w1) in Hd.
    specialize (H w2 ltac:(cbn [foldM]; rewrite deliver_small by done; fold msg in Hd; by rewrite Hd)).
    set (c2 := with_buf buf' (go_len (@nil Z)) (with_state TcpClientState_OK c1)).
    set (w3 := set_clients _ w2) in H. assert (w_clients w3 !! p = Some c2) as Hc2.
    { cbn. rewrite lookup_alter, lookup_insert_eq. by rewrite decide_True. }
    exists w3, c2. split_and!.
    + cbn [loop_step]. by rewrite (M_bind_ok _ _ _ _ _ H).
    + done.
    + done.
    + unfold Stop_waits. apply bool_decide_eq_true_2. change (w_tcp w3) with (w_tcp (Stop w)). rewrite Htab. intros E. by rewrite E in Ht.
    + cbn [loop_step]. by rewrite (M_bind_ok _ _ _ _ _ (deref_client_ok _ _ _ Hc2)).
    + cbn [loop_step]. rewrite (M_bind_ok _ _ _ true w3); [done|]. unfold HandleRead_body.
      rewrite (M_bind_ok _ _ _ _ _ (deref_client_ok _ _ _ Hc2)), (M_bind_ok _ _ _ (w_clock w3) w3) by done.
      change (w_clock w3) with (w_clock (Stop w)). change (c_lastActiveTime c2) with (c_lastActiveTime c1).
      rewrite Hlast, Z.sub_diag. done.
Qed.

End Gate.

#[export] Instance service_b_program : Program (HS := ServiceB.service_b_sig) (BU := ServiceB.service_b) ServiceB.handlers ().
Proof.
  split; [|intros P FP p; cbn; auto with preserves].
  intros P FP proc [] session args _ [rsp w] Hw. cbn. unfold ServiceB.RpcBHandler_Process. by repeat case_match.
Qed.

(** ** Witness: a gate at work *)
Module SystemDemo.
Import GateDemo.

#[local] Existing Instance ref_msgpack.

Definition demo_events : list event :=
  [EvRoutes (OpDiscover 0 [Some demo_service] "ns" "a" "10.0.0.1" 8001); EvAccept demo_client; EvClock 5000; EvTick;
   EvRead 1 ReadTimeout; EvStop; EvRead 1 ReadTimeout].

Lemma demo_started_ok : world_ok demo_svc demo_started.
Proof.
  split.
  - apply init_world_ok.
  - exists []. apply init_inv.
  - apply CreateRemoteMgr_deployed.
Qed.


(** The gate does not keep ordered requests in order.  They become tasks like all
    others, which the goroutines of the pool run side by side: here a client sends
    two ordered requests for the same service in one read, and the second is
    forwarded before the first, to the same instance. *)
Definition ordered_request (rid arg : Z) : bytes :=
  RpcEncode MSG_C2G_RPC_ROUTE [GStr "ns"; GStr "a"; GUint32 rid; GBool true; GBytes (RpcEncode "rpc_a" [GUint32 arg])].
Definition ordered_call (grid arg : Z) : bytes :=
  RpcEncode MSG_G2S_RPC_CALL_ORDERED [GUint32 grid; GBytes (RpcEncode "rpc_a" [GUint32 arg])].

Definition order_world : World GateHandler (GateApp (gmap string string)) :=
  set_clients {[1%positive := mkTcpClient demo_client (replicate 256 0) 0 0 TcpClientState_OK]} (demo_world TcpClientState_OK).

Theorem ordered_swapped :
  ∃ w', foldM (step 256) [EvRead 1 (ReadOK (frame (ordered_request 1 7) ++ frame (ordered_request 2 8))); EvWorker 1; EvWorker 0]
      order_world = Ok w' ∧
    w_net w' = [(demo_service, frame (ordered_call 1 8)); (demo_service, frame (ordered_call 2 7))].
Proof.
  exists (from_ok order_world (foldM (step 256)
    [EvRead 1 (ReadOK (frame (ordered_request 1 7) ++ frame (ordered_request 2 8))); EvWorker 1; EvWorker 0] order_world)).
  split; [apply ran_ok; vm_compute; reflexivity|vm_compute; reflexivity].
Qed.

End SystemDemo.
