(* ===== verification/TaskPool.v ===== *)
(** * The task pool ([src/ms_framework/msf_task_pool_new.go])

    The pool counts the tasks that were produced and have not ended.  Its
    channels and the work of its goroutines are part of the process ([World],
    [SimpleRpc.worker_step], [SimpleRpc.separate_step]); here is that the count
    is right whatever the process does, and that stopping waits for exactly the
    tasks that are left. *)

From S2P Require Import Prelude Utils Wire Msgpack LoadBalancer CallbackMgr RemoteMgr World SimpleRpc TcpServer Gate.
From S2P Require Import System.

Local Open Scope Z_scope.

Definition coroutinesSize : Z := 500.

Definition StartTaskPool : TaskPool := mkTaskPool [] 0 [].

Definition Size (p : TaskPool) : Z := pool_size p.

(** The size [Monitor] warns of, once a second. *)
Definition Monitor (p : TaskPool) : option Z := if Size p =? 0 then None else Some (Size p).

(** [StopTaskPool] waits while this holds. *)
Definition StopTaskPool_waits (p : TaskPool) : bool := negb (0 =? Size p).

(** The tasks that were produced and have not ended. *)
Definition pending (p : TaskPool) : nat := (length (taskCh p) + length (separateCh p))%nat.

(** The counter is the number of these tasks, as an [int32]. *)
Definition counted (extra : nat) (p : TaskPool) : Prop := pool_size p = i32 (Z.of_nat (pending p + extra)).

Lemma i32_zero n : Z.of_nat n < 2 ^ 32 → i32 (Z.of_nat n) = 0 ↔ n = 0%nat.
Proof.
  intros Hn. unfold i32, swrap. cbn [Z.sub]. split; [|by intros ->]. intros H.
  assert ((Z.of_nat n + 2 ^ 31) mod 2 ^ 32 = 2 ^ 31) as Hm by (change (32 - 1) with 31 in H; lia).
  apply (f_equal (λ x, (x - 2 ^ 31) mod 2 ^ 32)) in Hm. rewrite Zminus_mod_idemp_l in Hm.
  replace (Z.of_nat n + 2 ^ 31 - 2 ^ 31) with (Z.of_nat n) in Hm by lia.
  rewrite Z.mod_small, Z.sub_diag in Hm by lia. change (0 mod 2 ^ 32) with 0 in Hm. lia.
Qed.

#[local] Set Default Proof Using "Type*".

Section TaskPool.
  Context {MP : Msgpack} {B A : Type} {HS : HandlerSig B} {BU : Business B A} {PR : Program B A}.
  Context (RECV_BUF_MAX_LEN : Z).

Implicit Types w : World B A.

(** Handlers do not touch the pool. *)
#[export] Instance pool_framed (Q : TaskPool → Prop) : Framed (λ w, Q (w_pool w)).
Proof.
  split.
  - by intros w w' Hw _ _ _ _ _ _ ->.
  - intros i c wt t w Hw. unfold AddCb. by destruct (AddCallBack _ _ _ _ _ _).
  - intros i w Hw. unfold GetCb. by destruct (GetCallBack _ _) as [[]| |].
  - intros i o c w Hw. unfold ChoiceRemoteW. by destruct (ChoiceRemote _ _ _ _) as [[]| |].
  - by intros p f _ w Hw.
  - intros w Hw. unfold balance_client. by destruct (bal_pick _) as [[]| |].
Qed.

Lemma length_delete_lookup {X} (l : list X) i x : l !! i = Some x → length l = S (length (delete i l)).
Proof. intros H. pose proof (lookup_lt_Some _ _ _ H). rewrite length_delete by by eexists. lia. Qed.

#[export] Instance pool_inv : ProcessInv RECV_BUF_MAX_LEN (λ _, True) (λ w, counted 0 (w_pool w)).
Proof.
  split.
  - apply (pool_framed (counted 0)).
  - intros t w Hw. unfold counted, pending in *. cbn. rewrite Hw, i32_add, length_app. cbn. f_equal. lia.
  - intros t w Hw. unfold counted, pending in *. cbn. rewrite Hw, i32_add, length_app. cbn. f_equal. lia.
  - intros c _ w Hw. unfold accept_register. by destruct (stop (w_tcp w)).
  - by intros connID w Hw.
  - by intros w r rm Hw _ _.
  - by intros w op rm Hw _ _.
  - intros w Hw. unfold CallbackTick. by destruct (recv_Tick _ _) as [[]| |].
  - intros w Hw _. unfold Stop. by destruct (stop (w_tcp w)).
  - intros w i t Hw Ht. exists (λ w, counted 1 (w_pool w)). split; [apply (pool_framed (counted 1))|]. split.
    + unfold counted, pending in *. cbn. rewrite Hw. f_equal. pose proof (length_delete_lookup _ _ _ Ht). lia.
    + intros w' Hw'. unfold counted, pending in *. cbn. rewrite Hw', <- Z.add_opp_r, i32_add. f_equal. lia.
  - intros w t ts Hw Ht. exists (λ w, counted 1 (w_pool w)). split; [apply (pool_framed (counted 1))|]. split.
    + unfold counted, pending in *. cbn. rewrite Hw, Ht. f_equal. cbn. lia.
    + intros w' Hw'. unfold counted, pending in *. cbn. rewrite Hw', <- Z.add_opp_r, i32_add. f_equal. lia.
Qed.

(** The goroutines run the tasks that are left: each worker step takes the oldest
    task of the channel. *)
Definition drain (p : TaskPool) : list event :=
  replicate (length (taskCh p)) (EvWorker 0) ++ replicate (length (separateCh p)) EvSeparate.

Abbreviation run := (foldM (step (B := B) (A := A) RECV_BUF_MAX_LEN)).

(** A task that is taken and run. *)
Lemma run_taken t q w w' :
  busi_ends (B := B) (A := A) →
  let r := final ((_ ← run_task t; modify pool_done) (set_pool q w)) in
  r ≠ OutOfFuel ∧ (r = Ok w' → taskCh (w_pool w') = taskCh q ∧ separateCh (w_pool w') = separateCh q).
Proof.
  intros Hb r. pose proof (run_task_ends t Hb (set_pool q w)) as He.
  pose proof (keep_run_task (λ w, w_pool w = q) (FP := pool_framed (λ p, p = q)) t (set_pool q w) eq_refl) as Hk.
  unfold r, mbind, M_bind. destruct (run_task t (set_pool q w)) as [[] w2]; cbn in *; [|done..].
  split; [done|]. intros [= <-]. cbn. by rewrite Hk.
Qed.

Lemma drain_workers n : busi_ends (B := B) (A := A) → ∀ w, length (taskCh (w_pool w)) = n →
  run (replicate n (EvWorker 0)) w ≠ OutOfFuel ∧
  ∀ w', run (replicate n (EvWorker 0)) w = Ok w' →
    taskCh (w_pool w') = [] ∧ separateCh (w_pool w') = separateCh (w_pool w).
Proof.
  intros Hb. induction n as [|n IH]; intros w Hn; cbn [replicate foldM].
  { split; [done|]. intros w' [= <-]. by rewrite <- length_zero_iff_nil. }
  cbn [step]. unfold worker_step. destruct (taskCh (w_pool w)) as [|t ts] eqn:E; [done|]. cbn [lookup list_lookup delete list_delete].
  set (q := mkTaskPool ts _ _). pose proof (λ w', run_taken t q w w' Hb) as Hr. cbn beta zeta in Hr.
  destruct (final _) as [w1| |]; [|by split|by destruct (Hr w)].
  destruct (proj2 (Hr w1) eq_refl) as [H1 H2]. change (taskCh q) with ts in H1.
  destruct (IH w1) as [Ho Hk]; [rewrite H1; cbn in Hn; lia|]. split; [exact Ho|].
  intros w' Hw'. destruct (Hk w' Hw') as [-> ->]. by rewrite H2.
Qed.

Lemma drain_separate n : busi_ends (B := B) (A := A) → ∀ w, length (separateCh (w_pool w)) = n →
  run (replicate n EvSeparate) w ≠ OutOfFuel ∧
  ∀ w', run (replicate n EvSeparate) w = Ok w' →
    separateCh (w_pool w') = [] ∧ taskCh (w_pool w') = taskCh (w_pool w).
Proof.
  intros Hb. induction n as [|n IH]; intros w Hn; cbn [replicate foldM].
  { split; [done|]. intros w' [= <-]. by rewrite <- length_zero_iff_nil. }
  cbn [step]. unfold separate_step. destruct (separateCh (w_pool w)) as [|t ts] eqn:E; [done|].
  set (q := mkTaskPool _ _ ts). pose proof (λ w', run_taken t q w w' Hb) as Hr. cbn beta zeta in Hr.
  destruct (final _) as [w1| |]; [|by split|by destruct (Hr w)].
  destruct (proj2 (Hr w1) eq_refl) as [H1 H2]. change (separateCh q) with ts in H2.
  destruct (IH w1) as [Ho Hk]; [rewrite H2; cbn in Hn; lia|]. split; [exact Ho|].
  intros w' Hw'. destruct (Hk w' Hw') as [-> ->]. by rewrite H1.
Qed.

Lemma run_drain w :
  busi_ends (B := B) (A := A) →
  run (drain (w_pool w)) w ≠ OutOfFuel ∧ ∀ w', run (drain (w_pool w)) w = Ok w' → pending (w_pool w') = 0%nat.
Proof.
  intros Hb. unfold drain. rewrite foldM_app.
  destruct (drain_workers _ Hb w eq_refl) as [Ho Hw].
  destruct (run (replicate _ (EvWorker 0)) w) as [w1| |]; [|by split|done].
  destruct (Hw w1 eq_refl) as [H1 H2]. cbn [mbind result_bind].
  destruct (drain_separate _ Hb w1 eq_refl) as [Ho' Hs]. rewrite H2 in Ho', Hs. split; [done|].
  intros w' Hw'. destruct (Hs w' Hw') as [H3 H4]. unfold pending. by rewrite H3, H4, H1.
Qed.

(** C22 Stopping the task pool.  Whatever a process does, its pool counts exactly
    the tasks that were produced and have not ended; so, as long as fewer than
    2^32 are waiting, [StopTaskPool] goes on waiting exactly while there is such
    a task.  And it does not wait for ever: if the program's handlers end, the
    goroutines run the tasks that are left, each to its end, and unless one of
    them panics, after which there is no process, [StopTaskPool] then returns. *)
Theorem pool_stops (evs : list event) w0 w :
  busi_ends (B := B) (A := A) → w_pool w0 = StartTaskPool →
  run evs w0 = Ok w → Z.of_nat (pending (w_pool w)) < 2 ^ 32 →
  (StopTaskPool_waits (w_pool w) = true ↔ (0 < pending (w_pool w))%nat) ∧
  run (drain (w_pool w)) w ≠ OutOfFuel ∧
  ∀ w', run (drain (w_pool w)) w = Ok w' → StopTaskPool_waits (w_pool w') = false.
Proof.
  intros Hb H0 Hr Hlt.
  assert (counted 0 (w_pool w)) as Hc.
  { apply (keep_steps RECV_BUF_MAX_LEN (λ _, True) (λ w, counted 0 (w_pool w)) evs w0 w); [by rewrite H0| |done].
    by apply Forall_true. }
  destruct (run_drain w Hb) as [Ho Hd].
  assert (∀ w', counted 0 (w_pool w') → Z.of_nat (pending (w_pool w')) < 2 ^ 32 →
    StopTaskPool_waits (w_pool w') = true ↔ (0 < pending (w_pool w'))%nat) as Hwait.
  { intros w' Hc' Hl. unfold StopTaskPool_waits, Size. rewrite Hc', Nat.add_0_r.
    pose proof (i32_zero _ Hl). destruct (Z.eqb_spec 0 (i32 (Z.of_nat (pending (w_pool w'))))); cbn; split; intros; lia || done. }
  split; [by apply Hwait|]. split; [done|]. intros w' Hw'. apply not_true_is_false. intros Ht.
  apply Hwait in Ht.
  - rewrite (Hd w' Hw') in Ht. lia.
  - apply (keep_steps RECV_BUF_MAX_LEN (λ _, True) (λ w, counted 0 (w_pool w)) (drain (w_pool w)) w w'); [done| |done].
    by apply Forall_true.
  - rewrite (Hd w' Hw'). lia.
Qed.

End TaskPool.

(** ** Witness: service B with two calls waiting *)
Module PoolDemo.
Import ServiceB.

#[local] Existing Instance ref_msgpack.

Definition demo_call : bytes := frame (RpcEncode MSG_G2S_RPC_CALL [GUint32 1; GBytes (RpcEncode "rpc_b" [GUint32 7])]).
Definition demo_ordered : bytes :=
  frame (RpcEncode MSG_G2S_RPC_CALL_ORDERED [GUint32 2; GBytes (RpcEncode "rpc_b" [GUint32 8])]).

(** The service accepts a gate and reads two calls from it. *)
Definition pool_events : list event :=
  [EvAccept demo_gate; EvRead 1 (ReadOK demo_call); EvRead 1 (ReadOK demo_ordered)].

Definition pool_world : World handlers () :=
  init_world (mkGlobalConfig "ns" "ServiceB") SERVER_IDENTITY_SERVICE "10.0.0.1:8001"
    (StopRcpHandlerRegist (from_ok (mkSimpleRpcMgr ∅ ∅ false) regist_handlers)) ().

Definition pool_after : World handlers () := from_ok pool_world (foldM (step 64) pool_events pool_world).

Lemma pool_stops_witness :
  StopTaskPool_waits (w_pool pool_after) = true ∧
  ∃ w', foldM (step 64) (drain (w_pool pool_after)) pool_after = Ok w' ∧ StopTaskPool_waits (w_pool w') = false.
Proof.
  assert (foldM (step 64) pool_events pool_world = Ok pool_after) as E by (apply ran_ok; vm_compute; reflexivity).
  destruct (pool_stops 64 pool_events pool_world pool_after service_b_ends eq_refl E) as (Hw & _ & Hd).
  - vm_compute. reflexivity.
  - split; [apply Hw; vm_compute; lia|]. eexists.
    assert (foldM (step 64) (drain (w_pool pool_after)) pool_after =
      Ok (from_ok pool_after (foldM (step 64) (drain (w_pool pool_after)) pool_after))) as E'
      by (apply ran_ok; vm_compute; reflexivity).
    split; [exact E'|apply (Hd _ E')].
Defined.

End PoolDemo.
