(* ===== verification/Push.v ===== *)
(** * The push service ([src/push_service/src])

    Services push messages to clients through the gate a client is logged in
    at.  A safe push is stored before it is sent and stays stored as not arrived
    until the client confirms it; after a login the client asks for what has not
    arrived.  Mongo, where the records are kept, is a parameter: the class
    [Mongo] says what a successful command does to the set of records. *)

From S2P Require Import Prelude Utils Wire Msgpack LoadBalancer CallbackMgr RemoteMgr World SimpleRpc Gate System.
From Stdlib Require Import Ascii.

Local Open Scope Z_scope.

Definition PUSH_RECORD_STATE_UNARRIVE : Z := 0.
Definition PUSH_RECORD_STATE_ARRIVED : Z := 1.

(** A document of the collection [safe_push_records], without its id. *)
Record PushRecord := mkPushRecord { d_clientID : string; d_type : string; d_pushMsg : bytes; d_state : Z }.

(** The collection: documents by object id (twelve bytes).  A command that
    returned no error took effect. *)
Class Mongo (D : Type) := {
  records : D → gmap bytes PushRecord;
  insert_one : D → PushRecord → option bytes * D;
  update_state : D → bytes → Z → bool * D;
  find_state : D → string → Z → option (list (bytes * PushRecord));
  insert_one_ok d r pid d' : insert_one d r = (Some pid, d') →
    length pid = 12%nat ∧ records d !! pid = None ∧ records d' = <[pid := r]> (records d);
  update_state_ok d pid st d' : update_state d pid st = (true, d') →
    records d' = alter (λ r, mkPushRecord (d_clientID r) (d_type r) (d_pushMsg r) st) pid (records d);
  find_state_ok d cid st docs : find_state d cid st = Some docs →
    docs ≡ₚ map_to_list (filter (λ x, d_clientID x.2 = cid ∧ d_state x.2 = st) (records d));
}.

Inductive PushHandler :=
  | RpcRspListenAddrHandler
  | RpcS2PPushHandler
  | RpcPushReplyHandler
  | RpcPushRestoreHandler.

Record RpcS2PPushReq := mkS2PPushReq { h_ClientID : string; h_Typ : string; h_IsSafe : bool; h_PushMsg : bytes }.

Record PushApp (R D : Type) := mkPushApp {
  gGateAddrMap : gmap string CONN_ID;
  pushRedis : option R;   (** the cluster [myRedis2] *)
  myMongo : option D;
}.
Arguments mkPushApp {R D} _ _ _.
Arguments gGateAddrMap {R D} _.
Arguments pushRedis {R D} _.
Arguments myMongo {R D} _.

Section Push.
  Context {MP : Msgpack} {R D : Type} {RE : Redis R} {MO : Mongo D}.

Abbreviation W := (World PushHandler (PushApp R D)).
Implicit Types w : W.

(** ** Pushing to a gate *)

Definition push_key (clientID typ : string) : option string :=
  if bool_decide (typ = "server") then Some ("s_" +:+ clientID)
  else if bool_decide (typ = "client") then Some ("c_" +:+ clientID)
  else None.

(** [redisCluster.Get(key).Result()]. *)
Definition redis_lookup (key : string) : M W (option string) := λ w,
  match pushRedis (w_app w) with
  | None => (Panic NilDereference, w)
  | Some r => (Ok (redis_get r key), w)
  end.

Definition PushToGate (clientID typ : string) (pushMsg pid : bytes) : M W () :=
  match push_key clientID typ with
  | None => mret ()
  | Some key =>
      target ← redis_lookup key;
      match target with
      | None => mret ()
      | Some target =>
          let v := go_split "/"%char target in
          gateAddr ← lift_result (go_index v 0);
          clientConnID ← lift_result (go_index v 1);
          connID ← gets (λ w, gGateAddrMap (w_app w) !! gateAddr);
          match connID with
          | None => mret ()
          | Some connID =>
              client ← gets (GetTcpClient connID);
              match client with
              | None => mret ()
              | Some p =>
                  ns ← gets (λ w, Namespace (w_cfg w));
                  msg ← lift_result (MessageEncode (RpcEncode MSG_P2G_PUSH
                           [GStr clientConnID; GBytes pid; GStr ns; GBytes pushMsg]));
                  c ← deref_client (Some p);
                  _ ← MessageSend (Some (c_conn c)) msg;
                  mret ()
              end
          end
      end
  end.

(** ** The handlers *)

Definition set_mongo (d : D) w : W :=
  set_app (mkPushApp (gGateAddrMap (w_app w)) (pushRedis (w_app w)) (Some d)) w.

Definition RpcRspListenAddr_Process (addr : string) (session : positive) : M W () :=
  s ← deref_session session;
  modify (λ w, set_app (mkPushApp (<[addr := GetConnID (conn s)]> (gGateAddrMap (w_app w)))
                          (pushRedis (w_app w)) (myMongo (w_app w))) w).

(** [coll.InsertOne]: the object id, unless it failed. *)
Definition mongo_insert (r : PushRecord) : M W (option bytes) := λ w,
  match myMongo (w_app w) with
  | None => (Panic NilDereference, w)
  | Some d => let '(o, d) := insert_one d r in (Ok o, set_mongo d w)
  end.

Definition RpcS2PPush_Process (req : RpcS2PPushReq) : M W () :=
  if h_IsSafe req then
    o ← mongo_insert (mkPushRecord (h_ClientID req) (h_Typ req) (h_PushMsg req) PUSH_RECORD_STATE_UNARRIVE);
    match o with
    | None => mret ()
    | Some pid => PushToGate (h_ClientID req) (h_Typ req) (h_PushMsg req) pid
    end
  else PushToGate (h_ClientID req) (h_Typ req) (h_PushMsg req) [].

Definition RpcPushReply_Process (pid : bytes) : M W () := λ w,
  let objectID := go_copy (replicate 12 0) pid in
  match myMongo (w_app w) with
  | None => (Panic NilDereference, w)
  | Some d => (Ok (), set_mongo (update_state d objectID PUSH_RECORD_STATE_ARRIVED).2 w)
  end.

Fixpoint push_docs (docs : list (bytes * PushRecord)) : M W () :=
  match docs with
  | [] => mret ()
  | (objID, r) :: docs =>
      _ ← PushToGate (d_clientID r) (d_type r) (d_pushMsg r) objID;
      push_docs docs
  end.

Definition mongo_find (clientID : string) : M W (option (list (bytes * PushRecord))) := λ w,
  match myMongo (w_app w) with
  | None => (Panic NilDereference, w)
  | Some d => (Ok (find_state d clientID PUSH_RECORD_STATE_UNARRIVE), w)
  end.

Definition RpcPushRestore_Process (clientID : string) : M W () :=
  docs ← mongo_find clientID;
  match docs with
  | None => mret ()
  | Some docs => push_docs docs
  end.

(** [onTcpAccept]: ask the gate for its address. *)
Definition onTcpAccept (p : option positive) : M W () :=
  c ← deref_client p;
  msg ← lift_result (MessageEncode (RpcEncode MSG_P2G_REQ_LISTENADDR []));
  _ ← MessageSend (Some (c_conn c)) msg;
  mret ().

Definition push_process (h : PushHandler) (session : positive) (args : list goval) : M (list goval * W) () :=
  match h, args with
  | RpcRspListenAddrHandler, [GStr addr] => liftW (RpcRspListenAddr_Process addr session)
  | RpcS2PPushHandler, [GStr cid; GStr typ; GBool safe; GBytes msg] =>
      liftW (RpcS2PPush_Process (mkS2PPushReq cid typ safe msg))
  | RpcPushReplyHandler, [GBytes pid] => liftW (RpcPushReply_Process pid)
  | RpcPushRestoreHandler, [GStr cid] => liftW (RpcPushRestore_Process cid)
  | _, _ => throw TypeAssertion
  end.

#[export] Instance push_service_sig : HandlerSig PushHandler := {|
  busi_req h :=
    match h with
    | RpcRspListenAddrHandler => Some [("Addr", TString)]
    | RpcS2PPushHandler => Some [("ClientID", TString); ("Typ", TString); ("IsSafe", TBool); ("PushMsg", TBytes)]
    | RpcPushReplyHandler => Some [("Pid", TBytes)]
    | RpcPushRestoreHandler => Some [("ClientID", TString)]
    end;
  busi_rsp _ := None;
  busi_access h := match h with RpcPushReplyHandler | RpcPushRestoreHandler => true | _ => false end;
|}.

#[export] Instance push_service : Business PushHandler (PushApp R D) := {|
  busi_process _ := push_process;
  busi_accept := onTcpAccept;
|}.

Definition push_handlers : list (string * RpcHandler PushHandler) :=
  [(MSG_G2P_RSP_LISTENADDR, Busi RpcRspListenAddrHandler); (MSG_S2P_PUSH, Busi RpcS2PPushHandler);
   (MSG_PUSH_REPLY, Busi RpcPushReplyHandler); (MSG_PUSH_RESTORE, Busi RpcPushRestoreHandler)].

Lemma keep_PushToGate (P : W → Prop) {FP : Framed P} clientID typ pushMsg pid :
  preserves P (PushToGate clientID typ pushMsg pid).
Proof.
  unfold PushToGate. destruct (push_key clientID typ) as [key|]; [|auto with preserves].
  apply preserves_bind; [intros w Hw; unfold redis_lookup; by destruct (pushRedis (w_app w))|].
  intros target. keep_program.
Qed.

#[export] Instance push_program : Program PushHandler (PushApp R D).
Proof.
  split.
  - intros P FP proc h session args _. pose proof (keep_PushToGate P) as Hp.
    assert (∀ docs, preserves P (push_docs docs)) as Hd.
    { intros docs. induction docs as [|[pid r] docs IH]; cbn [push_docs]; keep_program. }
    assert (∀ r, preserves P (mongo_insert r)) as Hi.
    { intros r w Hw. unfold mongo_insert. destruct (myMongo (w_app w)) as [d|]; [|done].
      destruct (insert_one d r) as [o d']. by eapply framed_fields. }
    assert (∀ pid, preserves P (RpcPushReply_Process pid)) as Hr.
    { intros pid w Hw. unfold RpcPushReply_Process. destruct (myMongo (w_app w)); [|done]. by eapply framed_fields. }
    assert (∀ cid, preserves P (mongo_find cid)) as Hf.
    { intros cid w Hw. unfold mongo_find. by destruct (myMongo (w_app w)). }
    destruct h; cbn [busi_process push_service push_process]; repeat case_match; auto with preserves; apply keep_liftW;
      unfold RpcRspListenAddr_Process, RpcS2PPush_Process, RpcPushRestore_Process; keep_program.
  - intros P FP p. cbn. unfold onTcpAccept. keep_program.
Qed.

(** ** Pushing *)

(** The login of a client, as the push service sees it: redis names a gate and
    a connection there, and that gate is connected as [c]. *)
Record logged_in w (key gateAddr clientConnID : string) (c : Conn) : Prop := {
  li_redis : ∃ r, pushRedis (w_app w) = Some r ∧ redis_get r key = Some (gateAddr +:+ "/" +:+ clientConnID);
  li_addr : lacks "/"%char gateAddr = true;
  li_conn : lacks "/"%char clientConnID = true;
  li_gate : ∃ id p cl, gGateAddrMap (w_app w) !! gateAddr = Some id ∧ GetTcpClient id w = Some p ∧
    w_clients w !! p = Some cl ∧ c_conn cl = c;
  li_up : conn_fd c ∉ w_broken w;
}.

(** What the gate is sent. *)
Definition push_rpc (clientConnID : string) (pid : bytes) w (pushMsg : bytes) : bytes :=
  RpcEncode MSG_P2G_PUSH [GStr clientConnID; GBytes pid; GStr (Namespace (w_cfg w)); GBytes pushMsg].

Lemma PushToGate_ok clientID typ key pushMsg pid gateAddr clientConnID c w :
  push_key clientID typ = Some key → logged_in w key gateAddr clientConnID c →
  go_len (push_rpc clientConnID pid w pushMsg) ≤ MAX_PACKET_SIZE →
  PushToGate clientID typ pushMsg pid w =
    (Ok (), set_net (w_net w ++ [(c, frame (push_rpc clientConnID pid w pushMsg))]) w).
Proof.
  intros Hk [(r & Hr & Hg) Ha Hc (id & p & cl & Hid & Hp & Hcl & Hcn) Hb] Hlen. unfold PushToGate. rewrite Hk.
  rewrite (M_bind_ok _ _ _ (Some (gateAddr +:+ "/" +:+ clientConnID)) w)
    by (unfold redis_lookup; by rewrite Hr, Hg).
  change (gateAddr +:+ "/" +:+ clientConnID) with (gateAddr +:+ String "/"%char clientConnID).
  rewrite go_split_cons, go_split_lacks by done.
  rewrite (M_bind_ok _ _ _ gateAddr w), (M_bind_ok _ _ _ clientConnID w) by done.
  rewrite (M_bind_ok _ _ _ (Some id) w) by (unfold gets; by rewrite Hid).
  rewrite (M_bind_ok _ _ _ (Some p) w) by (unfold gets; by rewrite Hp).
  rewrite (M_bind_ok _ _ _ (Namespace (w_cfg w)) w) by done.
  fold (push_rpc clientConnID pid w pushMsg).
  rewrite (M_bind_ok _ _ _ (frame (push_rpc clientConnID pid w pushMsg)) w)
    by (unfold lift_result; by rewrite MessageEncode_spec).
  rewrite (M_bind_ok _ _ _ cl w) by (unfold deref_client; cbn; by rewrite Hcl).
  rewrite Hcn. by rewrite (M_bind_ok _ _ _ _ _ (MessageSend_ok c (frame (push_rpc clientConnID pid w pushMsg)) w ltac:(done) Hb)).
Qed.

(** Pushing changes none of the service's own variables. *)
Lemma PushToGate_app clientID typ pushMsg pid (a : PushApp R D) :
  preserves (λ w, w_app w = a) (PushToGate clientID typ pushMsg pid).
Proof.
  unfold PushToGate. destruct (push_key clientID typ) as [key|]; [|auto with preserves].
  apply preserves_bind; [intros w Hw; unfold redis_lookup; by destruct (pushRedis _)|]. intros [target|]; [|auto with preserves].
  do 3 (apply preserves_bind; [by auto with preserves|intros ?]). case_match; [|auto with preserves].
  apply preserves_bind; [auto with preserves|]. intros [p|]; [|auto with preserves].
  do 2 (apply preserves_bind; [by auto with preserves|intros ?]).
  apply preserves_bind; [intros w Hw; unfold deref_client; by destruct (_ ≫= _)|]. intros c.
  apply preserves_bind; [|auto with preserves]. intros w Hw. unfold MessageSend. by repeat case_bool_decide.
Qed.

(** ** Safe pushes *)

(** The pushes to a client that it has not confirmed. *)
Definition unarrived (cid : string) (d : D) : gmap bytes PushRecord :=
  filter (λ x, d_clientID x.2 = cid ∧ d_state x.2 = PUSH_RECORD_STATE_UNARRIVE) (records d).

(** Safe pushes are kept until confirmed.  Once a safe push was stored it is
    among the unconfirmed pushes of its client, whatever becomes of sending it,
    and no other client's are affected; the confirmation that names its id
    removes exactly this push from them, so that it will not be sent again. *)
Theorem safe_push_until_reply (req : RpcS2PPushReq) (d d1 d2 : D) (pid : bytes) w :
  let r := mkPushRecord (h_ClientID req) (h_Typ req) (h_PushMsg req) PUSH_RECORD_STATE_UNARRIVE in
  h_IsSafe req = true → myMongo (w_app w) = Some d → insert_one d r = (Some pid, d1) →
  update_state d1 pid PUSH_RECORD_STATE_ARRIVED = (true, d2) →
  let w1 := (RpcS2PPush_Process req w).2 in
  let w2 := (RpcPushReply_Process pid w1).2 in
  myMongo (w_app w1) = Some d1 ∧
  unarrived (h_ClientID req) d1 = <[pid := r]> (unarrived (h_ClientID req) d) ∧
  (∀ cid, cid ≠ h_ClientID req → unarrived cid d1 = unarrived cid d) ∧
  myMongo (w_app w2) = Some d2 ∧ ∀ cid, unarrived cid d2 = unarrived cid d.
Proof.
  intros r Hsafe Hd Hins Hupd w1 w2.
  destruct (insert_one_ok _ _ _ _ Hins) as (Hlen & Hnone & Hrec).
  pose proof (update_state_ok _ _ _ _ Hupd) as Hrec2.
  assert (myMongo (w_app w1) = Some d1) as Hw1.
  { unfold w1, RpcS2PPush_Process. rewrite Hsafe. fold r.
    rewrite (M_bind_ok _ _ _ (Some pid) (set_mongo d1 w)) by (unfold mongo_insert; by rewrite Hd, Hins).
    by rewrite (PushToGate_app _ _ _ _ (w_app (set_mongo d1 w)) (set_mongo d1 w) eq_refl). }
  split; [done|]. unfold unarrived. rewrite Hrec. split; [by rewrite map_filter_insert_True|]. split.
  - intros cid Hne. rewrite map_filter_insert_False by naive_solver. by rewrite delete_id.
  - split.
    + unfold w2, RpcPushReply_Process. rewrite Hw1.
      assert (go_copy (replicate 12 0) pid = pid) as ->.
      { apply (go_copy_make 0 pid 12). unfold go_len. by rewrite Hlen. }
      by rewrite Hupd.
    + intros cid. rewrite Hrec2, Hrec. rewrite alter_insert_eq.
      rewrite map_filter_insert_False by (intros [_ [=]]). by rewrite delete_id.
Qed.

(** ** Restoring *)

Lemma push_docs_ok key gateAddr clientConnID c : ∀ docs w,
  logged_in w key gateAddr clientConnID c →
  (∀ x, x ∈ docs → push_key (d_clientID x.2) (d_type x.2) = Some key ∧
    go_len (push_rpc clientConnID x.1 w (d_pushMsg x.2)) ≤ MAX_PACKET_SIZE) →
  push_docs docs w =
    (Ok (), set_net (w_net w ++ ((λ x, (c, frame (push_rpc clientConnID x.1 w (d_pushMsg x.2)))) <$> docs)) w).
Proof.
  induction docs as [|[pid r] docs IH]; intros w Hli Hdocs; cbn [push_docs].
  { rewrite app_nil_r. by destruct w. }
  destruct (Hdocs (pid, r)) as [Hk Hf]; [by left|]. cbn [fst snd] in *.
  rewrite (M_bind_ok _ _ _ _ _ (PushToGate_ok _ _ _ _ _ _ _ _ _ Hk Hli Hf)). rewrite IH.
  - cbn. by rewrite <- app_assoc.
  - by destruct Hli.
  - intros x Hx. apply Hdocs. by right.
Qed.

(** C24 Restoring.  When a client asks for what it missed, and all of it was
    pushed to it under the kind of login it has, every unconfirmed push of that
    client is sent to the gate it is logged in at, each exactly once and with
    the id by which it is confirmed, and nothing else is sent. *)
Theorem restore_exact (cid : string) (d : D) (docs : list (bytes * PushRecord))
    (key gateAddr clientConnID : string) (c : Conn) w :
  myMongo (w_app w) = Some d → find_state d cid PUSH_RECORD_STATE_UNARRIVE = Some docs →
  logged_in w key gateAddr clientConnID c →
  (∀ pid r, unarrived cid d !! pid = Some r → push_key cid (d_type r) = Some key ∧
     go_len (push_rpc clientConnID pid w (d_pushMsg r)) ≤ MAX_PACKET_SIZE) →
  ∃ sent w', RpcPushRestore_Process cid w = (Ok (), w') ∧ w_net w' = w_net w ++ sent ∧
    sent ≡ₚ (λ x, (c, frame (push_rpc clientConnID x.1 w (d_pushMsg x.2)))) <$> map_to_list (unarrived cid d).
Proof.
  intros Hd Hfind Hli Hrecs. pose proof (find_state_ok _ _ _ _ Hfind) as Hperm.
  unfold RpcPushRestore_Process.
  rewrite (M_bind_ok _ _ _ (Some docs) w) by (unfold mongo_find; by rewrite Hd, Hfind).
  rewrite (push_docs_ok key gateAddr clientConnID c docs w Hli).
  - eexists _, _. split; [done|]. split; [done|]. by apply fmap_Permutation.
  - intros [pid r] Hin. rewrite Hperm in Hin. apply elem_of_map_to_list in Hin.
    destruct (Hrecs _ _ Hin) as [Hk Hf]. cbn. split; [|done].
    apply map_lookup_filter_Some in Hin as [_ [Hcid _]]. cbn in Hcid. by rewrite Hcid.
Qed.

End Push.

(** ** From a service to a client, through push service and gate *)

Section EndToEnd.
  Context {MP : Msgpack} {R D : Type} {RE : Redis R} {MO : Mongo D}.

Lemma P2GPush_ok connID pid ns msg (q : positive) (cl : TcpClient) (w : World GateHandler (GateApp R)) :
  GetTcpClient connID w = Some q → w_clients w !! q = Some cl → conn_fd (c_conn cl) ∉ w_broken w →
  go_len (RpcEncode MSG_G2C_PUSH [GBytes pid; GStr ns; GBytes msg]) ≤ MAX_PACKET_SIZE →
  RpcP2GPush_Process (mkPushReq connID pid ns msg) w
  = (Ok (), set_net (w_net w ++ [(c_conn cl, frame (RpcEncode MSG_G2C_PUSH [GBytes pid; GStr ns; GBytes msg]))]) w).
Proof.
  intros Hq Hcl Hb Hlen. unfold RpcP2GPush_Process. cbn [u_ConnID u_Pid u_Namespace u_InnerRpc].
  rewrite (M_bind_ok _ _ _ (Some q) w) by (unfold gets; by rewrite Hq).
  rewrite (M_bind_ok _ _ _ (frame (RpcEncode MSG_G2C_PUSH [GBytes pid; GStr ns; GBytes msg])) w)
    by (unfold lift_result; by rewrite MessageEncode_spec).
  rewrite (M_bind_ok _ _ _ cl w) by (unfold deref_client; cbn; by rewrite Hcl).
  rewrite (M_bind_ok _ _ _ true (set_net (w_net w ++ [(c_conn cl, frame (RpcEncode MSG_G2C_PUSH
    [GBytes pid; GStr ns; GBytes msg]))]) w)); [done|]. by apply MessageSend_ok.
Qed.

Lemma gate_push_ok (session : positive) (connID : CONN_ID) (pid msg : bytes) (ns : string)
    (q : positive) (cl : TcpClient) (w : World GateHandler (GateApp R)) :
  rpcs (w_rpc w) !! MSG_P2G_PUSH = Some (Busi RpcP2GPushHandler) →
  args_fit [("ConnID", TString); ("Pid", TBytes); ("Namespace", TString); ("InnerRpc", TBytes)]
    [GStr connID; GBytes pid; GStr ns; GBytes msg] [GStr connID; GBytes pid; GStr ns; GBytes msg] →
  GetTcpClient connID w = Some q → w_clients w !! q = Some cl → conn_fd (c_conn cl) ∉ w_broken w →
  go_len (RpcEncode MSG_G2C_PUSH [GBytes pid; GStr ns; GBytes msg]) ≤ MAX_PACKET_SIZE →
  run_task (task_of session (RpcEncode MSG_P2G_PUSH [GStr connID; GBytes pid; GStr ns; GBytes msg])) w
  = (Ok (), set_net (w_net w ++ [(c_conn cl, frame (RpcEncode MSG_G2C_PUSH [GBytes pid; GStr ns; GBytes msg]))]) w).
Proof.
  intros Hr Hfit Hq Hcl Hb Hlen.
  destruct (run_task_enc session MSG_P2G_PUSH [GStr connID; GBytes pid; GStr ns; GBytes msg] w (Busi RpcP2GPushHandler)
    [("ConnID", TString); ("Pid", TBytes); ("Namespace", TString); ("InnerRpc", TBytes)]
    [GStr connID; GBytes pid; GStr ns; GBytes msg]) as [fuel ->]; [done|done|done|done|].
  unfold run_handler. cbn [Process busi_process gate gate_process liftW].
  by rewrite (P2GPush_ok connID pid ns msg q cl w Hq Hcl Hb Hlen).
Qed.

(** C9 A push reaches the client that logged in.  After a client logged in at a
    gate, a push to its client id is sent by the push service to exactly that
    gate, once, and the gate, when it runs that message while the client is
    still connected, sends exactly one push to the connection the client logged
    in on, with the id and the inner message unchanged. *)
Theorem push_end_to_end (wg wg' : World GateHandler (GateApp R)) (wp : World PushHandler (PushApp R D))
    (session session' : positive) (s : Session) (cid typ key : string) (r r1 : R) (id : CONN_ID)
    (p q : positive) (gcl cl : TcpClient) (pid msg : bytes) rsp :
  (* the login *)
  w_sessions wg !! session = Some s → login_key cid wg = Some key → push_key cid typ = Some key →
  myRedis2 (w_app wg) = Some r →
  redis_set r key (listenAddr (w_tcp wg) +:+ "/" +:+ GetConnID (conn s)) = (true, r1) →
  lacks "/"%char (listenAddr (w_tcp wg)) = true → lacks "/"%char (GetConnID (conn s)) = true →
  (* the push service, with that gate connected *)
  pushRedis (w_app wp) = Some r1 → gGateAddrMap (w_app wp) !! listenAddr (w_tcp wg) = Some id →
  GetTcpClient id wp = Some p → w_clients wp !! p = Some gcl → conn_fd (c_conn gcl) ∉ w_broken wp →
  go_len (push_rpc (GetConnID (conn s)) pid wp msg) ≤ MAX_PACKET_SIZE →
  (* the gate, later, with that client still connected *)
  rpcs (w_rpc wg') !! MSG_P2G_PUSH = Some (Busi RpcP2GPushHandler) →
  GetTcpClient (GetConnID (conn s)) wg' = Some q → w_clients wg' !! q = Some cl → c_conn cl = conn s →
  conn_fd (conn s) ∉ w_broken wg' →
  args_fit [("ConnID", TString); ("Pid", TBytes); ("Namespace", TString); ("InnerRpc", TBytes)]
    [GStr (GetConnID (conn s)); GBytes pid; GStr (Namespace (w_cfg wp)); GBytes msg]
    [GStr (GetConnID (conn s)); GBytes pid; GStr (Namespace (w_cfg wp)); GBytes msg] →
  go_len (RpcEncode MSG_G2C_PUSH [GBytes pid; GStr (Namespace (w_cfg wp)); GBytes msg]) ≤ MAX_PACKET_SIZE →
  (RpcGateLogin_Process cid session (rsp, wg)).1 = Ok () ∧
  myRedis2 (w_app (RpcGateLogin_Process cid session (rsp, wg)).2.2) = Some r1 ∧
  PushToGate cid typ msg pid wp =
    (Ok (), set_net (w_net wp ++ [(c_conn gcl, frame (push_rpc (GetConnID (conn s)) pid wp msg))]) wp) ∧
  run_task (task_of session' (push_rpc (GetConnID (conn s)) pid wp msg)) wg' =
    (Ok (), set_net (w_net wg' ++ [(conn s, frame (RpcEncode MSG_G2C_PUSH
       [GBytes pid; GStr (Namespace (w_cfg wp)); GBytes msg]))]) wg').
Proof.
  intros Hs Hlk Hpk Hr Hset Hl1 Hl2 Hpr Hga Hp Hgcl Hgb Hfit1 Hreg Hq Hcl Hcn Hcb Hargs Hfit2.
  assert (RpcGateLogin_Process cid session (rsp, wg)
    = (Ok (), ([GBool true], set_app (mkGateApp (gClientAccess (w_app wg)) (Some r1)) wg))) as ->.
  { unfold RpcGateLogin_Process, set_Success. mrun. rewrite Hlk. mrun.
    unfold deref_session. rewrite Hs. cbn. unfold redis_command. by rewrite Hr, Hset. }
  do 2 (split; [done|]). split.
  - apply (PushToGate_ok cid typ key msg pid (listenAddr (w_tcp wg))); [done| |done]. split.
    + exists r1. split; [done|]. by rewrite (redis_set_ok _ _ _ _ Hset), decide_True.
    + done.
    + done.
    + by exists id, p, gcl.
    + done.
  - unfold push_rpc. rewrite (gate_push_ok _ _ _ _ _ q cl) by (done || by rewrite Hcn). by rewrite Hcn.
Qed.

End EndToEnd.

(** ** Witnesses *)
Module PushDemo.
Import GateDemo.

#[local] Existing Instance ref_msgpack.

(** A collection as a finite map; a new id is a counter in twelve bytes. *)
Definition fresh_pid (m : gmap bytes PushRecord) : bytes :=
  be_encode 12 (Z.of_nat (size m)).

Definition demo_insert (d : gmap bytes PushRecord) (r : PushRecord) : option bytes * gmap bytes PushRecord :=
  match d !! fresh_pid d with
  | None => (Some (fresh_pid d), <[fresh_pid d := r]> d)
  | Some _ => (None, d)
  end.

#[export, refine] Instance map_mongo : Mongo (gmap bytes PushRecord) := {|
  records d := d;
  insert_one := demo_insert;
  update_state d pid st :=
    (true, alter (λ r, mkPushRecord (d_clientID r) (d_type r) (d_pushMsg r) st) pid d);
  find_state d cid st := Some (map_to_list (filter (λ x, d_clientID x.2 = cid ∧ d_state x.2 = st) d));
|}.
Proof.
  - intros d r pid d'. unfold demo_insert. destruct (d !! fresh_pid d) eqn:E; [discriminate 1|].
    intros [= <- <-]. split; [apply be_encode_length|done].
  - by intros d pid st d' [= <-].
  - by intros d cid st docs [= <-].
Defined.

Abbreviation PW := (World PushHandler (PushApp (gmap string string) (gmap bytes PushRecord))).

Definition demo_gate_conn : Conn := mkConn 7 "10.0.0.9:41000".

Definition demo_record : PushRecord := mkPushRecord "joe" "client" [1; 2] PUSH_RECORD_STATE_UNARRIVE.

(** The push service with the gate of [GateDemo] connected, [joe] logged in there
    and one unconfirmed push to him. *)
Definition demo_push : PW :=
  let w := init_world (mkGlobalConfig "ns" "PushService") SERVER_IDENTITY_SERVICE "10.0.0.3:9000"
             (mkSimpleRpcMgr ∅ ∅ true)
             (mkPushApp {["10.0.0.9:5000" := "10.0.0.9:41000"]} (Some {["c_joe" := "10.0.0.9:5000/1.2.3.4:5"]})
                (Some {[be_encode 12 0 := demo_record]})) in
  set_tcp (mkTcpServer {["10.0.0.9:41000" := 1%positive]} false (bal_add bal_new "10.0.0.9:41000").2 "10.0.0.3:9000")
    (set_clients {[1%positive := mkTcpClient demo_gate_conn [] 0 0 TcpClientState_OK]} w).

Lemma demo_logged_in : logged_in demo_push "c_joe" "10.0.0.9:5000" "1.2.3.4:5" demo_gate_conn.
Proof.
  split; [|reflexivity|reflexivity| |apply not_elem_of_empty].
  - eexists. split; reflexivity.
  - eexists _, _, _. split_and!; reflexivity.
Qed.

Lemma safe_push_until_reply_witness :
  let req := mkS2PPushReq "joe" "client" true [3] in
  let r := mkPushRecord "joe" "client" [3] PUSH_RECORD_STATE_UNARRIVE in
  ∃ d1 d2 pid, insert_one {[be_encode 12 0 := demo_record]} r = (Some pid, d1) ∧
    update_state d1 pid PUSH_RECORD_STATE_ARRIVED = (true, d2) ∧
    ∀ cid, unarrived cid d2 = unarrived cid {[be_encode 12 0 := demo_record]}.
Proof.
  intros req r. set (d := {[be_encode 12 0 := demo_record]} : gmap bytes PushRecord).
  set (d1 := <[be_encode 12 1 := r]> d).
  exists d1, (update_state d1 (be_encode 12 1) PUSH_RECORD_STATE_ARRIVED).2, (be_encode 12 1).
  split; [reflexivity|]. split; [reflexivity|].
  apply (safe_push_until_reply req d d1 _ (be_encode 12 1) demo_push); reflexivity.
Defined.

Lemma restore_exact_witness :
  ∃ sent w', RpcPushRestore_Process "joe" demo_push = (Ok (), w') ∧ w_net w' = w_net demo_push ++ sent ∧
    length sent = 1%nat.
Proof.
  set (d := {[be_encode 12 0 := demo_record]} : gmap bytes PushRecord).
  destruct (restore_exact "joe" d (map_to_list (unarrived "joe" d)) "c_joe" "10.0.0.9:5000" "1.2.3.4:5" demo_gate_conn
    demo_push) as (sent & w' & H1 & H2 & H3).
  - reflexivity.
  - reflexivity.
  - apply demo_logged_in.
  - intros pid r [Hr _]%map_lookup_filter_Some. change (d !! pid = Some r) in Hr.
    apply lookup_singleton_Some in Hr as [<- <-].
    split; [reflexivity|vm_compute; discriminate].
  - exists sent, w'. split; [exact H1|]. split; [exact H2|]. rewrite H3. reflexivity.
Defined.

Lemma push_end_to_end_witness :
  run_task (task_of 1 (push_rpc "1.2.3.4:5" [] demo_push [3])) (demo_world TcpClientState_OK)
  = (Ok (), set_net [(demo_client, frame (RpcEncode MSG_G2C_PUSH [GBytes []; GStr "ns"; GBytes [3]]))]
              (demo_world TcpClientState_OK)).
Proof.
  apply (push_end_to_end (R := gmap string string) (D := gmap bytes PushRecord)
    (demo_world TcpClientState_OK) (demo_world TcpClientState_OK) demo_push 1 1 demo_session "joe" "client" "c_joe"
    ∅ {["c_joe" := "10.0.0.9:5000/1.2.3.4:5"]} "10.0.0.9:41000" 1 1
    (mkTcpClient demo_gate_conn [] 0 0 TcpClientState_OK) (mkTcpClient demo_client [] 0 0 TcpClientState_OK) [] [3] []).
  all: try reflexivity.
  - apply not_elem_of_empty.
  - vm_compute. discriminate.
  - apply not_elem_of_empty.
  - repeat constructor.
  - vm_compute. discriminate.
Defined.

End PushDemo.
