(* ===== verification/ClientSdk.v ===== *)
(** * The client sdk ([src/clientsdk/gate_proxy.go])

    A client program connects to a gate through a [GateProxy] and calls services
    through [ServiceProxy]s.  It runs the same rpc table, task pool and callback
    manager as a service; the sdk replaces the handler of responses and adds the
    one of pushes, which looks up and runs the handler a push names.  The handlers
    of the client program itself are the interface [ClientProgram]. *)

From S2P Require Import Prelude Utils Wire Msgpack LoadBalancer CallbackMgr RemoteMgr World SimpleRpc TcpServer Gate.
From S2P Require Import System.

Local Open Scope Z_scope.

(** The handlers the sdk registers, and those of the client program, [U]. *)
Inductive SdkHandler (U : Type) :=
  | SdkRpcRspHandler
  | SdkPushHandler
  | User (u : U).
Arguments SdkRpcRspHandler {U}.
Arguments SdkPushHandler {U}.
Arguments User {U} u.

Class ClientProgram (U A : Type) `{HandlerSig U} :=
  user_process : U → positive → list goval → M (list goval * World (SdkHandler U) A) ().

#[export] Instance sdk_sig {U} {US : HandlerSig U} : HandlerSig (SdkHandler U) := {|
  busi_req h :=
    match h with
    | SdkRpcRspHandler => Some [("Rid", TUint32); ("Error", TString); ("Reply", TMapAny)]
    | SdkPushHandler => Some [("Pid", TBytes); ("Namespace", TString); ("InnerRpc", TBytes)]
    | User u => busi_req u
    end;
  busi_rsp h := match h with User u => busi_rsp u | _ => None end;
  busi_access h := match h with User u => busi_access u | _ => false end;
|}.

(** An argument of a call: a value, or a [CallBack], possibly nil. *)
Inductive callarg := AVal (v : goval) | ACallBack (cb : option positive).

Record GateProxy := mkGateProxy { g_ip : string; g_port : Z; g_conn : Conn; g_recvBuf : bytes; g_remainLen : Z }.
Record ServiceProxy := mkServiceProxy { Gp : GateProxy; sp_Namespace : string; sp_ServiceName : string }.
Record RpcG2CPushReq := mkG2CPushReq { n_Pid : bytes; n_Namespace : string; n_InnerRpc : bytes }.

(** The last argument when it is a [CallBack], and the arguments to send. *)
Definition split_callback (args : list callarg) : option (option positive) * list callarg :=
  match last args with
  | Some (ACallBack cb) => (Some cb, removelast args)
  | _ => (None, args)
  end.

(** What [RpcEncode] writes: a function cannot be encoded and is left out. *)
Definition encodable (args : list callarg) : list goval :=
  omap (λ a, match a with AVal v => Some v | ACallBack _ => None end) args.

Section ClientSdk.
  Context {MP : Msgpack} {U A : Type} {US : HandlerSig U} {CP : ClientProgram U A}.
  Context (RECV_BUF_MAX_LEN : Z).

Abbreviation W := (World (SdkHandler U) A).
Implicit Types w : W.

(** ** The gate proxy *)

Definition GateProxy_RpcCall (g : GateProxy) (rpcName : string) (args : list goval) : M W () :=
  _ ← send_rpc (Some (g_conn g)) rpcName args; mret ().

Definition Login (g : GateProxy) (clientID namespace : string) : M W () :=
  _ ← GateProxy_RpcCall g MSG_GATE_LOGIN [GStr clientID];
  let innerRpc := RpcEncode MSG_PUSH_RESTORE [GStr clientID] in
  _ ← send_rpc (Some (g_conn g)) MSG_C2G_RPC_ROUTE
        [GStr namespace; GStr "PushService"; GInt 0; GBool false; GBytes innerRpc];
  mret ().

Definition Logoff (g : GateProxy) (clientID : string) : M W () :=
  GateProxy_RpcCall g MSG_GATE_LOGOFF [GStr clientID].

Definition Turn2Session (g : GateProxy) : M W positive := CreateSession SessionRemote (g_conn g).

(** [net.Dial] gave [dialled]; the proxy is nil if it failed. *)
Definition CreateGateProxy (ip : string) (port : Z) (dialled : option Conn) : M W (option GateProxy) :=
  match dialled with
  | None => mret None
  | Some conn =>
      let g := mkGateProxy ip port conn (replicate (Z.to_nat RECV_BUF_MAX_LEN) 0) 0 in
      _ ← GateProxy_RpcCall g MSG_C2G_VERTIFY [GStr VERTIFY_SECRET_KEY];
      mret (Some g)
  end.

(** ** The service proxy *)

Definition CreateServiceProxy (g : GateProxy) (namespace serviceName : string) : ServiceProxy :=
  mkServiceProxy g namespace serviceName.

Definition timeout_error (sp : ServiceProxy) (rpcName : string) : string :=
  "rpc call " +:+ sp_Namespace sp +:+ ":" +:+ sp_ServiceName sp +:+ ":" +:+ rpcName +:+ " time out".

(** [_rpcCall]: a callback at the end of the arguments waits for the response
    under a new identifier. *)
Definition rpcCall (sp : ServiceProxy) (ordered : bool) (rpcName : string) (args : list callarg) : M W () :=
  let '(lastArg, args) := split_callback args in
  rid ← match lastArg with
        | Some (Some cb) =>
            rid ← NewGid;
            _ ← AddCb rid (CbFunc cb) 100 (Some (TimeoutFunc cb (timeout_error sp rpcName)));
            mret rid
        | _ => mret 0
        end;
  let innerRpc := RpcEncode rpcName (encodable args) in
  GateProxy_RpcCall (Gp sp) MSG_C2G_RPC_ROUTE
    [GStr (sp_Namespace sp); GStr (sp_ServiceName sp); GUint32 rid; GBool ordered; GBytes innerRpc].

Definition ServiceProxy_RpcCall (sp : ServiceProxy) (rpcName : string) (args : list callarg) : M W () :=
  rpcCall sp false rpcName args.

Definition RpcCallOrdered (sp : ServiceProxy) (rpcName : string) (args : list callarg) : M W () :=
  rpcCall sp true rpcName args.

(** ** The handlers *)

(** A response: the callback registered under its identifier is called. *)
Definition SdkRpcRsp_Process (req : RpcG2CRpcRspReq) : M W () :=
  cbs ← GetCb (Rid req);
  match cbs with
  | None => mret ()
  | Some (CbFunc cb) => deliver_cb (FuncCalled cb (Error req) (Reply req))
  | Some _ => throw TypeAssertion
  end.

(** [handler.Process(session)] on a fresh handler. *)
Definition run_nested (proc : Dispatcher (SdkHandler U) A) (h : RpcHandler (SdkHandler U)) (session : positive)
    (args : list goval) : M W () := λ w,
  let '(r, (_, w)) := proc h session args (zero_rsp h, w) in (r, w).

(** The confirmation of a safe push, to the push service of its namespace. *)
Definition confirm_push (req : RpcG2CPushReq) (session : positive) : M W () :=
  if bool_decide (n_Pid req = []) then mret ()
  else
    let innerRpc := RpcEncode MSG_PUSH_REPLY [GBytes (n_Pid req)] in
    msg ← lift_result (MessageEncode (RpcEncode MSG_C2G_RPC_ROUTE
             [GStr (n_Namespace req); GStr "PushService"; GInt 0; GBool false; GBytes innerRpc]));
    s ← deref_session session;
    _ ← MessageSend (Some (conn s)) msg;
    mret ().

Definition SdkPush_Process (proc : Dispatcher (SdkHandler U) A) (req : RpcG2CPushReq) (session : positive) : M W () :=
  let '(rpcName, rest) := decode_name (n_InnerRpc req) in
  handlerGen ← gets (GetRpcHanderGenerator rpcName);
  match handlerGen with
  | None => mret ()
  | Some handler =>
      match decode_req handler rest with
      | inl _ => mret ()
      | inr args =>
          _ ← run_nested proc handler session args;
          confirm_push req session
      end
  end.

Definition sdk_process (proc : Dispatcher (SdkHandler U) A) (h : SdkHandler U) (session : positive)
    (args : list goval) : M (list goval * W) () :=
  match h, args with
  | SdkRpcRspHandler, [GUint32 rid; GStr error; reply] =>
      liftW (SdkRpcRsp_Process (mkRpcG2CRpcRspReq rid error reply))
  | SdkPushHandler, [GBytes pid; GStr ns; GBytes inner] =>
      liftW (SdkPush_Process proc (mkG2CPushReq pid ns inner) session)
  | User u, _ => user_process u session args
  | _, _ => throw TypeAssertion
  end.

#[export] Instance client_sdk : Business (SdkHandler U) A := {|
  busi_process := sdk_process;
  busi_accept _ := mret ();
|}.

(** The sdk's handlers change the framework's state only through its calls, if
    those of the client program do. *)
Lemma sdk_program :
  (∀ (P : W → Prop) `{!Framed P} u session args, preserves (beside P) (user_process u session args)) →
  Program (SdkHandler U) A.
Proof.
  intros Hu. split; [|intros P FP p; cbn; auto with preserves].
  intros P FP proc h session args Hp.
  assert (∀ h args, preserves P (run_nested proc h session args)) as Hn.
  { intros h' args' w Hw. specialize (Hp h' args' (zero_rsp h', w) Hw). unfold run_nested.
    by destruct (proc h' session args' (zero_rsp h', w)) as [r [rsp w']]. }
  destruct h; cbn [busi_process client_sdk sdk_process]; repeat case_match; auto with preserves;
    unfold SdkRpcRsp_Process, SdkPush_Process, confirm_push; keep_program.
Qed.

(** [init]: the table of a client program, before its own registrations. *)
Definition sdk_init : result (SimpleRpcMgr (SdkHandler U)) :=
  rmgr ← CreateSimpleRpcMgr;
  rmgr ← RegistRpcHandlerForce MSG_G2C_RPC_RSP (Busi SdkRpcRspHandler) rmgr;
  RegistRpcHandlerForce MSG_G2C_PUSH (Busi SdkPushHandler) rmgr.

(** ** The read loop *)

Definition with_gbuf (buf : bytes) (rem : Z) (g : GateProxy) : GateProxy :=
  mkGateProxy (g_ip g) (g_port g) (g_conn g) buf rem.

(** One iteration of [HandleRead], which owns the buffer; [None] is an error of
    [Read] other than the end of the stream, no data the end of it.  The result
    is whether the loop goes on. *)
Definition GateProxy_HandleRead_iter (g : GateProxy) (ev : option bytes) : M W (bool * GateProxy) :=
  match ev with
  | None => mret (false, g)
  | Some data =>
      buf ← lift_result (recv_into (g_recvBuf g) (g_remainLen g) data);
      if go_len data =? 0 then mret (false, g)
      else
        let rem := u32 (g_remainLen g + go_len data) in
        if negb (RECV_BUF_MAX_LEN / 2 <? rem) && (RECV_BUF_MAX_LEN <? rem) then mret (false, with_gbuf buf rem g)
        else
          session ← Turn2Session g;
          '(buf, rem) ← decode_buffer session buf rem;
          mret (true, with_gbuf buf rem g)
  end.

(** The loop, with the deferred close. *)
Fixpoint GateProxy_HandleRead (g : GateProxy) (evs : list (option bytes)) : M W GateProxy :=
  match evs with
  | [] => mret g
  | ev :: evs =>
      '(continue, g) ← GateProxy_HandleRead_iter g ev;
      if continue : bool then GateProxy_HandleRead g evs
      else _ ← modify (λ w, set_broken ({[conn_fd (g_conn g)]} ∪ w_broken w) w); mret g
  end.

(** ** Calls *)

Lemma split_callback_snoc args cb : split_callback (args ++ [ACallBack cb]) = (Some cb, args).
Proof. unfold split_callback. by rewrite last_snoc, removelast_last. Qed.

Lemma encodable_vals vals : encodable (AVal <$> vals) = vals.
Proof. induction vals as [|v vals IH]; cbn; [done|]. unfold encodable in IH. by rewrite IH. Qed.

Lemma GateProxy_RpcCall_ok g rpcName args w :
  fits rpcName args → conn_fd (g_conn g) ∉ w_broken w →
  GateProxy_RpcCall g rpcName args w = (Ok (), set_net (w_net w ++ [(g_conn g, frame (RpcEncode rpcName args))]) w).
Proof.
  intros Hf Hup. unfold GateProxy_RpcCall.
  by rewrite (M_bind_ok _ _ _ _ _ (send_rpc_ok (g_conn g) rpcName args w Hf Hup)).
Qed.

(** The restore request that follows a login. *)
Definition restore_rpc (clientID namespace : string) : list goval :=
  [GStr namespace; GStr "PushService"; GInt 0; GBool false; GBytes (RpcEncode MSG_PUSH_RESTORE [GStr clientID])].

Lemma Login_ok g clientID namespace w :
  fits MSG_GATE_LOGIN [GStr clientID] → fits MSG_C2G_RPC_ROUTE (restore_rpc clientID namespace) →
  conn_fd (g_conn g) ∉ w_broken w →
  Login g clientID namespace w =
    (Ok (), set_net (w_net w ++
      [(g_conn g, frame (RpcEncode MSG_GATE_LOGIN [GStr clientID]));
       (g_conn g, frame (RpcEncode MSG_C2G_RPC_ROUTE (restore_rpc clientID namespace)))]) w).
Proof.
  intros Hf1 Hf2 Hup. unfold Login. rewrite (M_bind_ok _ _ _ _ _ (GateProxy_RpcCall_ok g _ _ w Hf1 Hup)).
  set (w1 := set_net _ w). etransitivity; [exact (GateProxy_RpcCall_ok g _ _ w1 Hf2 Hup)|].
  unfold w1. cbn [w_net set_net]. by rewrite <- app_assoc.
Qed.

(** The route request of a call. *)
Definition call_rpc (sp : ServiceProxy) (ordered : bool) (rpcName : string) (vals : list goval) (rid : Z)
    : list goval :=
  [GStr (sp_Namespace sp); GStr (sp_ServiceName sp); GUint32 rid; GBool ordered; GBytes (RpcEncode rpcName vals)].

(** A call with a callback. *)
Lemma rpcCall_callback sp ordered rpcName vals cb w :
  let rid := u32 (w_gid w + 1) in
  cb_ok w → fits MSG_C2G_RPC_ROUTE (call_rpc sp ordered rpcName vals rid) →
  conn_fd (g_conn (Gp sp)) ∉ w_broken w →
  ∃ w' p, rpcCall sp ordered rpcName ((AVal <$> vals) ++ [ACallBack (Some cb)]) w = (Ok (), w') ∧
    w_net w' = w_net w ++
      [(g_conn (Gp sp), frame (RpcEncode MSG_C2G_RPC_ROUTE (call_rpc sp ordered rpcName vals rid)))] ∧
    cb_ok w' ∧ gCbMap (w_cb w') = <[rid := (CbFunc cb, p)]> (gCbMap (w_cb w)) ∧
    w_rpc w' = w_rpc w ∧ w_pool w' = w_pool w ∧ w_chans w' = w_chans w ∧ w_broken w' = w_broken w ∧
    w_sessions w' = w_sessions w ∧ w_gid w' = rid.
Proof.
  intros rid Hcb Hfit Hbr. unfold rpcCall. rewrite split_callback_snoc, encodable_vals.
  set (w1 := set_gid rid w).
  destruct (AddCb_ok rid (CbFunc cb) 100 (Some (TimeoutFunc cb (timeout_error sp rpcName))) w1 Hcb)
    as (c & p & Ea & Hcb' & Hm).
  rewrite (M_bind_ok _ _ _ rid (set_cb c w1)).
  2: { rewrite (M_bind_ok _ _ _ rid w1) by done. by rewrite (M_bind_ok _ _ _ _ _ Ea). }
  eexists _, p. split; [exact (GateProxy_RpcCall_ok (Gp sp) _ _ (set_cb c w1) Hfit Hbr)|]. by split_and!.
Qed.

(** A call without one. *)
Lemma rpcCall_plain sp ordered rpcName args vals w :
  (args = AVal <$> vals ∨ args = (AVal <$> vals) ++ [ACallBack None]) →
  fits MSG_C2G_RPC_ROUTE (call_rpc sp ordered rpcName vals 0) → conn_fd (g_conn (Gp sp)) ∉ w_broken w →
  rpcCall sp ordered rpcName args w =
    (Ok (), set_net (w_net w ++ [(g_conn (Gp sp), frame (RpcEncode MSG_C2G_RPC_ROUTE
                                   (call_rpc sp ordered rpcName vals 0)))]) w).
Proof.
  intros Hargs Hfit Hbr.
  assert (∃ l, split_callback args = (l, AVal <$> vals) ∧ (l = None ∨ l = Some None)) as (l & El & Hl).
  { destruct Hargs as [->| ->]; [|rewrite split_callback_snoc; eauto].
    exists None. split; [|by left]. unfold split_callback. rewrite fmap_last.
    by destruct (last vals). }
  unfold rpcCall. rewrite El, encodable_vals.
  rewrite (M_bind_ok _ _ _ 0 w) by (by destruct Hl as [->| ->]).
  exact (GateProxy_RpcCall_ok (Gp sp) _ _ w Hfit Hbr).
Qed.

(** ** Responses *)

Lemma response_called req cb p w :
  cb_ok w → gCbMap (w_cb w) !! Rid req = Some (CbFunc cb, p) →
  ∃ w', SdkRpcRsp_Process req w = (Ok (), w') ∧ cb_ok w' ∧
    w_chans w' = w_chans w ++ [FuncCalled cb (Error req) (Reply req)] ∧
    gCbMap (w_cb w') = delete (Rid req) (gCbMap (w_cb w)) ∧ w_rpc w' = w_rpc w.
Proof.
  intros Hcb Hm. unfold SdkRpcRsp_Process. destruct (GetCb_ok (Rid req) w Hcb) as (c & Eg & Hcb' & Hm').
  rewrite Hm in Eg. rewrite (M_bind_ok _ _ _ _ _ Eg). eexists. split; [done|]. by split_and!.
Qed.

Lemma response_late req w :
  cb_ok w → gCbMap (w_cb w) !! Rid req = None →
  ∃ w', SdkRpcRsp_Process req w = (Ok (), w') ∧ w_chans w' = w_chans w.
Proof.
  intros Hcb Hm. unfold SdkRpcRsp_Process. destruct (GetCb_ok (Rid req) w Hcb) as (c & Eg & _).
  rewrite Hm in Eg. rewrite (M_bind_ok _ _ _ _ _ Eg). by eexists.
Qed.

Definition rsp_fields : list (string * gotype) := [("Rid", TUint32); ("Error", TString); ("Reply", TMapAny)].

Lemma run_response session rid error reply v w :
  rpcs (w_rpc w) !! MSG_G2C_RPC_RSP = Some (Busi SdkRpcRspHandler) →
  args_fit rsp_fields [GUint32 rid; GStr error; v] [GUint32 rid; GStr error; reply] →
  run_task (task_of session (RpcEncode MSG_G2C_RPC_RSP [GUint32 rid; GStr error; v])) w
  = SdkRpcRsp_Process (mkRpcG2CRpcRspReq rid error reply) w.
Proof.
  intros Hr Hfit.
  destruct (run_task_enc session MSG_G2C_RPC_RSP [GUint32 rid; GStr error; v] w (Busi SdkRpcRspHandler)
    rsp_fields [GUint32 rid; GStr error; reply]) as [fuel ->]; [done..|].
  unfold run_handler. cbn [Process busi_process client_sdk sdk_process liftW].
  by destruct (SdkRpcRsp_Process _ w).
Qed.

(** C23 Callbacks of a client.  A call with a callback sends exactly one route
    request, under a new identifier; the first response that carries this
    identifier calls the callback, once, with its error and reply, and any
    further one calls nothing.  A call with a nil callback or none sends the
    same request under identifier 0 and registers nothing. *)
Theorem client_call_response (sp : ServiceProxy) (ordered : bool) (rpcName : string) (vals : list goval)
    (cb : positive) w :
  let rid := u32 (w_gid w + 1) in
  cb_ok w → conn_fd (g_conn (Gp sp)) ∉ w_broken w →
  rpcs (w_rpc w) !! MSG_G2C_RPC_RSP = Some (Busi SdkRpcRspHandler) →
  (∀ rid, fits MSG_C2G_RPC_ROUTE (call_rpc sp ordered rpcName vals rid)) →
  (∃ w1, rpcCall sp ordered rpcName ((AVal <$> vals) ++ [ACallBack (Some cb)]) w = (Ok (), w1) ∧
    w_net w1 = w_net w ++
      [(g_conn (Gp sp), frame (RpcEncode MSG_C2G_RPC_ROUTE (call_rpc sp ordered rpcName vals rid)))] ∧
    ∀ session error v reply, args_fit rsp_fields [GUint32 rid; GStr error; v] [GUint32 rid; GStr error; reply] →
      let t := task_of session (RpcEncode MSG_G2C_RPC_RSP [GUint32 rid; GStr error; v]) in
      ∃ w2, run_task t w1 = (Ok (), w2) ∧ w_chans w2 = w_chans w ++ [FuncCalled cb error reply] ∧
        ∃ w3, run_task t w2 = (Ok (), w3) ∧ w_chans w3 = w_chans w2) ∧
  ∀ args, args = AVal <$> vals ∨ args = (AVal <$> vals) ++ [ACallBack None] →
    rpcCall sp ordered rpcName args w =
      (Ok (), set_net (w_net w ++ [(g_conn (Gp sp), frame (RpcEncode MSG_C2G_RPC_ROUTE
                                     (call_rpc sp ordered rpcName vals 0)))]) w).
Proof.
  intros rid Hcb Hbr Hr Hfit. split; [|intros args Hargs; by apply rpcCall_plain].
  destruct (rpcCall_callback sp ordered rpcName vals cb w Hcb (Hfit _) Hbr)
    as (w1 & p & E1 & Hn1 & Hcb1 & Hm1 & Hr1 & _ & Hc1 & _).
  exists w1. do 2 (split; [done|]). intros session error v reply Ha t.
  assert (run_task t w1 = SdkRpcRsp_Process (mkRpcG2CRpcRspReq rid error reply) w1) as ->
    by (apply run_response; [by rewrite Hr1|done]).
  destruct (response_called (mkRpcG2CRpcRspReq rid error reply) cb p w1) as (w2 & E2 & Hcb2 & Hc2 & Hm2 & Hr2);
    [done|by rewrite Hm1; apply lookup_insert_eq|].
  exists w2. split; [done|]. split; [by rewrite Hc2, Hc1|].
  assert (run_task t w2 = SdkRpcRsp_Process (mkRpcG2CRpcRspReq rid error reply) w2) as ->
    by (apply run_response; [by rewrite Hr2, Hr1|done]).
  apply response_late; [done|]. rewrite Hm2. apply lookup_delete_eq.
Qed.

(** ** Pushes *)

Definition push_fields : list (string * gotype) := [("Pid", TBytes); ("Namespace", TString); ("InnerRpc", TBytes)].

(** The request a confirmation is. *)
Definition confirmation (pid : bytes) (ns : string) : list goval :=
  [GStr ns; GStr "PushService"; GInt 0; GBool false; GBytes (RpcEncode MSG_PUSH_REPLY [GBytes pid])].

Lemma confirm_push_ok req session s w :
  w_sessions w !! session = Some s → conn_fd (conn s) ∉ w_broken w →
  fits MSG_C2G_RPC_ROUTE (confirmation (n_Pid req) (n_Namespace req)) →
  confirm_push req session w =
    (Ok (), if decide (n_Pid req = []) then w
            else set_net (w_net w ++ [(conn s, frame (RpcEncode MSG_C2G_RPC_ROUTE
                                         (confirmation (n_Pid req) (n_Namespace req))))]) w).
Proof.
  intros Hs Hb Hf. unfold confirm_push. destruct (decide (n_Pid req = [])) as [E|E].
  - by rewrite bool_decide_eq_true_2.
  - rewrite bool_decide_eq_false_2 by done. fold (confirmation (n_Pid req) (n_Namespace req)).
    rewrite (M_bind_ok _ _ _ _ _ (f_equal (λ r, (r, w)) (MessageEncode_spec _ Hf))).
    rewrite (M_bind_ok _ _ _ _ _ (deref_session_ok session s w Hs)).
    by rewrite (M_bind_ok _ _ _ _ _ (MessageSend_ok (conn s) (frame _) w ltac:(done) Hb)).
Qed.

Lemma run_push session pid ns inner w :
  rpcs (w_rpc w) !! MSG_G2C_PUSH = Some (Busi SdkPushHandler) →
  args_fit push_fields [GBytes pid; GStr ns; GBytes inner] [GBytes pid; GStr ns; GBytes inner] →
  ∃ fuel, run_task (task_of session (RpcEncode MSG_G2C_PUSH [GBytes pid; GStr ns; GBytes inner])) w
  = SdkPush_Process (Process fuel) (mkG2CPushReq pid ns inner) session w.
Proof.
  intros Hr Hfit.
  destruct (run_task_enc session MSG_G2C_PUSH [GBytes pid; GStr ns; GBytes inner] w (Busi SdkPushHandler)
    push_fields [GBytes pid; GStr ns; GBytes inner]) as [fuel ->]; [done..|].
  exists fuel. unfold run_handler. cbn [Process busi_process client_sdk sdk_process liftW].
  by destruct (SdkPush_Process _ _ _ w).
Qed.

Lemma push_accepted session pid ns name args vals fields u rsp w w1 s :
  let inner := RpcEncode name args in
  rpcs (w_rpc w) !! MSG_G2C_PUSH = Some (Busi SdkPushHandler) →
  args_fit push_fields [GBytes pid; GStr ns; GBytes inner] [GBytes pid; GStr ns; GBytes inner] →
  fits MSG_C2G_RPC_ROUTE (confirmation pid ns) →
  short_string name = true → args_fit fields args vals →
  rpcs (w_rpc w) !! name = Some (Busi (User u)) → busi_req u = Some fields →
  user_process u session vals (zero_rsp (Busi (User u)), w) = (Ok (), (rsp, w1)) →
  w_sessions w1 !! session = Some s → conn_fd (conn s) ∉ w_broken w1 →
  run_task (task_of session (RpcEncode MSG_G2C_PUSH [GBytes pid; GStr ns; GBytes inner])) w =
    (Ok (), if decide (pid = []) then w1
      else set_net (w_net w1 ++ [(conn s, frame (RpcEncode MSG_C2G_RPC_ROUTE (confirmation pid ns)))]) w1).
Proof.
  intros inner Hr Hfit Hc Hn Ha Hu Hf Hp Hs Hb. destruct (run_push session pid ns inner w Hr Hfit) as [fuel ->].
  unfold SdkPush_Process. cbn [n_InnerRpc].
  destruct (RpcEncode_decode name fields args vals Hn Ha) as (rest & Hd & Hfs). unfold inner at 1. rewrite Hd.
  rewrite (M_bind_ok _ _ _ (Some (Busi (User u))) w) by (unfold gets, GetRpcHanderGenerator; by rewrite Hu).
  unfold decode_req, GetReqPtr. cbn [busi_req sdk_sig]. rewrite Hf, Hfs.
  rewrite (M_bind_ok _ _ _ () w1).
  - by rewrite (confirm_push_ok (mkG2CPushReq pid ns _) session s w1).
  - unfold run_nested. destruct fuel; cbn [Process busi_process client_sdk sdk_process]; by rewrite Hp.
Qed.

(** Pushes are run, then confirmed.  A push runs the client's own handler of
    the rpc it names, with exactly its arguments, and only after the handler
    returned confirms a safe push, by one request to the push service of the
    namespace the push came from; an unsafe push is not confirmed.  A push that
    names an unknown rpc or whose arguments do not decode changes nothing and is
    not confirmed, so that it will be restored again. *)
Theorem push_runs_then_confirms (session : positive) (pid inner : bytes) (ns : string) w :
  rpcs (w_rpc w) !! MSG_G2C_PUSH = Some (Busi SdkPushHandler) →
  args_fit push_fields [GBytes pid; GStr ns; GBytes inner] [GBytes pid; GStr ns; GBytes inner] →
  fits MSG_C2G_RPC_ROUTE (confirmation pid ns) →
  let t := task_of session (RpcEncode MSG_G2C_PUSH [GBytes pid; GStr ns; GBytes inner]) in
  (∀ name fields args vals u rsp w1 s,
    inner = RpcEncode name args → short_string name = true → args_fit fields args vals →
    rpcs (w_rpc w) !! name = Some (Busi (User u)) → busi_req u = Some fields →
    user_process u session vals (zero_rsp (Busi (User u)), w) = (Ok (), (rsp, w1)) →
    w_sessions w1 !! session = Some s → conn_fd (conn s) ∉ w_broken w1 →
    run_task t w = (Ok (), if decide (pid = []) then w1
      else set_net (w_net w1 ++ [(conn s, frame (RpcEncode MSG_C2G_RPC_ROUTE (confirmation pid ns)))]) w1)) ∧
  (rpcs (w_rpc w) !! inner_name inner = None → run_task t w = (Ok (), w)) ∧
  (∀ h e, rpcs (w_rpc w) !! inner_name inner = Some h → decode_req h (decode_name inner).2 = inl e →
    run_task t w = (Ok (), w)).
Proof.
  intros Hr Hfit Hc t. split.
  { intros name fields args vals u rsp w1 s -> Hn Ha Hu Hf Hp Hs Hb. by eapply push_accepted. }
  destruct (run_push session pid ns inner w Hr Hfit) as [fuel E].
  fold t in E. rewrite E. unfold SdkPush_Process, inner_name. cbn [n_InnerRpc]. split.
  - destruct (decode_name inner) as [name rest]. cbn [fst snd]. intros Hnone.
    rewrite (M_bind_ok _ _ _ None w) by (unfold gets, GetRpcHanderGenerator; by rewrite Hnone). done.
  - destruct (decode_name inner) as [name rest]. cbn [fst snd]. intros h e Hh Hd.
    rewrite (M_bind_ok _ _ _ (Some h) w) by (unfold gets, GetRpcHanderGenerator; by rewrite Hh).
    by rewrite Hd.
Qed.

(** ** Reading *)

(** The proxy's read loop between two frames. *)
Definition idle_proxy (g : GateProxy) : Prop := g_remainLen g = 0 ∧ go_len (g_recvBuf g) = RECV_BUF_MAX_LEN.

Lemma proxy_read_frame g payload w :
  RECV_BUF_MAX_LEN < 2 ^ 32 → idle_proxy g → Forall is_byte payload →
  go_len payload ≤ MAX_PACKET_SIZE → go_len (frame payload) ≤ RECV_BUF_MAX_LEN →
  let session := fresh (dom (w_sessions w)) in
  ¬ runs_at_once (t_name (task_of session payload)) →
  ∃ g', g_conn g' = g_conn g ∧ idle_proxy g' ∧
    GateProxy_HandleRead_iter g (Some (frame payload)) w =
      (Ok (true, g'), set_pool (enqueue (task_of session payload) (w_pool w))
        (set_sessions (<[session := mkSession SessionRemote (g_conn g) EmptyString]> (w_sessions w)) w)).
Proof.
  intros Hmax [Hrem Hcap] Hb Hpk Hfit session Hrun. unfold GateProxy_HandleRead_iter.
  set (w1 := set_sessions (<[session := mkSession SessionRemote (g_conn g) EmptyString]> (w_sessions w)) w).
  pose proof (recv_into_spec [] (g_recvBuf g) (frame payload)) as E. cbn [app] in E. rewrite go_len_nil in E.
  rewrite Hrem. rewrite (M_bind_ok _ _ _ _ _ (f_equal (λ r, (r, w)) (E ltac:(len_lia)))).
  rewrite (proj2 (Z.eqb_neq _ _)) by apply frame_len_pos.
  rewrite Z.add_0_l, u32_small by len_lia.
  rewrite (proj2 (Z.ltb_ge RECV_BUF_MAX_LEN _)), andb_false_r by len_lia.
  rewrite (M_bind_ok _ _ _ session w1) by done.
  destruct (decode_buffer_frame session payload (drop (length (frame payload)) (g_recvBuf g)) w1)
    as (junk' & Hl & Ed).
  - done.
  - done.
  - unfold go_len in *. rewrite length_app, length_drop. lia.
  - right. eexists. split; [apply lookup_insert_eq|]. by left.
  - done.
  - cbn [app]. rewrite (M_bind_ok _ _ _ _ _ Ed). eexists. split; [|split; [|done]]; [done|].
    split; [done|]. cbn. rewrite <- Hcap. unfold go_len in *. rewrite Hl, length_app, length_drop. lia.
Qed.

End ClientSdk.

(** ** Witnesses

    A client program without handlers of its own, connected to a gate. *)
Module SdkDemo.

#[local] Existing Instance ref_msgpack.

Definition cap : Z := 16386.

#[export] Instance no_sig : HandlerSig Empty_set := {|
  busi_req (u : Empty_set) := match u with end;
  busi_rsp (u : Empty_set) := match u with end;
  busi_access (u : Empty_set) := match u with end;
|}.
#[export] Instance no_program : ClientProgram Empty_set () := λ u : Empty_set, match u with end.

Abbreviation CW := (World (SdkHandler Empty_set) ()).
Definition to_gate : Conn := mkConn 1 "10.0.0.9:5000".

Definition proxy : GateProxy := mkGateProxy "10.0.0.9" 5000 to_gate (replicate (Z.to_nat cap) 0) 0.
Definition service_proxy : ServiceProxy := CreateServiceProxy proxy "ns" "ServiceB".

Definition client_world : CW :=
  init_world (mkGlobalConfig EmptyString EmptyString) SERVER_IDENTITY_SERVICE EmptyString
    (from_ok (mkSimpleRpcMgr ∅ ∅ false) sdk_init) ().

Lemma client_call_response_witness :
  ∃ w1 : CW, rpcCall service_proxy false "rpc_b" [AVal (GUint32 7); ACallBack (Some 5%positive)] client_world = (Ok (), w1) ∧
    ∃ w2, run_task (task_of 1 (RpcEncode MSG_G2C_RPC_RSP [GUint32 1; GStr "failed"; GMapAny []])) w1 = (Ok (), w2) ∧
    w_chans w2 = [FuncCalled 5 "failed" (GMapAny [])].
Proof.
  destruct (client_call_response service_proxy false "rpc_b" [GUint32 7] 5 client_world) as [(w1 & E & _ & H) _].
  - exists []. apply init_inv.
  - apply not_elem_of_empty.
  - reflexivity.
  - intros rid. vm_compute. discriminate.
  - exists w1. split; [exact E|].
    destruct (H 1%positive "failed" (GMapAny []) (GMapAny [])) as (w2 & E2 & Hc & _).
    + repeat constructor.
    + exists w2. split; [exact E2|exact Hc].
Defined.

End SdkDemo.
