(* ===== verification/ServiceA.v ===== *)
(** * Service A ([src/service_a])

    Four rpcs: one that calls another service and reports its outcome, one that
    echoes, one that exercises the databases and one that pushes to a client.
    The databases are parameters: the classes name the commands and what a
    successful one does. *)

From S2P Require Import Prelude Utils Wire Msgpack LoadBalancer CallbackMgr RemoteMgr World SimpleRpc TcpServer Gate.
From S2P Require Import System.

Local Open Scope Z_scope.

(** ** The databases of the test *)

(** Redis: [HMSet] and [HMGet]; no result is an error. *)
Class RedisHash (R : Type) := {
  hmset : string → list (string * goval) → R → option () * R;
  hmget : string → list string → R → option (list (option string));
}.

(** A document, as the test builds it. *)
Inductive bson := BInt (n : Z) | BDoc (fields : list (string * bson)).

(** A collection of mongo: its documents, and the commands on it. *)
Class Collection (D : Type) := {
  docs : D → list bson;
  coll_insert : bson → D → option () * D;
  coll_update_one : bson → bson → D → option () * D;
  coll_find : D → option (list bson);
  coll_delete_many : D → option Z * D;
  coll_delete_many_ok d n d' : coll_delete_many d = (Some n, d') → docs d' = [];
}.

Inductive AHandler := RpcAHandler | RpcBHandler | RpcDBTestHandler | RpcPushTestHandler.

(** What the handlers use: the clients of the databases, nil when they are not
    configured, and the answers the next synchronous calls will get. *)
Record AApp (R D : Type) := mkAApp {
  myRedis1 : option R;
  aRedis2 : option R;
  aMongo : option D;
  incoming : list (list (option (string * goval)));
}.
Arguments mkAApp {R D} _ _ _ _.
Arguments myRedis1 {R D} _.
Arguments aRedis2 {R D} _.
Arguments aMongo {R D} _.
Arguments incoming {R D} _.

#[export] Instance service_a_sig : HandlerSig AHandler := {|
  busi_req h :=
    match h with
    | RpcAHandler => Some [("I", TUint32); ("F", TFloat32); ("S", TString); ("M", TMapAny); ("L", TInt32s)]
    | RpcBHandler => Some [("I", TUint32)]
    | RpcDBTestHandler | RpcPushTestHandler => None
    end;
  busi_rsp h :=
    match h with
    | RpcAHandler | RpcBHandler => Some [("Success", GBool false); ("Req", GUint32 0)]
    | RpcDBTestHandler => Some [("Success", GBool false)]
    | RpcPushTestHandler => None
    end;
  busi_access h := match h with RpcDBTestHandler => false | _ => true end;
|}.

Section ServiceA.
  Context {MP : Msgpack} {R D : Type} {RE : RedisHash R} {CO : Collection D}.

Abbreviation W := (World AHandler (AApp R D)).
Implicit Types w : W.

(** The answers of the next synchronous call. *)
Definition next_answers : M W (list (option (string * goval))) := λ w,
  match incoming (w_app w) with
  | [] => (Ok [], w)
  | a :: rest => (Ok a, set_app (mkAApp (myRedis1 (w_app w)) (aRedis2 (w_app w)) (aMongo (w_app w)) rest) w)
  end.

(** [err, reply := msf.RpcCallSync(...)]: an attempt that gets no answer times
    out. *)
Definition call_sync (serviceName rpcName : string) (args : list goval) : M W (string * goval) :=
  answers ← next_answers;
  r ← RpcCallSync serviceName rpcName args (answers ++ replicate 4 None);
  match r with
  | Some x => mret x
  | None => lift_result OutOfFuel
  end.

(** ** [rpc_a] *)

Definition set_rsp (rsp : list goval) : M (list goval * W) () := modify (λ '(_, w), (rsp, w)).

Definition RpcA_Process (i : Z) (session : positive) : M (list goval * W) () :=
  _ ← set_rsp [GBool true; GUint32 i];
  '(err, _) ← liftW (call_sync "ServiceA" "rpc_b" [GUint32 10]);
  if bool_decide (err = EmptyString) then mret ()
  else
    _ ← liftW (SetResponseErr session err);
    set_rsp [GBool false; GUint32 i].

(** ** [rpc_b] *)

Definition RpcB_Process (i : Z) : M (list goval * W) () := set_rsp [GBool true; GUint32 i].

(** ** [rpc_db_test] *)

(** A client of redis does the test: the new client. *)
Definition redis_test (redis : option R) : option R :=
  match redis with
  | None => None
  | Some r =>
      let '(ok, r) := hmset "REDIS_KEY_TEST" [("field1", GInt 123); ("field2", GStr "abc")] r in
      match ok with
      | None => Some r
      | Some _ =>
          match hmget "REDIS_KEY_TEST" ["field1"; "field2"] r with
          | None => Some r
          | Some _ => Some r
          end
      end
  end.

Definition RedisTest : M W () := modify (λ w,
  set_app (mkAApp (redis_test (myRedis1 (w_app w))) (aRedis2 (w_app w)) (aMongo (w_app w)) (incoming (w_app w))) w).

Definition RedisClusterTest : M W () := modify (λ w,
  set_app (mkAApp (myRedis1 (w_app w)) (redis_test (aRedis2 (w_app w))) (aMongo (w_app w)) (incoming (w_app w))) w).

Definition mongo_test (mongo : option D) : option D :=
  match mongo with
  | None => None
  | Some coll =>
      let doc := BDoc [("x", BInt 1)] in
      let '(ok, coll) := coll_insert doc coll in
      match ok with
      | None => Some coll
      | Some _ =>
          let update := BDoc [("$set", BDoc [("x", BDoc [("y", BInt 888)])])] in
          let '(ok, coll) := coll_update_one doc update coll in
          match ok with
          | None => Some coll
          | Some _ =>
              match coll_find coll with
              | None => Some coll
              | Some _ => Some (coll_delete_many coll).2
              end
          end
      end
  end.

Definition MongoTest : M W () := modify (λ w,
  set_app (mkAApp (myRedis1 (w_app w)) (aRedis2 (w_app w)) (mongo_test (aMongo (w_app w))) (incoming (w_app w))) w).

Definition RpcDBTest_Process : M (list goval * W) () :=
  _ ← liftW RedisTest;
  _ ← liftW RedisClusterTest;
  _ ← liftW MongoTest;
  set_rsp [GBool true].

(** ** [rpc_push_test] *)

Definition RpcPushTest_Process : M W () := PushClientSafe "client0" "push_test" [GInt32 10; GStr "hello"].

Definition a_process (h : AHandler) (session : positive) (args : list goval) : M (list goval * W) () :=
  match h, args with
  | RpcAHandler, GUint32 i :: _ => RpcA_Process i session
  | RpcBHandler, [GUint32 i] => RpcB_Process i
  | RpcDBTestHandler, _ => RpcDBTest_Process
  | RpcPushTestHandler, _ => liftW RpcPushTest_Process
  | _, _ => throw TypeAssertion
  end.

#[export] Instance service_a : Business AHandler (AApp R D) := {|
  busi_process _ := a_process;
  busi_accept _ := mret ();
|}.

(** [main], up to [Start]. *)
Definition a_handlers : list (string * RpcHandler AHandler) :=
  [("rpc_a", Busi RpcAHandler); ("rpc_b", Busi RpcBHandler); ("rpc_db_test", Busi RpcDBTestHandler);
   ("rpc_push_test", Busi RpcPushTestHandler)].

Definition a_main : result (SimpleRpcMgr AHandler) := rmgr ← CreateSimpleRpcMgr; regist_all a_handlers rmgr.

(** ** The handlers as a program *)

Lemma keep_set_rsp (P : W → Prop) rsp : preserves (beside P) (set_rsp rsp).
Proof. by intros [r w] Hw. Qed.

Lemma keep_call_sync (P : W → Prop) {FP : Framed P} svc rpc args : preserves P (call_sync svc rpc args).
Proof.
  unfold call_sync, RpcCallSync. apply preserves_bind; [|intros a; keep_program].
  intros w Hw. unfold next_answers. destruct (incoming (w_app w)); [done|]. by eapply framed_fields.
Qed.

#[export] Instance service_a_program : Program AHandler (AApp R D).
Proof.
  split; [|intros P FP p; cbn; auto with preserves]. intros P FP proc h session args _.
  pose proof (keep_set_rsp P) as Hr. pose proof (keep_call_sync P) as Hc.
  destruct h; cbn [busi_process service_a a_process]; repeat case_match; auto with preserves.
  all: unfold RpcA_Process, RpcB_Process, RpcDBTest_Process, RpcPushTest_Process, PushClientSafe, PushSafe, RpcCallAsync,
    RedisTest, RedisClusterTest, MongoTest; keep_program.
Qed.

(** ** What [rpc_a] answers *)

(** A call changes no session. *)
Lemma RpcCall_sessions svc rpc n args ss : ∀ rid answers,
  preserves (λ w, w_sessions w = ss) (RpcCall svc rpc rid n args answers).
Proof.
  assert (preserves (λ w : W, w_sessions w = ss) balance_client) as H1.
  { intros w Hw. unfold balance_client. by destruct (bal_pick _) as [[]| |]. }
  assert (preserves (λ w : W, w_sessions w = ss) make_chan) as H2 by by intros w Hw.
  assert (∀ i c wt t, preserves (λ w : W, w_sessions w = ss) (AddCb i c wt t)) as H3.
  { intros i c wt t w Hw. unfold AddCb. by destruct (AddCallBack _ _ _ _ _ _). }
  assert (∀ p, preserves (λ w : W, w_sessions w = ss) (deref_client p)) as H4.
  { intros p w Hw. unfold deref_client. by destruct (p ≫= _). }
  assert (∀ c msg, preserves (λ w : W, w_sessions w = ss) (MessageSend c msg)) as H5.
  { intros c msg w Hw. unfold MessageSend. destruct c; [|done]. by repeat case_bool_decide. }
  assert (preserves (λ w : W, w_sessions w = ss) NewGid) as H6 by by intros w Hw.
  induction n as [|n IH]; intros rid answers; cbn [RpcCall]; keep; apply IH.
Qed.

(** An attempt always ends: the call has an outcome. *)
Lemma call_outcome_some timeout n answers : ∃ x, (call_outcome timeout n (answers ++ replicate (S n) None)).2 = Some x.
Proof.
  revert answers. induction n as [|n IH]; intros [|[x|] answers]; cbn; try by eexists.
  - destruct (IH []) as [x Hx]. cbn in Hx. exists x. by destruct (call_outcome timeout n (None :: replicate n None)).
  - destruct (IH (answers ++ [None])) as [x Hx]. rewrite <- app_assoc in Hx. cbn in Hx. exists x. cbn.
    by destruct (call_outcome timeout n (answers ++ None :: None :: replicate n None)).
Qed.

Lemma next_answers_ok w : ∃ app, next_answers w = (Ok (default [] (head (incoming (w_app w)))), set_app app w).
Proof.
  unfold next_answers. destruct (incoming (w_app w)) as [|a rest]; [exists (w_app w); by destruct w|by eexists].
Qed.

(** A synchronous call of a handler. *)
Lemma call_sync_ok svc rpc args w :
  ready w → 0 ≤ w_gid w → w_gid w + 4 < 2 ^ 32 →
  (∀ rid, go_len (route_rpc w svc rpc args rid) ≤ MAX_PACKET_SIZE) →
  let answers := default [] (head (incoming (w_app w))) in
  ∃ attempts x w' sent,
    call_outcome (timeout_text w svc rpc) 3 (answers ++ replicate 4 None) = (attempts, Some x) ∧
    call_sync svc rpc args w = (Ok x, w') ∧ w_sessions w' = w_sessions w ∧ w_net w' = w_net w ++ sent ∧
    Forall2 (λ i y, gate_conn w y.1 ∧ y.2 = frame (route_rpc w svc rpc args (w_gid w + 1 + Z.of_nat i)))
      (seq 0 attempts) sent.
Proof.
  intros Hr Hg Hlt Hlen answers. unfold call_sync.
  destruct (next_answers_ok w) as [app Ea]. rewrite (M_bind_ok _ _ _ _ _ Ea).
  assert (u32 (w_gid w + 1) = w_gid w + 1) as Eg by (apply u32_small; lia).
  set (w0 := set_gid (w_gid w + 1) (set_app app w)).
  destruct (RpcCall_outcome svc rpc args 3 (answers ++ replicate 4 None) (w_gid w + 1) w0)
    as (w' & sent & E & Hn & HF); [|lia|done|cbn; lia|done|].
  { destruct Hr as [Ht Hb ? ?]. split; [by eapply tcp_ok_ext|exact Hb|done|done]. }
  change (timeout_text w0 svc rpc) with (timeout_text w svc rpc) in *.
  destruct (call_outcome_some (timeout_text w svc rpc) 3 answers) as [x Hx].
  destruct (call_outcome _ 3 (answers ++ replicate 4 None)) as [attempts o]. cbn [fst snd] in *. subst o.
  exists attempts, x, w', sent. split; [done|]. split; [|split; [|by split]].
  - rewrite (M_bind_ok _ _ _ (Some x) w'); [done|]. unfold RpcCallSync.
    rewrite (M_bind_ok _ _ _ (w_gid w + 1) w0) by (unfold NewGid, GenGid; cbn; by rewrite Eg). exact E.
  - pose proof (RpcCall_sessions svc rpc 3 args (w_sessions w) (w_gid w + 1) (answers ++ replicate 4 None) w0 eq_refl) as Hs.
    by rewrite E in Hs.
Qed.

(** The answer of [rpc_a].  With a gate connected, [rpc_a] calls [rpc_b] of
    service A, in at most four attempts of one request each; it answers success
    together with the number it was given when that call returned no error, and
    otherwise failure, with the error of the call (the service's own or the
    timeout) as the error of its response.  Without a gate it sends nothing and
    still answers success. *)
Theorem rpc_a_reports (i : Z) (session : positive) (s : Session) (rsp : list goval) w :
  w_sessions w !! session = Some s →
  (∀ rid, go_len (route_rpc w "ServiceA" "rpc_b" [GUint32 10] rid) ≤ MAX_PACKET_SIZE) →
  (ready w → 0 ≤ w_gid w → w_gid w + 4 < 2 ^ 32 →
   ∃ attempts error reply w' sent,
     call_outcome (timeout_text w "ServiceA" "rpc_b") 3 (default [] (head (incoming (w_app w))) ++ replicate 4 None)
       = (attempts, Some (error, reply)) ∧
     RpcA_Process i session (rsp, w) = (Ok (), ([GBool (bool_decide (error = EmptyString)); GUint32 i], w')) ∧
     w_sessions w' !! session =
       Some (if decide (error = EmptyString) then s else mkSession (typ s) (conn s) error) ∧
     w_net w' = w_net w ++ sent ∧ length sent = attempts ∧
     Forall (λ x, gate_conn w x.1 ∧
       ∃ rid, x.2 = frame (route_rpc w "ServiceA" "rpc_b" [GUint32 10] rid)) sent) ∧
  (tcp_ok w → clients (w_tcp w) = ∅ →
   ∃ w', RpcA_Process i session (rsp, w) = (Ok (), ([GBool true; GUint32 i], w')) ∧
     w_net w' = w_net w ∧ w_sessions w' = w_sessions w).
Proof.
  intros Hs Hlen. unfold RpcA_Process. split.
  - intros Hr Hg Hlt.
    destruct (call_sync_ok "ServiceA" "rpc_b" [GUint32 10] w Hr Hg Hlt Hlen)
      as (attempts & [error reply] & w1 & sent & Ho & Ec & Hs1 & Hn & HF).
    exists attempts, error, reply.
    rewrite (M_bind_ok _ _ _ () ([GBool true; GUint32 i], w)) by done.
    rewrite (M_bind_ok _ _ _ (error, reply) ([GBool true; GUint32 i], w1)) by (cbn; by rewrite Ec).
    assert (length sent = attempts) as Hl by (apply Forall2_length in HF; by rewrite <- HF, length_seq).
    assert (Forall (λ x, gate_conn w x.1 ∧ ∃ rid, x.2 = frame (route_rpc w "ServiceA" "rpc_b" [GUint32 10] rid)) sent)
      as HF'.
    { eapply Forall2_Forall_r; [exact HF|]. apply Forall_true. intros k x [? ?]. eauto. }
    case_bool_decide as He; [rewrite decide_True by done|rewrite decide_False by done].
    + exists w1, sent. split; [done|]. split; [done|]. split; [by rewrite Hs1|by split_and!].
    + eexists _, sent. split; [done|]. split; [done|]. split; [|by split_and!].
      cbn. by rewrite lookup_alter_eq, Hs1, Hs.
  - intros Ht Hc. rewrite (M_bind_ok _ _ _ () ([GBool true; GUint32 i], w)) by done.
    destruct (next_answers_ok w) as [app Ea]. set (w1 := set_gid (u32 (w_gid w + 1)) (set_app app w)).
    rewrite (M_bind_ok _ _ _ (EmptyString, GNil) ([GBool true; GUint32 i], w1)); [by exists w1|].
    cbn [liftW]. unfold call_sync. rewrite (M_bind_ok _ _ _ _ _ Ea).
    rewrite (M_bind_ok _ _ _ (Some (EmptyString, GNil)) w1); [done|].
    apply (rpc_call_without_gate "ServiceA" "rpc_b" [GUint32 10] _ (set_app app w)); [by eapply tcp_ok_ext|done|done].
Qed.

(** The database test answers success whatever the databases did; when all its
    commands succeed, it leaves the collection empty. *)
Lemma db_test_answer rsp w :
  ∃ w', RpcDBTest_Process (rsp, w) = (Ok (), ([GBool true], w')) ∧ aMongo (w_app w') = mongo_test (aMongo (w_app w)).
Proof. eexists. split; [reflexivity|done]. Qed.

Lemma mongo_test_empties d d1 d2 ds n d3 :
  coll_insert (BDoc [("x", BInt 1)]) d = (Some (), d1) →
  coll_update_one (BDoc [("x", BInt 1)]) (BDoc [("$set", BDoc [("x", BDoc [("y", BInt 888)])])]) d1 = (Some (), d2) →
  coll_find d2 = Some ds → coll_delete_many d2 = (Some n, d3) →
  mongo_test (Some d) = Some d3 ∧ docs d3 = [].
Proof.
  intros E1 E2 E3 E4. cbn. rewrite E1, E2, E3, E4. split; [done|]. by eapply coll_delete_many_ok.
Qed.

End ServiceA.

(** ** Witness *)
Module ADemo.

#[local] Existing Instance ref_msgpack.

(** Databases that are not there. *)
#[export] Instance no_redis : RedisHash () := {| hmset _ _ r := (None, r); hmget _ _ _ := None |}.

#[export, refine] Instance no_mongo : Collection () := {|
  docs _ := []; coll_insert _ d := (None, d); coll_update_one _ _ d := (None, d); coll_find _ := None;
  coll_delete_many d := (None, d);
|}.
Proof. done. Defined.

(** Service A with the gate of [ServiceB] connected; its call will time out once
    and then fail. *)
Definition a_world : World AHandler (AApp () ()) :=
  let w := init_world (mkGlobalConfig "ns" "ServiceA") SERVER_IDENTITY_SERVICE "10.0.0.1:8001"
             (StopRcpHandlerRegist (from_ok (mkSimpleRpcMgr ∅ ∅ false) a_main))
             (mkAApp None None None [[None; Some ("busy", GNil)]]) in
  set_sessions {[1%positive := mkSession SessionTcpClient ServiceB.demo_gate EmptyString]}
    (set_tcp (mkTcpServer {[GetConnID ServiceB.demo_gate := 1%positive]} false
                (bal_add bal_new (GetConnID ServiceB.demo_gate)).2 "10.0.0.1:8001")
       (set_clients {[1%positive := mkTcpClient ServiceB.demo_gate [] 0 0 TcpClientState_OK]} w)).

Lemma a_ready : ready a_world.
Proof.
  split; [|exists []; apply init_inv|discriminate|done]. split; cbn.
  - split; [done|reflexivity].
  - set_solver.
  - intros id p [<- <-]%lookup_singleton_Some. eexists. by rewrite lookup_singleton_eq.
  - reflexivity.
Qed.

Lemma rpc_a_reports_witness :
  ∃ w', RpcA_Process 7 1 ([], a_world) = (Ok (), ([GBool false; GUint32 7], w')) ∧
    w_sessions w' !! 1%positive = Some (mkSession SessionTcpClient ServiceB.demo_gate "busy") ∧
    length (w_net w') = 2%nat.
Proof.
  destruct (rpc_a_reports 7 1 (mkSession SessionTcpClient ServiceB.demo_gate EmptyString) [] a_world)
    as [H _]; [reflexivity|intros rid; vm_compute; discriminate|].
  destruct (H a_ready) as (attempts & error & reply & w' & sent & Ho & E & Hs & Hn & Hl & _);
    [done|reflexivity|].
  vm_compute in Ho. injection Ho as <- <- <-. exists w'. split; [exact E|]. split; [exact Hs|].
  rewrite Hn. cbn. exact Hl.
Defined.

End ADemo.
