(* ===== verification/FlowCounter.v ===== *)
(** * The flow counter ([src/ms_framework/msf_flow_velocity_counter.go])

    A counter of events and of their rate.  Its goroutine receives the events on
    an unbuffered channel, and every [frequency] milliseconds computes the rate
    from the events since the last time it did.  The rate is computed in
    [float64]: the operations of [SpecFloat] at the parameters of binary64. *)

From S2P Require Import Prelude.
From Stdlib Require Import SpecFloat.

Local Open Scope Z_scope.

(** ** [float64] *)

Definition float64 (z : Z) : spec_float := binary_normalize 53 1024 z 0 false.
Definition f64_div (x y : spec_float) : spec_float := SFdiv 53 1024 x y.
Definition f64_mul (x y : spec_float) : spec_float := SFmul 53 1024 x y.

(** [int32(x)]: the integer part; a value out of range, an infinity and a NaN
    give the least [int32], as on the amd64 architecture. *)
Definition f64_trunc (x : spec_float) : option Z :=
  match x with
  | S754_zero _ => Some 0
  | S754_finite s m e =>
      let a := if 0 <=? e then Z.shiftl (Zpos m) e else Z.shiftr (Zpos m) (- e) in
      Some (if s then - a else a)
  | _ => None
  end.

Definition f64_int32 (x : spec_float) : Z :=
  match f64_trunc x with
  | Some z => if (- 2 ^ 31 <=? z) && (z <? 2 ^ 31) then z else - 2 ^ 31
  | None => - 2 ^ 31
  end.

(** ** The counter *)

Record FlowVelocityCounter := mkFvc {
  Counter : string;
  lastTime : Z;
  cnt : Z;
  totalCnt : Z;
  velocity : Z;
  frequency : Z;  (** ms *)
  serving : bool; (** the goroutine runs *)
}.

(** [&FlowVelocityCounter{Counter: name}]. *)
Definition new_fvc (name : string) : FlowVelocityCounter := mkFvc name 0 0 0 0 0 false.

Definition fvc_Start (now : Z) (f : FlowVelocityCounter) : FlowVelocityCounter :=
  mkFvc (Counter f) now (cnt f) (totalCnt f) (velocity f)
    (if frequency f =? 0 then 2000 else frequency f) true.

(** What its goroutine receives: a count, a stop, or the timer at a time. *)
Inductive fvc_event := FCount | FStop | FTick (nowMs : Z).

Definition fvc_velocity (f : FlowVelocityCounter) (nowMs : Z) : Z :=
  f64_int32 (f64_mul (f64_div (float64 (cnt f)) (float64 (nowMs - lastTime f))) (float64 1000)).

Definition fvc_tick (nowMs : Z) (f : FlowVelocityCounter) : FlowVelocityCounter :=
  if lastTime f <? nowMs then
    mkFvc (Counter f) nowMs 0 (totalCnt f) (fvc_velocity f nowMs) (frequency f) (serving f)
  else f.

(** One turn of the goroutine; [None] when it has ended: a count or a stop then
    waits for ever. *)
Definition fvc_step (f : FlowVelocityCounter) (ev : fvc_event) : option FlowVelocityCounter :=
  if serving f then
    Some (match ev with
          | FCount =>
              mkFvc (Counter f) (lastTime f) (i32 (cnt f + 1)) (i64 (totalCnt f + 1)) (velocity f) (frequency f) true
          | FStop => mkFvc (Counter f) (lastTime f) (cnt f) (totalCnt f) (velocity f) (frequency f) false
          | FTick nowMs => fvc_tick nowMs f
          end)
  else None.

Definition Count (f : FlowVelocityCounter) : option FlowVelocityCounter := fvc_step f FCount.
Definition fvc_Stop (f : FlowVelocityCounter) : option FlowVelocityCounter := fvc_step f FStop.
Definition GetTotalCount (f : FlowVelocityCounter) : Z := totalCnt f.

Fixpoint fvc_run (f : FlowVelocityCounter) (evs : list fvc_event) : option FlowVelocityCounter :=
  match evs with
  | [] => Some f
  | ev :: evs => f' ← fvc_step f ev; fvc_run f' evs
  end.

(** ** Counting *)

(** The counts the timer took into account, in order: the value of [cnt] each
    time it computed a rate. *)
Fixpoint fvc_reported (f : FlowVelocityCounter) (evs : list fvc_event) : list Z :=
  match evs with
  | [] => []
  | ev :: evs =>
      (match ev with
       | FTick nowMs => if serving f && (lastTime f <? nowMs) then [cnt f] else []
       | _ => []
       end) ++ match fvc_step f ev with Some f' => fvc_reported f' evs | None => [] end
  end.

Definition is_count (ev : fvc_event) : bool := match ev with FCount => true | _ => false end.

Definition counts (evs : list fvc_event) : Z := go_len (List.filter is_count evs).

Lemma counts_cons ev evs : counts (ev :: evs) = (if is_count ev then 1 else 0) + counts evs.
Proof. unfold counts. cbn. destruct (is_count ev); [by rewrite go_len_cons|lia]. Qed.

Lemma counts_nonneg evs : 0 ≤ counts evs.
Proof. apply go_len_nonneg. Qed.

Lemma swrap_small w z : 0 < w → - 2 ^ (w - 1) ≤ z < 2 ^ (w - 1) → swrap w z = z.
Proof.
  intros Hw Hz. unfold swrap. assert (2 ^ w = 2 * 2 ^ (w - 1)) as E.
  { rewrite <- Z.pow_succ_r by lia. f_equal. lia. }
  rewrite Z.mod_small by lia. lia.
Qed.

Lemma fvc_run_counts evs : ∀ f f',
  fvc_run f evs = Some f' → 0 ≤ cnt f → 0 ≤ totalCnt f →
  cnt f + counts evs < 2 ^ 31 → totalCnt f + counts evs < 2 ^ 63 →
  totalCnt f' = totalCnt f + counts evs ∧ 0 ≤ cnt f' ∧
  foldr Z.add 0 (fvc_reported f evs) + cnt f' = cnt f + counts evs ∧
  Forall (λ n, 0 ≤ n) (fvc_reported f evs).
Proof.
  induction evs as [|ev evs IH]; intros f f'; cbn [fvc_run fvc_reported].
  { intros [= <-] ? ? _ _. change (counts []) with 0. cbn. split_and!; try lia. constructor. }
  intros (f1 & E & Hrun)%bind_Some Hc Ht Hb1 Hb2. rewrite counts_cons in Hb1, Hb2 |- *.
  pose proof (counts_nonneg evs). unfold fvc_step in E |- *. destruct (serving f); [|discriminate E].
  injection E as <-. destruct ev as [| |nowMs]; cbn [is_count app] in *.
  - assert (i32 (cnt f + 1) = cnt f + 1) as E1 by (apply swrap_small; [lia|]; change (32 - 1) with 31; lia).
    assert (i64 (totalCnt f + 1) = totalCnt f + 1) as E2 by (apply swrap_small; [lia|]; change (64 - 1) with 63; lia).
    rewrite E1, E2 in Hrun |- *.
    destruct (IH _ _ Hrun) as (H1 & H2 & H3 & H4); cbn [cnt totalCnt] in *; try lia. by split_and!; try lia.
  - destruct (IH _ _ Hrun) as (H1 & H2 & H3 & H4); cbn [cnt totalCnt] in *; try lia. by split_and!; try lia.
  - unfold fvc_tick in *. destruct (lastTime f <? nowMs); cbn [andb app].
    + destruct (IH _ _ Hrun) as (H1 & H2 & H3 & H4); cbn [cnt totalCnt] in *; try lia.
      cbn [foldr]. split_and!; try lia. by constructor.
    + destruct (IH _ _ Hrun) as (H1 & H2 & H3 & H4); try lia. by split_and!; try lia.
Qed.

(** C40 Every event is counted once.  Whatever counts, timers and stops the
    counter's goroutine receives, in any order: the total is the number of
    counts, and each of them entered into exactly one computed rate or is still
    to enter the next one (up to the width of the fields).  After a stop nothing
    is received any more: a further count waits for ever. *)
Theorem flow_counts_exact (name : string) (now : Z) (evs : list fvc_event) (f : FlowVelocityCounter) :
  fvc_run (fvc_Start now (new_fvc name)) evs = Some f → counts evs < 2 ^ 31 →
  GetTotalCount f = counts evs ∧
  foldr Z.add 0 (fvc_reported (fvc_Start now (new_fvc name)) evs) + cnt f = counts evs ∧
  ∀ f', fvc_Stop f = Some f' → GetTotalCount f' = counts evs ∧ Count f' = None ∧ fvc_Stop f' = None.
Proof.
  intros Hrun Hb. destruct (fvc_run_counts evs _ _ Hrun) as (H1 & H2 & H3 & _); cbn [cnt totalCnt fvc_Start new_fvc] in *;
    [lia..|].
  split; [unfold GetTotalCount; lia|]. split; [lia|].
  unfold fvc_Stop, Count, fvc_step, GetTotalCount. destruct (serving f); [|discriminate 1]. intros f' [= <-]. by cbn.
Qed.

Lemma flow_counts_exact_witness :
  let f := mkFvc "rpc ops" 3000 1 3 1 2000 true in
  fvc_run (fvc_Start 1000 (new_fvc "rpc ops")) [FCount; FCount; FTick 3000; FCount] = Some f ∧ GetTotalCount f = 3.
Proof.
  intros f.
  assert (fvc_run (fvc_Start 1000 (new_fvc "rpc ops")) [FCount; FCount; FTick 3000; FCount] = Some f) as E
    by (vm_compute; reflexivity).
  split; [exact E|].
  exact (proj1 (flow_counts_exact "rpc ops" 1000 [FCount; FCount; FTick 3000; FCount] f E eq_refl)).
Defined.

(** The rate is rounded before it is truncated: 2002 events in two seconds are
    reported as 1000 per second. *)
Example velocity_rounds_down : fvc_velocity (mkFvc "rpc ops" 0 2002 2002 0 2000 true) 2000 = 1000.
Proof. vm_compute. reflexivity. Qed.
