(* ===== verification/Etcd.v ===== *)
(** * Registration and discovery through etcd ([src/ms_framework/msf_etcd_driver.go])

    A service registers itself under a key that holds its namespace, name and
    address, attached to a lease that it keeps alive, and registers again when
    the key is gone; a gate lists and watches the keys below its namespace and
    turns them into routes.  The etcd service is a parameter: the class [Etcd]
    says what its commands do to the keys when they succeed. *)

From S2P Require Import Prelude Strconv LoadBalancer RemoteMgr World.
From Stdlib Require Import Ascii.

Local Open Scope Z_scope.

(** ** The driver *)

(** The client of [etcdctl.New]. *)
Inductive etcd_client := CliNil | CliOpen | CliClosed.

#[export] Instance etcd_client_eq_dec : EqDecision etcd_client.
Proof. solve_decision. Defined.

(** [mode]: 0 registers a service, 1 discovers services. *)
Record EtcdDriver := mkEtcdDriver {
  mode : Z;
  cli : etcd_client;
  lease : option Z;
  exit : bool;
  leaseDV : Z;
}.

Definition CreateEtcdDriver (svc : string) : EtcdDriver :=
  mkEtcdDriver (if bool_decide (svc = "ServiceGate" ∨ svc = "ClientGate") then 1 else 0) CliNil None false 0.

(** ** Keys *)

Definition GenEtcdServiceKey (cfg : GlobalConfig) (localIP : string) : string :=
  "/ms/" +:+ Namespace cfg +:+ "/" +:+ Service cfg +:+ "/" +:+ localIP +:+ ":" +:+ pretty (cfg_Port cfg).

Definition GenEtcdServiceValue (e : EtcdDriver) : string * EtcdDriver :=
  let leaseDV := i64 (leaseDV e + 1) in
  (pretty leaseDV, mkEtcdDriver (mode e) (cli e) (lease e) (exit e) leaseDV).

Definition GenEtcdWatchKey (cfg : GlobalConfig) : string := "/ms/" +:+ Namespace cfg.

(** The namespace, service, ip and port of a key. *)
Definition parse_key (key : string) : result (string * string * string * Z) :=
  let remoteInfo := go_split "/" key in
  namespace ← go_index remoteInfo 2;
  service ← go_index remoteInfo 3;
  addr ← go_index remoteInfo 4;
  ip ← go_index (go_split ":" addr) 0;
  port ← go_index (go_split ":" addr) 1;
  Ok (namespace, service, ip, u32 (Atoi port).1).

(** ** Registration *)

(** The etcd service: [keys] are the keys with the lease each is attached to.
    A command gives no result when it failed, by an error or a timeout. *)
Class Etcd (E : Type) := {
  keys : E → gmap string Z;
  etcd_grant : E → option Z * E;
  etcd_put : string → string → Z → E → option () * E;
  etcd_get : string → E → option bool * E;         (** whether the key exists *)
  etcd_keepalive : Z → E → option () * E;
  etcd_revoke : Z → E → option () * E;
  etcd_grant_ok s id s' : etcd_grant s = (Some id, s') → keys s' = keys s ∧ ∀ k, keys s !! k ≠ Some id;
  etcd_put_ok k v id s s' : etcd_put k v id s = (Some (), s') → keys s' = <[k := id]> (keys s);
  etcd_get_ok k s b s' : etcd_get k s = (b, s') →
    keys s' = keys s ∧ ∀ found, b = Some found → found = bool_decide (is_Some (keys s !! k));
  etcd_keepalive_ok id s r s' : etcd_keepalive id s = (r, s') → keys s' = keys s;
  etcd_revoke_ok id s s' : etcd_revoke id s = (Some (), s') → keys s' = filter (λ x, x.2 ≠ id) (keys s);
}.

Section Registration.
  Context {E : Type} {ET : Etcd E} (cfg : GlobalConfig) (localIP : string).

(** The driver and the service it talks to. *)
Abbreviation D := (M (EtcdDriver * E)).

Definition key : string := GenEtcdServiceKey cfg localIP.

(** A command of the client: a closed one fails. *)
Definition etcd_cmd {X} (cmd : E → option X * E) : D (option X) := λ '(e, s),
  match cli e with
  | CliNil => (Panic NilDereference, (e, s))
  | CliClosed => (Ok None, (e, s))
  | CliOpen => let '(r, s) := cmd s in (Ok r, (e, s))
  end.

Definition set_lease (id : Z) : D () := modify (λ '(e, s),
  (mkEtcdDriver (mode e) (cli e) (Some id) (exit e) (leaseDV e), s)).

Definition NextValue : D string := λ '(e, s),
  let '(v, e) := GenEtcdServiceValue e in (Ok v, (e, s)).

Definition ServiceRegist : D () :=
  granted ← etcd_cmd etcd_grant;
  match granted with
  | None => mret ()
  | Some id =>
      _ ← set_lease id;
      value ← NextValue;
      ok ← etcd_cmd (etcd_put key value id);
      match ok with
      | None => mret ()
      | Some _ => _ ← etcd_cmd (etcd_keepalive id); mret ()
      end
  end.

(** One turn of [LeaseWatch]: the seconds to the next one. *)
Definition LeaseWatch_tick : D Z :=
  found ← etcd_cmd (etcd_get key);
  match found with
  | None => mret 1
  | Some false => _ ← ServiceRegist; mret 1
  | Some true => mret 5
  end.

(** [Start] of a service; [connected] is whether [etcdctl.New] succeeded. *)
Definition Start (connected : bool) : D () :=
  if connected then
    _ ← modify (λ '(e, s), (mkEtcdDriver (mode e) CliOpen (lease e) (exit e) (leaseDV e), s));
    m ← gets (λ '(e, _), mode e);
    _ ← (if m =? 0 then ServiceRegist else mret ());
    modify (λ '(e, s), (mkEtcdDriver (mode e) (cli e) (lease e) false (leaseDV e), s))
  else mret ().

(** [Stop], in two parts: [LeaseWatch] runs beside it. *)
Definition Stop_revoke : D () :=
  l ← gets (λ '(e, _), lease e);
  match l with
  | None => mret ()
  | Some id => _ ← etcd_cmd (etcd_revoke id); mret ()
  end.

Definition Stop_close : D () := modify (λ '(e, s),
  (mkEtcdDriver (mode e) (match cli e with CliNil => CliNil | _ => CliClosed end) (lease e) true (leaseDV e), s)).

Definition Etcd_Stop : D () := _ ← Stop_revoke; Stop_close.

(** The commands the service needs all succeed. *)
Record reachable (s : E) : Prop := {
  up_get : is_Some (etcd_get key s).1;
  up_grant : ∀ s', keys s' = keys s → is_Some (etcd_grant s').1;
  up_put : ∀ s' v id, keys s' = keys s → is_Some (etcd_put key v id s').1;
}.

Lemma etcd_cmd_open {X} (cmd : E → option X * E) e s :
  cli e = CliOpen → etcd_cmd cmd (e, s) = (Ok (cmd s).1, (e, (cmd s).2)).
Proof. intros H. cbn. rewrite H. by destruct (cmd s). Qed.

Lemma ServiceRegist_ok e s :
  cli e = CliOpen → (∀ s', keys s' = keys s → is_Some (etcd_grant s').1) →
  (∀ s' v id, keys s' = keys s → is_Some (etcd_put key v id s').1) →
  ∃ id e' s', ServiceRegist (e, s) = (Ok (), (e', s')) ∧
    keys s' = <[key := id]> (keys s) ∧ (∀ k, keys s !! k ≠ Some id) ∧
    lease e' = Some id ∧ cli e' = CliOpen ∧ exit e' = exit e ∧ mode e' = mode e ∧ leaseDV e' = i64 (leaseDV e + 1).
Proof.
  intros Hc Hg Hp. destruct (Hg s eq_refl) as [id Hid]. destruct (etcd_grant s) as [r s1] eqn:E1. cbn in Hid. subst r.
  destruct (etcd_grant_ok _ _ _ E1) as [Hk1 Hf]. unfold ServiceRegist.
  rewrite (M_bind_ok _ _ _ (Some id) (e, s1)) by (rewrite etcd_cmd_open by done; by rewrite E1).
  set (e1 := mkEtcdDriver (mode e) (cli e) (Some id) (exit e) (leaseDV e)).
  rewrite (M_bind_ok _ _ _ () (e1, s1)) by done.
  set (e2 := mkEtcdDriver (mode e) (cli e) (Some id) (exit e) (i64 (leaseDV e + 1))).
  rewrite (M_bind_ok _ _ _ (pretty (i64 (leaseDV e + 1))) (e2, s1)) by done.
  destruct (Hp s1 (pretty (i64 (leaseDV e + 1))) id Hk1) as [[] Hput].
  destruct (etcd_put key (pretty (i64 (leaseDV e + 1))) id s1) as [r s2] eqn:E2. cbn in Hput. subst r.
  rewrite (M_bind_ok _ _ _ (Some ()) (e2, s2)) by (rewrite etcd_cmd_open by done; by rewrite E2).
  destruct (etcd_keepalive id s2) as [r s3] eqn:E3.
  rewrite (M_bind_ok _ _ _ r (e2, s3)) by (rewrite etcd_cmd_open by done; by rewrite E3).
  exists id, e2, s3. split; [done|]. rewrite (etcd_keepalive_ok _ _ _ _ E3), (etcd_put_ok _ _ _ _ _ E2), Hk1.
  by split_and!.
Qed.

(** A driver between [Start] and [Stop]: it has a client, or could not get one. *)
Definition driver_ok (e : EtcdDriver) : Prop := cli e = CliOpen ∨ cli e = CliNil ∧ lease e = None.

Definition has_client (es : EtcdDriver * E) : Prop := cli es.1 = CliOpen.

Lemma keep_etcd_cmd {X} (cmd : E → option X * E) : preserves has_client (etcd_cmd cmd).
Proof. intros [e s] H. unfold has_client in *. cbn in *. rewrite H. by destruct (cmd s). Qed.
Lemma keep_set_lease id : preserves has_client (set_lease id).
Proof. by intros [e s] H. Qed.
Lemma keep_NextValue : preserves has_client NextValue.
Proof. by intros [e s] H. Qed.

#[local] Hint Resolve keep_etcd_cmd keep_set_lease keep_NextValue : preserves.

Lemma keep_ServiceRegist : preserves has_client ServiceRegist.
Proof. unfold ServiceRegist. keep. Qed.

#[local] Hint Resolve keep_ServiceRegist : preserves.

Lemma keep_LeaseWatch_tick : preserves has_client LeaseWatch_tick.
Proof. unfold LeaseWatch_tick. keep. Qed.

(** What [Stop] does in any case. *)
Lemma Etcd_Stop_ok e s :
  driver_ok e → ∃ e' s', Etcd_Stop (e, s) = (Ok (), (e', s')) ∧ exit e' = true ∧ cli e' ≠ CliOpen ∧
    (∀ id s1, lease e = Some id → etcd_revoke id s = (Some (), s1) → s' = s1).
Proof.
  intros [Hc|[Hc Hl]]; unfold Etcd_Stop, Stop_revoke.
  - destruct (lease e) as [id|] eqn:Hl.
    + destruct (etcd_revoke id s) as [r s1] eqn:Hr.
      rewrite (M_bind_ok _ _ _ () (e, s1)).
      * eexists _, s1. split; [reflexivity|]. cbn. rewrite Hc. split_and!; [done|done|]. intros ? ? [= <-]. rewrite Hr. by intros [= _ <-].
      * rewrite (M_bind_ok _ _ _ (Some id) (e, s)) by (unfold gets; by rewrite Hl).
        rewrite (M_bind_ok _ _ _ r (e, s1)); [done|]. rewrite etcd_cmd_open by done. by rewrite Hr.
    + rewrite (M_bind_ok _ _ _ () (e, s)).
      * eexists _, s. split; [reflexivity|]. cbn. by rewrite Hc.
      * by rewrite (M_bind_ok _ _ _ None (e, s)) by (unfold gets; by rewrite Hl).
  - rewrite (M_bind_ok _ _ _ () (e, s)).
    + eexists _, s. split; [reflexivity|]. cbn. rewrite Hc, Hl. by split_and!.
    + by rewrite (M_bind_ok _ _ _ None (e, s)) by (unfold gets; by rewrite Hl).
Qed.

(** C31 A lost registration is renewed.  While etcd can be reached, one turn of the
    lease watch leaves the service registered whatever became of its key before:
    a key that exists is left alone, and checked again in five seconds; a missing
    one is written again, attached to a new lease that is from then on the
    driver's, with the next value, and checked again in a second.  No other key
    changes.  When etcd cannot be reached nothing changes, and the next attempt
    follows in a second. *)
Theorem lease_watch_heals (e : EtcdDriver) (s : E) :
  cli e = CliOpen →
  (reachable s → ∃ delay e' s', LeaseWatch_tick (e, s) = (Ok delay, (e', s')) ∧ cli e' = CliOpen ∧
     is_Some (keys s' !! key) ∧
     (is_Some (keys s !! key) → e' = e ∧ keys s' = keys s ∧ delay = 5) ∧
     (keys s !! key = None → ∃ id, lease e' = Some id ∧ keys s' = <[key := id]> (keys s) ∧
        (∀ k, keys s !! k ≠ Some id) ∧ leaseDV e' = i64 (leaseDV e + 1) ∧ delay = 1)) ∧
  ((etcd_get key s).1 = None → ∃ s', LeaseWatch_tick (e, s) = (Ok 1, (e, s')) ∧ keys s' = keys s).
Proof.
  intros Hc. unfold LeaseWatch_tick. destruct (etcd_get key s) as [b s1] eqn:E1.
  destruct (etcd_get_ok _ _ _ _ E1) as [Hk1 Hb].
  assert (∀ (f : option bool → D Z), (etcd_cmd (etcd_get key) ≫= f) (e, s) = f b (e, s1)) as Hbind.
  { intros f. rewrite (M_bind_ok _ _ _ b (e, s1)); [done|]. rewrite etcd_cmd_open by done. by rewrite E1. }
  rewrite Hbind. split.
  - intros [[found Hfound] Hg Hp]. rewrite E1 in Hfound. cbn in Hfound. subst b.
    specialize (Hb _ eq_refl). destruct found.
    + symmetry in Hb. apply bool_decide_eq_true in Hb. exists 5, e, s1. rewrite Hk1. split_and!; try done.
      intros Hn. rewrite Hn in Hb. by destruct Hb.
    + symmetry in Hb. apply bool_decide_eq_false in Hb.
      destruct (ServiceRegist_ok e s1 Hc) as (id & e' & s' & Er & Hk & Hf & Hl & Hc' & _ & _ & Hdv);
        [by rewrite Hk1..|].
      exists 1, e', s'. rewrite (M_bind_ok _ _ _ _ _ Er), Hk, Hk1. rewrite Hk1 in Hf. split_and!; try done.
      * rewrite lookup_insert_eq. by eexists.
      * intros _. by exists id.
  - intros Hn. cbn in Hn. subst b. by exists s1.
Qed.

(** C32 Stopping unregisters, unless the watch interferes.  When the key of the
    service is attached to the driver's lease and the lease can be revoked, [Stop]
    removes exactly the keys of that lease, the service's among them, and after
    that no turn of the watch changes anything.  But a turn of the watch between
    the revocation and the closing of the client finds the key missing and
    registers the stopped service again. *)
Theorem stop_unregisters (e : EtcdDriver) (s s1 : E) (id : Z) :
  cli e = CliOpen → lease e = Some id → keys s !! key = Some id → etcd_revoke id s = (Some (), s1) →
  (∃ e', Etcd_Stop (e, s) = (Ok (), (e', s1)) ∧ keys s1 !! key = None ∧ exit e' = true ∧
     (∀ k, keys s1 !! k = if decide (keys s !! k = Some id) then None else keys s !! k) ∧
     LeaseWatch_tick (e', s1) = (Ok 1, (e', s1))) ∧
  (reachable s1 → ∃ delay e2 s2 e3, Stop_revoke (e, s) = (Ok (), (e, s1)) ∧
     LeaseWatch_tick (e, s1) = (Ok delay, (e2, s2)) ∧ Stop_close (e2, s2) = (Ok (), (e3, s2)) ∧
     exit e3 = true ∧ is_Some (keys s2 !! key)).
Proof.
  intros Hc Hl Hk Hr. pose proof (etcd_revoke_ok _ _ _ Hr) as Hk1.
  assert (Stop_revoke (e, s) = (Ok (), (e, s1))) as Es.
  { unfold Stop_revoke. rewrite (M_bind_ok _ _ _ (Some id) (e, s)) by (unfold gets; by rewrite Hl).
    rewrite (M_bind_ok _ _ _ (Some ()) (e, s1)); [done|]. rewrite etcd_cmd_open by done. by rewrite Hr. }
  assert (∀ k, keys s1 !! k = if decide (keys s !! k = Some id) then None else keys s !! k) as Hkeys.
  { intros k. rewrite Hk1. apply option_eq. intros x. rewrite map_lookup_filter_Some. cbn.
    destruct (decide (keys s !! k = Some id)); naive_solver. }
  assert (keys s1 !! key = None) as Hgone by (by rewrite Hkeys, decide_True).
  split.
  - set (e' := mkEtcdDriver (mode e) CliClosed (lease e) true (leaseDV e)). exists e'. unfold Etcd_Stop.
    rewrite (M_bind_ok _ _ _ _ _ Es). split; [unfold Stop_close, modify; by rewrite Hc|]. by split_and!.
  - intros [[found Hfound] Hg Hp]. unfold LeaseWatch_tick. destruct (etcd_get key s1) as [b s1'] eqn:E1.
    destruct (etcd_get_ok _ _ _ _ E1) as [Hk' Hb]. cbn in Hfound. subst b. rewrite (Hb _ eq_refl) in E1. clear Hb.
    rewrite bool_decide_eq_false_2 in E1 by (rewrite Hgone; by intros [? ?]).
    destruct (ServiceRegist_ok e s1' Hc) as (id' & e2 & s2 & Er & Hk2 & _); [by rewrite Hk'..|].
    eexists 1, e2, s2, _. split; [exact Es|]. split.
    + rewrite (M_bind_ok _ _ _ (Some false) (e, s1')) by (rewrite etcd_cmd_open by done; by rewrite E1).
      by rewrite (M_bind_ok _ _ _ _ _ Er).
    + split; [done|]. split; [done|]. rewrite Hk2, lookup_insert_eq. by eexists.
Qed.

End Registration.

(** ** A concrete etcd

    Keys in a finite map; a lease is the number of those granted before it. *)
Module EtcdDemo.

Record store := mkStore { s_keys : gmap string Z; s_next : Z }.

Definition demo_grant (s : store) : option Z * store :=
  if decide (map_Forall (λ _ id, id ≠ s_next s) (s_keys s))
  then (Some (s_next s), mkStore (s_keys s) (s_next s + 1)) else (None, s).

#[export, refine] Instance map_etcd : Etcd store := {|
  keys := s_keys;
  etcd_grant := demo_grant;
  etcd_put k v id s := (Some (), mkStore (<[k := id]> (s_keys s)) (s_next s));
  etcd_get k s := (Some (bool_decide (is_Some (s_keys s !! k))), s);
  etcd_keepalive id s := (Some (), s);
  etcd_revoke id s := (Some (), mkStore (filter (λ x, x.2 ≠ id) (s_keys s)) (s_next s));
|}.
Proof.
  - intros s id s'. unfold demo_grant. destruct (decide _) as [H|H]; [|discriminate 1]. intros [= <- <-].
    split; [done|]. intros k Hk. by apply (H k (s_next s)).
  - by intros k v id s s' [= <-].
  - intros k s b s' [= <- <-]. split; [done|]. by intros found [= <-].
  - by intros id s r s' [= _ <-].
  - by intros id s s' [= <-].
Defined.

Definition demo_cfg : GlobalConfig := mkGlobalCfg "ns" "ServiceA" 8001 "INFO" [] [].
Definition demo_key : string := "/ms/ns/ServiceA/10.0.0.1:8001".

(** The service registered under lease 0; the store after its key expired. *)
Definition demo_driver : EtcdDriver := mkEtcdDriver 0 CliOpen (Some 0) false 1.
Definition demo_store : store := mkStore {[demo_key := 0]} 1.

Lemma lease_watch_heals_witness :
  ∃ e', LeaseWatch_tick demo_cfg "10.0.0.1" (demo_driver, mkStore ∅ 1) = (Ok 1, (e', mkStore {[demo_key := 1]} 2)).
Proof.
  destruct (lease_watch_heals demo_cfg "10.0.0.1" demo_driver (mkStore ∅ 1) eq_refl) as [H _].
  destruct H as (delay & e' & s' & E & _).
  - split.
    + by eexists.
    + intros s' Hs. cbn in Hs |- *. unfold demo_grant. rewrite decide_True; [by eexists|].
      rewrite Hs. by intros k id.
    + intros s' v id _. by eexists.
  - vm_compute in E. eexists. vm_compute. reflexivity.
Defined.

Lemma stop_unregisters_witness :
  ∃ e', Etcd_Stop (demo_driver, demo_store) = (Ok (), (e', mkStore ∅ 1)) ∧ exit e' = true.
Proof.
  destruct (stop_unregisters demo_cfg "10.0.0.1" demo_driver demo_store (mkStore ∅ 1) 0) as [(e' & H & _ & Hx & _) _].
  - reflexivity.
  - reflexivity.
  - vm_compute. reflexivity.
  - vm_compute. reflexivity.
  - exists e'. split; [exact H|exact Hx].
Defined.

End EtcdDemo.

(** ** Discovery *)

Inductive EventType := EventTypePut | EventTypeDelete | EventTypeOther.

(** What an event of the watch does to the routes; [now] and [dials] are the
    clock and the outcomes of the connection attempts. *)
Definition watch_event (now : Z) (dials : list (option Conn)) (typ : EventType) (key : string)
    : result (option rm_op) :=
  '(namespace, service, ip, port) ← parse_key key;
  match typ with
  | EventTypePut => Ok (Some (OpDiscover now dials namespace service ip port))
  | EventTypeDelete => Ok (Some (OpDisappear namespace service ip port))
  | EventTypeOther => Ok None
  end.

(** An event of a watch response, with clock and connection attempts of the goroutine
    that handles it. *)
Record WatchEvent := mkWatchEvent {
  ev_Type : EventType; ev_Key : string; ev_now : Z; ev_dials : list (option Conn);
}.

(** The goroutines the events of one response start, in their order. *)
Fixpoint watch_response (evs : list WatchEvent) : result (list rm_op) :=
  match evs with
  | [] => Ok []
  | ev :: evs =>
      op ← watch_event (ev_now ev) (ev_dials ev) (ev_Type ev) (ev_Key ev);
      ops ← watch_response evs;
      Ok (option_list op ++ ops)
  end.

(** [ServiceWatch] on the responses it receives. *)
Fixpoint ServiceWatch (watchChan : list (list WatchEvent)) : result (list rm_op) :=
  match watchChan with
  | [] => Ok []
  | wrsp :: watchChan =>
      ops ← watch_response wrsp;
      ops' ← ServiceWatch watchChan;
      Ok (ops ++ ops')
  end.

(** The full listing that is repeated every ten minutes. *)
Fixpoint discover_keys (now : Z) (kvs : list (string * list (option Conn))) : result (list rm_op) :=
  match kvs with
  | [] => Ok []
  | (key, dials) :: kvs =>
      '(namespace, service, ip, port) ← parse_key key;
      ops ← discover_keys now kvs;
      Ok (OpDiscover now dials namespace service ip port :: ops)
  end.

(** One turn of [ServiceDiscover] on what [Get] returned, [None] on an error: the
    changes of the routes and the seconds to the next turn. *)
Definition ServiceDiscover_tick (now : Z) (rsp : option (list (string * list (option Conn))))
    : result (list rm_op * Z) :=
  match rsp with
  | None => Ok ([], 5)
  | Some kvs => ops ← discover_keys now kvs; Ok (ops, 60 * 10)
  end.

(** The key of a service is parsed back to its parts. *)
Lemma parse_service_key (cfg : GlobalConfig) (ip : string) :
  lacks "/" (Namespace cfg) = true → lacks "/" (Service cfg) = true →
  lacks "/" ip = true → lacks ":" ip = true → 0 ≤ cfg_Port cfg < 2 ^ 32 →
  parse_key (GenEtcdServiceKey cfg ip) = Ok (Namespace cfg, Service cfg, ip, cfg_Port cfg).
Proof.
  intros Hns Hsv Hip Hip' Hport. set (port := cfg_Port cfg) in *.
  assert (lacks "/" (ip +:+ ":" +:+ pretty port) = true) as Hl.
  { rewrite lacks_app, Hip. cbn. apply lacks_pretty; [lia|done]. }
  unfold parse_key, GenEtcdServiceKey. fold port.
  assert (go_split "/" (Namespace cfg +:+ "/" +:+ Service cfg +:+ "/" +:+ ip +:+ ":" +:+ pretty port)
          = [Namespace cfg; Service cfg; ip +:+ ":" +:+ pretty port]) as Es.
  { change (Namespace cfg +:+ "/" +:+ ?x) with (Namespace cfg +:+ String "/" x).
    rewrite go_split_cons by done.
    change (Service cfg +:+ "/" +:+ ?x) with (Service cfg +:+ String "/" x).
    rewrite go_split_cons by done. by rewrite go_split_lacks. }
  change (go_split "/" ("/ms/" +:+ ?x)) with ([EmptyString; "ms"] ++ go_split "/" x).
  rewrite Es. set (addr := ip +:+ ":" +:+ pretty port). cbn [app].
  change (go_index [EmptyString; "ms"; Namespace cfg; Service cfg; addr] 2) with (Ok (Namespace cfg)).
  change (go_index [EmptyString; "ms"; Namespace cfg; Service cfg; addr] 3) with (Ok (Service cfg)).
  change (go_index [EmptyString; "ms"; Namespace cfg; Service cfg; addr] 4) with (Ok addr).
  rewrite !bind_ok. unfold addr. change (":" +:+ pretty port) with (String ":" (pretty port)).
  rewrite go_split_cons, go_split_lacks by (done || (apply lacks_pretty; [lia|done])).
  change (go_index [ip; pretty port] 0) with (Ok ip). change (go_index [ip; pretty port] 1) with (Ok (pretty port)).
  rewrite !bind_ok.
  rewrite Atoi_pretty by lia. cbn [fst]. by rewrite u32_small by lia.
Qed.

(** C39 Registration and discovery agree.  The key under which a service with an
    address registers is parsed back by a gate to exactly its namespace, name,
    ip and port; so a put event makes the gate connect to that address for that
    service, and the matching delete event unregisters exactly that connection.
    The keys a gate watches include it. *)
Theorem discovery_roundtrip (cfg : GlobalConfig) (ip : string) (now : Z) (dials : list (option Conn)) :
  lacks "/" (Namespace cfg) = true → lacks "/" (Service cfg) = true →
  lacks "/" ip = true → lacks ":" ip = true → 0 ≤ cfg_Port cfg < 2 ^ 32 →
  let port := cfg_Port cfg in
  let key := GenEtcdServiceKey cfg ip in
  parse_key key = Ok (Namespace cfg, Service cfg, ip, port) ∧
  watch_event now dials EventTypePut key =
    Ok (Some (OpDiscover now dials (Namespace cfg) (Service cfg) ip port)) ∧
  watch_event now dials EventTypeDelete key = Ok (Some (OpDisappear (Namespace cfg) (Service cfg) ip port)) ∧
  op_removes (OpDisappear (Namespace cfg) (Service cfg) ip port) = Some (GenConnIDByIPPort ip port) ∧
  String.prefix (GenEtcdWatchKey cfg) key = true.
Proof.
  intros Hns Hsv Hip Hip' Hport port key.
  pose proof (parse_service_key cfg ip Hns Hsv Hip Hip' Hport : parse_key key = _) as Hp.
  split; [done|]. unfold watch_event. rewrite Hp. split_and!; [done..|].
  apply (prefix_append (Namespace cfg)).
Qed.

(** Keys that are not addresses.  A key below the watched prefix with fewer
    parts than a service key makes the gate's watch panic; and the prefix also
    covers every namespace whose name starts with the gate's. *)
Theorem watch_prefix_too_wide (cfg cfg' : GlobalConfig) (ip suffix : string) (now : Z)
    (dials : list (option Conn)) (typ : EventType) :
  lacks "/" (Namespace cfg) = true → Namespace cfg' = Namespace cfg +:+ suffix →
  String.prefix (GenEtcdWatchKey cfg) (GenEtcdServiceKey cfg' ip) = true ∧
  watch_event now dials typ (GenEtcdWatchKey cfg) = Panic IndexOutOfRange.
Proof.
  intros Hl Hns. split.
  - unfold GenEtcdServiceKey. rewrite Hns, append_assoc. apply (prefix_append (Namespace cfg)).
  - unfold watch_event, parse_key, GenEtcdWatchKey.
    change (go_split "/" ("/ms/" +:+ Namespace cfg)) with ([EmptyString; "ms"] ++ go_split "/" (Namespace cfg)).
    by rewrite go_split_lacks.
Qed.

Lemma discovery_roundtrip_witness :
  parse_key (GenEtcdServiceKey (mkGlobalCfg "ns" "ServiceA" 8001 "INFO" [] []) "10.0.0.1")
  = Ok ("ns", "ServiceA", "10.0.0.1", 8001).
Proof.
  apply (discovery_roundtrip (mkGlobalCfg "ns" "ServiceA" 8001 "INFO" [] []) "10.0.0.1" 0 []);
    [reflexivity..|split; [discriminate|reflexivity]].
Defined.
