(* ===== verification/Discovery.v ===== *)
(** * A gate follows the registry ([src/ms_framework/msf_etcd_driver.go],
    [src/ms_framework/msf_remote_mgr.go])

    A gate learns of the instances of its services from etcd: it lists the keys
    below its namespace and watches their changes, and every change becomes a
    goroutine that connects to an instance or drops it.  The specification is the
    set of registered keys: the route table refines it when the goroutines run in
    the order of the events.  They need not: then an instance may be missing until
    the next listing. *)

From S2P Require Import Prelude Strconv LoadBalancer RemoteMgr World Etcd.
From Stdlib Require Import Ascii.

Local Open Scope Z_scope.

Section Discovery.
  Context {L : Type} `{!Balancer L} (RECV_BUF_MAX_LEN : Z).
  Context (svc_of : CONN_ID → REMOTE_ID).   (** the service of each address *)

Implicit Types rm : RemoteMgr (L := L).

(** ** Instances *)

(** An instance of a service: its configuration and its address. *)
Record Instance := mkInstance { i_cfg : GlobalConfig; i_ip : string }.

Definition inst_key (i : Instance) : string := GenEtcdServiceKey (i_cfg i) (i_ip i).
Definition inst_conn (i : Instance) : CONN_ID := GenConnIDByIPPort (i_ip i) (cfg_Port (i_cfg i)).
Definition inst_svc (i : Instance) : REMOTE_ID := GetRemoteID (Namespace (i_cfg i)) (Service (i_cfg i)).

(** Names and addresses without separators, and one service per address. *)
Record inst_ok (i : Instance) : Prop := {
  io_ns : lacks "/" (Namespace (i_cfg i)) = true ∧ lacks ":" (Namespace (i_cfg i)) = true;
  io_svc : lacks "/" (Service (i_cfg i)) = true;
  io_ip : lacks "/" (i_ip i) = true ∧ lacks ":" (i_ip i) = true;
  io_port : 0 ≤ cfg_Port (i_cfg i) < 2 ^ 32;
  io_deployed : svc_of (inst_conn i) = inst_svc i;
}.

Lemma inst_key_parse i :
  inst_ok i →
  parse_key (inst_key i) = Ok (Namespace (i_cfg i), Service (i_cfg i), i_ip i, cfg_Port (i_cfg i)).
Proof. intros [[? _] ? [? ?] ? _]. by apply parse_service_key. Qed.

(** A service name is found behind the first colon of a remote id. *)
Lemma GetRemoteID_inj ns svc ns' svc' :
  lacks ":" ns = true → lacks ":" ns' = true → GetRemoteID ns svc = GetRemoteID ns' svc' → ns = ns' ∧ svc = svc'.
Proof.
  unfold GetRemoteID. revert ns'. induction ns as [|a ns IH]; intros [|b ns'] H H' E; cbn in *.
  - by injection E.
  - by injection E as <- E.
  - by injection E as -> E.
  - injection E as <- E. destruct (bool_decide (a = ":"%char)); [done|]. by destruct (IH ns' H H' E) as [-> ->].
Qed.

(** Key and address of an instance determine each other. *)
Lemma inst_key_conn i j :
  inst_ok i → inst_ok j → inst_key i = inst_key j ↔ inst_conn i = inst_conn j.
Proof.
  intros Hi Hj. split.
  - intros E. pose proof (inst_key_parse _ Hi) as Pi. rewrite E, (inst_key_parse _ Hj) in Pi.
    unfold inst_conn. congruence.
  - intros E. pose proof (io_deployed _ Hi) as Si. rewrite E, (io_deployed _ Hj) in Si.
    destruct Hi as [[_ Hi] _ _ _ _], Hj as [[_ Hj] _ _ _ _]. destruct (GetRemoteID_inj _ _ _ _ Hj Hi Si) as [En Es].
    unfold inst_key, GenEtcdServiceKey. unfold inst_conn, GenConnIDByIPPort in E. by rewrite En, Es, E.
Qed.

(** ** The registry *)

(** A change of the keys below the namespace, and what the gate meets when it
    handles it. *)
Inductive reg_event :=
  | Registered (i : Instance) (now : Z) (dials : list (option Conn))
  | Removed (i : Instance).

Definition watch_of (e : reg_event) : WatchEvent :=
  match e with
  | Registered i now dials => mkWatchEvent EventTypePut (inst_key i) now dials
  | Removed i => mkWatchEvent EventTypeDelete (inst_key i) 0 []
  end.

Definition registry_step (K : gset string) (e : reg_event) : gset string :=
  match e with
  | Registered i _ _ => {[inst_key i]} ∪ K
  | Removed i => K ∖ {[inst_key i]}
  end.

Definition event_ok (e : reg_event) : Prop :=
  match e with
  | Registered i _ dials => inst_ok i ∧ dials_ok dials
  | Removed i => inst_ok i
  end.

(** The goroutine that handles an event. *)
Definition op_of (e : reg_event) : rm_op :=
  match e with
  | Registered i now dials =>
      OpDiscover now dials (Namespace (i_cfg i)) (Service (i_cfg i)) (i_ip i) (cfg_Port (i_cfg i))
  | Removed i => OpDisappear (Namespace (i_cfg i)) (Service (i_cfg i)) (i_ip i) (cfg_Port (i_cfg i))
  end.

(** The connected instances are the registered ones. *)
Record mirrors (K : gset string) rm : Prop := {
  mi_deployed : rm_deployed svc_of rm;
  mi_keys : ∀ i, inst_ok i → inst_key i ∈ K ↔ inst_conn i ∈ dom (remotes rm);
  mi_known : ∀ c, c ∈ dom (remotes rm) → ∃ i, inst_ok i ∧ inst_conn i = c;
}.

Lemma watch_event_of e :
  event_ok e → watch_event (ev_now (watch_of e)) (ev_dials (watch_of e)) (ev_Type (watch_of e)) (ev_Key (watch_of e))
  = Ok (Some (op_of e)).
Proof.
  intros He. destruct e as [i now dials|i]; unfold watch_event; cbn [watch_of ev_now ev_dials ev_Type ev_Key op_of event_ok] in *.
  - by rewrite (inst_key_parse i) by apply He.
  - by rewrite (inst_key_parse i).
Qed.

Lemma watch_response_of evs : Forall event_ok evs → watch_response (watch_of <$> evs) = Ok (op_of <$> evs).
Proof.
  induction 1 as [|e evs He _ IH]; [done|]. rewrite !fmap_cons. cbn [watch_response].
  by rewrite watch_event_of, bind_ok, IH, bind_ok.
Qed.

Lemma ServiceWatch_of (rsps : list (list reg_event)) :
  Forall (Forall event_ok) rsps → ServiceWatch ((λ evs : list reg_event, watch_of <$> evs) <$> rsps) = Ok (op_of <$> concat rsps).
Proof.
  induction 1 as [|evs rsps He _ IH]; [done|]. rewrite fmap_cons. cbn [ServiceWatch concat].
  by rewrite watch_response_of, bind_ok, IH, bind_ok, fmap_app.
Qed.

(** What one goroutine does to the connected instances. *)
Lemma run_op_dom e rm :
  rm_deployed svc_of rm → event_ok e →
  ∃ rm', run_op RECV_BUF_MAX_LEN rm (op_of e) = Ok rm' ∧ rm_deployed svc_of rm' ∧
    dom (remotes rm') = match e with
                        | Registered i _ _ => {[inst_conn i]} ∪ dom (remotes rm)
                        | Removed i => dom (remotes rm) ∖ {[inst_conn i]}
                        end.
Proof.
  intros Hd He. destruct (run_op_deployed RECV_BUF_MAX_LEN svc_of rm (op_of e)) as (rm' & E & Hd'); [done| |].
  { destruct e as [i now dials|i]; cbn in *; apply (io_deployed i); [apply He|exact He]. }
  exists rm'. split; [done|]. split; [done|]. destruct e as [i now dials|i]; cbn in E, He.
  - injection E as <-. apply OnRemoteDiscover_dom; [apply Hd|apply He].
  - destruct (OnRemoteDisappear_ok (inst_svc i) (inst_conn i) rm) as (rm2 & E2 & _ & Hr & _).
    { apply Hd. }
    { intros r Hr. by rewrite (rd_svc _ _ Hd _ _ Hr), (io_deployed i He). }
    unfold inst_svc, inst_conn in E2. rewrite E2 in E. injection E as <-. by rewrite Hr, dom_delete_L.
Qed.

Lemma mirrors_step K rm e :
  mirrors K rm → event_ok e →
  ∃ rm', run_op RECV_BUF_MAX_LEN rm (op_of e) = Ok rm' ∧ mirrors (registry_step K e) rm'.
Proof.
  intros [Hd Hk Hn] He. destruct (run_op_dom e rm Hd He) as (rm' & E & Hd' & Hdom). exists rm'. split; [done|].
  split; [done| |]; rewrite Hdom.
  - intros j Hj. destruct e as [i now dials|i]; cbn.
    + rewrite !elem_of_union, !elem_of_singleton, (Hk j Hj), (inst_key_conn j i) by (done || apply He). done.
    + rewrite !elem_of_difference, !elem_of_singleton, (Hk j Hj), (inst_key_conn j i) by done. done.
  - intros c Hc. destruct e as [i now dials|i].
    + apply elem_of_union in Hc as [->%elem_of_singleton|Hc]; [|by apply Hn]. exists i. split; [apply He|done].
    + apply elem_of_difference in Hc as [Hc _]. by apply Hn.
Qed.

Lemma mirrors_run evs : ∀ K rm,
  mirrors K rm → Forall event_ok evs →
  ∃ rm', foldM (run_op RECV_BUF_MAX_LEN) (op_of <$> evs) rm = Ok rm' ∧ mirrors (foldl registry_step K evs) rm'.
Proof.
  induction evs as [|e evs IH]; intros K rm Hm Hok; [by exists rm|]. apply Forall_cons in Hok as [He Hok].
  destruct (mirrors_step K rm e Hm He) as (rm1 & E & Hm1). rewrite fmap_cons. cbn [foldM foldl]. rewrite E. cbn.
  by apply IH.
Qed.

(** A request for a service goes to a registered instance of it. *)
Lemma mirrors_choice K rm rid ord cl :
  mirrors K rm → ∃ o rm', ChoiceRemote rid ord cl rm = Ok (o, rm') ∧
    match o with
    | Some r => ∃ i, inst_ok i ∧ inst_svc i = rid ∧ inst_key i ∈ K ∧ remotes rm !! inst_conn i = Some r
    | None => ∀ i, inst_ok i → inst_svc i = rid → inst_key i ∉ K
    end.
Proof.
  intros [Hd Hk Hn]. destruct (ChoiceRemote_spec svc_of rm rid ord cl Hd) as (o & rm' & E & _ & _ & Hr).
  exists o, rm'. split; [done|]. destruct o as [r|]; cbn in Hr.
  - destruct Hr as (c & [Hc Hid]%instances_Some). destruct (Hn c) as (i & Hi & <-); [by apply elem_of_dom_2 in Hc|].
    exists i. split_and!; [done| |apply Hk; [done|by apply elem_of_dom_2 in Hc]|done].
    by rewrite <- (io_deployed i Hi), <- (rd_svc _ _ Hd _ _ Hc).
  - intros i Hi Hs [r Hc]%(Hk i Hi)%elem_of_dom.
    assert (instances rid rm !! inst_conn i = Some r) as Hin.
    { apply instances_Some. split; [done|]. by rewrite (rd_svc _ _ Hd _ _ Hc), (io_deployed i Hi). }
    by rewrite Hr in Hin.
Qed.


(** ** Listings *)

Lemma discover_keys_of now ins :
  Forall (λ x : Instance * list (option Conn), inst_ok x.1) ins →
  discover_keys now ((λ x, (inst_key x.1, x.2)) <$> ins) = Ok ((λ x, op_of (Registered x.1 now x.2)) <$> ins).
Proof.
  induction 1 as [|[i dials] ins Hi _ IH]; [done|]. rewrite !fmap_cons. cbn [discover_keys fst snd].
  by rewrite (inst_key_parse i Hi), bind_ok, IH, bind_ok.
Qed.

Lemma listing_run now ins : ∀ rm,
  rm_deployed svc_of rm → Forall (λ x : Instance * list (option Conn), inst_ok x.1 ∧ dials_ok x.2) ins →
  ∃ rm', foldM (run_op RECV_BUF_MAX_LEN) ((λ x, op_of (Registered x.1 now x.2)) <$> ins) rm = Ok rm' ∧
    rm_deployed svc_of rm' ∧ dom (remotes rm') = dom (remotes rm) ∪ list_to_set (inst_conn <$> ins.*1).
Proof.
  induction ins as [|[i dials] ins IH]; intros rm Hd Hok.
  { exists rm. split; [done|]. split; [done|]. cbn. set_solver. }
  apply Forall_cons in Hok as [Hi Hok].
  destruct (run_op_dom (Registered i now dials) rm Hd Hi) as (rm1 & E & Hd1 & Hdom).
  destruct (IH rm1 Hd1 Hok) as (rm' & E' & Hd' & Hdom'). exists rm'. rewrite !fmap_cons. cbn [foldM fst snd]. rewrite E. cbn [mbind result_bind].
  split; [done|]. split; [done|]. rewrite Hdom', Hdom. cbn. set_solver.
Qed.

(** Events out of order.  The events are handled by goroutines of their own.  When
    a connected instance is removed and registered again, as after an expired lease,
    and the two goroutines run in the other order, the gate is left without a route to
    an instance that is registered; the next full listing, at most ten minutes later,
    connects it again, and whatever else was connected stays so. *)
Theorem restart_missed (i : Instance) (now : Z) (dials : list (option Conn)) (K : gset string) rm
    (ins : list (Instance * list (option Conn))) :
  mirrors K rm → inst_ok i → inst_key i ∈ K → dials_ok dials →
  Forall (λ x, inst_ok x.1 ∧ dials_ok x.2) ins → i ∈ ins.*1 →
  let evs := [Removed i; Registered i now dials] in
  inst_key i ∈ foldl registry_step K evs ∧
  ∃ remove register rm1 ops rm2,
    ServiceWatch [watch_of <$> evs] = Ok [remove; register] ∧
    foldM (run_op RECV_BUF_MAX_LEN) [register; remove] rm = Ok rm1 ∧
    dom (remotes rm1) = dom (remotes rm) ∖ {[inst_conn i]} ∧
    ServiceDiscover_tick now (Some ((λ x, (inst_key x.1, x.2)) <$> ins)) = Ok (ops, 600) ∧
    foldM (run_op RECV_BUF_MAX_LEN) ops rm1 = Ok rm2 ∧
    dom (remotes rm2) = dom (remotes rm1) ∪ list_to_set (inst_conn <$> ins.*1) ∧ inst_conn i ∈ dom (remotes rm2).
Proof.
  intros Hm Hi HK Hd Hins Hin evs. split; [cbn; set_solver|].
  assert (event_ok (Registered i now dials)) as He by done.
  destruct (run_op_dom _ rm (mi_deployed _ _ Hm) He) as (rm0 & E0 & Hd0 & Hdom0).
  destruct (run_op_dom (Removed i) rm0 Hd0 Hi) as (rm1 & E1 & Hd1 & Hdom1).
  destruct (listing_run now ins rm1 Hd1 Hins) as (rm2 & E2 & Hd2 & Hdom2).
  eexists (op_of (Removed i)), (op_of (Registered i now dials)), rm1, _, rm2. split.
  { apply (ServiceWatch_of [evs]). apply Forall_singleton, Forall_cons. split; [exact Hi|by apply Forall_singleton]. }
  split; [cbn [foldM]; rewrite E0; cbn [mbind result_bind]; by rewrite E1|]. split.
  { rewrite Hdom1, Hdom0. set_solver. }
  split.
  { cbn [ServiceDiscover_tick]. rewrite discover_keys_of, bind_ok; [done|]. eapply Forall_impl; [exact Hins|]. by intros x []. }
  split; [done|]. split; [done|]. rewrite Hdom2. apply elem_of_union_r, elem_of_list_to_set. by apply list_elem_of_fmap_2.
Qed.

End Discovery.

(** ** Witnesses *)
Module DiscoveryDemo.

Definition service_a : Instance := mkInstance (mkGlobalCfg "ns" "ServiceA" 8001 "INFO" [] []) "10.0.0.1".
Definition dialled_a : list (option Conn) := [None; Some (mkConn 1 "10.0.0.1:8001")].

Definition svc_of_a (c : CONN_ID) : REMOTE_ID := "ns:ServiceA".

Lemma service_a_ok : inst_ok svc_of_a service_a.
Proof. split; [split; reflexivity|reflexivity|split; reflexivity|split; [discriminate|reflexivity]|reflexivity]. Qed.

Lemma dialled_a_ok : dials_ok dialled_a.
Proof. exists 1%nat. eexists. split; [lia|reflexivity]. Qed.

Lemma mirrors_start : mirrors (L := LoadBalancer) svc_of_a ∅ CreateRemoteMgr.
Proof. split; [apply CreateRemoteMgr_deployed|by intros i _; cbn; rewrite dom_empty_L|by intros c]. Qed.

Definition connected_a : RemoteMgr (L := LoadBalancer) :=
  from_ok CreateRemoteMgr (run_op 16 CreateRemoteMgr (op_of (Registered service_a 0 dialled_a))).

Lemma mirrors_connected : mirrors svc_of_a {[inst_key service_a]} connected_a.
Proof.
  destruct (mirrors_step 16 svc_of_a ∅ CreateRemoteMgr (Registered service_a 0 dialled_a) mirrors_start) as (rm & E & H).
  { split; [apply service_a_ok|apply dialled_a_ok]. }
  unfold connected_a. rewrite E. cbn in H. by rewrite union_empty_r_L in H.
Qed.


Lemma restart_missed_witness :
  ∃ remove register rm1,
    ServiceWatch [watch_of <$> [Removed service_a; Registered service_a 5 dialled_a]] = Ok [remove; register] ∧
    foldM (run_op 16) [register; remove] connected_a = Ok rm1 ∧ inst_conn service_a ∉ dom (remotes rm1).
Proof.
  destruct (restart_missed 16 svc_of_a service_a 5 dialled_a {[inst_key service_a]} connected_a [(service_a, dialled_a)]
    mirrors_connected service_a_ok) as (_ & remove & register & rm1 & ops & rm2 & E1 & E2 & Hd & _).
  - set_solver.
  - apply dialled_a_ok.
  - apply Forall_singleton. split; [apply service_a_ok|apply dialled_a_ok].
  - cbn. set_solver.
  - exists remove, register, rm1. split; [exact E1|]. split; [exact E2|]. rewrite Hd. set_solver.
Defined.

End DiscoveryDemo.
