(* ===== verification/Lifecycle.v ===== *)
(** * Logging, configuration, databases and profiling

    [src/ms_framework/msf_log.go], [msf_config.go], [msf_db_driver.go],
    [msf_profile.go] and [GetLocalIP] of [msf_utils.go].  What the
    operating system and the databases answer (the content of a file, the outcome
    of a dial, of a ping, of opening a file) is an input. *)

From S2P Require Import Prelude Utils Wire Msgpack LoadBalancer CallbackMgr RemoteMgr World SimpleRpc TcpServer.
From S2P Require Import FlowCounter Etcd.
From Stdlib Require Import Ascii Sorted.

Local Open Scope Z_scope.

(** ** Logging *)
Module Log.

Definition LOG_LEVEL_DEBUG : Z := 1.
Definition LOG_LEVEL_INFO : Z := 2.
Definition LOG_LEVEL_WARN : Z := 3.
Definition LOG_LEVEL_ERROR : Z := 4.

Definition LOG_LEVEL_DICT : gmap string Z := {["DEBUG" := 1; "INFO" := 2; "WARN" := 3; "ERROR" := 4]}.

(** The new [gLogLevel]. *)
Definition SetLogLevel (level : string) : Z :=
  match LOG_LEVEL_DICT !! level with
  | None => LOG_LEVEL_DEBUG
  | Some l => l
  end.

(** The line that is sent to the printing goroutine, if any; [now] and [logBody]
    are the formatted time and message. *)
Definition LOG (gLogLevel : Z) (cfg : GlobalConfig) (now level logBody : string) : option string :=
  let ll := default 0 (LOG_LEVEL_DICT !! level) in
  if ll <? gLogLevel then None
  else
    let sep := if (ll =? LOG_LEVEL_DEBUG) || (ll =? LOG_LEVEL_ERROR) then "] - [" else "]  - [" in
    Some (now +:+ " - [" +:+ level +:+ sep +:+ Namespace cfg +:+ ":" +:+ Service cfg +:+ "] - " +:+ logBody +:+
          String "010" EmptyString).

Definition DEBUG_LOG (gLogLevel : Z) (cfg : GlobalConfig) (now logBody : string) : option string :=
  LOG gLogLevel cfg now "DEBUG" logBody.
Definition INFO_LOG (gLogLevel : Z) (cfg : GlobalConfig) (now logBody : string) : option string :=
  LOG gLogLevel cfg now "INFO" logBody.
Definition WARN_LOG (gLogLevel : Z) (cfg : GlobalConfig) (now logBody : string) : option string :=
  LOG gLogLevel cfg now "WARN" logBody.
Definition ERROR_LOG (gLogLevel : Z) (cfg : GlobalConfig) (now logBody : string) : option string :=
  LOG gLogLevel cfg now "ERROR" logBody.

(** The levels, from the least to the most severe. *)
Definition levels : list string := ["DEBUG"; "INFO"; "WARN"; "ERROR"].

(** After [SetLogLevel] of a level exactly the messages of that level and of more
    severe ones are printed; an unknown level lets everything through. *)
Lemma log_threshold i j set level cfg now body :
  levels !! i = Some set → levels !! j = Some level →
  is_Some (LOG (SetLogLevel set) cfg now level body) ↔ (i ≤ j)%nat.
Proof.
  intros Hi Hj.
  destruct i as [|[|[|[|i]]]]; try discriminate Hi; injection Hi as <-;
  destruct j as [|[|[|[|j]]]]; try discriminate Hj; injection Hj as <-;
  (split; [intros [x Hx]; try lia; discriminate Hx|intros; try lia; by eexists]).
Qed.

Lemma log_unknown set level cfg now body :
  LOG_LEVEL_DICT !! set = None → level ∈ levels → is_Some (LOG (SetLogLevel set) cfg now level body).
Proof.
  intros Hs Hl. unfold SetLogLevel. rewrite Hs. unfold levels in Hl. rewrite !elem_of_cons in Hl.
  destruct Hl as [->|[->|[->|[->|?%not_elem_of_nil]]]]; [by eexists..|done].
Qed.

(** ** The order of the lines

    [LOG] takes the time, and then sends the line on a channel without buffer to the
    goroutine that prints; until that receives it the caller waits. *)

Record LogSys := mkLogSys {
  lg_now : Z;
  lg_waiting : gmap positive (Z * string);       (** the line a goroutine sends, with its time *)
  lg_printed : list (positive * Z * string);
}.

Inductive log_label :=
  | LogTime (d : Z)
  | LogCall (g : positive) (level body : string)
  | LogPrint (g : positive).                     (** [logCh] receives from [g] *)

Definition log_exec (gLogLevel : Z) (cfg : GlobalConfig) (format : Z → string) (l : log_label) (s : LogSys) : option LogSys :=
  match l with
  | LogTime d => if 0 <=? d then Some (mkLogSys (lg_now s + d) (lg_waiting s) (lg_printed s)) else None
  | LogCall g level body =>
      match lg_waiting s !! g with
      | Some _ => None
      | None =>
          match LOG gLogLevel cfg (format (lg_now s)) level body with
          | None => Some s
          | Some line => Some (mkLogSys (lg_now s) (<[g := (lg_now s, line)]> (lg_waiting s)) (lg_printed s))
          end
      end
  | LogPrint g =>
      match lg_waiting s !! g with
      | None => None
      | Some (t, line) =>
          Some (mkLogSys (lg_now s) (delete g (lg_waiting s)) (lg_printed s ++ [(g, t, line)]))
      end
  end.

Fixpoint log_run (gLogLevel : Z) (cfg : GlobalConfig) (format : Z → string) (ls : list log_label) (s : LogSys) : option LogSys :=
  match ls with
  | [] => Some s
  | l :: ls => log_exec gLogLevel cfg format l s ≫= log_run gLogLevel cfg format ls
  end.

(** The times of the lines of a goroutine. *)
Definition times_of (g : positive) (printed : list (positive * Z * string)) : list Z :=
  (λ x, x.1.2) <$> filter (λ x, x.1.1 = g) printed.

Record log_inv (s : LogSys) : Prop := {
  li_sorted : ∀ g, StronglySorted Z.le (times_of g (lg_printed s));
  li_waiting : ∀ g t line, lg_waiting s !! g = Some (t, line) →
    t ≤ lg_now s ∧ Forall (λ t', t' ≤ t) (times_of g (lg_printed s));
  li_printed : ∀ g, Forall (λ t, t ≤ lg_now s) (times_of g (lg_printed s));
}.

Lemma times_of_snoc g g' t line printed :
  times_of g (printed ++ [(g', t, line)]) = times_of g printed ++ (if decide (g' = g) then [t] else []).
Proof. unfold times_of. rewrite filter_app, fmap_app, filter_cons, filter_nil. cbn. by case_decide. Qed.

Lemma StronglySorted_snoc (ts : list Z) t :
  StronglySorted Z.le ts → Forall (λ t', t' ≤ t) ts → StronglySorted Z.le (ts ++ [t]).
Proof.
  induction 1 as [|t0 ts Hs IH Hf]; intros Hle; cbn; [by repeat constructor|]. apply Forall_cons in Hle as [H0 Hle].
  constructor; [by apply IH|]. apply Forall_app. by split; [|repeat constructor].
Qed.

Lemma log_exec_inv lv cfg format l s s' : log_inv s → log_exec lv cfg format l s = Some s' → log_inv s'.
Proof.
  intros [Hs Hw Hp]. destruct l as [d|g level body|g]; cbn [log_exec].
  - destruct (Z.leb_spec 0 d); [|done]. intros [= <-]. split; cbn [lg_now lg_waiting lg_printed]; [done| |].
    + intros g t line Hl. destruct (Hw g t line Hl). split; [lia|done].
    + intros g. eapply Forall_impl; [apply (Hp g)|]. cbn. lia.
  - destruct (lg_waiting s !! g) eqn:E; [done|]. destruct (LOG _ _ _ _ _) as [line|]; [|by intros [= <-]].
    intros [= <-]. split; cbn [lg_now lg_waiting lg_printed]; [done| |done]. intros g' t line'. rewrite lookup_insert. case_decide; [subst|apply Hw].
    intros [= <- <-]. split; [lia|apply Hp].
  - destruct (lg_waiting s !! g) as [[t line]|] eqn:E; [|done]. intros [= <-]. destruct (Hw g t line E) as [Ht Hf].
    split; cbn [lg_now lg_waiting lg_printed].
    + intros g'. rewrite times_of_snoc. case_decide; [subst|by rewrite app_nil_r]. by apply StronglySorted_snoc.
    + intros g' t' line' [Hne H]%lookup_delete_Some. rewrite times_of_snoc, decide_False, app_nil_r by done. by apply (Hw g' t' line').
    + intros g'. rewrite times_of_snoc. apply Forall_app. split; [done|]. case_decide; by repeat constructor.
Qed.

(** The order of a log.  The lines of one goroutine are printed in the order of their
    times.  Those of several need not be: a goroutine that took its time first may
    hand over its line last, although one goroutine prints them all. *)
Theorem log_order (lv : Z) (cfg : GlobalConfig) (format : Z → string) :
  (∀ ls s', log_run lv cfg format ls (mkLogSys 0 ∅ []) = Some s' → ∀ g, StronglySorted Z.le (times_of g (lg_printed s'))) ∧
  ∃ ls s' t1 t2 line1 line2, log_run LOG_LEVEL_DEBUG cfg format ls (mkLogSys 0 ∅ []) = Some s' ∧
    lg_printed s' = [(2%positive, t2, line2); (1%positive, t1, line1)] ∧ t1 < t2.
Proof.
  split.
  - assert (∀ ls s s', log_inv s → log_run lv cfg format ls s = Some s' → log_inv s') as H.
    { induction ls as [|l ls IH]; intros s s' Hs E; cbn in E; [by injection E as <-|].
      apply bind_Some in E as (s1 & E1 & E). eapply IH; [|exact E]. by eapply log_exec_inv. }
    intros ls s' E. apply (H ls (mkLogSys 0 ∅ []) s'); [|done]. split; cbn; [constructor|done|constructor].
  - exists [LogCall 1 "INFO" "first"; LogTime 1; LogCall 2 "INFO" "second"; LogPrint 2; LogPrint 1].
    eexists _, 0, 1, _, _. split; [reflexivity|]. split; [reflexivity|lia].
Qed.

End Log.

(** ** The configuration *)
Module Config.

(** A configuration file: missing, not the expected JSON, or its content. *)
Inductive config_file := FileMissing (err : string) | FileInvalid (err : string) | FileConfig (cfg : GlobalConfig).

(** The variables [GlobalCfg] and [gLogLevel]. *)
Record Settings := mkSettings { GlobalCfg : GlobalConfig; gLogLevel : Z }.

Definition LoadConfig (filename : string) (file : config_file) : result GlobalConfig :=
  match file with
  | FileMissing err => Panic (PanicMsg ("LoadConfig ReadFile error " +:+ filename +:+ " " +:+ err))
  | FileInvalid err => Panic (PanicMsg ("LoadConfig json.Unmarshal error " +:+ err))
  | FileConfig cfg => Ok cfg
  end.

(** The loop over [os.Args] from index 1; [-c] is followed by a file name. *)
Fixpoint ParseArgs_loop (files : string → config_file) (args : list string) (st : Settings) : result Settings :=
  match args with
  | [] => Ok st
  | arg :: args =>
      if bool_decide (arg = "-c") then
        match args with
        | [] => Panic (PanicMsg "args parse error -c need follow config filename")
        | filename :: args =>
            cfg ← LoadConfig filename (files filename);
            ParseArgs_loop files args (mkSettings cfg (Log.SetLogLevel (cfg_LogLevel cfg)))
        end
      else ParseArgs_loop files args st
  end.

Definition ParseArgs (files : string → config_file) (os_Args : list string) (st : Settings) : result Settings :=
  match os_Args with
  | [] => Ok st
  | _ :: args => ParseArgs_loop files args st
  end.

(** The outcome of [net.Dial] to etcd: the local address, or an error. *)
Inductive dialled := DialOK (localAddr : string) | DialTimeout | DialError (err : string).

(** [GetLocalIP] with its cache, the variable [localIP]: the address and the new
    value of the cache. *)
Definition GetLocalIP (cfg : GlobalConfig) (dial : string → dialled) (localIP : string) : result (string * string) :=
  if negb (Z.of_nat (String.length localIP) =? 0) then Ok (localIP, localIP)
  else
    etcd ← go_index (cfg_Etcd cfg) 0;
    match dial etcd with
    | DialTimeout => Ok (EmptyString, localIP)
    | DialError err => Panic (PanicMsg ("GetLocalIP err " +:+ err))
    | DialOK addr =>
        ip ← go_index (go_split ":" addr) 0;
        Ok (ip, ip)
    end.

(** The address a process found once it keeps, without asking again. *)
Lemma GetLocalIP_cached cfg dial dial' localIP ip ip' :
  GetLocalIP cfg dial localIP = Ok (ip, ip') → ip ≠ EmptyString →
  ip' = ip ∧ GetLocalIP cfg dial' ip' = Ok (ip, ip).
Proof.
  intros H Hne.
  assert (∀ d s, s ≠ EmptyString → GetLocalIP cfg d s = Ok (s, s)) as Hc.
  { intros d s Hs. unfold GetLocalIP. by destruct s. }
  assert (ip' = ip) as ->.
  { revert H. unfold GetLocalIP. destruct (negb _).
    - by intros [= <- <-].
    - intros (etcd & _ & H)%bind_ok_inv. destruct (dial etcd) as [addr| |err]; [|by injection H as <- _|done].
      apply bind_ok_inv in H as (x & _ & H). by injection H as <- <-. }
  split; [done|]. by apply Hc.
Qed.

End Config.

(** ** The databases *)
Module Db.

Inductive db_kind := RedisSingle | RedisCluster | MongoDb.

#[export] Instance db_kind_eq_dec : EqDecision db_kind.
Proof. solve_decision. Defined.

(** The client a constructor returned: its kind, and the entry of the
    configuration it was made for. *)
Record db_client := mkDbClient { kind : db_kind; entry : nat }.

(** The [Type] of an entry; entries of another type are ignored. *)
Definition kind_of (cfg : DbConfig) : option db_kind :=
  if bool_decide (db_Type cfg = "redisSingle") then Some RedisSingle
  else if bool_decide (db_Type cfg = "redisCluster") then Some RedisCluster
  else if bool_decide (db_Type cfg = "mongo") then Some MongoDb
  else None.

(** [err]: what the first command to the database failed with, if it did. *)
Definition CeateRedisSingle (addr : list string) (err : option string) (i : nat) : result db_client :=
  _ ← go_index addr 0;
  match err with
  | Some e => Panic (PanicMsg ("redis client init error " +:+ e))
  | None => Ok (mkDbClient RedisSingle i)
  end.

Definition CreateRedisCluster (addr : list string) (err : option string) (i : nat) : result db_client :=
  match err with
  | Some e => Panic (PanicMsg ("redis cluster init error " +:+ e))
  | None => Ok (mkDbClient RedisCluster i)
  end.

Definition CreateMongo (addr : list string) (err : option string) (i : nat) : result db_client :=
  _ ← go_index addr 0;
  match err with
  | Some e => Panic (PanicMsg ("mongo client init error " +:+ e))
  | None => Ok (mkDbClient MongoDb i)
  end.

Definition create (k : db_kind) : list string → option string → nat → result db_client :=
  match k with
  | RedisSingle => CeateRedisSingle
  | RedisCluster => CreateRedisCluster
  | MongoDb => CreateMongo
  end.

(** [gDBResource]. *)
Abbreviation resources := (gmap string db_client).

Fixpoint CreateDBResource_loop (errs : nat → option string) (i : nat) (cfgs : list DbConfig) (res : resources)
    : result resources :=
  match cfgs with
  | [] => Ok res
  | cfg :: cfgs =>
      match kind_of cfg with
      | None => CreateDBResource_loop errs (S i) cfgs res
      | Some k =>
          c ← create k (db_Addr cfg) (errs i) i;
          CreateDBResource_loop errs (S i) cfgs (<[db_Name cfg := c]> res)
      end
  end.

Definition CreateDBResource (errs : nat → option string) (cfg : GlobalConfig) : result resources :=
  if go_len (cfg_DbCfg cfg) =? 0 then Ok ∅ else CreateDBResource_loop errs 0 (cfg_DbCfg cfg) ∅.

(** The clients that were closed, in order; [gDBResource] is nil afterwards. *)
Fixpoint ReleaseDBResource_loop (cfgs : list DbConfig) (res : resources) : result (list db_client) :=
  match cfgs with
  | [] => Ok []
  | cfg :: cfgs =>
      match kind_of cfg with
      | None => ReleaseDBResource_loop cfgs res
      | Some k =>
          match res !! db_Name cfg with
          | None => ReleaseDBResource_loop cfgs res
          | Some c =>
              if decide (kind c = k) then closed ← ReleaseDBResource_loop cfgs res; Ok (c :: closed)
              else Panic TypeAssertion
          end
      end
  end.

Definition ReleaseDBResource (cfg : GlobalConfig) (res : resources) : result (list db_client * resources) :=
  closed ← ReleaseDBResource_loop (cfg_DbCfg cfg) res; Ok (closed, ∅).

(** A resource by its name; [None] is nil. *)
Definition get_resource (k : db_kind) (name : string) (res : resources) : result (option db_client) :=
  match res !! name with
  | None => Ok None
  | Some v => if decide (kind v = k) then Ok (Some v) else Panic TypeAssertion
  end.

Definition GetRedisSingle : string → resources → result (option db_client) := get_resource RedisSingle.
Definition GetRedisCluster : string → resources → result (option db_client) := get_resource RedisCluster.
Definition GetMongo : string → resources → result (option db_client) := get_resource MongoDb.

(** The entries of a configuration that are created, with the name and the
    client of each. *)
Fixpoint created (i : nat) (cfgs : list DbConfig) : list (string * db_client) :=
  match cfgs with
  | [] => []
  | cfg :: cfgs =>
      match kind_of cfg with
      | None => created (S i) cfgs
      | Some k => (db_Name cfg, mkDbClient k i) :: created (S i) cfgs
      end
  end.

Lemma create_spec k addr err i c : create k addr err i = Ok c → c = mkDbClient k i.
Proof.
  destruct k; cbn; unfold CeateRedisSingle, CreateRedisCluster, CreateMongo; intros H.
  - apply bind_ok_inv in H as (? & _ & H). destruct err; [done|]. by injection H.
  - destruct err; [done|]. by injection H.
  - apply bind_ok_inv in H as (? & _ & H). destruct err; [done|]. by injection H.
Qed.

Lemma created_name i cfgs name c : (name, c) ∈ created i cfgs → name ∈ db_Name <$> cfgs.
Proof.
  revert i. induction cfgs as [|cfg cfgs IH]; intros i; cbn; [by intros ?%not_elem_of_nil|].
  destruct (kind_of cfg); [rewrite elem_of_cons; intros [[= -> _]|H]|intros H].
  - left.
  - right. by eapply IH.
  - right. by eapply IH.
Qed.

Lemma CreateDBResource_loop_spec errs cfgs : ∀ i res res',
  NoDup (db_Name <$> cfgs) → CreateDBResource_loop errs i cfgs res = Ok res' →
  res' = list_to_map (created i cfgs) ∪ res.
Proof.
  induction cfgs as [|cfg cfgs IH]; intros i res res'; cbn; [intros _ [= <-]; by rewrite map_empty_union|].
  intros [Hn Hd]%NoDup_cons. destruct (kind_of cfg) as [k|]; [|by apply IH].
  intros (c & ->%create_spec & H)%bind_ok_inv. rewrite (IH _ _ _ Hd H). cbn.
  rewrite <- insert_union_r, <- insert_union_l; [done|]. apply not_elem_of_list_to_map_1.
  intros ([n c] & E & Hp)%list_elem_of_fmap. cbn in E. subst n. by eapply Hn, created_name.
Qed.

Lemma Release_loop_spec cfgs : ∀ i res,
  (∀ name c, (name, c) ∈ created i cfgs → res !! name = Some c) →
  ReleaseDBResource_loop cfgs res = Ok (created i cfgs).*2.
Proof.
  induction cfgs as [|cfg cfgs IH]; intros i res Hres; cbn in *; [done|].
  destruct (kind_of cfg) as [k|]; [|by apply IH].
  rewrite (Hres (db_Name cfg) (mkDbClient k i)) by left. rewrite decide_True by done.
  rewrite (IH (S i)); [done|]. intros name c Hin. apply Hres. by right.
Qed.

Lemma created_NoDup i cfgs : NoDup (db_Name <$> cfgs) → NoDup (created i cfgs).*1.
Proof.
  revert i. induction cfgs as [|cfg cfgs IH]; intros i; cbn; [constructor|].
  intros [Hn Hd]%NoDup_cons. destruct (kind_of cfg); [|by apply IH]. cbn. constructor; [|by apply IH].
  intros ([n c] & E & Hin)%list_elem_of_fmap. cbn in E. subst n. by eapply Hn, created_name.
Qed.

Lemma CreateDBResource_spec errs cfg res :
  NoDup (db_Name <$> cfg_DbCfg cfg) → CreateDBResource errs cfg = Ok res → res = list_to_map (created 0 (cfg_DbCfg cfg)).
Proof.
  intros Hd. unfold CreateDBResource. destruct (Z.eqb_spec (go_len (cfg_DbCfg cfg)) 0) as [E|_].
  - intros [= <-]. destruct (cfg_DbCfg cfg); [done|]. rewrite go_len_cons in E. len_lia.
  - intros H. rewrite (CreateDBResource_loop_spec _ _ _ _ _ Hd H). by rewrite map_union_empty.
Qed.

Lemma Release_created cfg :
  NoDup (db_Name <$> cfg_DbCfg cfg) →
  ReleaseDBResource cfg (list_to_map (created 0 (cfg_DbCfg cfg))) = Ok ((created 0 (cfg_DbCfg cfg)).*2, ∅).
Proof.
  intros Hd. unfold ReleaseDBResource. rewrite (Release_loop_spec _ 0); [done|].
  intros name c. by apply elem_of_list_to_map_1, created_NoDup.
Qed.

(** Database clients are created, found and closed once.  If the names of the
    configured databases are distinct and every one could be reached, then each
    name gives exactly the client made for its entry, at the type of that entry
    and at no other, other names give nil, and the release closes every created
    client exactly once, without a failed assertion; afterwards every name gives
    nil. *)
Theorem db_resources_exact (errs : nat → option string) (cfg : GlobalConfig) (res : resources) :
  NoDup (db_Name <$> cfg_DbCfg cfg) → CreateDBResource errs cfg = Ok res →
  (∀ name c k, (name, c) ∈ created 0 (cfg_DbCfg cfg) →
     get_resource k name res = if decide (kind c = k) then Ok (Some c) else Panic TypeAssertion) ∧
  (∀ name k, (∀ c, (name, c) ∉ created 0 (cfg_DbCfg cfg)) → get_resource k name res = Ok None) ∧
  ReleaseDBResource cfg res = Ok ((created 0 (cfg_DbCfg cfg)).*2, ∅) ∧
  (created 0 (cfg_DbCfg cfg)).*2 ≡ₚ (map_to_list res).*2 ∧
  ∀ name k, get_resource k name ∅ = Ok None.
Proof.
  intros Hd Hc.
  rewrite (CreateDBResource_spec _ _ _ Hd Hc).
  pose proof (created_NoDup 0 _ Hd) as Hnd. unfold get_resource. split_and!.
  - intros name c k Hin. by rewrite (elem_of_list_to_map_1 _ _ _ Hnd Hin).
  - intros name k Hno. rewrite not_elem_of_list_to_map_1; [done|].
    intros ([n c] & -> & Hin)%list_elem_of_fmap. by eapply Hno.
  - by apply Release_created.
  - by rewrite map_to_list_to_map.
  - intros name k. by rewrite lookup_empty.
Qed.

(** Two entries of different types under one name: the release panics at the
    first of them. *)
Lemma duplicate_release_panics errs name addr1 addr2 cfg :
  cfg_DbCfg cfg = [mkDbConfig name "redisCluster" addr1; mkDbConfig name "redisSingle" addr2] →
  addr2 ≠ [] → errs 0%nat = None → errs 1%nat = None →
  ∃ res, CreateDBResource errs cfg = Ok res ∧ ReleaseDBResource cfg res = Panic TypeAssertion.
Proof.
  intros E Ha E0 E1. destruct addr2 as [|a addr2]; [done|].
  exists {[name := mkDbClient RedisSingle 1]}. unfold CreateDBResource, ReleaseDBResource. rewrite E.
  cbn [go_len length Z.of_nat CreateDBResource_loop ReleaseDBResource_loop db_Name db_Addr].
  change (kind_of (mkDbConfig name "redisCluster" addr1)) with (Some RedisCluster).
  change (kind_of (mkDbConfig name "redisSingle" (a :: addr2))) with (Some RedisSingle). split.
  - rewrite E0, E1. change (go_index (a :: addr2) 0) with (Ok a).
    transitivity (Ok (<[name := mkDbClient RedisSingle 1]> (<[name := mkDbClient RedisCluster 0]> (∅ : resources))));
      [done|]. by rewrite insert_insert_eq.
  - by rewrite lookup_singleton_eq.
Qed.

Definition demo_cfg : GlobalConfig :=
  mkGlobalCfg "ns" "PushService" 9000 "INFO" []
    [mkDbConfig "myRedis2" "redisCluster" ["10.0.0.5:7000"]; mkDbConfig "myMongo" "mongo" ["mongodb://10.0.0.6"]].

Lemma db_resources_exact_witness :
  ∃ res, CreateDBResource (λ _, None) demo_cfg = Ok res ∧
    ReleaseDBResource demo_cfg res = Ok ([mkDbClient RedisCluster 0; mkDbClient MongoDb 1], ∅).
Proof.
  eexists. split; [reflexivity|].
  eapply (db_resources_exact (λ _, None) demo_cfg); [|reflexivity].
  apply (bool_decide_unpack (NoDup _)). vm_compute. exact I.
Defined.

End Db.

(** ** Profiling *)
Module Profile.

Inductive prof_file := NoFile | OpenFile | ClosedFile.

(** [f.Close()]; on a nil file it only returns an error. *)
Definition close (f : prof_file) : prof_file := match f with OpenFile => ClosedFile | _ => f end.

(** [cpu_profiling] belongs to the runtime: whether a cpu profile is being taken. *)
Record ProfileMgr := mkProfileMgr { started : bool; cpu_prof : prof_file; mem_prof : prof_file; cpu_profiling : bool }.

Definition init_profile : ProfileMgr := mkProfileMgr false NoFile NoFile false.

(** What the operating system allows: the directory to be found, each of the two
    files to be created. *)
Record prof_env := mkProfEnv { wd_ok : bool; cpu_ok : bool; mem_ok : bool }.

Definition profile_Start (env : prof_env) (p : ProfileMgr) : ProfileMgr :=
  if started p then p
  else if negb (wd_ok env) then p
  else if negb (cpu_ok env) then mkProfileMgr (started p) NoFile (mem_prof p) (cpu_profiling p)
  else if cpu_profiling p then
    (* [StartCPUProfile] fails when a profile is being taken *)
    mkProfileMgr (started p) (close OpenFile) (close (mem_prof p)) (cpu_profiling p)
  else if negb (mem_ok env) then mkProfileMgr (started p) (close OpenFile) NoFile true
  else mkProfileMgr true OpenFile OpenFile true.

Definition profile_Stop (p : ProfileMgr) : ProfileMgr :=
  if negb (started p) then p
  else mkProfileMgr false (close (cpu_prof p)) (close (mem_prof p)) false.

(** The signals [Watch] receives. *)
Inductive prof_signal := SigStart (env : prof_env) | SigStop.

Definition Watch_step (p : ProfileMgr) (sig : prof_signal) : ProfileMgr :=
  match sig with
  | SigStart env => profile_Start env p
  | SigStop => profile_Stop p
  end.

Definition Watch (p : ProfileMgr) (sigs : list prof_signal) : ProfileMgr := foldl Watch_step p sigs.

(** The manager takes a profile exactly when it is started, into open files. *)
Definition profile_ok (p : ProfileMgr) : Prop :=
  started p = cpu_profiling p ∧ (started p = true → cpu_prof p = OpenFile ∧ mem_prof p = OpenFile).

(** The memory file cannot be created. *)
Definition mem_fails (sig : prof_signal) : Prop :=
  match sig with SigStart env => mem_ok env = false | SigStop => False end.

Lemma Watch_ok sigs : ∀ p, profile_ok p → Forall (λ sig, ¬ mem_fails sig) sigs → profile_ok (Watch p sigs).
Proof.
  induction sigs as [|sig sigs IH]; intros p Hp; [done|]. intros [Hs Hf]%Forall_cons. apply (IH _); [|done].
  destruct Hp as [H1 H2]. destruct sig as [[wd cpu mem]|]; cbn in *.
  - unfold profile_Start. destruct (started p) eqn:E; [split; [congruence|by auto]|].
    destruct wd, cpu, mem, (cpu_profiling p) eqn:E'; cbn; by split; cbn; try congruence; try done; auto.
  - unfold profile_Stop. destruct (started p) eqn:E; cbn; [done|]. by split; [congruence|rewrite E].
Qed.

Lemma Watch_stuck sigs : ∀ p, started p = false → cpu_profiling p = true →
  started (Watch p sigs) = false ∧ cpu_profiling (Watch p sigs) = true.
Proof.
  induction sigs as [|sig sigs IH]; intros p H1 H2; [done|]. apply IH; destruct sig as [[wd cpu mem]|]; cbn.
  all: unfold profile_Start, profile_Stop; rewrite ?H1, ?H2; cbn.
  all: by destruct wd, cpu || done.
Qed.

(** Profiling.  As long as the memory file can be created at every start, the
    manager takes a cpu profile exactly while it is started, into open files,
    whatever signals arrive.  But after one start at which only the memory file
    could not be created, the cpu profile is never stopped, and no sequence of
    further signals starts or stops profiling again. *)
Theorem profile_state (before after : list prof_signal) (env : prof_env) :
  Forall (λ sig, ¬ mem_fails sig) before →
  profile_ok (Watch init_profile before) ∧
  (started (Watch init_profile before) = false → wd_ok env = true → cpu_ok env = true → mem_ok env = false →
   let p := Watch init_profile (before ++ SigStart env :: after) in started p = false ∧ cpu_profiling p = true).
Proof.
  intros Hb. assert (profile_ok (Watch init_profile before)) as Hok by (by apply Watch_ok).
  split; [done|]. intros Hst Hwd Hcpu Hmem. unfold Watch in *. rewrite foldl_app. cbn [foldl].
  set (p := foldl Watch_step init_profile before) in *. destruct Hok as [H1 _].
  apply Watch_stuck; cbn; unfold profile_Start; rewrite Hst, Hwd, Hcpu, <- H1, Hst, Hmem; done.
Qed.

Lemma profile_state_witness :
  cpu_profiling (Watch init_profile ([] ++ SigStart (mkProfEnv true true false) :: [SigStop; SigStart (mkProfEnv true true true)])) = true.
Proof.
  apply (proj2 (profile_state [] [SigStop; SigStart (mkProfEnv true true true)] (mkProfEnv true true false)
    (Forall_nil_2 _))); reflexivity.
Defined.

End Profile.
