(* ===== verification/TestClient.v ===== *)
(** * The test client ([src/client])

    A command-line program that connects clients to a gate, calls a test rpc a
    number of times and waits for the responses; [push_test] is the rpc that is
    pushed to it. *)

From S2P Require Import Prelude Strconv Utils Wire Msgpack LoadBalancer CallbackMgr RemoteMgr World SimpleRpc TcpServer.
From S2P Require Import Gate System ClientSdk FlowCounter Lifecycle.

Local Open Scope Z_scope.

Definition namespace : string := "YJ".

(** ** The pushed rpc ([rpc_handler.go]) *)

Inductive TestHandler := RpcPushTestHandler.

(** The program's variable [push_fvc]. *)
Record TestApp := mkTestApp { push_fvc : FlowVelocityCounter }.

#[export] Instance test_sig : HandlerSig TestHandler := {|
  busi_req h := match h with RpcPushTestHandler => Some [("Arg1", TUint32); ("Arg2", TString)] end;
  busi_rsp h := match h with RpcPushTestHandler => None end;
  busi_access h := match h with RpcPushTestHandler => false end;
|}.

(** [push_fvc.Count()]; it would wait for ever on a counter that was stopped. *)
Definition RpcPushTest_Process : M (World (SdkHandler TestHandler) TestApp) () := λ w,
  match Count (push_fvc (w_app w)) with
  | Some f => (Ok (), set_app (mkTestApp f) w)
  | None => (OutOfFuel, w)
  end.

#[export] Instance test_program : ClientProgram TestHandler TestApp := λ h _ _,
  match h with RpcPushTestHandler => liftW RpcPushTest_Process end.

(** The table of the program after the [init]s. *)
Definition test_init : result (SimpleRpcMgr (SdkHandler TestHandler)) :=
  rmgr ← sdk_init; RegistRpcHandlerForce "push_test" (Busi (User RpcPushTestHandler)) rmgr.

#[export] Instance test_client_program {MP : Msgpack} : Program (SdkHandler TestHandler) TestApp.
Proof.
  apply sdk_program. intros P FP [] session args. apply (keep_liftW P). intros w Hw. unfold RpcPushTest_Process.
  destruct (Count (push_fvc (w_app w))); [by eapply framed_fields|done].
Qed.

(** ** A client ([client.go]) *)

(** The numbers [rand] gives for one call. *)
Record Rands := mkRands { r_Int31 : Z; r_Float32 : Z; r_Int63 : Z; r_elem1 : Z; r_elem2 : Z }.

Record Client := mkClient { testCnt : Z; interval : Z; ordered : bool }.

Section Client.
  Context {MP : Msgpack} (RECV_BUF_MAX_LEN : Z).

Abbreviation W := (World (SdkHandler TestHandler) TestApp).
Implicit Types w : W.

(** The method the calls go through. *)
Definition call_test (c : Client) (sp : ServiceProxy) (rpcName : string) (args : list callarg) : M W () :=
  if ordered c then RpcCallOrdered sp rpcName args else ServiceProxy_RpcCall sp rpcName args.

Definition RpcCallTestA (c : Client) (g : GateProxy) (r : Rands) (cb : option positive) : M W () :=
  call_test c (CreateServiceProxy g namespace "ServiceA") "rpc_a"
    [AVal (GInt32 (r_Int31 r)); AVal (GFloat32 (r_Float32 r)); AVal (GStr "abc");
     AVal (GMapAny [("key1", GInt64 (r_Int63 r)); ("key2", GStr "def")]);
     AVal (GInt32s [r_elem1 r; r_elem2 r]); ACallBack cb].

Definition RpcCallTestB (c : Client) (g : GateProxy) (r : Rands) (cb : option positive) : M W () :=
  call_test c (CreateServiceProxy g namespace "ServiceA") "rpc_b" [AVal (GInt32 (r_Int31 r)); ACallBack cb].

Definition RpcCallDBTest (g : GateProxy) (cb : option positive) : M W () :=
  ServiceProxy_RpcCall (CreateServiceProxy g namespace "ServiceA") "rpc_db_test" [ACallBack cb].

Definition RpcCallPushTest (g : GateProxy) (cb : option positive) : M W () :=
  ServiceProxy_RpcCall (CreateServiceProxy g namespace "ServiceA") "rpc_push_test" [ACallBack cb].

(** The call of one iteration of [StartTest]. *)
Definition test_call (c : Client) (mode : string) (g : GateProxy) (r : Rands) (cb : positive) : M W () :=
  if bool_decide (mode = "testa") then RpcCallTestA c g r (Some cb)
  else if bool_decide (mode = "testb") then RpcCallTestB c g r (Some cb)
  else if bool_decide (mode = "dbtest") then RpcCallDBTest g (Some cb)
  else mret ().

(** [for i := 0; i < n; i++]. *)
Fixpoint repeat_calls (n : nat) (call : nat → M W ()) (i : nat) : M W () :=
  match n with
  | O => mret ()
  | S n => _ ← call i; repeat_calls n call (S i)
  end.

Definition client_name (idx : Z) : string := "client" +:+ pretty idx.

(** The connection of a client: verified and logged in. *)
Definition test_connect (ip : string) (port idx : Z) (dialled : option Conn) : M W GateProxy :=
  gate ← CreateGateProxy RECV_BUF_MAX_LEN ip port dialled;
  match gate with
  | None => throw (PanicMsg "gate is nil~~~")
  | Some g => _ ← Login g (client_name idx) namespace; mret g
  end.

(** [StartTest] up to its wait for the responses; [rand] gives the random
    arguments of each call, [cb] is the callback, which counts the responses. *)
Definition StartTest (c : Client) (mode : string) (ip : string) (port idx : Z) (dialled : option Conn) (now : Z)
    (rand : nat → Rands) (cb : positive) : M W (GateProxy * FlowVelocityCounter) :=
  g ← test_connect ip port idx dialled;
  let fvc := fvc_Start now (new_fvc "client rtt") in
  _ ← repeat_calls (Z.to_nat (testCnt c)) (λ i, test_call c mode g (rand i) cb) 0;
  mret (g, fvc).

(** The callback: whatever the response was, it is counted. *)
Definition test_callback (fvc : FlowVelocityCounter) : option FlowVelocityCounter := Count fvc.

(** It waits while the counter of the responses is not at the number of calls. *)
Definition StartTest_waits (c : Client) (fvc : FlowVelocityCounter) : bool :=
  negb (GetTotalCount fvc =? i64 (testCnt c)).

(** The averages it logs; integer division by zero panics. *)
Definition go_quot (a b : Z) : result Z := if b =? 0 then Panic DivideByZero else Ok (i64 (Z.quot a b)).

Definition send_avg_ops (c : Client) (startTs endTs : Z) : result (option Z) :=
  if startTs <? endTs then
    q ← go_quot (i64 (testCnt c)) (i64 (endTs - startTs)); Ok (Some (i64 (q * 1000)))
  else Ok None.

Definition rtt_avg_ops (c : Client) (startTs endTs : Z) : result Z :=
  go_quot (i64 (i64 (testCnt c) * 1000)) (i64 (endTs - startTs)).

(** The end of [StartTest], after the wait. *)
Definition finish_test (c : Client) (g : GateProxy) (fvc : FlowVelocityCounter) (idx startTs endTs : Z) : M W () :=
  match fvc_Stop fvc with
  | None => lift_result OutOfFuel
  | Some _ =>
      _ ← lift_result (rtt_avg_ops c startTs endTs);
      Logoff g (client_name idx)
  end.

Definition StartPushTest (c : Client) (ip : string) (port idx : Z) (dialled : option Conn) : M W () :=
  g ← test_connect ip port idx dialled;
  _ ← repeat_calls (Z.to_nat (testCnt c)) (λ _, RpcCallPushTest g None) 0;
  Logoff g (client_name idx).

(** *** The traffic of a test *)

(** The rpc of the calls, and whether they are ordered. *)
Definition test_args (mode : string) (r : Rands) : string * list goval :=
  if bool_decide (mode = "testa") then
    ("rpc_a", [GInt32 (r_Int31 r); GFloat32 (r_Float32 r); GStr "abc";
               GMapAny [("key1", GInt64 (r_Int63 r)); ("key2", GStr "def")]; GInt32s [r_elem1 r; r_elem2 r]])
  else if bool_decide (mode = "testb") then ("rpc_b", [GInt32 (r_Int31 r)])
  else ("rpc_db_test", []).

Definition test_ordered (c : Client) (mode : string) : bool := negb (bool_decide (mode = "dbtest")) && ordered c.

(** The request of a call. *)
Definition test_request (c : Client) (mode : string) (g : GateProxy) (r : Rands) (rid : Z) : list goval :=
  call_rpc (CreateServiceProxy g namespace "ServiceA") (test_ordered c mode) (test_args mode r).1 (test_args mode r).2 rid.

(** What a client sends when it connects. *)
Definition hello (g : GateProxy) (idx : Z) : list (Conn * bytes) :=
  [(g_conn g, frame (RpcEncode MSG_C2G_VERTIFY [GStr VERTIFY_SECRET_KEY]));
   (g_conn g, frame (RpcEncode MSG_GATE_LOGIN [GStr (client_name idx)]));
   (g_conn g, frame (RpcEncode MSG_C2G_RPC_ROUTE (restore_rpc (client_name idx) namespace)))].

Definition hello_fits (idx : Z) : Prop :=
  fits MSG_C2G_VERTIFY [GStr VERTIFY_SECRET_KEY] ∧ fits MSG_GATE_LOGIN [GStr (client_name idx)] ∧
  fits MSG_C2G_RPC_ROUTE (restore_rpc (client_name idx) namespace).

Lemma test_call_args c mode g r cb :
  mode ∈ ["testa"; "testb"; "dbtest"] →
  test_call c mode g r cb =
    rpcCall (CreateServiceProxy g namespace "ServiceA") (test_ordered c mode) (test_args mode r).1
      ((AVal <$> (test_args mode r).2) ++ [ACallBack (Some cb)]).
Proof.
  rewrite !elem_of_cons. unfold test_call, test_ordered, RpcCallTestA, RpcCallTestB, call_test.
  intros [->|[->|[->|?%not_elem_of_nil]]]; [|..|done]; cbn; by destruct (ordered c).
Qed.

Lemma test_connect_ok ip port idx conn w :
  conn_fd conn ∉ w_broken w → hello_fits idx →
  let g := mkGateProxy ip port conn (replicate (Z.to_nat RECV_BUF_MAX_LEN) 0) 0 in
  test_connect ip port idx (Some conn) w = (Ok g, set_net (w_net w ++ hello g idx) w).
Proof.
  intros Hup (Hf1 & Hf2 & Hf3) g. unfold test_connect.
  set (w1 := set_net (w_net w ++ [(conn, frame (RpcEncode MSG_C2G_VERTIFY [GStr VERTIFY_SECRET_KEY]))]) w).
  rewrite (M_bind_ok _ _ _ (Some g) w1).
  2: { unfold CreateGateProxy. by rewrite (M_bind_ok _ _ _ _ _ (GateProxy_RpcCall_ok g _ _ w Hf1 Hup)). }
  rewrite (M_bind_ok _ _ _ _ _ (Login_ok g _ _ w1 Hf2 Hf3 Hup)). unfold w1. cbn [w_net set_net].
  by rewrite <- app_assoc.
Qed.

Lemma u32_succ_add a b : u32 (u32 (a + 1) + 1 + b) = u32 (a + 1 + Z.succ b).
Proof. unfold u32. rewrite <- Z.add_assoc, Zplus_mod_idemp_l. f_equal. lia. Qed.

Lemma u32_apart a i j : 0 ≤ i < 2 ^ 32 → 0 ≤ j < 2 ^ 32 → u32 (a + i) = u32 (a + j) → i = j.
Proof.
  unfold u32. intros Hi Hj H. apply (f_equal (λ x, (x - a) mod 2 ^ 32)) in H.
  rewrite !Zminus_mod_idemp_l in H. replace (a + i - a) with i in H by lia.
  replace (a + j - a) with j in H by lia. by rewrite !Z.mod_small in H.
Qed.

Lemma repeat_calls_ok c mode g rand cb n : ∀ i w,
  mode ∈ ["testa"; "testb"; "dbtest"] → cb_ok w → conn_fd (g_conn g) ∉ w_broken w →
  (∀ i rid, fits MSG_C2G_RPC_ROUTE (test_request c mode g (rand i) rid)) → Z.of_nat n ≤ 2 ^ 32 →
  ∃ w', repeat_calls n (λ i, test_call c mode g (rand i) cb) i w = (Ok (), w') ∧ cb_ok w' ∧
    w_net w' = w_net w ++ ((λ k, (g_conn g, frame (RpcEncode MSG_C2G_RPC_ROUTE
                 (test_request c mode g (rand (i + k)%nat) (u32 (w_gid w + 1 + Z.of_nat k)))))) <$> seq 0 n) ∧
    (∀ k, (k < n)%nat → ∃ p, gCbMap (w_cb w') !! u32 (w_gid w + 1 + Z.of_nat k) = Some (CbFunc cb, p)) ∧
    (∀ key, (∀ k, (k < n)%nat → key ≠ u32 (w_gid w + 1 + Z.of_nat k)) →
      gCbMap (w_cb w') !! key = gCbMap (w_cb w) !! key).
Proof.
  induction n as [|n IH]; intros i w Hm Hcb Hup Hfit Hn.
  { exists w. split; [done|]. split; [done|]. split; [by rewrite app_nil_r|]. split; [intros k ?; lia|done]. }
  cbn [repeat_calls]. rewrite test_call_args by done.
  destruct (rpcCall_callback (CreateServiceProxy g namespace "ServiceA") (test_ordered c mode) (test_args mode (rand i)).1
    (test_args mode (rand i)).2 cb w Hcb (Hfit i _) Hup) as (w1 & p & E1 & Hn1 & Hcb1 & Hm1 & _ & _ & _ & Hb1 & _ & Hg1).
  rewrite (M_bind_ok _ _ _ _ _ E1).
  destruct (IH (S i) w1 Hm Hcb1) as (w2 & E2 & Hcb2 & Hn2 & Hin & Hout); [by rewrite Hb1|done|lia|].
  setoid_rewrite Hg1 in Hin. setoid_rewrite Hg1 in Hout. rewrite Hg1 in Hn2.
  exists w2. split; [done|]. split; [done|]. split_and!.
  - rewrite Hn2, Hn1, <- app_assoc. f_equal. rewrite <- cons_seq. cbn [fmap list_fmap app]. f_equal.
    { by rewrite Z.add_0_r, Nat.add_0_r. }
    rewrite <- fmap_S_seq, <- list_fmap_compose. apply list_fmap_ext. intros _ k _. cbn.
    by rewrite u32_succ_add, <- Nat.add_succ_r, Nat2Z.inj_succ.
  - intros [|k] Hk.
    + rewrite Z.add_0_r. exists p. rewrite Hout, Hm1; [apply lookup_insert_eq|]. intros k Hk'.
      rewrite u32_succ_add. intros E. rewrite <- (Z.add_0_r (w_gid w + 1)) in E at 1.
      apply u32_apart in E; lia.
    + rewrite Nat2Z.inj_succ, <- u32_succ_add. apply Hin. lia.
  - intros key Hkey. rewrite Hout, Hm1.
    + apply lookup_insert_ne. intros <-. apply (Hkey 0%nat); [lia|]. by rewrite Z.add_0_r.
    + intros k Hk. rewrite u32_succ_add, <- Nat2Z.inj_succ. apply Hkey. lia.
Qed.

(** The traffic of a test.  A client sends, in this order, its verification,
    its login, the request to restore its pushes and then exactly [testCnt]
    requests of the rpc its mode names, under consecutive identifiers; each of
    them has the callback registered that counts its response, and no other
    callback is changed. *)
Theorem test_traffic (c : Client) (mode ip : string) (port idx : Z) (conn : Conn) (now : Z)
    (rand : nat → Rands) (cb : positive) w :
  let g := mkGateProxy ip port conn (replicate (Z.to_nat RECV_BUF_MAX_LEN) 0) 0 in
  let id k := u32 (w_gid w + 1 + Z.of_nat k) in
  mode ∈ ["testa"; "testb"; "dbtest"] → cb_ok w → conn_fd conn ∉ w_broken w → testCnt c ≤ 2 ^ 32 →
  hello_fits idx → (∀ i rid, fits MSG_C2G_RPC_ROUTE (test_request c mode g (rand i) rid)) →
  ∃ w', StartTest c mode ip port idx (Some conn) now rand cb w =
      (Ok (g, fvc_Start now (new_fvc "client rtt")), w') ∧ cb_ok w' ∧
    w_net w' = w_net w ++ hello g idx ++
      ((λ k, (conn, frame (RpcEncode MSG_C2G_RPC_ROUTE (test_request c mode g (rand k) (id k)))))
         <$> seq 0 (Z.to_nat (testCnt c))) ∧
    (∀ k, Z.of_nat k < testCnt c → ∃ p, gCbMap (w_cb w') !! id k = Some (CbFunc cb, p)) ∧
    (∀ key, (∀ k, Z.of_nat k < testCnt c → key ≠ id k) → gCbMap (w_cb w') !! key = gCbMap (w_cb w) !! key).
Proof.
  intros g id Hm Hcb Hup Hcnt Hh Hfit. unfold StartTest.
  rewrite (M_bind_ok _ _ _ _ _ (test_connect_ok ip port idx conn w Hup Hh)). fold g.
  destruct (repeat_calls_ok c mode g rand cb (Z.to_nat (testCnt c)) 0 (set_net (w_net w ++ hello g idx) w) Hm Hcb Hup Hfit)
    as (w' & E & Hcb' & Hn & Hin & Hout); [lia|].
  rewrite (M_bind_ok _ _ _ _ _ E). exists w'. split; [done|]. split; [done|]. split_and!.
  - rewrite Hn. cbn [w_net set_net]. by rewrite <- app_assoc.
  - intros k Hk. apply Hin. lia.
  - intros key Hkey. apply Hout. intros k Hk. apply Hkey. lia.
Qed.

End Client.

(** ** The command line *)

(** The variables [main] fills from [os.Args]. *)
Record Options := mkOptions {
  IP : string;
  Port : Z;
  o_mode : string;
  o_clientCnt : Z;
  o_testCnt : Z;
  o_interval : Z;
  o_ordered : bool;
  o_logLevel : string;
}.

Definition default_options : Options := mkOptions "127.0.0.1" 8886 EmptyString 0 0 0 false "DEBUG".

Definition with_IP (v : string) (o : Options) : Options :=
  mkOptions v (Port o) (o_mode o) (o_clientCnt o) (o_testCnt o) (o_interval o) (o_ordered o) (o_logLevel o).
Definition with_Port (v : Z) (o : Options) : Options :=
  mkOptions (IP o) v (o_mode o) (o_clientCnt o) (o_testCnt o) (o_interval o) (o_ordered o) (o_logLevel o).
Definition with_mode (v : string) (o : Options) : Options :=
  mkOptions (IP o) (Port o) v (o_clientCnt o) (o_testCnt o) (o_interval o) (o_ordered o) (o_logLevel o).
Definition with_clientCnt (v : Z) (o : Options) : Options :=
  mkOptions (IP o) (Port o) (o_mode o) v (o_testCnt o) (o_interval o) (o_ordered o) (o_logLevel o).
Definition with_testCnt (v : Z) (o : Options) : Options :=
  mkOptions (IP o) (Port o) (o_mode o) (o_clientCnt o) v (o_interval o) (o_ordered o) (o_logLevel o).
Definition with_interval (v : Z) (o : Options) : Options :=
  mkOptions (IP o) (Port o) (o_mode o) (o_clientCnt o) (o_testCnt o) v (o_ordered o) (o_logLevel o).
Definition with_ordered (v : bool) (o : Options) : Options :=
  mkOptions (IP o) (Port o) (o_mode o) (o_clientCnt o) (o_testCnt o) (o_interval o) v (o_logLevel o).
Definition with_logLevel (v : string) (o : Options) : Options :=
  mkOptions (IP o) (Port o) (o_mode o) (o_clientCnt o) (o_testCnt o) (o_interval o) (o_ordered o) v.

Definition modes : list string := ["testa"; "testb"; "dbtest"; "pushtest"].

(** A number, or a panic. *)
Definition number (flag arg : string) : result Z :=
  match Atoi arg with
  | (n, true) => Ok n
  | (_, false) => Panic (PanicMsg (flag +:+ " " +:+ arg +:+ " error, must be number"))
  end.

(** The loop over the arguments; [None] when the usage is printed and the program
    exits.  A flag without its value reads past the end of [os.Args]; any other
    word is skipped. *)
Fixpoint parse_flags (args : list string) (o : Options) : result (option Options) :=
  match args with
  | [] => Ok (Some o)
  | flag :: args =>
      if bool_decide (flag = "--help") then Ok None
      else if negb (bool_decide (flag ∈ ["-h"; "-p"; "-m"; "-n"; "-t"; "-i"; "-o"; "-l"])) then parse_flags args o
      else
        match args with
        | [] => Panic IndexOutOfRange
        | arg :: args =>
            if bool_decide (flag = "-h") then parse_flags args (with_IP arg o)
            else if bool_decide (flag = "-p") then n ← number "-p" arg; parse_flags args (with_Port n o)
            else if bool_decide (flag = "-m") then
              if bool_decide (arg ∈ modes) then parse_flags args (with_mode arg o)
              else Panic (PanicMsg ("-m " +:+ arg +:+ " error must in [testa, testb, dbtest, pushtest]"))
            else if bool_decide (flag = "-n") then n ← number "-n" arg; parse_flags args (with_clientCnt n o)
            else if bool_decide (flag = "-t") then n ← number "-t" arg; parse_flags args (with_testCnt n o)
            else if bool_decide (flag = "-i") then n ← number "-i" arg; parse_flags args (with_interval n o)
            else if bool_decide (flag = "-o") then
              if bool_decide (arg = "true") then parse_flags args (with_ordered true o)
              else if bool_decide (arg = "false") then parse_flags args (with_ordered false o)
              else Panic (PanicMsg ("-o " +:+ arg +:+ " error, must be true/false"))
            else parse_flags args (with_logLevel arg o)
        end
  end.

(** The goroutine a client is started in. *)
Inductive launch := LaunchTest (c : Client) (mode : string) (idx : Z) | LaunchPush (c : Client) (idx : Z).

Definition launches (o : Options) : list launch :=
  let c := mkClient (o_testCnt o) (o_interval o) (o_ordered o) in
  let one i := if bool_decide (o_mode o = "pushtest") then LaunchPush c (Z.of_nat i)
               else LaunchTest c (o_mode o) (Z.of_nat i) in
  one <$> seq 0 (Z.to_nat (o_clientCnt o)).

(** [main]: the log level and the clients it starts, unless it exits. *)
Definition main (os_Args : list string) : result (option (Options * Z * list launch)) :=
  let parsed := if 1 <? go_len os_Args then parse_flags (drop 1 os_Args) default_options else Ok None in
  o ← parsed;
  Ok (match o : option Options with
      | Some o => Some (o, Log.SetLogLevel (o_logLevel o), launches o)
      | None => None
      end).

(** A flag with its value. *)
Inductive flag :=
  | FIP (v : string)
  | FPort (v : Z)
  | FMode (v : string)
  | FClientCnt (v : Z)
  | FTestCnt (v : Z)
  | FInterval (v : Z)
  | FOrdered (v : bool)
  | FLogLevel (v : string).

Definition print_flag (f : flag) : list string :=
  match f with
  | FIP v => ["-h"; v]
  | FPort v => ["-p"; pretty v]
  | FMode v => ["-m"; v]
  | FClientCnt v => ["-n"; pretty v]
  | FTestCnt v => ["-t"; pretty v]
  | FInterval v => ["-i"; pretty v]
  | FOrdered v => ["-o"; if v then "true" else "false"]
  | FLogLevel v => ["-l"; v]
  end.

Definition set_flag (o : Options) (f : flag) : Options :=
  match f with
  | FIP v => with_IP v o
  | FPort v => with_Port v o
  | FMode v => with_mode v o
  | FClientCnt v => with_clientCnt v o
  | FTestCnt v => with_testCnt v o
  | FInterval v => with_interval v o
  | FOrdered v => with_ordered v o
  | FLogLevel v => with_logLevel v o
  end.

Definition valid_flag (f : flag) : Prop :=
  match f with
  | FPort v | FClientCnt v | FTestCnt v | FInterval v => 0 ≤ v < 2 ^ 63
  | FMode v => v ∈ modes
  | _ => True
  end.

Lemma number_pretty name v : 0 ≤ v < 2 ^ 63 → number name (pretty v) = Ok v.
Proof. intros H. unfold number. by rewrite Atoi_pretty. Qed.

Lemma parse_flag f args o : valid_flag f → parse_flags (print_flag f ++ args) o = parse_flags args (set_flag o f).
Proof.
  destruct f as [v|v|v|v|v|v|v|v]; intros Hv; try done.
  - change (mbind (λ n, parse_flags args (with_Port n o)) (number "-p" (pretty v)) = parse_flags args (with_Port v o)).
    by rewrite number_pretty.
  - change ((if bool_decide (v ∈ modes) then parse_flags args (with_mode v o)
             else Panic (PanicMsg ("-m " +:+ v +:+ " error must in [testa, testb, dbtest, pushtest]"))) =
            parse_flags args (with_mode v o)).
    by rewrite bool_decide_eq_true_2.
  - change (mbind (λ n, parse_flags args (with_clientCnt n o)) (number "-n" (pretty v)) =
            parse_flags args (with_clientCnt v o)).
    by rewrite number_pretty.
  - change (mbind (λ n, parse_flags args (with_testCnt n o)) (number "-t" (pretty v)) =
            parse_flags args (with_testCnt v o)).
    by rewrite number_pretty.
  - change (mbind (λ n, parse_flags args (with_interval n o)) (number "-i" (pretty v)) =
            parse_flags args (with_interval v o)).
    by rewrite number_pretty.
  - by destruct v.
Qed.

(** The command line.  Whatever flags with valid values are given, in whatever
    order and however often, each sets its own variable and a later one overrides
    an earlier one; a flag whose value is missing at the end of the line panics,
    and [--help] makes the program exit before anything is started. *)
Theorem command_line (fs : list flag) (rest : list string) (o : Options) :
  Forall valid_flag fs →
  parse_flags (concat (print_flag <$> fs) ++ rest) o = parse_flags rest (foldl set_flag o fs) ∧
  parse_flags (concat (print_flag <$> fs)) o = Ok (Some (foldl set_flag o fs)) ∧
  (∀ f, f ∈ ["-h"; "-p"; "-m"; "-n"; "-t"; "-i"; "-o"; "-l"] →
    parse_flags (concat (print_flag <$> fs) ++ [f]) o = Panic IndexOutOfRange) ∧
  parse_flags (concat (print_flag <$> fs) ++ "--help" :: rest) o = Ok None.
Proof.
  intros Hv. assert (∀ rest, parse_flags (concat (print_flag <$> fs) ++ rest) o = parse_flags rest (foldl set_flag o fs))
    as H.
  { clear rest. intros rest. revert o. induction Hv as [|f fs Hf _ IH]; intros o; [done|].
    cbn [fmap list_fmap concat foldl]. rewrite <- app_assoc, parse_flag by done. apply IH. }
  split; [apply H|]. split; [by specialize (H []); rewrite app_nil_r in H; rewrite H|].
  split; [|by rewrite H]. intros f Hf. rewrite H. rewrite !elem_of_cons in Hf.
  by destruct Hf as [->|[->|[->|[->|[->|[->|[->|[->|?%not_elem_of_nil]]]]]]]].
Qed.

Lemma command_line_witness :
  main (["./client"] ++ concat (print_flag <$> [FMode "testa"; FClientCnt 2; FTestCnt 1000; FIP "10.246.13.142"])) =
  Ok (Some (mkOptions "10.246.13.142" 8886 "testa" 2 1000 0 false "DEBUG", 1,
    [LaunchTest (mkClient 1000 0 false) "testa" 0; LaunchTest (mkClient 1000 0 false) "testa" 1])).
Proof.
  destruct (command_line [FMode "testa"; FClientCnt 2; FTestCnt 1000; FIP "10.246.13.142"] [] default_options)
    as (_ & H & _).
  - repeat constructor; done.
  - unfold main. change (drop 1 _) with (concat (print_flag <$> [FMode "testa"; FClientCnt 2; FTestCnt 1000; FIP "10.246.13.142"])).
    rewrite H. reflexivity.
Defined.

(** ** Witnesses *)
Module TestDemo.
Import SdkDemo.

#[local] Existing Instance ref_msgpack.

Definition test_world : World (SdkHandler TestHandler) TestApp :=
  init_world (mkGlobalConfig EmptyString EmptyString) SERVER_IDENTITY_SERVICE EmptyString
    (from_ok (mkSimpleRpcMgr ∅ ∅ false) test_init) (mkTestApp (fvc_Start 0 (new_fvc "push fvc"))).

Lemma push_accepts session (w : World (SdkHandler TestHandler) TestApp) :
  w_app w = w_app test_world → ∃ rsp w1,
    user_process RpcPushTestHandler session [GUint32 10; GStr "hello"] (zero_rsp (Busi (User RpcPushTestHandler)), w)
      = (Ok (), (rsp, w1)) ∧ w_sessions w1 = w_sessions w ∧ w_broken w1 = w_broken w ∧ w_net w1 = w_net w.
Proof.
  intros Ha. eexists _, _. split.
  - unfold user_process, test_program, liftW, RpcPushTest_Process. rewrite Ha. reflexivity.
  - done.
Qed.

Definition demo_inner : bytes := RpcEncode "push_test" [GInt32 10; GStr "hello"].

(** A session on the connection to the gate. *)
Definition session_world : World (SdkHandler TestHandler) TestApp :=
  set_sessions {[1%positive := mkSession SessionRemote to_gate EmptyString]} test_world.

Lemma push_runs_then_confirms_witness :
  ∃ w1, run_task (task_of 1 (RpcEncode MSG_G2C_PUSH [GBytes [1]; GStr namespace; GBytes demo_inner])) session_world
    = (Ok (), w1) ∧ totalCnt (push_fvc (w_app w1)) = 1 ∧
    w_net w1 = [(to_gate, frame (RpcEncode MSG_C2G_RPC_ROUTE (confirmation [1] namespace)))].
Proof.
  destruct (push_runs_then_confirms 1 [1] demo_inner namespace session_world) as (H & _).
  - reflexivity.
  - repeat constructor.
  - vm_compute. discriminate.
  - eexists. split; [|split].
    + eapply (H "push_test" [("Arg1", TUint32); ("Arg2", TString)] [GInt32 10; GStr "hello"]
        [GUint32 10; GStr "hello"] RpcPushTestHandler).
      * reflexivity.
      * reflexivity.
      * repeat constructor.
      * reflexivity.
      * reflexivity.
      * reflexivity.
      * reflexivity.
      * apply not_elem_of_empty.
    + reflexivity.
    + reflexivity.
Defined.

Lemma test_traffic_witness :
  ∃ g w', StartTest cap (mkClient 2 0 true) "testb" "10.0.0.9" 5000 0 (Some to_gate) 100 (λ _, mkRands 3 0 0 0 0) 9 test_world
    = (Ok g, w') ∧ length (w_net w') = 5%nat.
Proof.
  destruct (test_traffic cap (mkClient 2 0 true) "testb" "10.0.0.9" 5000 0 to_gate 100 (λ _, mkRands 3 0 0 0 0) 9 test_world)
    as (w' & E & _ & Hn & _).
  - right. left.
  - exists []. apply init_inv.
  - apply not_elem_of_empty.
  - discriminate.
  - split_and!; vm_compute; discriminate.
  - intros i rid. vm_compute. discriminate.
  - eexists _, w'. split; [exact E|]. rewrite Hn. reflexivity.
Defined.

End TestDemo.
