(* ===== verification/Startup.v ===== *)
(** * Start and stop of a process ([src/ms_framework/msf_main.go])

    [Init], [Start] and [Stop] put the components of a process together: the rpc
    table, the counter, the task pool, the databases, the registration in etcd
    and the tcp server.  Here is what the order of these steps means: what a
    start that fails has already done, that a process which gets its signal stops
    and leaves nothing behind, and which tasks of a process that stops are lost. *)

From S2P Require Import Prelude Utils Wire Msgpack LoadBalancer CallbackMgr RemoteMgr World SimpleRpc TcpServer Gate.
From S2P Require Import System TaskPool Push FlowCounter Etcd Lifecycle.

Local Open Scope Z_scope.

Section Startup.
  Context {MP : Msgpack} {B A E : Type} {HS : HandlerSig B} {BU : Business B A} {ET : Etcd E}.
  Context (RECV_BUF_MAX_LEN : Z).

(** A process and the etcd service it talks to. *)
Record Proc := mkProc {
  p_world : World B A;
  p_driver : EtcdDriver;
  p_store : E;
  p_db : gmap string Db.db_client;
  p_closed : list Db.db_client;     (** the clients of databases that were closed *)
  p_fvc : FlowVelocityCounter;      (** [rpcFvc] *)
}.

Definition with_world (f : World B A → World B A) (p : Proc) : Proc :=
  mkProc (f (p_world p)) (p_driver p) (p_store p) (p_db p) (p_closed p) (p_fvc p).
Definition with_fvc (f : FlowVelocityCounter) (p : Proc) : Proc :=
  mkProc (p_world p) (p_driver p) (p_store p) (p_db p) (p_closed p) f.
Definition with_db (db : gmap string Db.db_client) (closed : list Db.db_client) (p : Proc) : Proc :=
  mkProc (p_world p) (p_driver p) (p_store p) db (p_closed p ++ closed) (p_fvc p).

(** What the operating system and the other services answer. *)
Record Env := mkEnv {
  env_now : Z;
  env_db : nat → option string;     (** the error of the entry of a database, if any *)
  env_etcd : bool;                  (** [etcdctl.New] succeeds *)
  env_listen : string + string;     (** the error or the address of [net.Listen] *)
}.

(** [Init]; the program registers its handlers afterwards. *)
Definition Init (cfg : GlobalConfig) (identity : Z) (app : A) (s : E) : result Proc :=
  rmgr ← CreateSimpleRpcMgr;
  Ok (mkProc (init_world cfg identity EmptyString rmgr app) (CreateEtcdDriver (Service cfg)) s ∅ [] (new_fvc "rpc ops")).

Definition on_etcd {X} (m : M (EtcdDriver * E) X) : M Proc X := λ p,
  let '(r, (e, s)) := m (p_driver p, p_store p) in
  (r, mkProc (p_world p) e s (p_db p) (p_closed p) (p_fvc p)).

Definition StartRpcFvc (now : Z) : M Proc () := modify (with_fvc (fvc_Start now (new_fvc "rpc ops"))).

Definition StopRpcFvc : M Proc () := λ p,
  match fvc_Stop (p_fvc p) with
  | Some f => (Ok (), with_fvc f p)
  | None => (OutOfFuel, p)
  end.

Definition StartDB (errs : nat → option string) : M Proc () := λ p,
  match Db.CreateDBResource errs (w_cfg (p_world p)) with
  | Ok db => (Ok (), with_db db [] p)
  | Panic x => (Panic x, p)
  | OutOfFuel => (OutOfFuel, p)
  end.

Definition StopDB : M Proc () := λ p,
  match Db.ReleaseDBResource (w_cfg (p_world p)) (p_db p) with
  | Ok (closed, db) => (Ok (), with_db db closed p)
  | Panic x => (Panic x, p)
  | OutOfFuel => (OutOfFuel, p)
  end.

(** The address [Init] gave the server, in the text of a panic. *)
Definition listen_error (localIP : string) (w : World B A) (err : string) : string :=
  "CreateTcpServer error " +:+ GetTcpListenIP localIP w +:+ ":" +:+ pretty (cfg_Port (w_cfg w)) +:+ " - " +:+ err.

Definition StartTcpServer (localIP : string) (listen : string + string) : M Proc () :=
  match listen with
  | inl err => λ p, (Panic (PanicMsg (listen_error localIP (p_world p) err)), p)
  | inr addr => modify (with_world (λ w,
      set_tcp (mkTcpServer (clients (w_tcp w)) (stop (w_tcp w)) (lb (w_tcp w)) addr) w))
  end.

(** ** Identity, hooks and signals *)

Definition IdentityMap : gmap Z string := list_to_map
  [(SERVER_IDENTITY_SERVICE, "SERVER_IDENTITY_SERVICE");
   (SERVER_IDENTITY_SERVICE_GATE, "SERVER_IDENTITY_SERVICE_GATE");
   (SERVER_IDENTITY_CLIENT_GATE, "SERVER_IDENTITY_CLIENT_GATE")].

Definition GetServerIdentity (p : Proc) : Z := w_identity (p_world p).

Definition SetServerIdentity (identity : Z) : M Proc () := modify (with_world (λ w,
  mkWorld (w_cfg w) identity (w_clock w) (w_gid w) (w_rpc w) (w_tcp w) (w_clients w) (w_remote w)
    (w_cb w) (w_pool w) (w_sessions w) (w_net w) (w_broken w) (w_chans w) (w_nextch w) (w_fvc w) (w_app w))).

(** The package variables [StartBusi] and [StopBusi]. *)
Record Hooks := mkHooks { StartBusi : M Proc (); StopBusi : M Proc () }.

Definition default_hooks : Hooks := mkHooks (mret ()) (mret ()).
Definition SetStartBusi (f : M Proc ()) (h : Hooks) : Hooks := mkHooks f (StopBusi h).
Definition SetStopBusi (f : M Proc ()) (h : Hooks) : Hooks := mkHooks (StartBusi h) f.

(** Signals by their number.  [<-sigChan] after [signal.Notify]: of the signals that
    arrive, one of those asked for ends the wait. *)
Definition SIGINT : Z := 2.
Definition SIGTERM : Z := 15.

Definition wait_signal (sigs arrived : list Z) : M Proc () := λ p,
  if existsb (λ s, bool_decide (s ∈ sigs)) arrived then (Ok (), p) else (OutOfFuel, p).

Definition SignalHander (handler : M Proc ()) (sigs arrived : list Z) : M Proc () :=
  _ ← wait_signal sigs arrived; handler.

(** [Start], up to the hook of the program. *)
Definition Start (localIP : string) (env : Env) : M Proc () :=
  _ ← modify (with_world (λ w, set_rpc (StopRcpHandlerRegist (w_rpc w)) w));
  _ ← StartRpcFvc (env_now env);
  _ ← modify (with_world (set_pool StartTaskPool));
  _ ← StartDB (env_db env);
  cfg ← gets (λ p, w_cfg (p_world p));
  _ ← on_etcd (Etcd.Start cfg localIP (env_etcd env));
  StartTcpServer localIP (env_listen env).

(** [Stop], in the parts between which it waits: for the clients to be gone
    ([TcpServer.Stop_waits]), and for the task pool ([StopTaskPool_waits]). *)
Definition Stop_server : M Proc () := modify (with_world TcpServer.Stop).
Definition Stop_resources : M Proc () := _ ← on_etcd Etcd_Stop; StopDB.
Definition Stop_counter : M Proc () := StopRpcFvc.

(** A loop that waits until its condition is false. *)
Definition wait_while (waits : Proc → bool) : M Proc () := λ p,
  if waits p then (OutOfFuel, p) else (Ok (), p).

Definition lift_world (f : World B A → result (World B A)) : M Proc () := λ p,
  match f (p_world p) with
  | Ok w => (Ok (), with_world (λ _, w) p)
  | Panic x => (Panic x, p)
  | OutOfFuel => (OutOfFuel, p)
  end.

(** The whole of [Stop]: while it waits for the clients their read loops [ls] run,
    in the order [sched], and while it waits for the pool its goroutines do. *)
Definition Stop (h : Hooks) (ls : gmap positive loop) (sched : list (positive * read_event)) : M Proc () :=
  _ ← StopBusi h;
  _ ← Stop_server;
  _ ← lift_world (λ w, fst <$> foldM (loops_step RECV_BUF_MAX_LEN) sched (w, ls));
  _ ← wait_while (λ p, Stop_waits (p_world p));
  _ ← Stop_resources;
  _ ← lift_world (λ w, foldM (step RECV_BUF_MAX_LEN) (drain (w_pool w)) w);
  _ ← wait_while (λ p, StopTaskPool_waits (w_pool (p_world p)));
  Stop_counter.

(** What happens in a process that runs: the events of its world, the turns of the
    lease watch, which a service whose driver could connect has, and those of the
    counter. *)
Inductive proc_event := PWorld (e : event) | PLease | PCount | PTick (nowMs : Z).

Definition proc_step (localIP : string) (e : proc_event) : M Proc () :=
  match e with
  | PWorld e => lift_world (λ w, step RECV_BUF_MAX_LEN w e)
  | PLease => λ p,
      if (mode (p_driver p) =? 0) && negb (exit (p_driver p)) && bool_decide (cli (p_driver p) ≠ CliNil)
      then (_ ← on_etcd (LeaseWatch_tick (w_cfg (p_world p)) localIP); mret ()) p else (Ok (), p)
  | PCount => λ p, match Count (p_fvc p) with Some f => (Ok (), with_fvc f p) | None => (OutOfFuel, p) end
  | PTick nowMs => λ p, match fvc_step (p_fvc p) (FTick nowMs) with Some f => (Ok (), with_fvc f p) | None => (Ok (), p) end
  end.

Fixpoint proc_run (localIP : string) (evs : list proc_event) : M Proc () :=
  match evs with
  | [] => mret ()
  | e :: evs => _ ← proc_step localIP e; proc_run localIP evs
  end.

(** The whole of [Start]: it runs until the signal and then stops. *)
Definition Start_process (localIP : string) (env : Env) (h : Hooks) (evs : list proc_event) (arrived : list Z)
    (ls : gmap positive loop) (sched : list (positive * read_event)) : M Proc () :=
  _ ← Start localIP env;
  _ ← StartBusi h;
  _ ← proc_run localIP evs;
  _ ← wait_signal [SIGINT; SIGTERM] arrived;
  Stop h ls sched.

(** ** Starting *)

(** [Start] before it reaches etcd. *)
Definition prepared (env : Env) (p : Proc) : Proc :=
  with_fvc (fvc_Start (env_now env) (new_fvc "rpc ops"))
    (with_world (λ w, set_pool StartTaskPool (set_rpc (StopRcpHandlerRegist (w_rpc w)) w)) p).

Lemma Start_prepared localIP env p :
  Start localIP env p =
    (_ ← StartDB (env_db env);
     cfg ← gets (λ p, w_cfg (p_world p));
     _ ← on_etcd (Etcd.Start cfg localIP (env_etcd env));
     StartTcpServer localIP (env_listen env)) (prepared env p).
Proof. reflexivity. Qed.

(** The driver of a service registers it when etcd can be reached. *)
Lemma Etcd_Start_registers cfg localIP e s :
  mode e = 0 → (∀ s', keys s' = keys s → is_Some (etcd_grant s').1) →
  (∀ s' v id, keys s' = keys s → is_Some (etcd_put (key cfg localIP) v id s').1) →
  ∃ id e' s', Etcd.Start cfg localIP true (e, s) = (Ok (), (e', s')) ∧
    keys s' = <[key cfg localIP := id]> (keys s) ∧ lease e' = Some id ∧ cli e' = CliOpen ∧ exit e' = false.
Proof.
  intros Hm Hg Hp. unfold Etcd.Start.
  set (e1 := mkEtcdDriver (mode e) CliOpen (lease e) (exit e) (leaseDV e)).
  rewrite (M_bind_ok _ _ _ () (e1, s)) by done. rewrite (M_bind_ok _ _ _ (mode e) (e1, s)) by done.
  destruct (ServiceRegist_ok cfg localIP e1 s eq_refl Hg Hp) as (id & e2 & s2 & Er & Hk & _ & Hl & Hc & _ & Hm2 & _).
  rewrite (M_bind_ok _ _ _ () (e2, s2)) by (rewrite Hm; exact Er).
  eexists id, _, s2. split; [reflexivity|]. by split_and!.
Qed.

(** C27 The order of a start.  A service whose databases cannot all be reached
    panics before it registers: the keys in etcd are unchanged.  When they can be
    reached and etcd too, the service is registered under its own key, attached to
    the lease of its driver; and then, if it can listen, it runs, with its rpc
    table closed, its task pool empty, its counter running and exactly the
    configured databases; and if it cannot, it panics with the key still
    registered, so that gates try to connect until the lease ends. *)
Theorem start_order (localIP : string) (env : Env) (p : Proc) :
  (∀ x, Db.CreateDBResource (env_db env) (w_cfg (p_world p)) = Panic x →
    ∃ p', Start localIP env p = (Panic x, p') ∧ p_store p' = p_store p) ∧
  (∀ db, Db.CreateDBResource (env_db env) (w_cfg (p_world p)) = Ok db →
    mode (p_driver p) = 0 → env_etcd env = true →
    (∀ s', keys s' = keys (p_store p) → is_Some (etcd_grant s').1) →
    (∀ s' v id, keys s' = keys (p_store p) → is_Some (etcd_put (key (w_cfg (p_world p)) localIP) v id s').1) →
    ∃ p' id, keys (p_store p') = <[key (w_cfg (p_world p)) localIP := id]> (keys (p_store p)) ∧
      lease (p_driver p') = Some id ∧ cli (p_driver p') = CliOpen ∧
      match env_listen env with
      | inl err => Start localIP env p = (Panic (PanicMsg (listen_error localIP (p_world p) err)), p')
      | inr addr =>
          Start localIP env p = (Ok (), p') ∧ listenAddr (w_tcp (p_world p')) = addr ∧ p_db p' = db ∧
          serving (p_fvc p') = true ∧ StopTaskPool_waits (w_pool (p_world p')) = false ∧
          ∀ name h, RegistRpcHandler name h (w_rpc (p_world p')) = Panic (PanicMsg "can not retist rpc handler now")
      end).
Proof.
  rewrite Start_prepared. split.
  - intros x Hx. exists (prepared env p). split; [|done].
    apply M_bind_panic. unfold StartDB. change (w_cfg (p_world (prepared env p))) with (w_cfg (p_world p)).
    by rewrite Hx.
  - intros db Hdb Hm He Hg Hp.
    destruct (Etcd_Start_registers (w_cfg (p_world p)) localIP (p_driver p) (p_store p) Hm Hg Hp)
      as (id & e' & s' & Es & Hk & Hl & Hc & _).
    set (p1 := with_db db [] (prepared env p)).
    assert (StartDB (env_db env) (prepared env p) = (Ok (), p1)) as E1.
    { unfold StartDB. change (w_cfg (p_world (prepared env p))) with (w_cfg (p_world p)). by rewrite Hdb. }
    set (p2 := mkProc (p_world p1) e' s' (p_db p1) (p_closed p1) (p_fvc p1)).
    assert (∀ (f : () → M Proc ()), (on_etcd (Etcd.Start (w_cfg (p_world p)) localIP (env_etcd env)) ≫= f) p1 = f () p2) as E2.
    { intros f. apply M_bind_ok. unfold on_etcd. rewrite He. unfold p1.
      cbn [p_driver p_store with_db prepared with_fvc with_world]. by rewrite Es. }
    rewrite (M_bind_ok _ _ _ _ _ E1), (M_bind_ok _ _ _ (w_cfg (p_world p)) p1) by done. rewrite E2.
    destruct (env_listen env) as [err|addr].
    + exists p2, id. by split_and!.
    + eexists _, id. split; [|split; [|split; [|split; [reflexivity|]]]]; [exact Hk|exact Hl|exact Hc|].
      by split_and!.
Qed.

(** ** The life of a process *)

#[local] Set Default Proof Using "Type*".

Section Life.
  Context {PR : Program B A} (svc_of : CONN_ID → REMOTE_ID).

(** A process after [Init] and the registration of its handlers. *)
Record initialised (p : Proc) : Prop := {
  ini_world : world_ok svc_of (p_world p);
  ini_stop : stop (w_tcp (p_world p)) = false;
  ini_cli : cli (p_driver p) = CliNil;
  ini_lease : lease (p_driver p) = None;
  ini_closed : p_closed p = [];
}.

(** A process that was started and not told to stop. *)
Record running (cfg : GlobalConfig) (db : gmap string Db.db_client) (p : Proc) : Prop := {
  run_world : world_ok svc_of (p_world p);
  run_serves : serves_as cfg true (p_world p);
  run_pool : counted 0 (w_pool (p_world p));
  run_driver : driver_ok (p_driver p);
  run_db : p_db p = db;
  run_closed : p_closed p = [];
  run_fvc : serving (p_fvc p) = true;
}.

Definition proc_event_ok (e : proc_event) : Prop :=
  match e with PWorld e => event_ok svc_of e ∧ e ≠ EvStop | _ => True end.

Lemma on_etcd_Start_driver cfg localIP b e s :
  driver_ok e → driver_ok (Etcd.Start cfg localIP b (e, s)).2.1.
Proof.
  intros He. destruct b; [|done]. left. change (has_client (Etcd.Start cfg localIP true (e, s)).2). unfold Etcd.Start.
  rewrite (M_bind_ok _ _ _ () (mkEtcdDriver (mode e) CliOpen (lease e) (exit e) (leaseDV e), s)) by done.
  apply preserves_bind; [auto with preserves| |done]. intros m. apply preserves_bind.
  - destruct (m =? 0); [apply keep_ServiceRegist|auto with preserves].
  - by intros _ [e' s'] H.
Qed.

Lemma Start_running localIP env p p1 :
  initialised p → Start localIP env p = (Ok (), p1) →
  ∃ db, Db.CreateDBResource (env_db env) (w_cfg (p_world p)) = Ok db ∧ running (w_cfg (p_world p)) db p1.
Proof.
  intros [Hw Hst Hc Hl Hcl]. rewrite Start_prepared. unfold mbind, M_bind, StartDB at 1.
  change (w_cfg (p_world (prepared env p))) with (w_cfg (p_world p)).
  destruct (Db.CreateDBResource _ _) as [db| |] eqn:Edb; [|discriminate 1..]. cbn [gets].
  set (q := with_db db [] (prepared env p)). change (w_cfg (p_world q)) with (w_cfg (p_world p)).
  pose proof (on_etcd_Start_driver (w_cfg (p_world p)) localIP (env_etcd env) (p_driver q) (p_store q)) as Hd.
  unfold on_etcd. destruct (Etcd.Start _ _ _ _) as [[[]| |] [e s]]; [|discriminate 1..]. cbn [fst snd] in Hd.
  unfold StartTcpServer. destruct (env_listen env) as [err|addr]; [discriminate 1|]. intros [= <-]. exists db. split; [done|].
  split; cbn.
  - destruct Hw as [Ht Hcb Hrm]. split; [|done|done]. destruct Ht. by split.
  - by split.
  - done.
  - apply Hd. right. by split.
  - done.
  - by rewrite Hcl.
  - done.
Qed.

Lemma running_world cfg db p w :
  running cfg db p → world_ok svc_of w → serves_as cfg true w → counted 0 (w_pool w) → running cfg db (with_world (λ _, w) p).
Proof. intros [] ? ? ?. by split. Qed.

Lemma proc_step_running cfg db localIP e : proc_event_ok e → preserves (running cfg db) (proc_step localIP e).
Proof.
  intros He p Hp. destruct e as [e| | |nowMs]; cbn [proc_step].
  - unfold lift_world. destruct (step _ _ _) as [w| |] eqn:Est; [|done..]. destruct He as [Hev Hne]. destruct Hp as [Hw Hs Hpool].
    apply running_world; [by split| | |].
    + by apply (keep_step RECV_BUF_MAX_LEN (event_ok svc_of) (world_ok svc_of) (p_world p) e w).
    + by apply (keep_step RECV_BUF_MAX_LEN (λ e, true = true → e ≠ EvStop) (serves_as cfg true) (p_world p) e w).
    + by apply (keep_step RECV_BUF_MAX_LEN (λ _, True) (λ w, counted 0 (w_pool w)) (p_world p) e w).
  - destruct (_ && _) eqn:Eg; [|done]. apply andb_prop in Eg as [_ Hcli%bool_decide_eq_true].
    destruct Hp as [Hw Hs Hpool [Hc|[Hc _]] Hdb Hcl Hf]; [|done].
    pose proof (keep_LeaseWatch_tick (w_cfg (p_world p)) localIP (p_driver p, p_store p) Hc) as Hk.
    unfold mbind, M_bind, on_etcd. destruct (LeaseWatch_tick _ _ _) as [[]  [e s]]; split; try done; by left.
  - unfold Count, fvc_step. rewrite (run_fvc _ _ _ Hp). destruct Hp. by split.
  - unfold fvc_step, fvc_tick. rewrite (run_fvc _ _ _ Hp). pose proof (run_fvc _ _ _ Hp). destruct Hp.
    split; cbn; try done. by destruct (lastTime (p_fvc p) <? nowMs).
Qed.

Lemma proc_run_running cfg db localIP evs : Forall proc_event_ok evs → preserves (running cfg db) (proc_run localIP evs).
Proof.
  induction 1 as [|e evs He _ IH]; [apply preserves_ret|]. cbn. apply preserves_bind; [by apply proc_step_running|done].
Qed.

(** The read loops while the process stops, as [TcpServer.stop_drains] describes
    them. *)
Record loops_ok (w : World B A) (ls : gmap positive loop) (sched : list (positive * read_event)) : Prop := {
  lo_table id p : clients (w_tcp w) !! id = Some p → ∃ l, ls !! p = Some l ∧ l ≠ Ended;
  lo_live p l : ls !! p = Some l → l ≠ Ended → ∃ id, clients (w_tcp w) !! id = Some p;
  lo_read p ev : ls !! p = Some InRead → (p, ev) ∈ sched → read_ok RECV_BUF_MAX_LEN w p ev;
  lo_steps p : is_Some (ls !! p) → (2 ≤ steps_of p sched)%nat;
}.

(** What is left of a process that stopped. *)
Record stopped (cfg : GlobalConfig) (p p' : Proc) : Prop := {
  end_clients : clients (w_tcp (p_world p')) = ∅;
  end_pool : pending (w_pool (p_world p')) = 0%nat ∧ pool_size (w_pool (p_world p')) = 0;
  end_db : p_db p' = ∅ ∧ p_closed p' = (Db.created 0 (cfg_DbCfg cfg)).*2;
  end_fvc : serving (p_fvc p') = false;
  end_watch localIP : exit (p_driver p') = true ∧ proc_step localIP PLease p' = (Ok (), p');
  end_keys id s : lease (p_driver p) = Some id → etcd_revoke id (p_store p) = (Some (), s) →
    keys (p_store p') = filter (λ x, x.2 ≠ id) (keys (p_store p));
}.

Lemma Stop_running cfg p ls sched :
  RECV_BUF_MAX_LEN < 2 ^ 32 → go_len (RpcEncode MSG_HEART_BEAT_REQ []) ≤ MAX_PACKET_SIZE → busi_ends (B := B) (A := A) →
  NoDup (db_Name <$> cfg_DbCfg cfg) → running cfg (list_to_map (Db.created 0 (cfg_DbCfg cfg))) p → loops_ok (p_world p) ls sched →
  let r := Stop default_hooks ls sched p in
  (∃ w ls' x, foldM (loops_step RECV_BUF_MAX_LEN) sched (TcpServer.Stop (p_world p), ls) = Ok (w, ls') ∧
     foldM (step RECV_BUF_MAX_LEN) (drain (w_pool w)) w = Panic x ∧ r.1 = Panic x) ∨
  ∃ p', r = (Ok (), p') ∧ stopped cfg p p'.
Proof.
  intros Hmax Hhb Hb Hnd [Hw [Hcfg Hst] Hpool Hdrv Hdb Hcl Hf] [Htab Hlive Hread Hsteps] r. subst r. unfold Stop.
  rewrite (M_bind_ok _ _ _ () p) by done. set (p1 := with_world TcpServer.Stop p). rewrite (M_bind_ok _ _ _ () p1) by done.
  destruct (Stop_drained RECV_BUF_MAX_LEN (p_world p) ls sched Hmax Hhb (ok_tcp _ _ Hw) (Hst eq_refl) Htab Hlive Hread Hsteps)
    as (w2 & ls' & El & _ & Hwait & _ & _).
  assert (counted 0 (w_pool w2)) as Hpool2.
  { refine (keep_loops RECV_BUF_MAX_LEN (λ _, True) (λ w, counted 0 (w_pool w)) sched _ _ _ _ _ El).
    by apply (pinv_stop RECV_BUF_MAX_LEN (ok := λ _, True) (P := λ w, counted 0 (w_pool w))). }
  assert (w_cfg w2 = cfg) as Hcfg2.
  { refine (proj1 (keep_loops RECV_BUF_MAX_LEN (λ e, false = true → e ≠ EvStop) (serves_as cfg false) sched _ _ _ _ _ El)).
    by apply (pinv_stop RECV_BUF_MAX_LEN (ok := λ e, false = true → e ≠ EvStop) (P := serves_as cfg false)). }
  set (p2 := with_world (λ _, w2) p1).
  rewrite (M_bind_ok _ _ _ () p2) by (unfold lift_world; change (p_world p1) with (TcpServer.Stop (p_world p)); by rewrite El).
  rewrite (M_bind_ok _ _ _ () p2) by (unfold wait_while; change (p_world p2) with w2; by rewrite Hwait).
  destruct (Etcd_Stop_ok (p_driver p) (p_store p) Hdrv) as (e' & s' & Ee & Hx & Hc & Hk).
  set (p3 := mkProc w2 e' s' ∅ (Db.created 0 (cfg_DbCfg cfg)).*2 (p_fvc p)).
  rewrite (M_bind_ok _ _ _ () p3).
  2: { unfold Stop_resources. rewrite (M_bind_ok _ _ _ () (mkProc w2 e' s' (p_db p) (p_closed p) (p_fvc p)))
         by (unfold on_etcd, p2, p1; cbn; by rewrite Ee).
       unfold StopDB. cbn [p_world p_db]. rewrite Hcfg2, Hdb, (Db.Release_created cfg Hnd). unfold with_db. cbn. by rewrite Hcl. }
  destruct (run_drain RECV_BUF_MAX_LEN w2 Hb) as [Hne Hdr].
  assert (∀ f : () → M Proc (), (lift_world (λ w, foldM (step RECV_BUF_MAX_LEN) (drain (w_pool w)) w) ≫= f) p3 =
    match foldM (step RECV_BUF_MAX_LEN) (drain (w_pool w2)) w2 with
    | Ok w => f () (with_world (λ _, w) p3) | Panic x => (Panic x, p3) | OutOfFuel => (OutOfFuel, p3) end) as ->.
  { intros f. unfold mbind, M_bind, lift_world. change (p_world p3) with w2. by destruct (foldM _ _ w2). }
  destruct (foldM _ _ w2) as [w4|x|] eqn:Ed; [right|left; by exists w2, ls', x|done].
  specialize (Hdr w4 eq_refl).
  assert (counted 0 (w_pool w4)) as Hcnt.
  { apply (keep_steps RECV_BUF_MAX_LEN (λ _, True) (λ w, counted 0 (w_pool w)) (drain (w_pool w2)) w2 w4); [done| |done]. by apply Forall_true. }
  assert (pool_size (w_pool w4) = 0) as Hsz by (unfold counted in Hcnt; by rewrite Hcnt, Hdr).
  assert (StopTaskPool_waits (w_pool w4) = false) as Hwait4 by (unfold StopTaskPool_waits, Size; by rewrite Hsz).
  set (p4 := with_world (λ _, w4) p3).
  rewrite (M_bind_ok _ _ _ () p4) by (unfold wait_while; change (p_world p4) with w4; by rewrite Hwait4).
  unfold Stop_counter, StopRpcFvc, fvc_Stop, fvc_step. change (p_fvc p4) with (p_fvc p). rewrite Hf.
  eexists. split; [reflexivity|]. split; cbn; try done.
  - apply (keep_steps RECV_BUF_MAX_LEN (λ e, ∀ c, e ≠ EvAccept c) (λ w, clients (w_tcp w) = ∅) (drain (w_pool w2)) w2 w4); [|
      |done].
    + apply dec_stable. by apply bool_decide_eq_false in Hwait.
    + apply Forall_app. split; by apply Forall_replicate.
  - intros localIP. split; [done|]. rewrite Hx. cbn. by rewrite andb_false_r.
  - intros id s Hl Hr. rewrite (Hk id s Hl Hr). by apply etcd_revoke_ok.
Qed.


End Life.

End Startup.
Arguments Proc : clear implicits.

(** ** Tasks that are left when the databases are released

    [Stop] releases the databases before it waits for the task pool. *)

Section LateTasks.
  Context {MP : Msgpack} {R D : Type} {RE : Redis R} {MO : Mongo D}.

Implicit Types w : World PushHandler (PushApp R D).

(** The push service after its databases were released. *)
Definition released w : World PushHandler (PushApp R D) :=
  set_app (mkPushApp (gGateAddrMap (w_app w)) None None) w.

Definition push_req_fields : list (string * gotype) :=
  [("ClientID", TString); ("Typ", TString); ("IsSafe", TBool); ("PushMsg", TBytes)].

(** C29 A push that waits at a stop is lost.  A safe push that is in the task pool
    when the push service stops is run after the databases were released: its
    handler panics, the panic is recovered, and the task ends as if it had
    succeeded; nothing is stored, nothing is sent to a gate, and the caller gets
    no answer, although the push was to be kept until the client confirms it. *)
Theorem late_push_lost (session : positive) (cid typ : string) (msg : bytes) w :
  let inner := RpcEncode MSG_S2P_PUSH [GStr cid; GStr typ; GBool true; GBytes msg] in
  rpcs (w_rpc w) !! MSG_G2S_RPC_CALL = Some RpcG2SRpcCallHandler →
  rpcs (w_rpc w) !! MSG_S2P_PUSH = Some (Busi RpcS2PPushHandler) →
  args_fit push_req_fields [GStr cid; GStr typ; GBool true; GBytes msg] [GStr cid; GStr typ; GBool true; GBytes msg] →
  short inner = true →
  run_task (task_of session (RpcEncode MSG_G2S_RPC_CALL [GUint32 0; GBytes inner])) (released w)
  = (Ok (), set_fvc (w_fvc w + 1) (released w)).
Proof.
  intros inner Hcall Hpush Hargs Hshort.
  destruct (run_task_enc session MSG_G2S_RPC_CALL [GUint32 0; GBytes inner] (released w) RpcG2SRpcCallHandler
    call_fields [GUint32 0; GBytes inner]) as [fuel ->]; [done..| |].
  { pose proof (coerce_bytes inner Hshort (RpcEncode_bytes _ _)) as Hc. repeat constructor; exact Hc. }
  destruct (RpcEncode_decode MSG_S2P_PUSH push_req_fields _ _ eq_refl Hargs) as (rest & Hd & Hfs).
  set (w1 := set_fvc (w_fvc w + 1) (released w)).
  unfold run_handler. cbn [Process liftW]. unfold RpcG2SRpcCall_Process.
  rewrite (M_bind_ok _ _ _ () w1) by done.
  rewrite (M_bind_ok _ _ _ (EmptyString, GNil) w1); [done|].
  unfold rpcHandle. cbn [InnerRpc GRid]. fold inner in Hd. rewrite Hd.
  rewrite (M_bind_ok _ _ _ (Some (Busi RpcS2PPushHandler)) w1) by (unfold gets; do 2 f_equal; exact Hpush).
  unfold decode_req. cbn [GetReqPtr busi_req push_service_sig]. fold push_req_fields. rewrite Hfs.
  rewrite (M_bind_ok _ _ _ [] w1); [done|].
  unfold doProcessWithPanicProtect, recovered. by destruct fuel.
Qed.

End LateTasks.

(** ** Witnesses *)
Module StartDemo.
Import ServiceB EtcdDemo.

#[local] Existing Instance ref_msgpack.
#[local] Existing Instance GateDemo.map_redis.
#[local] Existing Instance PushDemo.map_mongo.

(** Service B, with its handler registered, and an empty etcd. *)
Definition demo_proc : Proc handlers () store :=
  mkProc (init_world demo_cfg SERVER_IDENTITY_SERVICE EmptyString (from_ok (mkSimpleRpcMgr ∅ ∅ false) regist_handlers) ())
    (CreateEtcdDriver (Service demo_cfg)) (mkStore ∅ 0) ∅ [] (new_fvc "rpc ops").

(** The port is taken. *)
Lemma start_order_witness :
  ∃ p', Start "10.0.0.1" (mkEnv 5 (λ _, None) true (inl "address in use")) demo_proc
      = (Panic (PanicMsg "CreateTcpServer error 10.0.0.1:8001 - address in use"), p') ∧
    keys (p_store p') = {[demo_key := 0]}.
Proof.
  destruct (start_order "10.0.0.1" (mkEnv 5 (λ _, None) true (inl "address in use")) demo_proc) as [_ H].
  destruct (H ∅) as (p' & id & Hk & Hl & _ & E).
  - reflexivity.
  - reflexivity.
  - reflexivity.
  - intros s' Hs. cbn in Hs |- *. unfold demo_grant. rewrite decide_True; [by eexists|]. rewrite Hs. by intros k i.
  - intros s' v i _. by eexists.
  - exists p'. split; [exact E|]. apply (f_equal (λ x, keys (p_store x.2))) in E. cbn [snd] in E. rewrite <- E.
    apply (bool_decide_unpack (_ = _)). vm_compute. exact I.
Defined.

(** Service B starts, a gate connects and calls it, and the service is told to stop
    while it waits for the next message of the gate. *)
Definition life_env : Env := mkEnv 5 (λ _, None) true (inr "10.0.0.1:8001").
Definition life_events : list proc_event :=
  [PWorld (EvAccept demo_gate); PLease; PWorld (EvRead 1 (ReadOK PoolDemo.demo_call)); PCount; PTick 3000].
Definition life_loops : gmap positive loop := {[1%positive := InRead]}.
Definition life_sched : list (positive * read_event) := [(1%positive, ReadTimeout); (1%positive, ReadTimeout)].

Definition life_started : Proc handlers () store := (Start "10.0.0.1" life_env demo_proc).2.
Definition life_running : Proc handlers () store := (proc_run 64 "10.0.0.1" life_events life_started).2.

Lemma demo_initialised : initialised GateDemo.demo_svc demo_proc.
Proof.
  split; [|done..]. split.
  - apply init_world_ok.
  - exists []. apply init_inv.
  - apply CreateRemoteMgr_deployed.
Qed.

Lemma fst_ok {X Y} (r : result X * Y) x : r.1 = Ok x → r = (Ok x, r.2).
Proof. destruct r. cbn. by intros ->. Qed.

Lemma life_clients id p : clients (w_tcp (p_world life_running)) !! id = Some p → id = GetConnID demo_gate ∧ p = 1%positive.
Proof.
  assert (clients (w_tcp (p_world life_running)) = {[GetConnID demo_gate := 1%positive]}) as ->.
  { apply (bool_decide_unpack (_ = _)). vm_compute. exact I. }
  by intros [<- <-]%lookup_singleton_Some.
Qed.


(** The push service of [PushDemo] with its handlers. *)
Definition push_proc : World PushHandler (PushApp (gmap string string) (gmap bytes PushRecord)) :=
  set_rpc (from_ok (mkSimpleRpcMgr ∅ ∅ false) (rmgr ← CreateSimpleRpcMgr; regist_all push_handlers rmgr))
    PushDemo.demo_push.

Lemma late_push_lost_witness :
  let inner := RpcEncode MSG_S2P_PUSH [GStr "joe"; GStr "client"; GBool true; GBytes [7]] in
  w_net (run_task (task_of 1 (RpcEncode MSG_G2S_RPC_CALL [GUint32 0; GBytes inner])) (released push_proc)).2 = [].
Proof.
  intros inner. unfold inner. rewrite (late_push_lost 1 "joe" "client" [7] push_proc).
  - reflexivity.
  - reflexivity.
  - reflexivity.
  - repeat constructor.
  - reflexivity.
Defined.

End StartDemo.
