(* ===== verification/Typing.v ===== *)
(** * The types of requests

    A handler declares the types of the fields of its request by what
    [GetReqPtr] points to; the framework decodes the bytes of a message into
    those fields by reflection before it calls [Process].  Here is that no
    message, however it is nested and whoever sent it, makes the framework call
    a handler with anything else than values of the declared types: the cases of
    the handlers for other values are never reached. *)

From S2P Require Import Prelude Utils Wire Msgpack LoadBalancer CallbackMgr RemoteMgr World SimpleRpc Gate System Push.
From S2P Require Import ClientSdk ServiceA.

Local Open Scope Z_scope.

Section Typing.
  Context {MP : Msgpack} {B A : Type} {HS : HandlerSig B}.

(** The arguments are values of the declared types, one for each field. *)
Definition typed_args (h : RpcHandler B) (args : list goval) : Prop :=
  Forall2 (λ (f : string * gotype) v, has_shape f.2 v = true) (default [] (GetReqPtr h)) args.

#[export] Instance typed_args_dec h args : Decision (typed_args h args).
Proof. unfold typed_args. apply _. Defined.

Lemma decode_req_typed h rest args : decode_req h rest = inr args → typed_args h args.
Proof.
  unfold decode_req, typed_args. destruct (GetReqPtr h) as [fields|]; cbn; [|by intros [= <-]; constructor].
  by intros (vals & -> & H)%decode_fields_shape.
Qed.

(** Dispatchers that differ at most on other arguments. *)
Definition agree (p q : Dispatcher B A) : Prop :=
  ∀ h session args st, typed_args h args → p h session args st = q h session args st.

(** A program that runs handlers itself, runs them on decoded arguments. *)
Class TypedProgram {BU : Business B A} : Prop :=
  typed_process p q b session args st :
    agree p q → typed_args (Busi b) args → busi_process p b session args st = busi_process q b session args st.

Section Guarded.
  Context {BU : Business B A} {TP : TypedProgram}.

(** The program with handlers that ignore a request of other types. *)
Definition guarded : Business B A := {|
  busi_process proc b session args :=
    if decide (typed_args (Busi b) args) then busi_process proc b session args else mret ();
  busi_accept := busi_accept;
|}.

Lemma rpcHandle_agree p q req session w :
  agree p q → rpcHandle p req session w = rpcHandle q req session w.
Proof.
  intros Hpq. unfold rpcHandle. destruct (decode_name (InnerRpc req)) as [name rest].
  unfold mbind, M_bind, gets. destruct (GetRpcHanderGenerator name w) as [h|]; [|done].
  destruct (decode_req h rest) as [[[fname ty] e]|args] eqn:E; [done|].
  unfold doProcessWithPanicProtect, recovered. by rewrite (Hpq h session args _ (decode_req_typed _ _ _ E)).
Qed.

Lemma G2SRpcCall_agree p q req session w :
  agree p q → RpcG2SRpcCall_Process p req session w = RpcG2SRpcCall_Process q req session w.
Proof.
  intros Hpq. unfold RpcG2SRpcCall_Process, mbind, M_bind, RpcFvcCount, modify. by rewrite (rpcHandle_agree p q).
Qed.

Lemma Process_guarded fuel : agree (Process (BU := guarded) fuel) (Process (BU := BU) fuel).
Proof using All.
  induction fuel as [|fuel IH]; intros h session args st Ht.
  all: destruct h; cbn [Process]; try done.
  - cbn [busi_process guarded]. rewrite decide_True by done. by apply typed_process.
  - repeat case_match; try done. destruct st as [rsp w]. cbn [liftW].
    by rewrite (G2SRpcCall_agree (Process (BU := guarded) fuel) (Process (BU := BU) fuel)).
  - cbn [busi_process guarded]. rewrite decide_True by done. by apply typed_process.
Qed.

(** C7 Handlers get what they declare.  Whatever bytes a task holds, running it in
    a program is the same as running it in the program whose handlers ignore
    every request that is not a sequence of values of the declared types: the
    framework, the rpcs inside of rpcs and the pushes a client runs included, no
    handler is ever called with other arguments. *)
Theorem handlers_typed (t : Task) (w : World B A) : run_task (BU := guarded) t w = run_task (BU := BU) t w.
Proof using All.
  unfold run_task, mbind, M_bind, gets. destruct (GetRpcHanderGenerator (t_name t) w) as [h|]; [|done].
  destruct (decode_req h (t_rest t)) as [?|args] eqn:E; [done|]. unfold run_handler.
  by rewrite (Process_guarded _ h (t_session t) args _ (decode_req_typed _ _ _ E)).
Qed.

End Guarded.
End Typing.

Arguments TypedProgram B A {HS BU}.

(** ** The programs *)

#[export] Instance gate_typed {MP : Msgpack} {R} {RE : Redis R} : TypedProgram GateHandler (GateApp R).
Proof. by intros p q b session args st _ _. Qed.

#[export] Instance push_typed {MP : Msgpack} {R D} {RE : Redis R} {MO : Mongo D} : TypedProgram PushHandler (PushApp R D).
Proof. by intros p q b session args st _ _. Qed.

#[export] Instance service_a_typed {MP : Msgpack} {R D} {RE : RedisHash R} {CO : Collection D} :
  TypedProgram AHandler (AApp R D).
Proof. by intros p q b session args st _ _. Qed.

#[export] Instance sdk_typed {MP : Msgpack} {U A} {US : HandlerSig U} {CP : ClientProgram U A} :
  TypedProgram (SdkHandler U) A.
Proof.
  intros p q b session args [rsp w] Hpq _. destruct b; cbn [busi_process client_sdk sdk_process]; try done.
  repeat case_match; try done. subst. cbn [liftW]. unfold SdkPush_Process. cbn [n_InnerRpc].
  destruct (decode_name _) as [name rest]. unfold mbind, M_bind, gets.
  destruct (GetRpcHanderGenerator name w) as [h|]; [|done].
  destruct (decode_req h rest) as [?|vals] eqn:E; [done|].
  unfold run_nested. by rewrite (Hpq h session vals _ (decode_req_typed _ _ _ E)).
Qed.

(** ** Witness: a login with a number for the name *)
Module TypingDemo.
Import GateDemo.

#[local] Existing Instance ref_msgpack.

Lemma handlers_typed_witness :
  let t := mkTask 1 MSG_GATE_LOGIN (RefMsgpack.enc (GUint32 7)) in
  run_task (BU := guarded) t (demo_world TcpClientState_OK) = run_task t (demo_world TcpClientState_OK) ∧
  run_task t (demo_world TcpClientState_OK) = (Ok (), demo_world TcpClientState_OK).
Proof. split; [apply handlers_typed|vm_compute; reflexivity]. Defined.

End TypingDemo.
