(* ===== verification/EndToEnd.v ===== *)
(** * Several processes together

    The rpc of a client to a service passes through four processes' hands: the
    client sends it to its gate, the gate forwards it to an instance of the
    service, the service's answer returns to the gate and from there to the
    client's callback.  Here the steps of the processes are run one after the
    other on the bytes that the previous one wrote: a process reads a frame and
    a goroutine of its pool runs the task it became. *)

From S2P Require Import Prelude Utils Wire Msgpack LoadBalancer CallbackMgr RemoteMgr World SimpleRpc TcpServer Gate.
From S2P Require Import System Push ClientSdk FlowCounter TestClient.

Local Open Scope Z_scope.

(** ** A process handles a frame *)

Section Frames.
  Context {MP : Msgpack} {B A : Type} {HS : HandlerSig B} {BU : Business B A}.
  Context (RECV_BUF_MAX_LEN : Z).

Implicit Types w : World B A.

(** A connected client whose read loop waits for the next frame. *)
Record conn_open w (p : positive) (c : TcpClient) : Prop := {
  co_client : w_clients w !! p = Some c;
  co_registered : GetTcpClient (GetConnID (c_conn c)) w = Some p;
  co_state : state c = TcpClientState_OK;
  co_buf : idle_buf RECV_BUF_MAX_LEN c;
  co_up : conn_fd (c_conn c) ∉ w_broken w;
}.

(** The rpc [name] with arguments [args], which decode to [vals], reaches [h]. *)
Record reaches w (name : string) (args vals : list goval) (h : RpcHandler B) : Prop := {
  re_name : short_string name = true;
  re_pool : ¬ runs_at_once name;
  re_handler : rpcs (w_rpc w) !! name = Some h;
  re_args : ∃ fields, GetReqPtr h = Some fields ∧ args_fit fields args vals;
  re_packet : fits name args;
  re_buffer : go_len (frame (RpcEncode name args)) ≤ RECV_BUF_MAX_LEN;
  re_order : name = MSG_G2S_RPC_CALL_ORDERED → separateCh (w_pool w) = [];
}.

(** The goroutine that runs the task of a message that arrives now. *)
Definition pool_event w (name : string) : event :=
  if decide (name = MSG_G2S_RPC_CALL_ORDERED) then EvSeparate else EvWorker (length (taskCh (w_pool w))).

(** The process while the handler runs: the session and the task are new. *)
Definition handling (session : positive) (s : Session) (cls : gmap positive TcpClient) (q : TaskPool) w : World B A :=
  set_clients cls (set_pool q (set_sessions (<[session := s]> (w_sessions w)) w)).

Lemma run_pool_event session s cls name args vals h w :
  reaches w name args vals h →
  let t := task_of session (RpcEncode name args) in
  ∃ fuel q, step RECV_BUF_MAX_LEN (handling session s cls (enqueue t (w_pool w)) w) (pool_event w name) =
    final ((_ ← run_handler (S fuel) h session vals; modify pool_done) (handling session s cls q w)).
Proof.
  intros [Hn Hrun Hh (fields & Hf & Ha) _ _ Hord] t.
  pose proof (task_of_name session name args Hn) as En. fold t in En.
  set (w0 := set_clients cls (set_sessions (<[session := s]> (w_sessions w)) w)).
  set (q := mkTaskPool (taskCh (w_pool w)) (i32 (pool_size (w_pool w) + 1)) (separateCh (w_pool w))).
  destruct (run_task_enc session name args (handling session s cls q w) h fields vals) as [fuel E]; [done..|].
  exists fuel, q. pose proof (run_newest t w0) as H. unfold pool_event.
  assert (is_ordered t ↔ name = MSG_G2S_RPC_CALL_ORDERED) as Hiff by (unfold is_ordered; by rewrite En).
  specialize (H (λ Ho, Hord (proj1 Hiff Ho))).
  assert (∀ m, (_ ← run_task t; modify pool_done) (handling session s cls q w) = m →
    m = (_ ← run_handler (S fuel) h session vals; modify pool_done) (handling session s cls q w)) as Hm.
  { intros m <-. unfold mbind, M_bind. fold t in E. by rewrite E. }
  destruct (decide (is_ordered t)), (decide (name = _)); try tauto; cbn [step]; f_equal; by apply Hm.
Qed.

Lemma client_frame p c name args vals h w :
  RECV_BUF_MAX_LEN < 2 ^ 32 → conn_open w p c → reaches w name args vals h →
  let session := fresh (dom (w_sessions w)) in
  ∃ c' fuel q, c_conn c' = c_conn c ∧ state c' = state c ∧ idle_buf RECV_BUF_MAX_LEN c' ∧
    foldM (step RECV_BUF_MAX_LEN) [EvRead p (ReadOK (frame (RpcEncode name args))); pool_event w name] w =
    final ((_ ← run_handler (S fuel) h session vals; modify pool_done)
      (handling session (mkSession SessionTcpClient (c_conn c) EmptyString) (<[p := c']> (w_clients w)) q w)).
Proof.
  intros Hmax [Hc Hp Hst Hbuf Hup] Hr session. pose proof Hr as [Hn Hrun Hh Ha Hpk Hsz Hord].
  destruct (read_frame RECV_BUF_MAX_LEN p c (RpcEncode name args) w) as (c' & Hcn & Hs & Hb & E);
    [done..|apply RpcEncode_bytes|done|done|by rewrite task_of_name|].
  destruct (run_pool_event session (mkSession SessionTcpClient (c_conn c) EmptyString) (<[p := c']> (w_clients w))
    name args vals h w Hr) as (fuel & q & Hrn).
  exists c', fuel, q. do 3 (split; [done|]). cbn [foldM step]. rewrite E. cbn [final mbind result_bind].
  fold session. unfold handling in Hrn at 1. rewrite Hrn. by destruct (final _).
Qed.

Lemma remote_frame r name args vals h w :
  RECV_BUF_MAX_LEN < 2 ^ 32 → remainLen r = 0 → go_len (recvBuf r) = RECV_BUF_MAX_LEN →
  reaches w name args vals h →
  let session := fresh (dom (w_sessions w)) in
  ∃ fuel q,
    foldM (step RECV_BUF_MAX_LEN) [EvRemoteRead r (ReadOK (frame (RpcEncode name args))); pool_event w name] w =
    final ((_ ← run_handler (S fuel) h session vals; modify pool_done)
      (handling session (mkSession SessionRemote (rconn r) EmptyString) (w_clients w) q w)).
Proof.
  intros Hmax Hrem Hcap Hr session. pose proof Hr as [Hn Hrun Hh Ha Hpk Hsz Hord].
  destruct (remote_read_frame RECV_BUF_MAX_LEN r (RpcEncode name args) w) as [r' E];
    [done..|apply RpcEncode_bytes|done|done|by rewrite task_of_name|].
  destruct (run_pool_event session (mkSession SessionRemote (rconn r) EmptyString) (w_clients w)
    name args vals h w Hr) as (fuel & q & Hrn).
  exists fuel, q. cbn [foldM step]. rewrite E. cbn [final mbind result_bind].
  fold session. unfold handling in Hrn at 1. unfold set_clients in Hrn at 1. cbn in Hrn.
  etransitivity; [|exact Hrn]. by destruct (step _ _ _).
Qed.

End Frames.

(** ** The hops of a call *)

Definition route_fields : list (string * gotype) :=
  [("NameSpace", TString); ("Service", TString); ("Rid", TUint32); ("IsOrdered", TBool); ("InnerRpc", TBytes)].
Definition answer_fields : list (string * gotype) := [("GRid", TUint32); ("Error", TString); ("Reply", TMapAny)].

Section GateHops.
  Context {MP : Msgpack} {R : Type} {RE : Redis R}.
  Context (RECV_BUF_MAX_LEN : Z) (svc_of : CONN_ID → REMOTE_ID).

Abbreviation GW := (World GateHandler (GateApp R)).
Implicit Types w : GW.

(** A gate at work, with its connections to the services up. *)
Record gate_ready w : Prop := {
  gr_cb : cb_ok w;
  gr_routes : rm_deployed svc_of (w_remote w);
  gr_route : rpcs (w_rpc w) !! MSG_C2G_RPC_ROUTE = Some (Busi RpcC2GRpcRouteHandler);
  gr_answer : rpcs (w_rpc w) !! MSG_S2G_RPC_RSP = Some (Busi RpcS2GRpcRspHandler);
  gr_remotes : ∀ id r, remotes (w_remote w) !! id = Some r →
    conn_fd (rconn r) ∉ w_broken w ∧ remainLen r = 0 ∧ go_len (recvBuf r) = RECV_BUF_MAX_LEN;
}.

(** The request of a client may be made and its service has an instance. *)
Definition routable w (c : TcpClient) (req : RpcC2GRpcRouteReq) : Prop :=
  (w_identity w = SERVER_IDENTITY_CLIENT_GATE → granted req w) ∧
  ∃ id r, remotes (w_remote w) !! id = Some r ∧ RemoteMgr.id r = GetRemoteID (q_NameSpace req) (q_Service req).

(** What is left of a request while it waits for its answer: the gate knows the
    client and its identifier under [grid]. *)
Record waiting (w w1 : GW) (grid rid : Z) (c : TcpClient) : Prop := {
  wa_cb : cb_ok w1;
  wa_map : ∃ info q, gCbMap (w_cb w1) = <[grid := (CbRoute info, q)]> (gCbMap (w_cb w)) ∧
    World.rid info = rid ∧ connID info = GetConnID (c_conn c);
  wa_client : ∃ q c', GetTcpClient (GetConnID (c_conn c)) w1 = Some q ∧ w_clients w1 !! q = Some c' ∧
    c_conn c' = c_conn c;
  wa_rpc : w_rpc w1 = w_rpc w;
  wa_broken : w_broken w1 = w_broken w;
}.

Lemma gate_request p c req args w :
  RECV_BUF_MAX_LEN < 2 ^ 32 → gate_ready w → conn_open RECV_BUF_MAX_LEN w p c → routable w c req →
  reaches RECV_BUF_MAX_LEN w MSG_C2G_RPC_ROUTE args
    [GStr (q_NameSpace req); GStr (q_Service req); GUint32 (q_Rid req); GBool (q_IsOrdered req);
     GBytes (q_InnerRpc req)] (Busi RpcC2GRpcRouteHandler) →
  (∀ grid, fits (route_name req) [GUint32 grid; GBytes (q_InnerRpc req)]) →
  ∃ id r grid w1, remotes (w_remote w) !! id = Some r ∧
    RemoteMgr.id r = GetRemoteID (q_NameSpace req) (q_Service req) ∧
    foldM (step RECV_BUF_MAX_LEN)
      [EvRead p (ReadOK (frame (RpcEncode MSG_C2G_RPC_ROUTE args))); pool_event w MSG_C2G_RPC_ROUTE] w = Ok w1 ∧
    w_net w1 = w_net w ++ [(rconn r, frame (RpcEncode (route_name req) [GUint32 grid; GBytes (q_InnerRpc req)]))] ∧
    (q_Rid req = 0 → grid = 0) ∧
    (q_Rid req ≠ 0 → grid = u32 (w_gid w + 1) ∧ waiting w w1 grid (q_Rid req) c).
Proof.
  intros Hmax [Hcb Hrm Hro Han Hre] Ho [Hg Hin] Hr Hfit.
  destruct (client_frame RECV_BUF_MAX_LEN p c _ _ _ _ w Hmax Ho Hr) as (c' & fuel & q & Hcn & Hst & Hbuf & E).
  set (session := fresh (dom (w_sessions w))) in *.
  set (s := mkSession SessionTcpClient (c_conn c) EmptyString) in *.
  set (w0 := handling session s (<[p := c']> (w_clients w)) q w) in *.
  destruct (route_forwards svc_of req session s w0) as (id & r & grid & w1 & Hid & Hsvc & Ef & Hn & Hcb1 & Hs & Hz & Hnz).
  - exact Hcb.
  - exact Hrm.
  - apply lookup_insert_eq.
  - destruct (decide (w_identity w = SERVER_IDENTITY_CLIENT_GATE)) as [Hi|Hi]; [|by left].
    right. right. exact (Hg Hi).
  - exact Hin.
  - intros id r Hid. by apply (Hre id r Hid).
  - done.
  - exists id, r, grid, (pool_done w1). split; [exact Hid|]. split; [done|]. split.
    { rewrite E. unfold mbind, M_bind. unfold run_handler. cbn [Process busi_process gate gate_process liftW].
      destruct req as [ns svc rid ord inner]. cbn [q_NameSpace q_Service q_Rid q_IsOrdered q_InnerRpc] in *.
      by rewrite Ef. }
    split; [exact Hn|]. split; [by intros [? _]%Hz|].
    intros [Hgr (cbp & info & Hm & Hri & Hci)]%Hnz. split; [done|]. destruct Hs as (Ht & Hcl & Hb & _ & _ & Hrp). split.
    + exact Hcb1.
    + by exists info, cbp.
    + exists p, c'. split; [|split; [|done]].
      * unfold GetTcpClient. cbn. rewrite Ht. exact (co_registered _ _ _ _ Ho).
      * cbn. rewrite Hcl. apply lookup_insert_eq.
    + exact Hrp.
    + exact Hb.
Qed.

Lemma gate_answer r grid rid error reply v c w w1 :
  RECV_BUF_MAX_LEN < 2 ^ 32 → remainLen r = 0 → go_len (recvBuf r) = RECV_BUF_MAX_LEN →
  waiting w w1 grid rid c → conn_fd (c_conn c) ∉ w_broken w →
  reaches RECV_BUF_MAX_LEN w1 MSG_S2G_RPC_RSP [GUint32 grid; GStr error; v] [GUint32 grid; GStr error; reply]
    (Busi RpcS2GRpcRspHandler) →
  fits MSG_G2C_RPC_RSP [GUint32 rid; GStr error; reply] →
  ∃ w2, foldM (step RECV_BUF_MAX_LEN)
      [EvRemoteRead r (ReadOK (frame (RpcEncode MSG_S2G_RPC_RSP [GUint32 grid; GStr error; v])));
       pool_event w1 MSG_S2G_RPC_RSP] w1 = Ok w2 ∧
    w_net w2 = w_net w1 ++ [(c_conn c, frame (RpcEncode MSG_G2C_RPC_RSP [GUint32 rid; GStr error; reply]))] ∧
    gCbMap (w_cb w2) = delete grid (gCbMap (w_cb w1)).
Proof.
  intros Hmax Hrem Hcap [Hcb (info & q & Hm & Hri & Hci) (p & c' & Hp & Hc & Hcn) _ Hb] Hup Hr Hfit.
  destruct (remote_frame RECV_BUF_MAX_LEN r _ _ _ _ w1 Hmax Hrem Hcap Hr) as (fuel & pool & E).
  set (session := fresh (dom (w_sessions w1))) in *.
  set (w0 := handling session _ _ pool w1) in *.
  destruct (response_delivers (mkS2GRsp grid error reply) session info q p c' w0) as (w2 & Er & _ & Hn & Hm2).
  - exact Hcb.
  - cbn. rewrite Hm. apply lookup_insert_eq.
  - rewrite Hci. exact Hp.
  - exact Hc.
  - rewrite Hcn. cbn. by rewrite Hb.
  - by rewrite Hri.
  - exists (pool_done w2). split_and!.
    + rewrite E. unfold mbind, M_bind, run_handler. cbn [Process busi_process gate gate_process liftW].
      by rewrite Er.
    + cbn. by rewrite Hn, Hcn, Hri.
    + exact Hm2.
Qed.

End GateHops.

Section ServiceHop.
  Context {MP : Msgpack} {B A : Type} {HS : HandlerSig B} {BU : Business B A}.
  Context (RECV_BUF_MAX_LEN : Z).

Implicit Types w : World B A.

(** The handler [b], called with [vals] in a fresh session, returns with the
    response fields [rsp] and the error [error] in the session, after sending
    what it likes. *)
Definition answers (b : B) (vals : list goval) (fields : list (string * goval)) (error : string) (rsp : list goval)
    : Prop :=
  busi_rsp b = Some fields ∧
  ∀ (proc : Dispatcher B A) session w s, w_sessions w !! session = Some s → err s = EmptyString →
    ∃ w' own, busi_process proc b session vals (fields.*2, w) = (Ok (), (rsp, w')) ∧
      w_broken w' = w_broken w ∧ w_net w' = w_net w ++ own ∧
      w_sessions w' !! session = Some (mkSession (typ s) (conn s) error).

Lemma service_answers name ordered grid inner_args vals rname b fields req_fields error rsp p c w :
  name = (if ordered : bool then MSG_G2S_RPC_CALL_ORDERED else MSG_G2S_RPC_CALL) →
  RECV_BUF_MAX_LEN < 2 ^ 32 → conn_open RECV_BUF_MAX_LEN w p c → grid ≠ 0 →
  reaches RECV_BUF_MAX_LEN w name [GUint32 grid; GBytes (RpcEncode rname inner_args)]
    [GUint32 grid; GBytes (RpcEncode rname inner_args)] RpcG2SRpcCallHandler →
  rpcs (w_rpc w) !! rname = Some (Busi b) → busi_req b = Some req_fields → short_string rname = true →
  args_fit req_fields inner_args vals → answers b vals fields error rsp →
  fits MSG_S2G_RPC_RSP [GUint32 grid; GStr error; GMapAny (zip fields.*1 rsp)] →
  ∃ w1 own, foldM (step RECV_BUF_MAX_LEN)
      [EvRead p (ReadOK (frame (RpcEncode name [GUint32 grid; GBytes (RpcEncode rname inner_args)])));
       pool_event w name] w = Ok w1 ∧
    w_net w1 = w_net w ++ own ++
      [(c_conn c, frame (RpcEncode MSG_S2G_RPC_RSP [GUint32 grid; GStr error; GMapAny (zip fields.*1 rsp)]))].
Proof.
  intros Hname Hmax Ho Hg Hr Hb Hreq Hn Ha [Hrsp Hans] Hfit.
  destruct (client_frame RECV_BUF_MAX_LEN p c _ _ _ _ w Hmax Ho Hr) as (c' & fuel & q & Hcn & Hst & Hbuf & E).
  set (session := fresh (dom (w_sessions w))) in *.
  set (s := mkSession SessionTcpClient (c_conn c) EmptyString) in *.
  set (w0 := handling session s (<[p := c']> (w_clients w)) q w) in *.
  set (w0' := set_fvc (w_fvc w0 + 1) w0).
  destruct (RpcEncode_decode rname req_fields inner_args vals Hn Ha) as (rest & Hd & Hfs).
  destruct (Hans (λ h session args, match fuel with O => lift_result OutOfFuel | S fuel => Process fuel h session args end)
    session w0' s) as (w1 & own & Ep & Hbr & Hnet & Hse);
    [apply lookup_insert_eq|done|].
  set (req := mkRpcG2SRpcCallReq grid (RpcEncode rname inner_args)).
  assert (rpcHandle (Process fuel) req session w0' = (Ok (error, GMapAny (zip fields.*1 rsp)), w1)) as Eh.
  { apply (rpcHandle_answer (Process fuel) req session w0' w1 (mkSession (typ s) (conn s) error) (Busi b) fields vals
      rsp (Ok ()) rname rest); try done.
    - unfold decode_req, GetReqPtr. by rewrite Hreq.
    - destruct fuel; exact Ep. }
  exists (pool_done (set_net (w_net w1 ++
    [(c_conn c, frame (RpcEncode MSG_S2G_RPC_RSP [GUint32 grid; GStr error; GMapAny (zip fields.*1 rsp)]))]) w1)), own.
  split.
  - rewrite E. unfold mbind at 1, M_bind at 1, run_handler. cbn [Process liftW].
    fold req. unfold RpcG2SRpcCall_Process. rewrite (M_bind_ok _ _ _ () w0') by done.
    rewrite (M_bind_ok _ _ _ _ _ Eh). cbn beta iota. rewrite (proj2 (Z.eqb_neq (GRid req) 0)) by done.
    rewrite (M_bind_ok _ _ _ _ _ (f_equal (λ r, (r, w1)) (MessageEncode_spec _ Hfit))).
    rewrite (M_bind_ok _ _ _ _ _ (deref_session_ok session _ w1 Hse)). cbn [conn].
    rewrite (M_bind_ok _ _ _ _ _ (MessageSend_ok (c_conn c) (frame _) w1 ltac:(done)
      ltac:(rewrite Hbr; exact (co_up _ _ _ _ Ho)))).
    done.
  - cbn. by rewrite Hnet, <- app_assoc.
Qed.

End ServiceHop.

(** ** The messages that reach their handlers *)

Section Reach.
  Context {MP : Msgpack} (RECV_BUF_MAX_LEN : Z).

(** Every message that may be sent can be received. *)
Definition buffers_fit : Prop := MAX_PACKET_SIZE + MESSAGE_SIZE_LEN ≤ RECV_BUF_MAX_LEN < 2 ^ 32.

Lemma fits_buffer name args :
  buffers_fit → fits name args → go_len (frame (RpcEncode name args)) ≤ RECV_BUF_MAX_LEN.
Proof.
  unfold buffers_fit, fits, frame, MESSAGE_SIZE_LEN. intros ? ?. rewrite go_len_app. unfold go_len at 1.
  rewrite be_encode_length. lia.
Qed.

(** The request of a client reaches the handler of routes of a gate, whatever
    integer value its request id was encoded from. *)
Lemma route_reaches {R} `{!Redis R} (req : RpcC2GRpcRouteReq) (v : goval) (w : World GateHandler (GateApp R)) :
  let args i := [GStr (q_NameSpace req); GStr (q_Service req); i; GBool (q_IsOrdered req); GBytes (q_InnerRpc req)] in
  buffers_fit → rpcs (w_rpc w) !! MSG_C2G_RPC_ROUTE = Some (Busi RpcC2GRpcRouteHandler) →
  short_string (q_NameSpace req) = true → short_string (q_Service req) = true →
  coerce TUint32 v = Some (GUint32 (q_Rid req)) →
  short (q_InnerRpc req) = true → Forall is_byte (q_InnerRpc req) → fits MSG_C2G_RPC_ROUTE (args v) →
  reaches RECV_BUF_MAX_LEN w MSG_C2G_RPC_ROUTE (args v) (args (GUint32 (q_Rid req))) (Busi RpcC2GRpcRouteHandler).
Proof.
  intros args ? ? ? ? ? ? ? ?. split; try done.
  - by intros [[=]|[=]].
  - exists route_fields. split; [done|]. repeat constructor; cbn [snd]; auto using coerce_string, coerce_bytes.
  - by apply fits_buffer.
Qed.

(** The answer of a service reaches the handler of answers of a gate. *)
Lemma answer_reaches {R} `{!Redis R} grid error reply (w : World GateHandler (GateApp R)) :
  let args := [GUint32 grid; GStr error; reply] in
  buffers_fit → rpcs (w_rpc w) !! MSG_S2G_RPC_RSP = Some (Busi RpcS2GRpcRspHandler) →
  coerce TUint32 (GUint32 grid) = Some (GUint32 grid) → short_string error = true →
  coerce TMapAny reply = Some reply → fits MSG_S2G_RPC_RSP args →
  reaches RECV_BUF_MAX_LEN w MSG_S2G_RPC_RSP args args (Busi RpcS2GRpcRspHandler).
Proof.
  intros args ? ? ? ? ? ?. split; try done.
  - by intros [[=]|[=]].
  - exists answer_fields. split; [done|]. repeat constructor; cbn [snd]; auto using coerce_string.
  - by apply fits_buffer.
Qed.

(** The call a gate forwards reaches the call handler of a service. *)
Lemma call_reaches {B A} `{!HandlerSig B, !Business B A} (ordered : bool) grid inner (w : World B A) :
  let name := if ordered then MSG_G2S_RPC_CALL_ORDERED else MSG_G2S_RPC_CALL in
  let args := [GUint32 grid; GBytes inner] in
  buffers_fit → rpcs (w_rpc w) !! name = Some RpcG2SRpcCallHandler →
  (ordered = true → separateCh (w_pool w) = []) →
  coerce TUint32 (GUint32 grid) = Some (GUint32 grid) → short inner = true → Forall is_byte inner → fits name args →
  reaches RECV_BUF_MAX_LEN w name args args RpcG2SRpcCallHandler.
Proof.
  intros name args ? ? Hord ? ? ? ?. split; try done.
  - unfold name. by destruct ordered.
  - unfold name. by destruct ordered; intros [[=]|[=]].
  - exists call_fields. split; [done|]. repeat constructor; cbn [snd]; auto using coerce_bytes.
  - by apply fits_buffer.
  - unfold name. destruct ordered; [by intros _; apply Hord|done].
Qed.

End Reach.

(** ** A call from a client to a service and back *)

Section Calls.
  Context {MP : Msgpack} {R : Type} {RE : Redis R}.
  Context {U A : Type} {US : HandlerSig U} {CP : ClientProgram U A}.
  Context {Bs As : Type} {HSs : HandlerSig Bs} {BUs : Business Bs As}.
  Context (RECV_BUF_MAX_LEN : Z) (svc_of : CONN_ID → REMOTE_ID).

Implicit Types wc : World (SdkHandler U) A.
Implicit Types wg : World GateHandler (GateApp R).
Implicit Types ws : World Bs As.

(** The client, connected through the proxy. *)
Record client_ready wc (g : GateProxy) : Prop := {
  cr_cb : cb_ok wc;
  cr_up : conn_fd (g_conn g) ∉ w_broken wc;
  cr_idle : idle_proxy RECV_BUF_MAX_LEN g;
  cr_response : rpcs (w_rpc wc) !! MSG_G2C_RPC_RSP = Some (Busi SdkRpcRspHandler);
}.

Lemma client_response g rid error reply v cb q wc :
  buffers_fit RECV_BUF_MAX_LEN → client_ready wc g → gCbMap (w_cb wc) !! rid = Some (CbFunc cb, q) →
  args_fit rsp_fields [GUint32 rid; GStr error; v] [GUint32 rid; GStr error; reply] →
  fits MSG_G2C_RPC_RSP [GUint32 rid; GStr error; v] →
  ∃ g' wc1 wc2,
    GateProxy_HandleRead_iter RECV_BUF_MAX_LEN g
      (Some (frame (RpcEncode MSG_G2C_RPC_RSP [GUint32 rid; GStr error; v]))) wc = (Ok (true, g'), wc1) ∧
    worker_step (length (taskCh (w_pool wc))) wc1 = (Ok (), wc2) ∧
    w_chans wc2 = w_chans wc ++ [FuncCalled cb error reply] ∧
    gCbMap (w_cb wc2) = delete rid (gCbMap (w_cb wc)).
Proof.
  intros Hbuf [Hcb Hup Hidle Hrsp] Hm Ha Hfit.
  set (args := [GUint32 rid; GStr error; v]) in *.
  destruct (proxy_read_frame RECV_BUF_MAX_LEN g (RpcEncode MSG_G2C_RPC_RSP args) wc) as (g' & _ & _ & E).
  - apply Hbuf.
  - done.
  - apply RpcEncode_bytes.
  - done.
  - by apply fits_buffer.
  - rewrite task_of_name by done. by intros [[=]|[=]].
  - set (session := fresh (dom (w_sessions wc))) in *.
    set (t := task_of session (RpcEncode MSG_G2C_RPC_RSP args)) in *.
    set (w0 := set_sessions (<[session := mkSession SessionRemote (g_conn g) EmptyString]> (w_sessions wc)) wc) in *.
    assert (¬ is_ordered t) as Ho by (unfold is_ordered, t; by rewrite task_of_name).
    pose proof (run_newest t w0 (λ H, False_ind _ (Ho H))) as Hn. rewrite decide_False in Hn by done.
    set (w0' := set_pool _ w0) in Hn at 2.
    destruct (response_called (mkRpcG2CRpcRspReq rid error reply) cb q w0' Hcb Hm) as (w2 & E2 & _ & Hc2 & Hm2 & _).
    exists g', (set_pool (enqueue t (w_pool w0)) w0), (pool_done w2). split_and!.
    + exact E.
    + change (taskCh (w_pool wc)) with (taskCh (w_pool w0)). rewrite Hn.
      assert (run_task t w0' = (Ok (), w2)) as Er by (rewrite <- E2; by apply run_response).
      by rewrite (M_bind_ok _ _ _ _ _ Er).
    + exact Hc2.
    + exact Hm2.
Qed.

(** An instance of the service, connected to the gate, that answers the rpc. *)
Record service_ready ws (p : positive) (c : TcpClient) (ordered : bool) (rname : string) (args : list goval)
    (error : string) (reply : goval) : Prop := {
  sr_open : conn_open RECV_BUF_MAX_LEN ws p c;
  sr_call : rpcs (w_rpc ws) !! (if ordered then MSG_G2S_RPC_CALL_ORDERED else MSG_G2S_RPC_CALL)
            = Some RpcG2SRpcCallHandler;
  sr_order : ordered = true → separateCh (w_pool ws) = [];
  sr_answers : ∃ b vals req_fields fields rsp,
    rpcs (w_rpc ws) !! rname = Some (Busi b) ∧ busi_req b = Some req_fields ∧ args_fit req_fields args vals ∧
    answers (A := As) b vals fields error rsp ∧ reply = GMapAny (zip fields.*1 rsp);
}.

(** C1 A call from a client to a service.  When a client calls a service with a
    callback and the gate may route it, then, each process reading the bytes the
    one before it wrote and one of its goroutines running the resulting task: the
    client sends one request; the gate forwards it, once, to an instance of that
    service; an instance that answers the rpc with some error and reply sends,
    besides what its handler sends, one answer back; the gate sends it on, once,
    to that client's connection; and the client calls the callback, exactly once,
    with exactly that error and reply.  Afterwards neither the gate nor the
    client still waits for the call. *)
Theorem c2s_call_roundtrip (sp : ServiceProxy) (ordered : bool) (rname : string) (args : list goval)
    (cb p : positive) (c : TcpClient) (error : string) (reply : goval) wc wg :
  let inner := RpcEncode rname args in
  let route rid := RpcEncode MSG_C2G_RPC_ROUTE (call_rpc sp ordered rname args rid) in
  let call_name := if ordered then MSG_G2S_RPC_CALL_ORDERED else MSG_G2S_RPC_CALL in
  let rid := u32 (w_gid wc + 1) in
  let grid := u32 (w_gid wg + 1) in
  buffers_fit RECV_BUF_MAX_LEN → client_ready wc (Gp sp) → gate_ready RECV_BUF_MAX_LEN svc_of wg →
  conn_open RECV_BUF_MAX_LEN wg p c → rid ≠ 0 → grid ≠ 0 →
  routable wg c (mkRouteReq (sp_Namespace sp) (sp_ServiceName sp) rid ordered inner) →
  short inner = true → short_string rname = true → short_string error = true →
  short_string (sp_Namespace sp) = true → short_string (sp_ServiceName sp) = true →
  coerce TMapAny reply = Some reply →
  (∀ i, fits MSG_C2G_RPC_ROUTE (call_rpc sp ordered rname args i)) →
  (∀ i, fits call_name [GUint32 i; GBytes inner]) →
  (∀ i, fits MSG_S2G_RPC_RSP [GUint32 i; GStr error; reply]) →
  (∀ i, fits MSG_G2C_RPC_RSP [GUint32 i; GStr error; reply]) →
  ∃ wc1 wg1 id r,
    rpcCall sp ordered rname ((AVal <$> args) ++ [ACallBack (Some cb)]) wc = (Ok (), wc1) ∧
    w_net wc1 = w_net wc ++ [(g_conn (Gp sp), frame (route rid))] ∧
    foldM (step RECV_BUF_MAX_LEN) [EvRead p (ReadOK (frame (route rid))); pool_event wg MSG_C2G_RPC_ROUTE] wg = Ok wg1 ∧
    remotes (w_remote wg) !! id = Some r ∧
    RemoteMgr.id r = GetRemoteID (sp_Namespace sp) (sp_ServiceName sp) ∧
    w_net wg1 = w_net wg ++ [(rconn r, frame (RpcEncode call_name [GUint32 grid; GBytes inner]))] ∧
    ∀ ws ps cs, service_ready ws ps cs ordered rname args error reply →
      ∃ ws1 own wg2 g' wc2 wc3,
        foldM (step RECV_BUF_MAX_LEN)
          [EvRead ps (ReadOK (frame (RpcEncode call_name [GUint32 grid; GBytes inner]))); pool_event ws call_name] ws
        = Ok ws1 ∧
        w_net ws1 = w_net ws ++ own ++
          [(c_conn cs, frame (RpcEncode MSG_S2G_RPC_RSP [GUint32 grid; GStr error; reply]))] ∧
        foldM (step RECV_BUF_MAX_LEN)
          [EvRemoteRead r (ReadOK (frame (RpcEncode MSG_S2G_RPC_RSP [GUint32 grid; GStr error; reply])));
           pool_event wg1 MSG_S2G_RPC_RSP] wg1 = Ok wg2 ∧
        w_net wg2 = w_net wg1 ++
          [(c_conn c, frame (RpcEncode MSG_G2C_RPC_RSP [GUint32 rid; GStr error; reply]))] ∧
        GateProxy_HandleRead_iter RECV_BUF_MAX_LEN (Gp sp)
          (Some (frame (RpcEncode MSG_G2C_RPC_RSP [GUint32 rid; GStr error; reply]))) wc1 = (Ok (true, g'), wc2) ∧
        worker_step (length (taskCh (w_pool wc1))) wc2 = (Ok (), wc3) ∧
        w_chans wc3 = w_chans wc ++ [FuncCalled cb error reply] ∧
        gCbMap (w_cb wg2) = delete grid (gCbMap (w_cb wg)) ∧
        gCbMap (w_cb wc3) = delete rid (gCbMap (w_cb wc)).
Proof.
  intros inner route call_name rid grid Hbuf Hcr Hgr Hop Hrid Hgrid Hrt Hsi Hsn Hse Hsns Hssv Hrep Hf1 Hf2 Hf3 Hf4.
  pose proof (RpcEncode_bytes rname args : Forall is_byte inner) as Hib.
  pose proof (coerce_u32 (w_gid wc + 1) : coerce TUint32 (GUint32 rid) = Some (GUint32 rid)) as Hcr1.
  pose proof (coerce_u32 (w_gid wg + 1) : coerce TUint32 (GUint32 grid) = Some (GUint32 grid)) as Hcr2.
  destruct (rpcCall_callback sp ordered rname args cb wc (cr_cb _ _ Hcr) (Hf1 _) (cr_up _ _ Hcr))
    as (wc1 & q & E1 & Hn1 & Hcb1 & Hm1 & Hr1 & _ & Hc1 & Hb1 & _).
  set (req := mkRouteReq (sp_Namespace sp) (sp_ServiceName sp) rid ordered inner) in *.
  destruct (gate_request RECV_BUF_MAX_LEN svc_of p c req _ wg (proj2 Hbuf) Hgr Hop Hrt
    (route_reaches _ req _ wg Hbuf (gr_route _ _ _ Hgr) Hsns Hssv Hcr1 Hsi Hib (Hf1 _)) Hf2)
    as (id & r & grid' & wg1 & Hid & Hsvc & E2 & Hn2 & _ & Hnz).
  destruct (Hnz Hrid) as [-> Hw]. fold grid in Hw, Hn2. clear Hnz.
  exists wc1, wg1, id, r. do 6 (split; [done|]).
  intros ws ps cs [Hsop Hcall Hord (b & vals & req_fields & fields & rsp & Hb & Hreq & Ha & Hans & Hreply)].
  destruct (service_answers RECV_BUF_MAX_LEN call_name ordered grid args vals rname b fields req_fields error rsp ps cs ws)
    as (ws1 & own & E3 & Hn3); try done.
  { apply Hbuf. }
  { by apply call_reaches. }
  { rewrite <- Hreply. apply Hf3. }
  destruct (gr_remotes _ _ _ Hgr id r Hid) as (_ & Hrem & Hcap).
  destruct (gate_answer RECV_BUF_MAX_LEN r grid rid error reply reply c wg wg1 (proj2 Hbuf) Hrem Hcap Hw
    (co_up _ _ _ _ Hop)) as (wg2 & E4 & Hn4 & Hm4).
  { apply answer_reaches; try done. rewrite (wa_rpc _ _ _ _ _ Hw). apply (gr_answer _ _ _ Hgr). }
  { done. }
  destruct (client_response (Gp sp) rid error reply reply cb q wc1 Hbuf) as (g' & wc2 & wc3 & E5 & E6 & Hc & Hmc).
  { destruct Hcr as [_ ? ? ?]. split; [done|by rewrite Hb1|done|by rewrite Hr1]. }
  { rewrite Hm1. apply lookup_insert_eq. }
  { repeat constructor; cbn [snd]; auto using coerce_string. }
  { done. }
  exists ws1, own, wg2, g', wc2, wc3. rewrite <- Hreply in Hn3. split_and!; try done.
  - by rewrite Hc, Hc1.
  - destruct (wa_map _ _ _ _ _ Hw) as (info & cbp & Hm & _). by rewrite Hm4, Hm, delete_insert_eq.
  - by rewrite Hmc, Hm1, delete_insert_eq.
Qed.

End Calls.

(** ** The confirmation of a push *)

Section Confirmation.
  Context {MP : Msgpack} {R D : Type} {RE : Redis R} {MO : Mongo D}.
  Context {U A : Type} {US : HandlerSig U} {CP : ClientProgram U A}.
  Context (RECV_BUF_MAX_LEN : Z) (svc_of : CONN_ID → REMOTE_ID).

Implicit Types wc : World (SdkHandler U) A.
Implicit Types wg : World GateHandler (GateApp R).
Implicit Types wp : World PushHandler (PushApp R D).

(** A push arrives at a client whose handler accepts it. *)
Lemma client_push g pid ns name args vals fields u wc :
  buffers_fit RECV_BUF_MAX_LEN → idle_proxy RECV_BUF_MAX_LEN g → conn_fd (g_conn g) ∉ w_broken wc →
  rpcs (w_rpc wc) !! MSG_G2C_PUSH = Some (Busi SdkPushHandler) → pid ≠ [] →
  let inner := RpcEncode name args in
  args_fit push_fields [GBytes pid; GStr ns; GBytes inner] [GBytes pid; GStr ns; GBytes inner] →
  fits MSG_G2C_PUSH [GBytes pid; GStr ns; GBytes inner] → fits MSG_C2G_RPC_ROUTE (confirmation pid ns) →
  short_string name = true → args_fit fields args vals →
  rpcs (w_rpc wc) !! name = Some (Busi (User u)) → busi_req u = Some fields →
  (∀ session w, rpcs (w_rpc w) = rpcs (w_rpc wc) → w_app w = w_app wc → ∃ rsp w1,
     user_process u session vals (zero_rsp (Busi (User u)), w) = (Ok (), (rsp, w1)) ∧
     w_sessions w1 = w_sessions w ∧ w_broken w1 = w_broken w ∧ w_net w1 = w_net w) →
  ∃ g' wc1 wc2,
    GateProxy_HandleRead_iter RECV_BUF_MAX_LEN g
      (Some (frame (RpcEncode MSG_G2C_PUSH [GBytes pid; GStr ns; GBytes inner]))) wc = (Ok (true, g'), wc1) ∧
    worker_step (length (taskCh (w_pool wc))) wc1 = (Ok (), wc2) ∧
    w_net wc2 = w_net wc ++ [(g_conn g, frame (RpcEncode MSG_C2G_RPC_ROUTE (confirmation pid ns)))].
Proof.
  intros Hbuf Hidle Hup Hr Hpid inner Hfit Hf1 Hf2 Hn Ha Hu Hreq Hproc.
  set (margs := [GBytes pid; GStr ns; GBytes inner]) in *.
  destruct (proxy_read_frame RECV_BUF_MAX_LEN g (RpcEncode MSG_G2C_PUSH margs) wc) as (g' & _ & _ & E).
  - apply Hbuf.
  - done.
  - apply RpcEncode_bytes.
  - done.
  - by apply fits_buffer.
  - rewrite task_of_name by done. by intros [[=]|[=]].
  - set (session := fresh (dom (w_sessions wc))) in *.
    set (t := task_of session (RpcEncode MSG_G2C_PUSH margs)) in *.
    set (w0 := set_sessions (<[session := mkSession SessionRemote (g_conn g) EmptyString]> (w_sessions wc)) wc) in *.
    assert (¬ is_ordered t) as Ho by (unfold is_ordered, t; by rewrite task_of_name).
    pose proof (run_newest t w0 (λ H, False_ind _ (Ho H))) as Hw. rewrite decide_False in Hw by done.
    set (w0' := set_pool _ w0) in Hw at 2.
    destruct (Hproc session w0' eq_refl eq_refl) as (rsp & w1 & Ep & Hs1 & Hb1 & Hn1).
    assert (w_sessions w1 !! session = Some (mkSession SessionRemote (g_conn g) EmptyString)) as Hs
      by (rewrite Hs1; apply lookup_insert_eq).
    pose proof (push_accepted session pid ns name args vals fields u rsp w0' w1 _ Hr Hfit Hf2 Hn Ha Hu Hreq Ep Hs
      ltac:(by rewrite Hb1)) as Er. rewrite decide_False in Er by done.
    eexists g', _, _. split; [exact E|]. split.
    + change (taskCh (w_pool wc)) with (taskCh (w_pool w0)). etransitivity; [exact Hw|].
      unfold t, margs, inner. by rewrite (M_bind_ok _ _ _ _ _ Er).
    + cbn. by rewrite Hn1.
Qed.

(** The push service handles the confirmation. *)
Lemma push_reply_frame p c pid d d1 wp :
  RECV_BUF_MAX_LEN < 2 ^ 32 → conn_open RECV_BUF_MAX_LEN wp p c → length pid = 12%nat →
  let inner := RpcEncode MSG_PUSH_REPLY [GBytes pid] in
  reaches RECV_BUF_MAX_LEN wp MSG_G2S_RPC_CALL [GUint32 0; GBytes inner] [GUint32 0; GBytes inner] RpcG2SRpcCallHandler →
  rpcs (w_rpc wp) !! MSG_PUSH_REPLY = Some (Busi RpcPushReplyHandler) → coerce TBytes (GBytes pid) = Some (GBytes pid) →
  myMongo (w_app wp) = Some d → update_state d pid PUSH_RECORD_STATE_ARRIVED = (true, d1) →
  ∃ wp1, foldM (step RECV_BUF_MAX_LEN)
      [EvRead p (ReadOK (frame (RpcEncode MSG_G2S_RPC_CALL [GUint32 0; GBytes inner]))); pool_event wp MSG_G2S_RPC_CALL]
      wp = Ok wp1 ∧ w_net wp1 = w_net wp ∧ myMongo (w_app wp1) = Some d1.
Proof.
  intros Hmax Ho Hlen inner Hr Hh Hc Hd Hupd.
  destruct (client_frame RECV_BUF_MAX_LEN p c _ _ _ _ wp Hmax Ho Hr) as (c' & fuel & q & _ & _ & _ & E).
  set (session := fresh (dom (w_sessions wp))) in *. set (w0 := handling session _ _ q wp) in *.
  destruct (RpcEncode_decode MSG_PUSH_REPLY [("Pid", TBytes)] [GBytes pid] [GBytes pid]) as (rest & Hde & Hfs);
    [done|by repeat constructor|].
  set (w0' := set_fvc (w_fvc w0 + 1) w0). exists (pool_done (set_mongo d1 w0')). split; [|done].
  rewrite E. unfold mbind at 1, M_bind at 1, run_handler. cbn [Process liftW]. unfold RpcG2SRpcCall_Process.
  rewrite (M_bind_ok _ _ _ () w0') by done.
  rewrite (M_bind_ok _ _ _ (EmptyString, GNil) (set_mongo d1 w0')); [done|].
  unfold rpcHandle. cbn [InnerRpc]. unfold inner. rewrite Hde.
  rewrite (M_bind_ok _ _ _ (Some (Busi RpcPushReplyHandler)) w0') by (unfold gets; do 2 f_equal; exact Hh).
  unfold decode_req. cbn [GetReqPtr busi_req push_service_sig]. rewrite Hfs.
  rewrite (M_bind_ok _ _ _ [] (set_mongo d1 w0')); [done|].
  assert (RpcPushReply_Process pid w0' = (Ok (), set_mongo d1 w0')) as Ep.
  { unfold RpcPushReply_Process.
    assert (go_copy (replicate 12 0) pid = pid) as -> by (apply (go_copy_make 0 pid 12); unfold go_len; by rewrite Hlen).
    change (myMongo (w_app w0')) with (myMongo (w_app wp)). by rewrite Hd, Hupd. }
  unfold doProcessWithPanicProtect, recovered.
  destruct fuel; cbn [Process busi_process push_service push_process liftW]; by rewrite Ep.
Qed.

(** C3 A safe push is confirmed.  When a safe push that the push service stored
    under [pid] arrives at the client it is for, and the client's handler accepts
    it, then: the client sends one confirmation to its gate; the gate forwards it,
    once, to an instance of the push service; and that marks the push as arrived:
    exactly this push is removed from those that will be sent again, and nothing
    is answered. *)
Theorem safe_push_confirmed (g : GateProxy) (pid : bytes) (ns name : string) (args vals : list goval)
    (fields : list (string * gotype)) (u : U) (p pp : positive) (c cp : TcpClient) (d d1 : D) wc wg wp :
  let inner := RpcEncode name args in
  let reply := RpcEncode MSG_PUSH_REPLY [GBytes pid] in
  buffers_fit RECV_BUF_MAX_LEN → length pid = 12%nat → Forall is_byte pid →
  short_string ns = true → short_string name = true → short reply = true → short inner = true →
  fits MSG_G2C_PUSH [GBytes pid; GStr ns; GBytes inner] → fits MSG_C2G_RPC_ROUTE (confirmation pid ns) →
  (∀ i, fits MSG_G2S_RPC_CALL [GUint32 i; GBytes reply]) →
  (* the client, with a handler for the push *)
  idle_proxy RECV_BUF_MAX_LEN g → conn_fd (g_conn g) ∉ w_broken wc →
  rpcs (w_rpc wc) !! MSG_G2C_PUSH = Some (Busi SdkPushHandler) →
  rpcs (w_rpc wc) !! name = Some (Busi (User u)) → busi_req u = Some fields → args_fit fields args vals →
  (∀ session w, rpcs (w_rpc w) = rpcs (w_rpc wc) → w_app w = w_app wc → ∃ rsp w1,
     user_process u session vals (zero_rsp (Busi (User u)), w) = (Ok (), (rsp, w1)) ∧
     w_sessions w1 = w_sessions w ∧ w_broken w1 = w_broken w ∧ w_net w1 = w_net w) →
  (* the gate it is connected to *)
  gate_ready RECV_BUF_MAX_LEN svc_of wg → conn_open RECV_BUF_MAX_LEN wg p c →
  routable wg c (mkRouteReq ns "PushService" 0 false reply) →
  (* the push service, to which the gate is connected *)
  conn_open RECV_BUF_MAX_LEN wp pp cp →
  rpcs (w_rpc wp) !! MSG_G2S_RPC_CALL = Some RpcG2SRpcCallHandler →
  rpcs (w_rpc wp) !! MSG_PUSH_REPLY = Some (Busi RpcPushReplyHandler) →
  myMongo (w_app wp) = Some d → update_state d pid PUSH_RECORD_STATE_ARRIVED = (true, d1) →
  ∃ g' wc1 wc2 wg1 id r wp1,
    GateProxy_HandleRead_iter RECV_BUF_MAX_LEN g
      (Some (frame (RpcEncode MSG_G2C_PUSH [GBytes pid; GStr ns; GBytes inner]))) wc = (Ok (true, g'), wc1) ∧
    worker_step (length (taskCh (w_pool wc))) wc1 = (Ok (), wc2) ∧
    w_net wc2 = w_net wc ++ [(g_conn g, frame (RpcEncode MSG_C2G_RPC_ROUTE (confirmation pid ns)))] ∧
    foldM (step RECV_BUF_MAX_LEN)
      [EvRead p (ReadOK (frame (RpcEncode MSG_C2G_RPC_ROUTE (confirmation pid ns)))); pool_event wg MSG_C2G_RPC_ROUTE] wg
    = Ok wg1 ∧
    remotes (w_remote wg) !! id = Some r ∧ RemoteMgr.id r = GetRemoteID ns "PushService" ∧
    w_net wg1 = w_net wg ++ [(rconn r, frame (RpcEncode MSG_G2S_RPC_CALL [GUint32 0; GBytes reply]))] ∧
    foldM (step RECV_BUF_MAX_LEN)
      [EvRead pp (ReadOK (frame (RpcEncode MSG_G2S_RPC_CALL [GUint32 0; GBytes reply]))); pool_event wp MSG_G2S_RPC_CALL]
      wp = Ok wp1 ∧
    w_net wp1 = w_net wp ∧ myMongo (w_app wp1) = Some d1 ∧
    ∀ cid, unarrived cid d1 = delete pid (unarrived cid d).
Proof.
  intros inner reply Hbuf Hlen Hpb Hns Hname Hsr Hsi Hf1 Hf2 Hf3 Hidle Hup Hpush Hu Hreq Ha Hproc Hgr Hop Hrt Hopp Hcall
    Hrep Hd Hupd.
  assert (coerce TBytes (GBytes pid) = Some (GBytes pid)) as Hcp
    by (apply coerce_bytes; [unfold short, go_len; by rewrite Hlen|done]).
  assert (coerce TBytes (GBytes reply) = Some (GBytes reply)) as Hcr
    by (apply coerce_bytes; [done|apply RpcEncode_bytes]).
  destruct (client_push g pid ns name args vals fields u wc) as (g' & wc1 & wc2 & E1 & E2 & Hn2); try done.
  { by destruct pid. }
  { repeat constructor; cbn [snd]; auto using coerce_string. by apply coerce_bytes, RpcEncode_bytes. }
  set (req := mkRouteReq ns "PushService" 0 false reply) in *.
  destruct (gate_request RECV_BUF_MAX_LEN svc_of p c req (confirmation pid ns) wg (proj2 Hbuf) Hgr Hop Hrt)
    as (id & r & grid & wg1 & Hid & Hsvc & E3 & Hn3 & Hz & _).
  { apply (route_reaches _ req (GInt 0)); try done; [apply (gr_route _ _ _ Hgr)|apply RpcEncode_bytes]. }
  { done. }
  rewrite (Hz eq_refl) in Hn3.
  destruct (push_reply_frame pp cp pid d d1 wp (proj2 Hbuf) Hopp Hlen) as (wp1 & E4 & Hn4 & Hm4); try done.
  { apply (call_reaches _ false); try done. apply RpcEncode_bytes. }
  exists g', wc1, wc2, wg1, id, r, wp1. split_and!; try done.
  intros cid. unfold unarrived. rewrite (update_state_ok _ _ _ _ Hupd). apply map_eq. intros i.
  rewrite lookup_delete. apply option_eq. intros rec. rewrite map_lookup_filter_Some, lookup_alter.
  case_decide as Hi; [subst i|by rewrite map_lookup_filter_Some].
  split; [|done]. by intros [(? & _ & ->)%fmap_Some [_ [=]]].
Qed.

End Confirmation.

(** ** Witnesses

    A client, a client gate and service B, which opened [rpc_b] to clients. *)
Module CallDemo.
Import ServiceB SdkDemo.

#[local] Existing Instance ref_msgpack.
#[local] Existing Instance GateDemo.map_redis.

Abbreviation GW := (World GateHandler (GateApp (gmap string string))).

Definition idle_client (c : Conn) : TcpClient := mkTcpClient c (replicate (Z.to_nat cap) 0) 0 0 TcpClientState_OK.

Definition of_client : Conn := mkConn 1 "1.2.3.4:5".
Definition to_service : Conn := mkConn 2 "10.0.0.1:8001".
Definition of_gate : Conn := mkConn 1 "10.0.0.9:41000".

(** The routes of a gate that discovered one instance of a service. *)
Definition routes (ns svc : string) : RemoteMgr (L := LoadBalancer) :=
  from_ok CreateRemoteMgr
    (foldM (run_op cap) [OpDiscover 0 [Some to_service] ns svc "10.0.0.1" 8001] CreateRemoteMgr).

Definition connected {B A} (p : positive) (c : Conn) (w : World B A) : World B A :=
  set_clients {[p := idle_client c]}
    (set_tcp (mkTcpServer {[GetConnID c := p]} false (bal_add bal_new (GetConnID c)).2 (listenAddr (w_tcp w))) w).

(** A gate with these routes and one client. *)
Definition gate_as (name : string) (identity : Z) (ns svc : string) (perms : gmap string bool) : GW :=
  connected 1 of_client
    (set_remote (routes ns svc)
      (init_world (mkGlobalConfig ns name) identity "10.0.0.9:5000"
        (StopRcpHandlerRegist GateDemo.demo_rpcs) (mkGateApp {[GetRemoteID ns svc := perms]} (Some ∅)))).

(** A client gate with the rpcs clients may call, and a service gate. *)
Definition gate_of : string → string → gmap string bool → GW := gate_as "ClientGate" SERVER_IDENTITY_CLIENT_GATE.
Definition service_gate (ns svc : string) : GW := gate_as "ServiceGate" SERVER_IDENTITY_SERVICE_GATE ns svc ∅.

Definition gate_world : GW := gate_of "ns" "ServiceB" {["rpc_b" := true]}.

Definition service_world : World handlers () :=
  connected 1 of_gate
    (init_world (mkGlobalConfig "ns" "ServiceB") SERVER_IDENTITY_SERVICE "10.0.0.1:8001"
      (StopRcpHandlerRegist (from_ok (mkSimpleRpcMgr ∅ ∅ false) regist_handlers)) ()).

Lemma idle_client_buf c : idle_buf cap (idle_client c).
Proof. split; [done|]. unfold idle_client, go_len. cbn [c_recvBuf]. by rewrite length_replicate. Qed.

Lemma demo_open {B A} p c (w : World B A) :
  w_broken w = ∅ → conn_open cap (connected p c w) p (idle_client c).
Proof.
  intros Hb. split.
  - apply lookup_singleton_eq.
  - apply lookup_singleton_eq.
  - done.
  - apply idle_client_buf.
  - cbn. rewrite Hb. apply not_elem_of_empty.
Qed.

Lemma gate_as_ready name identity ns svc perms :
  remotes (routes ns svc) =
    {["10.0.0.1:8001" := mkRemote (GetRemoteID ns svc) to_service (replicate (Z.to_nat cap) 0) 0 0]} →
  gate_ready cap (λ _, GetRemoteID ns svc) (gate_as name identity ns svc perms).
Proof.
  intros Er. split.
  - exists []. apply init_inv.
  - destruct (run_ops_deployed (L := LoadBalancer) cap (λ _, GetRemoteID ns svc)
      [OpDiscover 0 [Some to_service] ns svc "10.0.0.1" 8001] CreateRemoteMgr) as (rm & E & H).
    + apply CreateRemoteMgr_deployed.
    + by repeat constructor.
    + unfold gate_as, routes. cbn [connected w_remote set_clients set_tcp set_remote]. by rewrite E.
  - reflexivity.
  - reflexivity.
  - intros id r Hid. change (remotes (routes ns svc) !! id = Some r) in Hid.
    rewrite Er in Hid. apply lookup_singleton_Some in Hid as [<- <-].
    split; [apply not_elem_of_empty|]. split; [done|]. unfold go_len. cbn [recvBuf]. by rewrite length_replicate.
Qed.

Lemma demo_answers : answers (A := ()) RpcBHandler [GUint32 7] [("Success", GBool false); ("Req", GUint32 0)]
  EmptyString [GBool true; GUint32 7].
Proof.
  split; [done|]. intros proc session w s Hs He. exists w, []. split; [done|]. split; [done|].
  split; [by rewrite app_nil_r|]. rewrite Hs. destruct s. cbn in *. by subst.
Qed.

Lemma c2s_call_roundtrip_witness :
  ∃ wc wc3 : CW, w_chans wc3 = w_chans wc ++
    [FuncCalled 5 EmptyString (GMapAny [("Success", GBool true); ("Req", GUint32 7)])] ∧
    gCbMap (w_cb wc3) = delete 1 (gCbMap (w_cb wc)).
Proof.
  destruct (c2s_call_roundtrip (As := ()) cap (λ _, GetRemoteID "ns" "ServiceB") service_proxy false "rpc_b" [GUint32 7] 5 1
    (idle_client of_client) EmptyString (GMapAny [("Success", GBool true); ("Req", GUint32 7)])
    client_world gate_world) as (wc1 & wg1 & id & r & _ & _ & _ & _ & _ & _ & H).
  - split; [discriminate|reflexivity].
  - split; [exists []; apply init_inv|apply not_elem_of_empty| |reflexivity].
    split; [done|]. unfold go_len. cbn [g_recvBuf Gp service_proxy CreateServiceProxy proxy].
    by rewrite length_replicate.
  - apply gate_as_ready. vm_compute. reflexivity.
  - by apply demo_open.
  - vm_compute. discriminate.
  - vm_compute. discriminate.
  - split.
    + intros _. rewrite <- access_error_granted. vm_compute. reflexivity.
    + exists "10.0.0.1:8001". eexists. split; vm_compute; reflexivity.
  - vm_compute. reflexivity.
  - reflexivity.
  - reflexivity.
  - reflexivity.
  - reflexivity.
  - vm_compute. reflexivity.
  - intros i. vm_compute. discriminate.
  - intros i. vm_compute. discriminate.
  - intros i. vm_compute. discriminate.
  - intros i. vm_compute. discriminate.
  - destruct (H service_world 1%positive (idle_client of_gate)) as (ws1 & own & wg2 & g' & wc2 & wc3 & HH).
    + split.
      * by apply demo_open.
      * reflexivity.
      * done.
      * exists RpcBHandler, [GUint32 7], [("I", TUint32)], [("Success", GBool false); ("Req", GUint32 0)], [GBool true; GUint32 7].
        split; [reflexivity|]. split; [reflexivity|]. split; [repeat constructor|]. split; [apply demo_answers|reflexivity].
    + exists client_world, wc3. destruct HH as (_ & _ & _ & _ & _ & _ & H1 & _ & H2). split; [exact H1|exact H2].
Defined.

End CallDemo.

(** The test client, which has a handler of [push_test], the gate and the push
    service of its namespace, with one unconfirmed push to [joe]. *)
Module ConfirmDemo.
Import SdkDemo TestDemo CallDemo PushDemo.

#[local] Existing Instance ref_msgpack.
#[local] Existing Instance GateDemo.map_redis.

Definition push_gate : GW := gate_of namespace "PushService" {[MSG_PUSH_REPLY := true]}.

Definition push_world : PW :=
  connected 1 of_gate
    (init_world (mkGlobalConfig namespace "PushService") SERVER_IDENTITY_SERVICE "10.0.0.3:9000"
      (StopRcpHandlerRegist (from_ok (mkSimpleRpcMgr ∅ ∅ false) (rmgr ← CreateSimpleRpcMgr; regist_all push_handlers rmgr)))
      (mkPushApp ∅ (Some ∅) (Some {[be_encode 12 0 := demo_record]}))).

Lemma safe_push_confirmed_witness :
  ∃ wp1 : PW, w_net wp1 = w_net push_world ∧
    ∃ d1, myMongo (w_app wp1) = Some d1 ∧ unarrived "joe" d1 = ∅.
Proof.
  set (d := {[be_encode 12 0 := demo_record]} : gmap bytes PushRecord).
  destruct (safe_push_confirmed cap (λ _, GetRemoteID namespace "PushService") proxy (be_encode 12 0) namespace "push_test" [GInt32 10; GStr "hello"]
    [GUint32 10; GStr "hello"] [("Arg1", TUint32); ("Arg2", TString)] RpcPushTestHandler 1 1
    (idle_client of_client) (idle_client of_gate) d (update_state d (be_encode 12 0) PUSH_RECORD_STATE_ARRIVED).2
    test_world push_gate push_world) as (g' & wc1 & wc2 & wg1 & id & r & wp1 & _ & _ & _ & _ & _ & _ & _ & _ & Hn & Hd & Hu).
  - split; [discriminate|reflexivity].
  - reflexivity.
  - apply be_encode_bytes.
  - reflexivity.
  - reflexivity.
  - reflexivity.
  - reflexivity.
  - vm_compute. discriminate.
  - vm_compute. discriminate.
  - intros i. vm_compute. discriminate.
  - split; [done|]. unfold go_len. cbn [g_recvBuf proxy]. by rewrite length_replicate.
  - apply not_elem_of_empty.
  - reflexivity.
  - reflexivity.
  - reflexivity.
  - repeat constructor.
  - intros session w _ Ha. by apply push_accepts.
  - apply gate_as_ready. vm_compute. reflexivity.
  - by apply demo_open.
  - split.
    + intros _. rewrite <- access_error_granted. vm_compute. reflexivity.
    + exists "10.0.0.1:8001". eexists. split; vm_compute; reflexivity.
  - by apply demo_open.
  - reflexivity.
  - reflexivity.
  - reflexivity.
  - reflexivity.
  - exists wp1. split; [exact Hn|]. eexists. split; [exact Hd|]. rewrite Hu. vm_compute. reflexivity.
Defined.

End ConfirmDemo.
