(* ===== verification/PushFlow.v ===== *)
(** * A push from a service to a client

    The longest path of the system: a service pushes an rpc to a client; its gate
    forwards the push to the push service, which stores it and sends it to the
    gate at which the client is logged in; that gate sends it to the client, which
    runs the rpc and confirms.  As in [EndToEnd], each process runs on the bytes
    the one before it wrote; [EndToEnd.safe_push_confirmed] follows the
    confirmation back. *)

From S2P Require Import Prelude Utils Wire Msgpack LoadBalancer CallbackMgr RemoteMgr World SimpleRpc TcpServer Gate.
From S2P Require Import System Push ClientSdk FlowCounter TestClient EndToEnd.

Local Open Scope Z_scope.

(** ** The hops *)

Section Service.
  Context {MP : Msgpack} {B A : Type}.

Implicit Types w : World B A.

(** A call without answer sends one request to a connected gate. *)
Lemma RpcCallAsync_sends svc rpc args w :
  ready w → go_len (route_rpc w svc rpc args 0) ≤ MAX_PACKET_SIZE →
  ∃ c w', RpcCallAsync svc rpc args w = (Ok (), w') ∧ gate_conn w c ∧
    w_net w' = w_net w ++ [(c, frame (route_rpc w svc rpc args 0))] ∧ w_cb w' = w_cb w.
Proof.
  intros [Htcp Hcb Hne Hbr] Hlen.
  destruct (balance_client_ok w Htcp Hne) as (id & p & c & l & Eb & Hwf & Hm & Hp & Hc & Hid).
  set (w1 := set_tcp _ w) in Eb. set (w2 := set_nextch (Pos.succ (w_nextch w1)) w1).
  exists (c_conn c), (set_net (w_net w ++ [(c_conn c, frame (route_rpc w svc rpc args 0))]) w2).
  split_and!; [|exists p, c; by rewrite Hid|done|done].
  unfold RpcCallAsync. cbn [RpcCall].
  rewrite (M_bind_ok _ _ _ (Some (EmptyString, GNil))
    (set_net (w_net w ++ [(c_conn c, frame (route_rpc w svc rpc args 0))]) w2)); [done|].
  rewrite (M_bind_ok _ _ _ (w_cfg w) w) by done. fold (route_rpc w svc rpc args 0).
  rewrite (M_bind_ok _ _ _ (frame (route_rpc w svc rpc args 0)) w) by (unfold lift_result; by rewrite MessageEncode_spec).
  rewrite (M_bind_ok _ _ _ _ _ Eb), (M_bind_ok _ _ _ (Some p) w1) by (unfold gets, GetTcpClient; cbn; by rewrite Hp).
  rewrite (M_bind_ok _ _ _ (w_nextch w1) w2), (M_bind_ok _ _ _ () w2) by done.
  rewrite (M_bind_ok _ _ _ c w2) by (unfold deref_client; cbn; by rewrite Hc).
  rewrite (M_bind_ok _ _ _ true (set_net (w_net w ++ [(c_conn c, frame (route_rpc w svc rpc args 0))]) w2)); [done|].
  rewrite MessageSend_ok; [done|done|]. cbn. rewrite Hbr. set_solver.
Qed.

End Service.

Section Hops.
  Context {MP : Msgpack} {R D : Type} {RE : Redis R} {MO : Mongo D}.
  Context (RECV_BUF_MAX_LEN : Z).

Implicit Types wg : World GateHandler (GateApp R).
Implicit Types wp : World PushHandler (PushApp R D).

Definition push_args (cid typ : string) (msg : bytes) : list goval := [GStr cid; GStr typ; GBool true; GBytes msg].

(** The push service, with the gate of the client connected, stores a push under
    [pid]. *)
Record push_ready wp (cid typ : string) (msg : bytes) (key gateAddr clientConnID : string) (gc : Conn)
    (d d1 : D) (pid : bytes) : Prop := {
  pr_call : rpcs (w_rpc wp) !! MSG_G2S_RPC_CALL = Some RpcG2SRpcCallHandler;
  pr_push : rpcs (w_rpc wp) !! MSG_S2P_PUSH = Some (Busi RpcS2PPushHandler);
  pr_key : push_key cid typ = Some key;
  pr_login : logged_in wp key gateAddr clientConnID gc;
  pr_mongo : myMongo (w_app wp) = Some d;
  pr_insert : insert_one d (mkPushRecord cid typ msg PUSH_RECORD_STATE_UNARRIVE) = (Some pid, d1);
  pr_fits : go_len (push_rpc clientConnID pid wp msg) ≤ MAX_PACKET_SIZE;
}.

(** A login does not depend on what a read changes. *)
Lemma logged_in_handling wp key ga cc gc session s p c c' q :
  logged_in wp key ga cc gc → w_clients wp !! p = Some c → c_conn c' = c_conn c →
  logged_in (handling session s (<[p := c']> (w_clients wp)) q wp) key ga cc gc.
Proof.
  intros [Hr Ha Hc (id & p' & cl & Hid & Hp & Hcl & Hcn) Hb] Hpc Hcc. split; [done..| |done].
  exists id, p'. cbn. destruct (decide (p' = p)) as [->|Hne].
  - exists c'. split_and!; [done|done|apply lookup_insert_eq|]. rewrite Hcc. congruence.
  - exists cl. split_and!; [done|done| |done]. by rewrite lookup_insert_ne by done.
Qed.

Lemma push_frame p c cid typ msg key ga cc gc d d1 pid wp :
  RECV_BUF_MAX_LEN < 2 ^ 32 → conn_open RECV_BUF_MAX_LEN wp p c → push_ready wp cid typ msg key ga cc gc d d1 pid →
  let inner := RpcEncode MSG_S2P_PUSH (push_args cid typ msg) in
  args_fit [("ClientID", TString); ("Typ", TString); ("IsSafe", TBool); ("PushMsg", TBytes)]
    (push_args cid typ msg) (push_args cid typ msg) →
  reaches RECV_BUF_MAX_LEN wp MSG_G2S_RPC_CALL [GUint32 0; GBytes inner] [GUint32 0; GBytes inner] RpcG2SRpcCallHandler →
  ∃ wp1, foldM (step RECV_BUF_MAX_LEN)
      [EvRead p (ReadOK (frame (RpcEncode MSG_G2S_RPC_CALL [GUint32 0; GBytes inner]))); pool_event wp MSG_G2S_RPC_CALL]
      wp = Ok wp1 ∧
    w_net wp1 = w_net wp ++ [(gc, frame (push_rpc cc pid wp msg))] ∧ myMongo (w_app wp1) = Some d1.
Proof.
  intros Hmax Ho [Hcall Hpush Hkey Hlog Hd Hins Hfit] inner Hargs Hr.
  destruct (client_frame RECV_BUF_MAX_LEN p c _ _ _ _ wp Hmax Ho Hr) as (c' & fuel & q & Hcn & _ & _ & E).
  set (session := fresh (dom (w_sessions wp))) in *. set (s := mkSession _ _ _) in E.
  pose proof (logged_in_handling wp key ga cc gc session s p c c' q Hlog (co_client _ _ _ _ Ho) Hcn) as Hlog'.
  set (w0 := handling session s _ q wp) in *.
  destruct (RpcEncode_decode MSG_S2P_PUSH _ _ _ eq_refl Hargs) as (rest & Hde & Hfs).
  set (w0' := set_fvc (w_fvc w0 + 1) w0). set (w1 := set_mongo d1 w0').
  assert (RpcS2PPush_Process (mkS2PPushReq cid typ true msg) w0' =
    (Ok (), set_net (w_net wp ++ [(gc, frame (push_rpc cc pid wp msg))]) w1)) as Ep.
  { unfold RpcS2PPush_Process. cbn [h_IsSafe h_ClientID h_Typ h_PushMsg].
    rewrite (M_bind_ok _ _ _ (Some pid) w1)
      by (unfold mongo_insert; change (myMongo (w_app w0')) with (myMongo (w_app wp)); by rewrite Hd, Hins).
    rewrite (PushToGate_ok cid typ key msg pid ga cc gc w1); [done|done| |exact Hfit]. by destruct Hlog'. }
  eexists (pool_done (set_net (w_net wp ++ [(gc, frame (push_rpc cc pid wp msg))]) w1)). split; [|done].
  rewrite E. unfold mbind at 1, M_bind at 1, run_handler. cbn [Process liftW]. unfold RpcG2SRpcCall_Process.
  rewrite (M_bind_ok _ _ _ () w0') by done.
  rewrite (M_bind_ok _ _ _ (EmptyString, GNil) (set_net (w_net wp ++ [(gc, frame (push_rpc cc pid wp msg))]) w1)); [done|].
  unfold rpcHandle. cbn [InnerRpc]. unfold inner. rewrite Hde.
  rewrite (M_bind_ok _ _ _ (Some (Busi RpcS2PPushHandler)) w0') by (unfold gets; do 2 f_equal; exact Hpush).
  unfold decode_req. cbn [GetReqPtr busi_req push_service_sig]. rewrite Hfs.
  rewrite (M_bind_ok _ _ _ [] (set_net (w_net wp ++ [(gc, frame (push_rpc cc pid wp msg))]) w1)); [done|].
  unfold doProcessWithPanicProtect, recovered, push_args.
  destruct fuel; cbn [Process busi_process push_service push_process liftW]; by rewrite Ep.
Qed.

(** The gate of the client, connected to the push service as [r]. *)
Definition p2g_args (cc : string) (pid : bytes) (ns : string) (msg : bytes) : list goval :=
  [GStr cc; GBytes pid; GStr ns; GBytes msg].

Lemma gate_push_frame r cc pid ns msg q cl wg :
  RECV_BUF_MAX_LEN < 2 ^ 32 → remainLen r = 0 → go_len (recvBuf r) = RECV_BUF_MAX_LEN →
  reaches RECV_BUF_MAX_LEN wg MSG_P2G_PUSH (p2g_args cc pid ns msg) (p2g_args cc pid ns msg) (Busi RpcP2GPushHandler) →
  GetTcpClient cc wg = Some q → w_clients wg !! q = Some cl → conn_fd (c_conn cl) ∉ w_broken wg →
  fits MSG_G2C_PUSH [GBytes pid; GStr ns; GBytes msg] →
  ∃ wg1, foldM (step RECV_BUF_MAX_LEN)
      [EvRemoteRead r (ReadOK (frame (RpcEncode MSG_P2G_PUSH (p2g_args cc pid ns msg)))); pool_event wg MSG_P2G_PUSH] wg = Ok wg1 ∧
    w_net wg1 = w_net wg ++ [(c_conn cl, frame (RpcEncode MSG_G2C_PUSH [GBytes pid; GStr ns; GBytes msg]))].
Proof.
  intros Hmax Hrem Hcap Hr Hq Hcl Hb Hfit.
  destruct (remote_frame RECV_BUF_MAX_LEN r _ _ _ _ wg Hmax Hrem Hcap Hr) as (fuel & pool & E).
  set (w0 := handling _ _ _ pool wg) in E.
  pose proof (P2GPush_ok cc pid ns msg q cl w0 Hq Hcl Hb Hfit) as Ep.
  eexists (pool_done _). split; [|].
  - rewrite E. unfold mbind, M_bind, run_handler, p2g_args. cbn [Process busi_process gate gate_process liftW]. rewrite Ep. reflexivity.
  - done.
Qed.

End Hops.

(** ** From the service to the client *)

Section Flow.
  Context {MP : Msgpack} {R D : Type} {RE : Redis R} {MO : Mongo D}.
  Context {Bs As : Type} {U A : Type} {US : HandlerSig U} {CP : ClientProgram U A}.
  Context (RECV_BUF_MAX_LEN : Z) (svc_of : CONN_ID → REMOTE_ID).

Implicit Types ws : World Bs As.
Implicit Types wg wk : World GateHandler (GateApp R).
Implicit Types wp : World PushHandler (PushApp R D).
Implicit Types wc : World (SdkHandler U) A.

(** The client is connected to the gate [wk] on the connection it logged in on,
    and that gate to the push service as [r]. *)
Record push_target wk (r : Remote) (cc : string) (q : positive) (cl : TcpClient) : Prop := {
  pt_handler : rpcs (w_rpc wk) !! MSG_P2G_PUSH = Some (Busi RpcP2GPushHandler);
  pt_idle : remainLen r = 0 ∧ go_len (recvBuf r) = RECV_BUF_MAX_LEN;
  pt_client : GetTcpClient cc wk = Some q ∧ w_clients wk !! q = Some cl;
  pt_up : conn_fd (c_conn cl) ∉ w_broken wk;
}.

(** The client accepts the pushed rpc. *)
Record accepts wc (g : GateProxy) (name : string) (args : list goval) : Prop := {
  ac_idle : idle_proxy RECV_BUF_MAX_LEN g;
  ac_up : conn_fd (g_conn g) ∉ w_broken wc;
  ac_push : rpcs (w_rpc wc) !! MSG_G2C_PUSH = Some (Busi SdkPushHandler);
  ac_user : ∃ u fields vals, rpcs (w_rpc wc) !! name = Some (Busi (User u)) ∧ busi_req u = Some fields ∧
    args_fit fields args vals ∧
    ∀ session w, rpcs (w_rpc w) = rpcs (w_rpc wc) → w_app w = w_app wc → ∃ rsp w1,
      user_process u session vals (zero_rsp (Busi (User u)), w) = (Ok (), (rsp, w1)) ∧
      w_sessions w1 = w_sessions w ∧ w_broken w1 = w_broken w ∧ w_net w1 = w_net w;
}.

(** The messages of the push are short enough to be sent and read back. *)
Record push_fits ws wp (cid typ name : string) (msg pid : bytes) (cc : string) : Prop := {
  pf_cid : short_string cid = true;
  pf_typ : short_string typ = true;
  pf_name : short_string name = true;
  pf_conn : short_string cc = true;
  pf_ns : short_string (Namespace (w_cfg ws)) = true ∧ short_string (Namespace (w_cfg wp)) = true;
  pf_msg : short msg = true ∧ short (RpcEncode MSG_S2P_PUSH (push_args cid typ msg)) = true;
  pf_route : go_len (route_rpc ws "PushService" MSG_S2P_PUSH (push_args cid typ msg) 0) ≤ MAX_PACKET_SIZE;
  pf_call : ∀ i, fits MSG_G2S_RPC_CALL [GUint32 i; GBytes (RpcEncode MSG_S2P_PUSH (push_args cid typ msg))];
  pf_push : fits MSG_G2C_PUSH [GBytes pid; GStr (Namespace (w_cfg wp)); GBytes msg];
  pf_reply : fits MSG_C2G_RPC_ROUTE (confirmation pid (Namespace (w_cfg wp)));
}.

Lemma stored_unarrived cid typ msg pid (d d1 : D) :
  let rec := mkPushRecord cid typ msg PUSH_RECORD_STATE_UNARRIVE in
  insert_one d rec = (Some pid, d1) → unarrived cid d1 = <[pid := rec]> (unarrived cid d).
Proof.
  intros rec (_ & _ & E)%insert_one_ok. unfold unarrived. rewrite E. by apply map_filter_insert_True.
Qed.

(** The gate of the client reads what the push service sent it. *)
Lemma push_reaches cc pid ns msg wk :
  buffers_fit RECV_BUF_MAX_LEN → rpcs (w_rpc wk) !! MSG_P2G_PUSH = Some (Busi RpcP2GPushHandler) →
  short_string cc = true → short pid = true → Forall is_byte pid → short_string ns = true → short msg = true →
  Forall is_byte msg → fits MSG_P2G_PUSH (p2g_args cc pid ns msg) →
  reaches RECV_BUF_MAX_LEN wk MSG_P2G_PUSH (p2g_args cc pid ns msg) (p2g_args cc pid ns msg) (Busi RpcP2GPushHandler).
Proof.
  intros. split; try done.
  - by intros [[=]|[=]].
  - eexists. split; [done|]. repeat constructor; cbn [snd]; auto using coerce_string, coerce_bytes.
  - by apply fits_buffer.
Qed.

(** C2 A safe push, from the service to the client.  When a service pushes an rpc
    to a client that is logged in at some gate, then, each process reading the
    bytes the one before it wrote: the service sends one request to a gate it is
    connected to; that gate forwards it, once, to an instance of the push service;
    the push service stores the push under a new id, as not arrived, and sends it,
    once, to the gate the client is logged in at; that gate sends it, once, to
    the connection the client logged in on; and the client, whose handler accepts
    the rpc, sends one confirmation of this id back.  What is stored keeps the
    push among those that will be sent again until that confirmation arrives. *)
Theorem s2c_safe_push (cid typ name : string) (args : list goval) (key ga cc : string) (gc : Conn) (d d1 : D)
    (pid : bytes) (p pp q : positive) (c cp cl : TcpClient) (rp : Remote) (g : GateProxy) ws wg wp wk wc :
  let msg := RpcEncode name args in
  let inner := RpcEncode MSG_S2P_PUSH (push_args cid typ msg) in
  let request := route_rpc ws "PushService" MSG_S2P_PUSH (push_args cid typ msg) 0 in
  let ns := Namespace (w_cfg wp) in
  buffers_fit RECV_BUF_MAX_LEN → push_fits ws wp cid typ name msg pid cc → Forall is_byte pid →
  (* the service and its gate *)
  ready ws → gate_ready RECV_BUF_MAX_LEN svc_of wg → conn_open RECV_BUF_MAX_LEN wg p c →
  routable wg c (mkRouteReq (Namespace (w_cfg ws)) "PushService" 0 false inner) →
  (* the push service, to which that gate is connected *)
  conn_open RECV_BUF_MAX_LEN wp pp cp → push_ready wp cid typ msg key ga cc gc d d1 pid →
  (* the gate of the client and the client *)
  push_target wk rp cc q cl → accepts wc g name args →
  ∃ s ws1 wg1 id r wp1 wk1 g' wc1 wc2,
    PushSafe cid typ name args ws = (Ok (), ws1) ∧ gate_conn ws s ∧ w_net ws1 = w_net ws ++ [(s, frame request)] ∧
    foldM (step RECV_BUF_MAX_LEN) [EvRead p (ReadOK (frame request)); pool_event wg MSG_C2G_RPC_ROUTE] wg = Ok wg1 ∧
    remotes (w_remote wg) !! id = Some r ∧ RemoteMgr.id r = GetRemoteID (Namespace (w_cfg ws)) "PushService" ∧
    w_net wg1 = w_net wg ++ [(rconn r, frame (RpcEncode MSG_G2S_RPC_CALL [GUint32 0; GBytes inner]))] ∧
    foldM (step RECV_BUF_MAX_LEN)
      [EvRead pp (ReadOK (frame (RpcEncode MSG_G2S_RPC_CALL [GUint32 0; GBytes inner]))); pool_event wp MSG_G2S_RPC_CALL]
      wp = Ok wp1 ∧
    w_net wp1 = w_net wp ++ [(gc, frame (RpcEncode MSG_P2G_PUSH (p2g_args cc pid ns msg)))] ∧
    myMongo (w_app wp1) = Some d1 ∧
    unarrived cid d1 = <[pid := mkPushRecord cid typ msg PUSH_RECORD_STATE_UNARRIVE]> (unarrived cid d) ∧
    foldM (step RECV_BUF_MAX_LEN)
      [EvRemoteRead rp (ReadOK (frame (RpcEncode MSG_P2G_PUSH (p2g_args cc pid ns msg)))); pool_event wk MSG_P2G_PUSH] wk
      = Ok wk1 ∧
    w_net wk1 = w_net wk ++ [(c_conn cl, frame (RpcEncode MSG_G2C_PUSH [GBytes pid; GStr ns; GBytes msg]))] ∧
    GateProxy_HandleRead_iter RECV_BUF_MAX_LEN g
      (Some (frame (RpcEncode MSG_G2C_PUSH [GBytes pid; GStr ns; GBytes msg]))) wc = (Ok (true, g'), wc1) ∧
    worker_step (length (taskCh (w_pool wc))) wc1 = (Ok (), wc2) ∧
    w_net wc2 = w_net wc ++ [(g_conn g, frame (RpcEncode MSG_C2G_RPC_ROUTE (confirmation pid ns)))].
Proof.
  intros msg inner request ns Hbuf Hpf Hpb Hs Hgr Hop Hrt Hopp Hpr Hpt Hac.
  destruct Hpf as [Hcid Htyp Hname Hcc [Hns1 Hns2] [Hmsg Hinner] Hroute Hcall Hpush Hreply].
  destruct Hac as [Hidle Hup Hsdk (u & fields & vals & Hu & Hreq & Ha & Hproc)].
  pose proof Hpr as [Hc1 Hc2 _ _ _ Hins Hf].
  assert (length pid = 12%nat) as Hlen by apply (insert_one_ok _ _ _ _ Hins).
  assert (short pid = true) as Hsp by (unfold short, go_len; by rewrite Hlen).
  pose proof (RpcEncode_bytes name args : Forall is_byte msg) as Hmb.
  destruct (RpcCallAsync_sends "PushService" MSG_S2P_PUSH (push_args cid typ msg) ws Hs Hroute)
    as (s & ws1 & E1 & Hsg & Hn1 & _).
  set (req := mkRouteReq (Namespace (w_cfg ws)) "PushService" 0 false inner) in *.
  destruct (gate_request RECV_BUF_MAX_LEN svc_of p c req _ wg (proj2 Hbuf) Hgr Hop Hrt
    (route_reaches _ req (GUint32 0) wg Hbuf (gr_route _ _ _ Hgr) Hns1 eq_refl eq_refl Hinner
      (RpcEncode_bytes _ _) Hroute) Hcall) as (id & r & grid & wg1 & Hid & Hsvc & E2 & Hn2 & Hz & _).
  rewrite (Hz eq_refl) in Hn2.
  destruct (push_frame RECV_BUF_MAX_LEN pp cp cid typ msg key ga cc gc d d1 pid wp (proj2 Hbuf) Hopp Hpr)
    as (wp1 & E3 & Hn3 & Hm3).
  { repeat constructor; cbn [snd]; auto using coerce_string, coerce_bytes. }
  { apply (call_reaches _ false); try done. apply RpcEncode_bytes. }
  destruct Hpt as [Hh [Hrem Hcap] [Hq Hcl] Hub].
  destruct (gate_push_frame RECV_BUF_MAX_LEN rp cc pid ns msg q cl wk (proj2 Hbuf) Hrem Hcap) as (wk1 & E4 & Hn4); try done.
  { by apply push_reaches. }
  destruct (client_push RECV_BUF_MAX_LEN g pid ns name args vals fields u wc) as (g' & wc1 & wc2 & E5 & E6 & Hn5); try done.
  { by destruct pid. }
  { repeat constructor; cbn [snd]; auto using coerce_string, coerce_bytes. }
  exists s, ws1, wg1, id, r, wp1, wk1, g', wc1, wc2. split_and!; try done. by apply stored_unarrived.
Qed.

End Flow.

(** ** Witness

    Service B, behind a service gate, pushes to [joe], who runs the test client
    and is logged in at the client gate. *)
Module PushFlowDemo.
Import SdkDemo TestDemo CallDemo PushDemo.

#[local] Existing Instance ref_msgpack.
#[local] Existing Instance GateDemo.map_redis.

(** The push service with the service gate and the client gate connected. *)
Definition of_client_gate : Conn := mkConn 2 "10.0.0.8:42000".

Definition push_world : PW :=
  let w := init_world (mkGlobalConfig "ns" "PushService") SERVER_IDENTITY_SERVICE "10.0.0.3:9000"
             (StopRcpHandlerRegist (from_ok (mkSimpleRpcMgr ∅ ∅ false)
               (rmgr ← CreateSimpleRpcMgr; regist_all push_handlers rmgr)))
             (mkPushApp {["10.0.0.8:5000" := GetConnID of_client_gate]}
                (Some {["c_joe" := "10.0.0.8:5000/1.2.3.4:5"]}) (Some ∅)) in
  set_clients {[1%positive := idle_client of_gate; 2%positive := idle_client of_client_gate]}
    (set_tcp (mkTcpServer {[GetConnID of_gate := 1%positive; GetConnID of_client_gate := 2%positive]} false
               (bal_add (bal_add bal_new (GetConnID of_gate)).2 (GetConnID of_client_gate)).2 "10.0.0.3:9000") w).

Definition to_push_service : Remote := mkRemote (GetRemoteID "ns" "PushService") to_service (replicate (Z.to_nat cap) 0) 0 0.

Definition push_args_demo : list goval := [GInt32 10; GStr "hello"].

Lemma s2c_safe_push_witness :
  ∃ (wp1 : PW) d1 wc2, myMongo (w_app wp1) = Some d1 ∧
    unarrived "joe" d1 = {[be_encode 12 0 := mkPushRecord "joe" "client" (RpcEncode "push_test" push_args_demo) 0]} ∧
    w_net (B := SdkHandler TestHandler) (A := TestApp) wc2 =
      [(to_gate, frame (RpcEncode MSG_C2G_RPC_ROUTE (confirmation (be_encode 12 0) "ns")))].
Proof.
  destruct (s2c_safe_push (R := gmap string string) (D := gmap bytes PushRecord) cap (λ _, GetRemoteID "ns" "PushService")
    "joe" "client" "push_test" push_args_demo "c_joe" "10.0.0.8:5000" "1.2.3.4:5" of_client_gate ∅
    {[be_encode 12 0 := mkPushRecord "joe" "client" (RpcEncode "push_test" push_args_demo) 0]} (be_encode 12 0) 1 1 1
    (idle_client of_client) (idle_client of_gate) (idle_client of_client) to_push_service proxy
    (ServiceB.demo_world TcpClientState_OK) (service_gate "ns" "PushService") push_world
    (gate_of "ns" "PushService" ∅) test_world)
    as (s & ws1 & wg1 & id & r & wp1 & wk1 & g' & wc1 & wc2 & _ & _ & _ & _ & _ & _ & _ & _ & _ & Hd & Hu & _ & _ & _ & _ & Hn).
  - split; [discriminate|reflexivity].
  - split; [reflexivity..|split; reflexivity|split; reflexivity| | | |]; try intros i; vm_compute; discriminate.
  - apply be_encode_bytes.
  - apply ServiceB.demo_ready.
  - apply gate_as_ready. vm_compute. reflexivity.
  - by apply demo_open.
  - split; [discriminate|]. exists "10.0.0.1:8001". eexists. split; vm_compute; reflexivity.
  - split; [reflexivity|reflexivity|done|apply idle_client_buf|apply not_elem_of_empty].
  - split; [reflexivity|reflexivity|reflexivity| |reflexivity|reflexivity|vm_compute; discriminate].
    split; [eexists; split; reflexivity|reflexivity|reflexivity| |apply not_elem_of_empty].
    eexists _, _, _. split_and!; reflexivity.
  - split; [reflexivity| |split; reflexivity|apply not_elem_of_empty].
    split; [done|]. unfold go_len, to_push_service. cbn [recvBuf]. by rewrite length_replicate.
  - split; [|apply not_elem_of_empty|reflexivity|].
    + split; [done|]. unfold go_len. cbn [g_recvBuf proxy]. by rewrite length_replicate.
    + exists RpcPushTestHandler, [("Arg1", TUint32); ("Arg2", TString)], [GUint32 10; GStr "hello"].
      split; [reflexivity|]. split; [reflexivity|]. split; [repeat constructor|]. intros session w _ Ha. by apply push_accepts.
  - exists wp1. eexists. exists wc2. split; [exact Hd|]. split; [|exact Hn]. rewrite Hu. reflexivity.
Defined.

End PushFlowDemo.
